(* ===== verification/_CoqProject ===== *)
-Q . S2P
Prelude.v
GoStrings.v
GoPath.v
Json.v
Clock.v
Conflict.v
ConflictProps.v
Hashing.v
Chunking.v
ChunkingProps.v
Database.v
DatabaseProps.v
Migrations.v
Filesystem.v
FilesystemProps.v
Messages.v
State.v
Compression.v
Configuration.v
Encryption.v
Handshake.v
Keychain.v
Connection.v
Transport.v
Dialing.v
FlowControl.v
Discovery.v
Operation.v
Engine.v
EngineProps.v
EngineBehaviour.v
EngineTasks.v
Lifecycle.v
Convergence.v
Goroutines.v
InMemory.v
Handler.v
StateProps.v
Messenger.v
MessengerProps.v
DialingProps.v
DialingRace.v
Program.v
Monitoring.v
StatusPage.v
Telemetry.v
Startup.v
Loops.v
DeliveryProps.v
Propagation.v
Replication.v
Node.v
