(* ===== verification/Prelude.v ===== *)
(** * A verified model of p2p-folder-sync

    p2p-folder-sync keeps a folder the same on several machines.  Each machine
    runs a node: a watcher reports changes of the folder to the sync engine, the
    engine records them in a SQLite database and in an operation log, stamps them
    with a vector clock and hands them to the messenger, which sends them,
    compressed, chunked and encrypted, over TCP or QUIC; the message handler of
    the receiving node gives them to its engine, which resolves conflicts, writes
    the file and records it.  The code is under src/internal, its wiring in
    src/cmd/p2p-sync/main.go.

    ** How the code is modelled

    A Go function is a Rocq function of the same name.  It ends in an [outcome]
    (below): a value, an error, or a run-time panic.  A method that changes its
    receiver is a [GoM] computation over a record of the receiver's fields; an
    error does not undo what was written before it.  [int] and [int64] are
    integers with their 64-bit wrap-around written out ([+!], [wrap64]) where the
    code computes with values it does not control, times are nanoseconds and
    passed as arguments, maps are [gmap], slices are lists.  An error is the text
    of its format string.  A lock and the code it guards are one step, so an
    interleaving of goroutines is a sequence of steps; where the code takes a lock
    twice, or takes none (Goroutines, DialingRace, Lifecycle), the steps between
    are kept apart.  Code that is not in the
    repository is a parameter with its documented behaviour as a class or a
    hypothesis: BLAKE3 ([blake3]), AES-GCM and HKDF (class [authentic] of
    Encryption.v), the compression libraries (class [lawful] of Compression.v),
    the printer and parser of JSON texts ([json_text], [json_value]).  The
    operating system is the store [Filesystem.OS], in which every call consumes a
    fate: it succeeds, fails, or kills the process there.

    ** The files

    - Prelude: outcomes, [GoM], machine integers, times, lists, automation.
      GoStrings, GoPath, Json: the parts of the Go library that the code uses
      (strings, bytes and hexadecimal; path/filepath; encoding/json, base64).
    - Clock (sync/vectorclock.go): [Compare] decides the causal order, [Merge] is
      the least upper bound, [Increment] moves up.
    - Conflict, ConflictProps (sync/conflict): the causally later operation wins;
      two peers agree under last-write-wins; the text merge keeps the second text
      and does not converge.
    - Hashing (hashing), Chunking, ChunkingProps (chunking): a file is restored
      from its chunks in any order, directly and through the chunk manager.
    - Database, DatabaseProps (database): the tables and every statement on
      them; integrity under every sequence of statements; the operation log
      refines an append-only list; compaction keeps what is unacknowledged.
      Migrations (database/migrations.go): none is registered, and the tables stay
      as they are.
    - Filesystem, FilesystemProps (filesystem): atomic writes under failing and
      killed system calls, extended attributes, rename detection, the debouncing
      watcher.
    - Messages (network/messages): the messages and their codecs; the round trip.
      Compression, Encryption (compression, crypto/encryption.go): round trips.
    - Connection (network/connection), FlowControl (network/flowcontrol): the
      connection table, health check, backoff, heartbeats; rate limiter, slots.
    - Transport (network/transport): [TCP] is the message loop of a connection
      with the handshake, [FallbackTransport] the choice of the protocol, [Net] a
      transport as its callers see it.  Dialing (quic.go, the dialling half of
      tcp.go): the QUIC transport; making connections, with the answers of the
      network as arguments.  DialingProps: the QUIC handshake ends with one key on
      both sides; a first dial over TCP locks its mutex twice; a broken connection
      is made again without a key.  DialingRace: two nodes that dial each other.
    - Operation (sync/operation.go, queue.go), Engine (sync/engine.go): the queue;
      every handler of the engine.  [Engine.step] is the step relation of a
      running engine: an event is handled, the fates of the coming system calls
      are chosen, the program is restarted.  EngineProps: the log never loses an
      operation, the clock never goes back, by induction over the steps.
      EngineBehaviour: what the handlers do on local edits and received versions,
      what a crash in the middle leaves, what is replayed after it.  EngineTasks:
      the goroutines of incoming operations come to an end in every schedule.
      Lifecycle: Start, Stop, the loops, and the debounce timers that can send on
      a channel Stop has closed.
    - Convergence: receivers of causally ordered versions hold the last one in the
      end, in whatever order they receive them.
    - Goroutines: the goroutine of an incoming operation call by call.  One that is
      not interrupted is the handler of Engine; two for one file can leave the
      older version in the newer one's place; what every interleaving keeps.
    - InMemory (sync/messenger.go): the messenger of the tests.
    - Handler (network/handler.go), Messenger (network/messenger.go): the two
      ends of a delivery.  MessengerProps: a file sent whole arrives as it was
      sent; what renames, empty files, failure acknowledgments and malformed
      messages come to.  DeliveryProps: a file sent in chunks is delivered exactly
      once; what a duplicate does to it; retries.
    - Propagation: the whole path, from an edit on one node through engine,
      messenger and wire to messenger, handler and engine of another, which holds
      the edit in the end; and the types of the messages on the way.
    - Replication: the edits of one writer, each sent over the network, reach a
      reader in any order, which holds the last one in the end.
    - State, StateProps (state): declarations, reconciliation, load balancing;
      one round of reconciliation is enough, and the handler asks for the files
      that reconciliation finds.
    - Handshake (crypto/keyexchange.go, auth.go, handshake.go), Keychain
      (crypto/keychain.go): the key exchange with challenges, which ends with one
      key on both sides and which a reflected challenge deceives; the table of keys.
    - Discovery (network/discovery): the registry, the UDP messages, the mDNS
      entries; who knows whom after a broadcast, and how often callbacks run.
    - Configuration (config): defaults, file, environment, validation; what loads
      is what the components accept.  Program (cmd/p2p-sync/main.go): the settings
      handed on, the peers dialled, the transport, the shutdown.
    - Monitoring (monitoring/metrics.go): the counters and their balance.
      StatusPage (monitoring/server.go): what is served on which path.  Telemetry
      (observability): logger, metrics and tracing.
    - Startup: [main] as one computation, for all answers of its surroundings: which
      transport each part holds, what is opened, deferred and closed.
    - Loops: accepting connections and streams, the whole loop of a QUIC stream,
      the tickers, starting and stopping the discovery.
    - Node: one node on a TCP connection, transport, messenger and handler
      together, and the exchange between two of them.

    ** Bounds and fuel

    Loops over data are structural but for [GoStrings.TrimLeft], which counts the
    bytes of the string down (it drops at least one at a time); [send_attempts]
    counts [retryCount] down, [FlowControl.Wait] and [Node.exchange] take the list
    of the times at which something happens.  Sizes at which 64-bit arithmetic or
    an allocation fails are hypotheses of the round trips ([two63], [maxAlloc]).
    A call that waits for ever is a value of its own ([TCPDial.Blocks]).
    Eleven calls are enough for [Goroutine.alone], by the measure [remaining].

    ** Not modelled

    Sockets, TLS and the library of QUIC; the times at which tickers fire and the
    scheduler: an argument says when and in which order rounds and goroutines run.
    The watcher's error channel; the listening socket and the response headers of
    the status page; the delivery of signals.  Debug output is
    dropped.  JSON texts are the trees they denote, strings valid UTF-8, maps are
    iterated in the order of [gmap] except where a theorem covers every order.

    ** Next

    Edits on both sides at once and restarts in the theorem of Replication; chunked
    files on the whole path; the watcher's handlers and renames call by call, as
    Goroutines has the incoming operations; the goroutines of the TCP transport as
    an interleaving over its mutexes, as DialingRace has those of QUIC. *)

From stdpp Require Export base gmap strings list fin_maps sorting.
From Stdlib Require Export ZArith Lia.
From Stdlib Require Import Strings.String Strings.Byte.

#[global] Open Scope Z_scope.

Declare Scope go_scope.
Delimit Scope go_scope with go.
Open Scope go_scope.

(** ** Go values *)

(** [[]byte] is a list of bytes, [string] is Rocq's byte string. *)
Abbreviation bytes := (list Byte.byte).

#[export] Instance byte_eq_dec : EqDecision Byte.byte := Byte.byte_eq_dec.

(** An [error] is represented by the fixed text of its format string; the
    interpolated arguments are dropped, a wrapped error is [wrap ctx err]. *)
Abbreviation error := string (only parsing).

Definition wrap (ctx err : error) : error := (ctx +:+ ": " +:+ err)%string.

(** The three ways a Go call ends: a value, an error value, a run-time panic. *)
Inductive outcome (A : Type) : Type :=
  | Ok (a : A)
  | Err (e : error)
  | Panic (why : string).
Arguments Ok {A} a.
Arguments Err {A} e.
Arguments Panic {A} why.

#[export] Instance outcome_ret : MRet outcome := λ A a, Ok a.
#[export] Instance outcome_bind : MBind outcome := λ A B k m,
  match m with Ok a => k a | Err e => Err e | Panic w => Panic w end.
#[export] Instance outcome_fmap : FMap outcome := λ A B f m,
  match m with Ok a => Ok (f a) | Err e => Err e | Panic w => Panic w end.

(** [fmt.Errorf("ctx: %w", err)] on the error branch only. *)
Definition wrapping {A} (ctx : error) (m : outcome A) : outcome A :=
  match m with Err e => Err (wrap ctx e) | _ => m end.

Definition is_ok {A} (m : outcome A) : bool :=
  match m with Ok _ => true | _ => false end.

(** Go functions over a mutable state: errors do not roll the state back. *)
Definition GoM (S A : Type) : Type := S → outcome A * S.

#[export] Instance gom_ret S : MRet (GoM S) := λ A a s, (Ok a, s).
#[export] Instance gom_bind S : MBind (GoM S) := λ A B k m s,
  match m s with
  | (Ok a, s') => k a s'
  | (Err e, s') => (Err e, s')
  | (Panic w, s') => (Panic w, s')
  end.

Definition gfail {S A} (e : error) : GoM S A := λ s, (Err e, s).
Definition gpanic {S A} (w : string) : GoM S A := λ s, (Panic w, s).
Definition gget {S} : GoM S S := λ s, (Ok s, s).
Definition gmodify {S} (f : S → S) : GoM S unit := λ s, (Ok tt, f s).
Definition glift {S A} (m : outcome A) : GoM S A := λ s, (m, s).
(** [v, err := f()] with [err] inspected by the caller. *)
Definition gtry {S A} (m : GoM S A) : GoM S (A + error) := λ s,
  match m s with
  | (Ok a, s') => (Ok (inl a), s')
  | (Err e, s') => (Ok (inr e), s')
  | (Panic w, s') => (Panic w, s')
  end.

(** [if err := m; err != nil { return fmt.Errorf("ctx: %w", err) }]. *)
Definition gwrap {S A} (ctx : error) (m : GoM S A) : GoM S A := λ s,
  match m s with
  | (Err e, s') => (Err (wrap ctx e), s')
  | r => r
  end.

(** ** Machine integers: [int] and [int64] are 64-bit two's complement *)
Definition two63 : Z := 9223372036854775808.
Definition two64 : Z := 18446744073709551616.
Definition wrap64 (z : Z) : Z := (z + two63) mod two64 - two63.
Definition in64 (z : Z) : Prop := - two63 ≤ z < two63.
Definition wrapu32 (z : Z) : Z := z mod 4294967296.

Notation "a +! b" := (wrap64 (a + b)) (at level 50, left associativity) : go_scope.
Notation "a -! b" := (wrap64 (a - b)) (at level 50, left associativity) : go_scope.

(** [len] of a slice, as a Go [int]. *)
Abbreviation zlen l := (Z.of_nat (Datatypes.length l)).

(** ** Time: [time.Time] in nanoseconds since the Unix epoch *)
Abbreviation time := Z (only parsing).
Abbreviation duration := Z (only parsing).
Definition nano_per_sec : Z := 1000000000.
Definition second : duration := nano_per_sec.
(** [time.Time{}], the first of January of year 1. *)
Definition zero_time : time := -62135596800 * nano_per_sec.
Definition unix_sec (t : time) : Z := t / nano_per_sec.
Definition unix_milli (t : time) : Z := t / 1000000.
Definition of_unix (s : Z) : time := s * nano_per_sec.
Definition of_unix_milli (ms : Z) : time := ms * 1000000.
(** [t.Sub(u)] saturates at the bounds of [time.Duration]. *)
Definition time_sub (t u : time) : duration :=
  Z.max (- two63) (Z.min (two63 - 1) (t - u)).

(** ** [float64]: an integer rounded to the nearest float, ties to even *)
Definition round_f64 (z : Z) : Z :=
  let a := Z.abs z in
  if a <? 9007199254740992 then z
  else
    let u := Z.shiftl 1 (Z.log2 a - 52) in
    let q := a / u in
    let r := a mod u in
    let q' := if (u <? 2 * r) || ((2 * r =? u) && Z.odd q) then q + 1 else q in
    Z.sgn z * (q' * u).

(** [int64(f)]; out of range the hardware gives the least integer. *)
Definition f64_to_int64 (f : Z) : Z :=
  if (- two63 <=? f) && (f <? two63) then f else - two63.

(** ** Maps: a missing key reads as the zero value *)
Definition map_get {V} (zero : V) (m : gmap string V) (k : string) : V :=
  default zero (m !! k).

(** ** Lists: a test that holds of every element, or of none *)
Lemma filter_all {A} (P : A → bool) l : (∀ x, x ∈ l → P x = true) → List.filter P l = l.
Proof.
  induction l as [|x l IH]; intros H; [done|]. simpl. rewrite (H x), IH by set_solver. done.
Qed.

Lemma filter_none {A} (P : A → bool) l : (∀ x, x ∈ l → P x = false) → List.filter P l = [].
Proof.
  induction l as [|x l IH]; intros H; [done|]. simpl. rewrite (H x), IH by set_solver. done.
Qed.

(** ** Automation *)
Create HintDb go.
Create Rewrite HintDb go.

Ltac go_simpl :=
  repeat match goal with
  | H : Ok _ = Ok _ |- _ => injection H as H; subst
  | H : Err _ = Err _ |- _ => injection H as H; subst
  | H : Ok _ = Err _ |- _ => discriminate H
  | H : Err _ = Ok _ |- _ => discriminate H
  | H : Panic _ = Ok _ |- _ => discriminate H
  | H : Ok _ = Panic _ |- _ => discriminate H
  | H : Err _ = Panic _ |- _ => discriminate H
  | H : Panic _ = Err _ |- _ => discriminate H
  end.

(** Splits every boolean comparison and [decide] in sight, then uses [lia]. *)
Ltac zcases :=
  repeat (case_decide || case_match);
  repeat match goal with
  | H : (_ <? _) = true |- _ => apply Z.ltb_lt in H
  | H : (_ <? _) = false |- _ => apply Z.ltb_ge in H
  | H : (_ <=? _) = true |- _ => apply Z.leb_le in H
  | H : (_ <=? _) = false |- _ => apply Z.leb_gt in H
  | H : (_ =? _) = true |- _ => apply Z.eqb_eq in H
  | H : (_ =? _) = false |- _ => apply Z.eqb_neq in H
  end.

Lemma wrap64_id z : in64 z → wrap64 z = z.
Proof.
  unfold wrap64, in64, two63, two64. intros H. rewrite Z.mod_small; lia.
Qed.

Lemma wrap64_range z : in64 (wrap64 z).
Proof.
  unfold wrap64, in64. pose proof (Z.mod_pos_bound (z + two63) two64).
  unfold two63, two64 in *. lia.
Qed.

#[export] Hint Resolve wrap64_id wrap64_range : go.

(** Integers below 2^53 are exact floats. *)
Definition exact_f64 (z : Z) : Prop := Z.abs z < 9007199254740992.

Lemma round_f64_exact z : exact_f64 z → round_f64 z = z.
Proof. unfold round_f64, exact_f64. intros H. by rewrite (proj2 (Z.ltb_lt _ _) H). Qed.

Lemma f64_roundtrip z : exact_f64 z → f64_to_int64 (round_f64 z) = z.
Proof.
  intros H. rewrite round_f64_exact by done. unfold f64_to_int64, exact_f64, two63 in *.
  by replace (_ && _) with true by lia.
Qed.

(** ** Hoare triples: a value, an error, a panic *)
Definition triple {S A} (P : S → Prop) (m : GoM S A) (Q : A → S → Prop) (E D : S → Prop) : Prop :=
  ∀ s, P s → match m s with
             | (Ok a, s') => Q a s'
             | (Err _, s') => E s'
             | (Panic _, s') => D s'
             end.

Lemma triple_bind {S A B} P (m : GoM S A) R (k : A → GoM S B) Q E D :
  triple P m R E D → (∀ a, triple (R a) (k a) Q E D) → triple P (m ≫= k) Q E D.
Proof.
  intros Hm Hk s Hs. specialize (Hm s Hs). unfold mbind, gom_bind.
  destruct (m s) as [[a|e|w] s']; [|done..]. by apply Hk.
Qed.

Lemma triple_seq {S A B} P (m : GoM S A) R (k : GoM S B) Q E D :
  triple P m (λ _, R) E D → triple R k Q E D → triple P (m;; k) Q E D.
Proof. intros Hm Hk. by eapply triple_bind. Qed.

Lemma triple_weaken {S A} (P' P : S → Prop) (m : GoM S A) (Q' Q : A → S → Prop) (E' E D' D : S → Prop) :
  triple P' m Q' E' D' → (∀ s, P s → P' s) → (∀ a s, Q' a s → Q a s) →
  (∀ s, E' s → E s) → (∀ s, D' s → D s) → triple P m Q E D.
Proof.
  intros H HP HQ HE HD s Hs. specialize (H s (HP s Hs)). destruct (m s) as [[?|?|?] ?]; auto.
Qed.

Lemma triple_ret {S A} (a : A) (Q : A → S → Prop) E D : triple (Q a) (mret a) Q E D.
Proof. by intros s Hs. Qed.

Lemma gbind_Ok {S A B} (m : GoM S A) (k : A → GoM S B) s a s' : m s = (Ok a, s') → (m ≫= k) s = k a s'.
Proof. intros H. unfold mbind, gom_bind. by rewrite H. Qed.

Lemma glift_Ok {S A B} (a : A) (k : A → GoM S B) s : (glift (Ok a) ≫= k) s = k a s.
Proof. done. Qed.
