(* ===== verification/GoStrings.v ===== *)
(** * The Go standard library on strings and bytes, as far as the source uses it

    [strings.Split], [Join], [SplitN(_, _, 2)], [TrimSpace], [HasPrefix],
    [Contains], [ToLower], the conversions between [string] and [[]byte],
    [hex.EncodeToString], [hex.DecodeString] (the validity test) and
    [fmt.Sprintf("%d")].  A Go string is a sequence of bytes. *)

From stdpp Require Import pretty.
From Stdlib Require Import Strings.Byte Strings.Ascii Strings.String.
From S2P Require Import Prelude.

(** ** Conversions *)
Definition to_bytes (s : string) : bytes := list_byte_of_string s.
Definition of_bytes (b : bytes) : string := string_of_list_byte b.

Lemma of_to_bytes s : of_bytes (to_bytes s) = s.
Proof. apply string_of_list_byte_of_string. Qed.
Lemma to_of_bytes b : to_bytes (of_bytes b) = b.
Proof. apply list_byte_of_string_of_list_byte. Qed.

#[export] Instance to_bytes_inj : Inj eq eq to_bytes.
Proof. intros s1 s2 H. by rewrite <- (of_to_bytes s1), H, of_to_bytes. Qed.
#[export] Instance of_bytes_inj : Inj eq eq of_bytes.
Proof. intros s1 s2 H. by rewrite <- (to_of_bytes s1), H, to_of_bytes. Qed.

Definition sprint_d (z : Z) : string := pretty z.

(** The empty string test of the source, [s == ""]. *)
Definition is_empty (s : string) : bool := match s with EmptyString => true | _ => false end.

(** ** Split and Join on a one-byte separator *)
Fixpoint Split (sep : ascii) (s : string) : list string :=
  match s with
  | EmptyString => [""%string]
  | String c s' =>
      if Ascii.eqb c sep then "" :: Split sep s'
      else match Split sep s' with
           | [] => [String c ""]
           | w :: ws => String c w :: ws
           end
  end.

Fixpoint Join (sep : ascii) (l : list string) : string :=
  match l with
  | [] => ""
  | [w] => w
  | w :: ws => w +:+ String sep (Join sep ws)
  end.

(** [strings.SplitN(s, sep, 2)]: cut at the first separator. *)
Fixpoint SplitN2 (sep : ascii) (s : string) : string * option string :=
  match s with
  | EmptyString => ("", None)
  | String c s' =>
      if Ascii.eqb c sep then ("", Some s')
      else let '(w, r) := SplitN2 sep s' in (String c w, r)
  end.

Fixpoint occurs (sep : ascii) (s : string) : bool :=
  match s with
  | EmptyString => false
  | String c s' => Ascii.eqb c sep || occurs sep s'
  end.

Definition newline : ascii := "010".

(** ** Prefix, substring *)
Fixpoint HasPrefix (s prefix : string) : bool :=
  match prefix, s with
  | EmptyString, _ => true
  | String p ps, String c s' => Ascii.eqb c p && HasPrefix s' ps
  | String _ _, EmptyString => false
  end.

Fixpoint Contains (s substr : string) : bool :=
  HasPrefix s substr ||
  match s with EmptyString => false | String _ s' => Contains s' substr end.

Fixpoint string_drop (n : nat) (s : string) : string :=
  match n, s with
  | O, _ => s
  | S n', String _ s' => string_drop n' s'
  | S _, EmptyString => ""
  end.

Definition string_rev (s : string) : string :=
  String.string_of_list_ascii (reverse (String.list_ascii_of_string s)).

(** ** TrimSpace: the UTF-8 encodings of the Unicode white space characters *)
Definition ascii_of_codes (l : list nat) : string :=
  String.string_of_list_ascii (ascii_of_nat <$> l).

Definition unicode_spaces : list string :=
  ascii_of_codes <$>
  ([[9]; [10]; [11]; [12]; [13]; [32]; [194; 133]; [194; 160]; [225; 154; 128];
    [226; 128; 168]; [226; 128; 169]; [226; 128; 175]; [226; 129; 159]; [227; 128; 128]]
   ++ ((λ k, [226; 128; k]) <$> seq 128 11))%nat.

Definition leading_space (spaces : list string) (s : string) : option string :=
  (λ w, string_drop (String.length w) s) <$> (snd <$> list_find (λ w, HasPrefix s w = true) spaces).

Fixpoint trim_left_fuel (fuel : nat) (spaces : list string) (s : string) : string :=
  match fuel with
  | O => s
  | S fuel' => match leading_space spaces s with
               | Some s' => trim_left_fuel fuel' spaces s'
               | None => s
               end
  end.

(** Each step removes at least one byte, so [length s] steps are enough. *)
Definition TrimLeft (spaces : list string) (s : string) : string :=
  trim_left_fuel (String.length s) spaces s.

Definition TrimSpace (s : string) : string :=
  string_rev (TrimLeft (string_rev <$> unicode_spaces) (string_rev (TrimLeft unicode_spaces s))).

(** ** Decimal integers: [strconv.Atoi] and [fmt.Sscanf(s, "%d", &v)] *)
Definition digit_value (c : ascii) : option Z :=
  let n := Z.of_nat (nat_of_ascii c) in
  if (48 <=? n) && (n <=? 57) then Some (n - 48) else None.

(** The number at the front of [s], [n] digits, and what follows. *)
Fixpoint scan_digits (acc : Z) (n : nat) (s : string) : Z * nat * string :=
  match s with
  | EmptyString => (acc, n, s)
  | String c s' => match digit_value c with
                   | Some d => scan_digits (acc * 10 + d) (S n) s'
                   | None => (acc, n, s)
                   end
  end.

Definition scan_sign (s : string) : Z * string :=
  match s with
  | String "+" s' => (1, s')
  | String "-" s' => (-1, s')
  | _ => (1, s)
  end.

(** A signed number of 64 bits and what follows it. *)
Definition scan_int (s : string) : option (Z * string) :=
  let '(sign, s) := scan_sign s in
  match scan_digits 0 0 s with
  | (_, O, _) => None
  | (v, _, rest) => if (- two63 <=? sign * v) && (sign * v <? two63) then Some (sign * v, rest) else None
  end.

Definition Atoi (s : string) : option Z :=
  match scan_int s with Some (v, EmptyString) => Some v | _ => None end.

(** Leading white space, but no newline, is skipped; what follows the number is
    not looked at; on an error the variable keeps its value [old]. *)
Definition Sscanf_d (old : Z) (s : string) : Z :=
  match scan_int (TrimLeft (List.filter (λ w, negb (bool_decide (w = String newline ""))) unicode_spaces) s) with
  | Some (v, _) => v
  | None => old
  end.

(** ** ASCII lower case: no letter outside ASCII is lowered to a letter that
    occurs in the strings the source compares the result with. *)
Definition lower_ascii (c : ascii) : ascii :=
  let n := nat_of_ascii c in
  if bool_decide (65 ≤ n ≤ 90)%nat then ascii_of_nat (n + 32) else c.

Fixpoint ToLower (s : string) : string :=
  match s with
  | EmptyString => ""
  | String c s' => String (lower_ascii c) (ToLower s')
  end.

(** ** Hexadecimal *)
Definition hex_digit (n : nat) : ascii :=
  if (n <? 10)%nat then ascii_of_nat (48 + n) else ascii_of_nat (87 + n).

Definition hexEncode (b : bytes) : string :=
  String.string_of_list_ascii
    (b ≫= (λ x, let n := N.to_nat (Byte.to_N x) in [hex_digit (n / 16)%nat; hex_digit (n mod 16)%nat])).

Definition is_hex_digit (c : ascii) : bool :=
  let n := nat_of_ascii c in
  ((48 <=? n) && (n <=? 57) || (97 <=? n) && (n <=? 102) || (65 <=? n) && (n <=? 70))%nat.

(** [hex.DecodeString] succeeds on an even number of digits of either case. *)
Definition hex_decodable (s : string) : bool :=
  Nat.even (String.length s) && forallb is_hex_digit (String.list_ascii_of_string s).

(** ** Lemmas *)

Lemma Split_nonempty sep s : Split sep s ≠ [].
Proof. destruct s; simpl; [done|]. destruct (Ascii.eqb _ _); [done|]. by destruct (Split _ _). Qed.

Lemma Join_cons sep w ws : ws ≠ [] → Join sep (w :: ws) = (w +:+ String sep (Join sep ws))%string.
Proof. by destruct ws. Qed.

(** Splitting and joining again is the identity on every string. *)
Lemma Join_Split sep s : Join sep (Split sep s) = s.
Proof.
  induction s as [|c s IH]; simpl; [done|].
  destruct (Ascii.eqb_spec c sep) as [->|Hne].
  - rewrite Join_cons by apply Split_nonempty. by rewrite IH.
  - destruct (Split sep s) as [|w [|w' ws]] eqn:E; [by destruct (Split_nonempty sep s)| |].
    + simpl in *. by rewrite IH.
    + rewrite Join_cons in IH |- * by done. by rewrite <- IH.
Qed.

Lemma Split_word sep w : occurs sep w = false → Split sep w = [w].
Proof.
  induction w as [|c w IH]; simpl; [done|].
  destruct (Ascii.eqb c sep); simpl; [done|]. by intros ->%IH.
Qed.

Lemma Split_app sep w s :
  occurs sep w = false → Split sep (w +:+ String sep s) = w :: Split sep s.
Proof.
  induction w as [|c w IH]; simpl; [by rewrite Ascii.eqb_refl|].
  destruct (Ascii.eqb c sep); simpl; [done|]. by intros ->%IH.
Qed.

(** Joining and splitting again is the identity on lists of whole lines. *)
Lemma Split_Join sep l :
  l ≠ [] → Forall (λ w, occurs sep w = false) l → Split sep (Join sep l) = l.
Proof.
  induction l as [|w ws IH]; [done|]. intros _ [Hw Hws]%Forall_cons.
  destruct ws as [|w' ws]; [by apply Split_word|].
  rewrite Join_cons, Split_app by done. f_equal. by apply IH.
Qed.

#[export] Instance Split_inj sep : Inj eq eq (Split sep).
Proof. intros s1 s2 H. by rewrite <- (Join_Split sep s1), H, Join_Split. Qed.

Lemma Split_no_sep sep s : Forall (λ w, occurs sep w = false) (Split sep s).
Proof.
  induction s as [|c s IH]; simpl; [by repeat constructor|].
  destruct (Ascii.eqb c sep) eqn:E; [by constructor|].
  destruct (Split sep s) as [|w ws]; inversion_clear IH; constructor; simpl; rewrite ?E; done.
Qed.

Lemma length_string_of_list_ascii l : String.length (string_of_list_ascii l) = length l.
Proof. induction l; simpl; congruence. Qed.

Lemma hexEncode_length b : String.length (hexEncode b) = (2 * length b)%nat.
Proof.
  unfold hexEncode. rewrite length_string_of_list_ascii.
  induction b as [|x b IH]; [done|]. rewrite bind_cons, length_app, IH. simpl. lia.
Qed.

(** ** Order *)

Lemma string_ltb_antisym (a b : string) : a ≠ b → (a <? b)%string = negb (b <? a)%string.
Proof.
  intros Hne. unfold String.ltb. rewrite (String.compare_antisym a b).
  destruct (String.compare b a) eqn:E; simpl; try done.
  by apply String.compare_eq_iff in E.
Qed.

(** ** [sort.Strings] *)

Definition string_le (a b : string) : Prop := String.leb a b = true.
#[export] Instance string_le_dec a b : Decision (string_le a b) := bool_eq_dec _ _.

Definition sort_strings (l : list string) : list string := merge_sort string_le l.

Lemma string_le_cons c1 s1 c2 s2 :
  string_le (String c1 s1) (String c2 s2) ↔
  (N_of_ascii c1 < N_of_ascii c2)%N ∨ (c1 = c2 ∧ string_le s1 s2).
Proof.
  unfold string_le, String.leb. simpl. unfold Ascii.compare.
  destruct (N.compare_spec (N_of_ascii c1) (N_of_ascii c2)) as [E|E|E].
  - apply (f_equal ascii_of_N) in E. rewrite !ascii_N_embedding in E. subst. split; [by right|].
    intros [?|[_ ?]]; [lia|done].
  - split; [by left|done].
  - split; [done|]. intros [?|[-> _]]; lia.
Qed.

#[export] Instance string_le_trans : Transitive string_le.
Proof.
  intros a. induction a as [|x a IH]; intros [|y b] [|z c]; try done.
  rewrite !string_le_cons. intros [?|[-> ?]] [?|[-> ?]]; [left; lia|by left|by left|]. right. split; [done|by eapply IH].
Qed.
#[export] Instance string_le_total : Total string_le.
Proof. intros a b. apply String.leb_total. Qed.
#[export] Instance string_le_antisym : AntiSymm (=) string_le.
Proof. intros a b. apply String.leb_antisym. Qed.

(** Sorting forgets the order. *)
Lemma sort_strings_Permutation l l' : l ≡ₚ l' → sort_strings l = sort_strings l'.
Proof.
  intros H. apply (StronglySorted_unique string_le); [apply (StronglySorted_merge_sort _); apply _..|].
  unfold sort_strings. etrans; [apply merge_sort_Permutation|]. etrans; [exact H|]. symmetry. apply merge_sort_Permutation.
Qed.

(** ** Printable words: no white space at either end *)

Definition plain (c : ascii) : bool := ((33 <=? nat_of_ascii c) && (nat_of_ascii c <=? 126))%nat.
Definition plain_string (s : string) : Prop := forallb plain (String.list_ascii_of_string s) = true.

Lemma plain_cons c s : plain_string (String c s) ↔ plain c = true ∧ plain_string s.
Proof. unfold plain_string. cbn. by rewrite andb_true_iff. Qed.

Lemma plain_app a b : plain_string (a +:+ b) ↔ plain_string a ∧ plain_string b.
Proof.
  induction a as [|c a IH]; [by split; [|intros []]|].
  change (String c a +:+ b) with (String c (a +:+ b)). rewrite !plain_cons, IH. tauto.
Qed.

Lemma plain_rev s : plain_string s → plain_string (string_rev s).
Proof.
  unfold plain_string, string_rev. rewrite String.list_ascii_of_string_of_list_ascii, !forallb_forall.
  intros H c Hc. apply H. apply list_elem_of_In. rewrite <- elem_of_reverse. by apply list_elem_of_In.
Qed.

Lemma string_rev_involutive s : string_rev (string_rev s) = s.
Proof.
  unfold string_rev. rewrite String.list_ascii_of_string_of_list_ascii, reverse_involutive.
  apply String.string_of_list_ascii_of_string.
Qed.

(** No white space begins with a printable character. *)
Definition spaces (ws : list string) : Prop := forallb (λ w, match w with String c _ => negb (plain c) | _ => false end) ws = true.

Lemma no_leading_space ws s : spaces ws → plain_string s → s ≠ ""%string → leading_space ws s = None.
Proof.
  intros Hws Hs Hne. unfold leading_space. destruct (list_find _ ws) as [[i w]|] eqn:E; [|done].
  apply list_find_Some in E as (Hi & Hp & _). unfold spaces in Hws. rewrite forallb_forall in Hws.
  specialize (Hws w ltac:(apply list_elem_of_In; by eapply list_elem_of_lookup_2)).
  destruct s as [|c s]; [done|]. apply plain_cons in Hs as [Hc _]. destruct w as [|d w]; [done|].
  cbn in Hp. apply andb_true_iff in Hp as [Hp%Ascii.eqb_eq _]. subst. by rewrite Hc in Hws.
Qed.

Lemma TrimLeft_plain ws s : spaces ws → plain_string s → TrimLeft ws s = s.
Proof.
  intros Hws Hs. unfold TrimLeft. destruct s as [|c s]; [done|]. cbn [String.length trim_left_fuel].
  by rewrite no_leading_space.
Qed.

Lemma TrimSpace_plain s : plain_string s → TrimSpace s = s.
Proof.
  intros Hs. unfold TrimSpace. rewrite (TrimLeft_plain unicode_spaces) by done.
  rewrite TrimLeft_plain; [apply string_rev_involutive|done|by apply plain_rev].
Qed.

(** ** Numbers that were printed are read back *)

Lemma scan_pretty x : ∃ k p, ((0 < x)%N → (0 < k)%nat) ∧
  ∀ acc n s, scan_digits acc n (pretty_N_go x s) = scan_digits (acc * p + Z.of_N x) (k + n) s.
Proof.
  induction (N.lt_wf_0 x) as [x _ IH]. destruct (decide (0 < x)%N) as [Hx|Hx].
  - destruct (IH (x / 10)%N) as (k & p & _ & H); [by apply N.div_lt|]. exists (S k), (p * 10). split; [lia|].
    intros acc n s. rewrite pretty_N_go_step, H by done.
    assert (digit_value (pretty_N_char (x mod 10)) = Some (Z.of_N (x mod 10))) as Hd.
    { pose proof (N.mod_lt x 10 ltac:(done)). remember (x mod 10)%N as d. clear -H0.
      assert (d = 0 ∨ d = 1 ∨ d = 2 ∨ d = 3 ∨ d = 4 ∨ d = 5 ∨ d = 6 ∨ d = 7 ∨ d = 8 ∨ d = 9)%N as Hd by lia.
      repeat (destruct Hd as [->|Hd]; [done|]). by subst. }
    cbn [scan_digits]. rewrite Hd. f_equal. rewrite N2Z.inj_div, N2Z.inj_mod.
    pose proof (Z.div_mod (Z.of_N x) 10 ltac:(lia)). lia.
  - assert (x = 0)%N as -> by lia. exists 0%nat, 1. split; [lia|]. intros acc n s. rewrite pretty_N_go_0.
    f_equal; lia.
Qed.

Lemma scan_sprint z : 0 ≤ z → ∃ k, scan_digits 0 0 (sprint_d z) = (z, S k, ""%string).
Proof.
  intros Hz. unfold sprint_d. destruct z as [|p|p]; [by exists 0%nat| |lia].
  change (pretty (Z.pos p)) with (pretty (N.pos p)). unfold pretty, pretty_N. rewrite decide_False by done.
  destruct (scan_pretty (N.pos p)) as (k & q & Hk & H). specialize (Hk ltac:(done)). rewrite H. cbn.
  destruct k as [|k]; [lia|]. rewrite Nat.add_0_r. by exists k.
Qed.

(** What is a digit throughout. *)
Lemma scan_all_digits s acc n v k :
  scan_digits acc n s = (v, k, ""%string) → plain_string s ∧ ∀ c s', s = String c s' → c ≠ "+"%char ∧ c ≠ "-"%char ∧ c ≠ ":"%char ∧ c ≠ ","%char.
Proof.
  revert acc n. induction s as [|c s IH]; intros acc n; cbn [scan_digits]; [done|].
  destruct (digit_value c) as [d|] eqn:E; [|done]. intros H. destruct (IH _ _ H) as [Hp _].
  unfold digit_value in E. destruct (_ && _) eqn:Eb; [|done].
  assert (plain c = true ∧ c ≠ "+"%char ∧ c ≠ "-"%char ∧ c ≠ ":"%char ∧ c ≠ ","%char) as (H1 & H2).
  { split; [apply andb_true_iff in Eb as [?%Z.leb_le ?%Z.leb_le]; unfold plain; apply andb_true_iff; split; apply Nat.leb_le; lia|]. split_and!; intros ->; vm_compute in Eb; discriminate Eb. }
  split; [by apply plain_cons|]. by intros c' s' [= <- <-].
Qed.

Lemma scan_no_sep s acc n v k sep :
  digit_value sep = None → scan_digits acc n s = (v, k, ""%string) → occurs sep s = false.
Proof.
  intros Hsep. revert acc n. induction s as [|c s IH]; intros acc n; cbn [scan_digits]; [done|].
  destruct (digit_value c) as [d|] eqn:E; [|done]. intros H. cbn [occurs]. rewrite (IH _ _ H), orb_false_r.
  destruct (Ascii.eqb_spec c sep) as [->|]; [congruence|done].
Qed.

Lemma scan_int_sprint z : 0 ≤ z < two63 → scan_int (sprint_d z) = Some (z, ""%string).
Proof.
  intros Hz. destruct (scan_sprint z) as [k Hk]; [lia|]. unfold scan_int.
  assert (scan_sign (sprint_d z) = (1, sprint_d z)) as ->.
  { destruct (scan_all_digits _ _ _ _ _ Hk) as [_ Hc]. destruct (sprint_d z) as [|c s]; [done|].
    destruct (Hc c s eq_refl) as (H1 & H2 & _). clear -H1 H2. destruct c as [[] [] [] [] [] [] [] []]; first [reflexivity|by destruct H1|by destruct H2]. }
  rewrite Hk, Z.mul_1_l. by replace (_ && _) with true by (unfold two63 in *; lia).
Qed.

Lemma Sscanf_sprint old z : 0 ≤ z < two63 → Sscanf_d old (sprint_d z) = z.
Proof.
  intros Hz. destruct (scan_sprint z) as [k Hk]; [lia|]. destruct (scan_all_digits _ _ _ _ _ Hk) as [Hp _].
  unfold Sscanf_d. rewrite TrimLeft_plain by (done || by vm_compute). by rewrite scan_int_sprint.
Qed.

Lemma Atoi_sprint z : 0 ≤ z < two63 → Atoi (sprint_d z) = Some z.
Proof. intros Hz. unfold Atoi. by rewrite scan_int_sprint. Qed.

Lemma sprint_plain z sep : 0 ≤ z → digit_value sep = None → plain_string (sprint_d z) ∧ occurs sep (sprint_d z) = false ∧ sprint_d z ≠ ""%string.
Proof.
  intros Hz Hsep. destruct (scan_sprint z) as [k Hk]; [lia|]. split_and!.
  - by apply (scan_all_digits _ _ _ _ _ Hk).
  - by eapply scan_no_sep.
  - intros E. by rewrite E in Hk.
Qed.
