(* ===== verification/GoPath.v ===== *)
(** * The Go standard library on file paths (path/filepath on Unix)

    [Clean], [Join], [Dir], [Base] and [Rel], on the components of a path.  The
    library works on bytes from left to right; working on the list of
    components between slashes gives the same results. *)

From Stdlib Require Import Strings.Ascii Strings.String.
From S2P Require Import Prelude GoStrings.

Definition slash : ascii := "/".
Definition is_rooted (p : string) : bool := HasPrefix p "/".

(** A component other than [""], ["."] and [".."]. *)
Definition ordinary (c : string) : bool :=
  negb (bool_decide (c = ""%string)) && negb (bool_decide (c = "."%string))
  && negb (bool_decide (c = ".."%string)).

(** One component read: [stack] holds the cleaned ones, innermost first. *)
Definition clean_component (rooted : bool) (stack : list string) (c : string) : list string :=
  if bool_decide (c = ""%string) || bool_decide (c = "."%string) then stack
  else if bool_decide (c = ".."%string) then
    match stack with
    | [] => if rooted then [] else [".."%string]
    | top :: rest => if bool_decide (top = ".."%string) then ".."%string :: stack else rest
    end
  else c :: stack.

Definition clean_components (rooted : bool) (cs : list string) : list string :=
  reverse (foldl (clean_component rooted) [] cs).

Definition render (rooted : bool) (cs : list string) : string :=
  if rooted then String slash (Join slash cs)
  else match cs with [] => "." | _ => Join slash cs end.

(** The components of [Clean path]. *)
Definition components (path : string) : list string :=
  clean_components (is_rooted path) (Split slash path).

Definition Clean (path : string) : string := render (is_rooted path) (components path).

(** [filepath.Join(a, b)]: empty elements are ignored. *)
Definition Join2 (a b : string) : string :=
  match is_empty a, is_empty b with
  | true, true => ""
  | true, false => Clean b
  | false, true => Clean a
  | false, false => Clean (a +:+ String slash b)
  end.

(** [filepath.Dir]: everything up to the last slash, cleaned. *)
Definition Dir (path : string) : string :=
  let cs := Split slash path in
  Clean (Join slash (take (length cs - 1) cs) +:+ (if (length cs <=? 1)%nat then "" else "/")).

(** [filepath.Base]: the last component, trailing slashes removed. *)
Definition Base (path : string) : string :=
  if is_empty path then "."
  else match List.filter (λ c, negb (is_empty c)) (Split slash path) with
       | [] => "/"
       | cs => List.last cs ""
       end.

Fixpoint drop_common (a b : list string) : list string * list string :=
  match a, b with
  | x :: a', y :: b' => if decide (x = y) then drop_common a' b' else (a, b)
  | _, _ => (a, b)
  end.

(** [filepath.Rel(basepath, targpath)]. *)
Definition Rel (basepath targpath : string) : outcome string :=
  if bool_decide (Clean basepath = Clean targpath) then Ok "."
  else if negb (eqb (is_rooted basepath) (is_rooted targpath)) then Err "Rel: can't make path relative"
  else
    let '(b, t) := drop_common (components basepath) (components targpath) in
    if existsb (λ c, bool_decide (c = ".."%string)) (take 1 b) then Err "Rel: can't make path relative"
    else Ok (render false (replicate (length b) ".."%string ++ t)).

Lemma Join2_demo :
  Join2 "/sync" "a/b.txt" = "/sync/a/b.txt"%string ∧
  Join2 "/sync" "../etc/passwd" = "/etc/passwd"%string ∧
  Clean "a//b/./../c/" = "a/c"%string ∧ Dir "/sync/a" = "/sync"%string ∧ Dir "a" = "."%string ∧
  Base "/x/y.txt" = "y.txt"%string ∧ Rel "/sync" "/sync/a/b" = Ok "a/b"%string ∧
  Rel "/sync" "/etc" = Ok "../etc"%string.
Proof. by vm_compute. Qed.

(** ** Cleaned components *)

(** A cleaned path: ordinary components, after a run of [..] if not rooted. *)
Definition no_dotdot (cs : list string) : Prop := Forall (λ c, ordinary c = true) cs.

Lemma ordinary_spec c :
  ordinary c = true ↔ c ≠ ""%string ∧ c ≠ "."%string ∧ c ≠ ".."%string.
Proof. unfold ordinary. rewrite !andb_true_iff, !negb_true_iff, !bool_decide_eq_false. tauto. Qed.

Lemma clean_component_ordinary rooted stack c :
  ordinary c = true → clean_component rooted stack c = c :: stack.
Proof.
  intros (H1 & H2 & H3)%ordinary_spec. unfold clean_component.
  by rewrite !bool_decide_eq_false_2.
Qed.

Lemma foldl_ordinary rooted stack cs :
  no_dotdot cs → foldl (clean_component rooted) stack cs = reverse cs ++ stack.
Proof.
  revert stack. induction cs as [|c cs IH]; intros stack H; [done|].
  apply Forall_cons in H as [Hc H]. simpl. rewrite clean_component_ordinary, IH by done.
  by rewrite reverse_cons, <- (assoc_L (++)).
Qed.

Lemma clean_components_ordinary rooted cs : no_dotdot cs → clean_components rooted cs = cs.
Proof.
  intros H. unfold clean_components. by rewrite foldl_ordinary, app_nil_r, reverse_involutive.
Qed.

(** In a rooted path every component kept is ordinary. *)
Lemma clean_rooted_ordinary cs stack :
  no_dotdot stack → no_dotdot (foldl (clean_component true) stack cs).
Proof.
  revert stack. induction cs as [|c cs IH]; intros stack H; [done|]. simpl. apply IH.
  unfold clean_component. destruct (bool_decide (c = ""%string)) eqn:E1; [done|].
  destruct (bool_decide (c = "."%string)) eqn:E2; [done|]. simpl.
  destruct (bool_decide (c = ".."%string)) eqn:E3.
  - destruct stack as [|top rest]; [done|]. apply Forall_cons in H as [Ht Hr].
    apply ordinary_spec in Ht as (_ & _ & Ht). by rewrite bool_decide_eq_false_2.
  - constructor; [|done]. unfold ordinary. by rewrite E1, E2, E3.
Qed.

(** No sequence of components takes a rooted path out of the root. *)
Lemma components_rooted p : is_rooted p = true → no_dotdot (components p).
Proof.
  intros H. unfold components, clean_components. rewrite H.
  apply Forall_reverse, clean_rooted_ordinary. constructor.
Qed.

(** ** [Clean] is idempotent *)

(** The stack while cleaning: ordinary components over a run of [..]. *)
Definition wf_stack (rooted : bool) (st : list string) : Prop :=
  ∃ os k, st = os ++ replicate k ".."%string ∧ no_dotdot os ∧ (rooted = true → k = O).

Lemma clean_component_wf r st c : wf_stack r st → wf_stack r (clean_component r st c).
Proof.
  intros (os & k & -> & Hos & Hk). unfold clean_component.
  destruct (bool_decide (c = ""%string)) eqn:E1; [by exists os, k|].
  destruct (bool_decide (c = "."%string)) eqn:E2; [by exists os, k|]. simpl.
  destruct (bool_decide (c = ".."%string)) eqn:E3.
  - destruct os as [|o os]; simpl.
    + destruct r, k as [|k]; simpl; [by exists [], O|by specialize (Hk eq_refl)|by exists [], 1%nat|].
      by exists [], (S (S k)).
    + apply Forall_cons in Hos as [Ho Hos]. apply ordinary_spec in Ho as (_ & _ & Ho).
      rewrite bool_decide_eq_false_2 by done. by exists os, k.
  - exists (c :: os), k. split_and!; [done| |done]. constructor; [|done].
    unfold ordinary. by rewrite E1, E2, E3.
Qed.

Lemma clean_stack_wf r cs st : wf_stack r st → wf_stack r (foldl (clean_component r) st cs).
Proof. revert st. induction cs as [|c cs IH]; intros st H; [done|]. by apply IH, clean_component_wf. Qed.

Lemma foldl_dotdots k st : (∀ x, x ∈ st → x = ".."%string) →
  foldl (clean_component false) st (replicate k ".."%string) = replicate k ".."%string ++ st.
Proof.
  revert st. induction k as [|k IH]; intros st H; [done|]. simpl.
  assert (clean_component false st ".." = ".."%string :: st) as ->.
  { unfold clean_component. simpl. destruct st as [|x st]; [done|].
    by rewrite (H x) by set_solver. }
  rewrite IH by set_solver. change (".."%string :: st) with ([".."%string] ++ st).
  rewrite (assoc_L (++)). f_equal. rewrite <- (replicate_S_end k). done.
Qed.

Lemma clean_stack_fixed r st :
  wf_stack r st → foldl (clean_component r) [] (reverse st) = st.
Proof.
  intros (os & k & -> & Hos & Hk). rewrite reverse_app, reverse_replicate, foldl_app.
  assert (foldl (clean_component r) [] (replicate k ".."%string) = replicate k ".."%string) as ->.
  { destruct r; [by rewrite Hk|]. by rewrite foldl_dotdots, app_nil_r by set_solver. }
  rewrite foldl_ordinary by (by apply Forall_reverse). by rewrite reverse_involutive.
Qed.

Lemma clean_components_idemp r cs :
  clean_components r (clean_components r cs) = clean_components r cs.
Proof.
  unfold clean_components. rewrite clean_stack_fixed; [done|].
  apply clean_stack_wf. exists [], O. repeat split. constructor.
Qed.

(** Components hold no slash and are not empty. *)
Definition proper (c : string) : Prop := occurs slash c = false ∧ c ≠ ""%string.

Lemma clean_components_proper r cs :
  Forall (λ c, occurs slash c = false) cs → Forall proper (clean_components r cs).
Proof.
  intros H. apply Forall_reverse.
  assert (∀ st, Forall proper st → Forall proper (foldl (clean_component r) st cs)) as Hs; [|by apply Hs].
  induction H as [|c cs Hc H IH]; intros st Hst; [done|]. simpl. apply IH. unfold clean_component.
  destruct (bool_decide (c = ""%string)) eqn:E1; [done|]. apply bool_decide_eq_false in E1.
  destruct (bool_decide (c = "."%string)); [done|]. simpl.
  assert (proper "..") by (split; done).
  destruct (bool_decide _); [|by constructor].
  destruct st as [|x st]; [destruct r; [done|by apply Forall_singleton]|].
  destruct (bool_decide (x = ".."%string)); [by constructor|]. by apply Forall_cons in Hst as [_ ?].
Qed.

Lemma is_rooted_String c s : is_rooted (String c s) = Ascii.eqb c slash.
Proof. unfold is_rooted. simpl. destruct s; simpl; by rewrite andb_true_r. Qed.

Lemma is_rooted_render r cs : Forall proper cs → is_rooted (render r cs) = r.
Proof.
  intros H. destruct r; [by unfold render; rewrite is_rooted_String|].
  destruct cs as [|c cs]; [done|]. unfold render.
  apply Forall_cons in H as [[Hs Hne] _]. destruct c as [|x c]; [done|]. simpl in Hs.
  apply orb_false_iff in Hs as [Hx _].
  assert (∃ s, Join slash (String x c :: cs) = String x s) as [s ->]; [|by rewrite is_rooted_String].
  destruct cs; [by exists c|]. rewrite Join_cons by done. by eexists.
Qed.

Lemma components_render r cs : Forall proper cs → clean_components r cs = cs →
  components (render r cs) = cs.
Proof.
  intros Hp Hc. unfold components. rewrite is_rooted_render by done.
  assert (Forall (λ w, occurs slash w = false) cs) as Hs by (eapply Forall_impl; [done|]; by intros ? []).
  destruct r; unfold render.
  - change (Split slash (String slash (Join slash cs))) with (""%string :: Split slash (Join slash cs)).
    destruct cs as [|c cs]; [done|]. rewrite Split_Join by done. by rewrite <- Hc at 2.
  - destruct cs as [|c cs]; [done|]. by rewrite Split_Join.
Qed.

Lemma components_Clean p : components (Clean p) = components p.
Proof.
  unfold Clean. apply components_render; unfold components.
  - apply clean_components_proper, Split_no_sep.
  - apply clean_components_idemp.
Qed.

Lemma is_rooted_Clean p : is_rooted (Clean p) = is_rooted p.
Proof. apply is_rooted_render, clean_components_proper, Split_no_sep. Qed.

Lemma Clean_Clean p : Clean (Clean p) = Clean p.
Proof. unfold Clean at 1. by rewrite components_Clean, is_rooted_Clean. Qed.

Lemma Clean_Join2 a b : is_empty a = false → Clean (Join2 a b) = Join2 a b.
Proof. intros H. unfold Join2. rewrite H. destruct (is_empty b); apply Clean_Clean. Qed.

Lemma Join2_clean a b : is_empty b = false → Clean (Join2 a b) = Join2 a b.
Proof. intros H. unfold Join2. rewrite H. destruct (is_empty a); apply Clean_Clean. Qed.
