(* ===== verification/Json.v ===== *)
(** * The Go standard library on JSON and base64 (encoding/json, encoding/base64)

    A JSON text is the tree it denotes.  Struct members are matched without
    regard to (ASCII) case, a repeated member overrides an earlier one, [null]
    leaves a plain field alone and clears a pointer, as [json.Unmarshal] does. *)

From Stdlib Require Import Strings.Byte Strings.Ascii Strings.String.
From S2P Require Import Prelude GoStrings.

Inductive json : Type :=
  | JNull
  | JBool (b : bool)
  | JNumber (z : Z)
  (** A number that is not a decimal integer. *)
  | JFraction (text : string)
  | JString (s : string)
  | JArray (l : list json)
  | JObject (members : list (string * json)).

(** ** Base64, the standard alphabet with padding *)

Definition alphabet : list ascii :=
  list_ascii_of_string "ABCDEFGHIJKLMNOPQRSTUVWXYZabcdefghijklmnopqrstuvwxyz0123456789+/".

Definition digit64 (n : Z) : ascii := nth (Z.to_nat n) alphabet "A"%char.

Definition value64 (c : ascii) : option Z :=
  (λ p, Z.of_nat p.1) <$> list_find (λ x, x = c) alphabet.

Definition byte_Z (b : Byte.byte) : Z := Z.of_N (Byte.to_N b).
Definition Z_byte (z : Z) : Byte.byte := default Byte.x00 (Byte.of_N (Z.to_N z)).

Definition pad : ascii := "=".

Fixpoint encode64 (b : bytes) : list ascii :=
  match b with
  | [] => []
  | [x] => let n := byte_Z x * 65536 in
           [digit64 (n / 262144); digit64 (n / 4096 mod 64); pad; pad]
  | [x; y] => let n := byte_Z x * 65536 + byte_Z y * 256 in
              [digit64 (n / 262144); digit64 (n / 4096 mod 64); digit64 (n / 64 mod 64); pad]
  | x :: y :: z :: rest =>
      let n := byte_Z x * 65536 + byte_Z y * 256 + byte_Z z in
      digit64 (n / 262144) :: digit64 (n / 4096 mod 64) :: digit64 (n / 64 mod 64) :: digit64 (n mod 64)
      :: encode64 rest
  end.

Fixpoint decode64 (s : list ascii) : option bytes :=
  match s with
  | [] => Some []
  | a :: b :: c :: d :: rest =>
      va ← value64 a; vb ← value64 b;
      if bool_decide (c = pad) && bool_decide (d = pad) && bool_decide (rest = []) then
        Some [Z_byte ((va * 64 + vb) / 16)]
      else
        vc ← value64 c;
        if bool_decide (d = pad) && bool_decide (rest = []) then
          let n := (va * 64 + vb) * 64 + vc in Some [Z_byte (n / 1024); Z_byte (n / 4 mod 256)]
        else
          vd ← value64 d;
          let n := ((va * 64 + vb) * 64 + vc) * 64 + vd in
          tl ← decode64 rest;
          Some (Z_byte (n / 65536) :: Z_byte (n / 256 mod 256) :: Z_byte (n mod 256) :: tl)
  | _ => None
  end.

Definition EncodeToString (b : bytes) : string := string_of_list_ascii (encode64 b).

(** Line breaks are ignored. *)
Definition DecodeString (s : string) : outcome bytes :=
  match decode64 (List.filter (λ c, negb (bool_decide (c = "010"%char)) && negb (bool_decide (c = "013"%char)))
                    (list_ascii_of_string s)) with
  | Some b => Ok b
  | None => Err "illegal base64 data"
  end.

(** *** Decoding undoes encoding *)

Lemma value_digit z : 0 ≤ z < 64 → value64 (digit64 z) = Some z.
Proof.
  intros H. assert (forallb (λ n, bool_decide (value64 (digit64 (Z.of_nat n)) = Some (Z.of_nat n))) (seq 0 64) = true)
    as Hall by (by vm_compute).
  rewrite forallb_forall in Hall. specialize (Hall (Z.to_nat z)).
  rewrite bool_decide_eq_true, Z2Nat.id in Hall by lia. apply Hall. apply in_seq. lia.
Qed.

Lemma digit_plain z : 0 ≤ z < 64 →
  digit64 z ≠ pad ∧ digit64 z ≠ "010"%char ∧ digit64 z ≠ "013"%char.
Proof.
  intros H. pose proof (value_digit z H) as Hv.
  split_and!; intros E; rewrite E in Hv; by vm_compute in Hv.
Qed.

Lemma byte_Z_range b : 0 ≤ byte_Z b < 256.
Proof. unfold byte_Z. pose proof (Byte.to_N_bounded b). lia. Qed.

Lemma Z_byte_Z b : Z_byte (byte_Z b) = b.
Proof. unfold Z_byte, byte_Z. rewrite N2Z.id. by rewrite Byte.of_to_N. Qed.

(** The bytes of three bytes' 24-bit number. *)
Lemma split24 x y z :
  0 ≤ x < 256 → 0 ≤ y < 256 → 0 ≤ z < 256 →
  let n := x * 65536 + y * 256 + z in
  ((n / 262144 * 64 + n / 4096 mod 64) * 64 + n / 64 mod 64) * 64 + n mod 64 = n ∧
  n / 65536 = x ∧ n / 256 mod 256 = y ∧ n mod 256 = z.
Proof. intros Hx Hy Hz n. unfold n. split_and!; Z.div_mod_to_equations; lia. Qed.

Lemma digits24 x y z :
  0 ≤ x < 256 → 0 ≤ y < 256 → 0 ≤ z < 256 →
  let n := x * 65536 + y * 256 + z in
  0 ≤ n / 262144 < 64 ∧ 0 ≤ n / 4096 mod 64 < 64 ∧ 0 ≤ n / 64 mod 64 < 64 ∧ 0 ≤ n mod 64 < 64.
Proof. intros Hx Hy Hz n. unfold n. split_and!; Z.div_mod_to_equations; lia. Qed.

Lemma decode_encode64_upto (k : nat) b : (length b ≤ k)%nat → decode64 (encode64 b) = Some b.
Proof.
  revert b. induction k as [|k IH]; intros b Hb; [by destruct b; [|simpl in Hb; lia]|].
  destruct b as [|x [|y [|z rest]]]; [done|..]; pose proof (byte_Z_range x) as Hx.
  - pose proof (digits24 (byte_Z x) 0 0 Hx ltac:(lia) ltac:(lia)) as (H1 & H2 & _).
    rewrite Z.mul_0_l, !Z.add_0_r in *. cbn [encode64 decode64]. rewrite !value_digit by done. simpl.
    assert (∀ n, n = byte_Z x * 65536 → (n / 262144 * 64 + n / 4096 mod 64) / 16 = byte_Z x) as E
      by (clear -Hx; intros; Z.div_mod_to_equations; lia).
    by rewrite E, Z_byte_Z.
  - pose proof (byte_Z_range y) as Hy.
    pose proof (digits24 (byte_Z x) (byte_Z y) 0 Hx Hy ltac:(lia)) as (H1 & H2 & H3 & _).
    rewrite !Z.add_0_r in *. cbn [encode64 decode64]. rewrite !value_digit by done. simpl.
    rewrite bool_decide_eq_false_2 by (by apply digit_plain). simpl.
    assert (∀ n, n = byte_Z x * 65536 + byte_Z y * 256 →
      ((n / 262144 * 64 + n / 4096 mod 64) * 64 + n / 64 mod 64) / 1024 = byte_Z x ∧
      ((n / 262144 * 64 + n / 4096 mod 64) * 64 + n / 64 mod 64) / 4 mod 256 = byte_Z y) as E
      by (clear -Hx Hy; intros; split; Z.div_mod_to_equations; lia).
    destruct (E _ eq_refl) as [-> ->]. by rewrite !Z_byte_Z.
  - pose proof (byte_Z_range y) as Hy. pose proof (byte_Z_range z) as Hz.
    pose proof (digits24 _ _ _ Hx Hy Hz) as (H1 & H2 & H3 & H4).
    pose proof (split24 _ _ _ Hx Hy Hz) as (E & E1 & E2 & E3).
    cbn [encode64 decode64]. rewrite !value_digit by done. simpl.
    rewrite (bool_decide_eq_false_2 (digit64 (_ / 64 mod 64) = pad)) by (by apply digit_plain). simpl.
    rewrite (bool_decide_eq_false_2 (digit64 (_ mod 64) = pad)) by (by apply digit_plain). simpl.
    rewrite E, E1, E2, E3, !Z_byte_Z. rewrite IH by (simpl in Hb; lia). done.
Qed.

Lemma encode64_plain b c : c ∈ encode64 b → c ≠ "010"%char ∧ c ≠ "013"%char.
Proof.
  assert (∀ k b, (length b ≤ k)%nat → ∀ c, c ∈ encode64 b → c ≠ "010"%char ∧ c ≠ "013"%char) as H;
    [|intros; by eapply (H (length b))].
  clear. intros k. induction k as [|k IH]; intros b Hb c; [by destruct b; [|simpl in Hb; lia]; intros ?%elem_of_nil|].
  assert (∀ z, 0 ≤ z < 64 → digit64 z ≠ "010"%char ∧ digit64 z ≠ "013"%char) as Hd
    by (intros z Hz; by apply digit_plain in Hz as (_ & ? & ?)).
  destruct b as [|x [|y [|z rest]]]; [by intros ?%elem_of_nil|..]; pose proof (byte_Z_range x) as Hx;
    cbn [encode64]; rewrite !elem_of_cons.
  - pose proof (digits24 (byte_Z x) 0 0 Hx ltac:(lia) ltac:(lia)) as (H1 & H2 & _).
    rewrite Z.mul_0_l, !Z.add_0_r in *. intros [->|[->|[->|[->|?%elem_of_nil]]]]; auto; done.
  - pose proof (byte_Z_range y) as Hy.
    pose proof (digits24 (byte_Z x) (byte_Z y) 0 Hx Hy ltac:(lia)) as (H1 & H2 & H3 & _).
    rewrite !Z.add_0_r in *. intros [->|[->|[->|[->|?%elem_of_nil]]]]; auto; done.
  - pose proof (byte_Z_range y) as Hy. pose proof (byte_Z_range z) as Hz.
    pose proof (digits24 _ _ _ Hx Hy Hz) as (H1 & H2 & H3 & H4).
    intros [->|[->|[->|[->|Hc]]]]; auto. eapply IH; [|done]. simpl in Hb. lia.
Qed.

Lemma DecodeString_EncodeToString b : DecodeString (EncodeToString b) = Ok b.
Proof.
  unfold DecodeString, EncodeToString. rewrite list_ascii_of_string_of_list_ascii.
  assert (List.filter (λ c, negb (bool_decide (c = "010"%char)) && negb (bool_decide (c = "013"%char)))
    (encode64 b) = encode64 b) as ->.
  { pose proof (encode64_plain b) as Hp. revert Hp. generalize (encode64 b). clear. intros l Hl.
    induction l as [|c l IH]; [done|]. simpl. destruct (Hl c) as [H1 H2]; [set_solver|].
    rewrite !bool_decide_eq_false_2 by done. simpl. f_equal. apply IH. set_solver. }
  by rewrite (decode_encode64_upto (length b)).
Qed.

(** ** Codecs: how a Go type is marshalled and unmarshalled

    [dec] gets the value the destination already holds.  [valid] says which
    values the Go type has; for them decoding undoes encoding. *)
Record codec (A : Type) : Type := Codec {
  zero : A;
  enc : A → json;
  dec : A → json → outcome A;
  valid : A → Prop;
  dec_enc : ∀ a, valid a → dec zero (enc a) = Ok a
}.
Arguments Codec {A}.
Arguments zero {A}.
Arguments enc {A}.
Arguments dec {A}.
Arguments valid {A}.
Arguments dec_enc {A}.

Definition mismatch : error := "json: cannot unmarshal".

(** A valid UTF-8 string is kept as it is; others are not considered. *)
Definition c_string : codec string.
Proof.
  refine (Codec ""%string JString (λ old v, match v with
    | JNull => Ok old | JString s => Ok s | _ => Err mismatch end) (λ _, True) _).
  done.
Defined.

Definition c_bool : codec bool.
Proof.
  refine (Codec false JBool (λ old v, match v with
    | JNull => Ok old | JBool b => Ok b | _ => Err mismatch end) (λ _, True) _).
  done.
Defined.

Definition dec_int (lo hi : Z) (old : Z) (v : json) : outcome Z :=
  match v with
  | JNull => Ok old
  | JNumber z => if (lo <=? z) && (z <? hi) then Ok z else Err mismatch
  | _ => Err mismatch
  end.

Lemma dec_int_ok lo hi z : lo ≤ z < hi → dec_int lo hi 0 (JNumber z) = Ok z.
Proof. intros H. unfold dec_int. by replace (_ && _) with true by lia. Qed.

(** [int] and [int64]. *)
Definition c_int64 : codec Z := Codec 0 JNumber (dec_int (- two63) two63) in64 (dec_int_ok _ _).
Definition c_uint32 : codec Z := Codec 0 JNumber (dec_int 0 4294967296) (λ z, 0 ≤ z < 4294967296) (dec_int_ok _ _).

(** [[]byte]: base64; nil and empty are one value. *)
Definition c_bytes : codec bytes.
Proof.
  refine (Codec [] (λ b, JString (EncodeToString b)) (λ old v, match v with
    | JNull => Ok []
    | JString s => wrapping mismatch (DecodeString s)
    | JArray l => mapM (λ x, n ← dec_int 0 256 0 x; Ok (Z_byte n)) l
    | _ => Err mismatch end) (λ _, True) _).
  intros b _. by rewrite DecodeString_EncodeToString.
Defined.

(** A pointer; a non-null value is decoded into what it points to. *)
Definition not_null (v : json) : bool := match v with JNull => false | _ => true end.

Definition c_ptr {A} (c : codec A) : codec (option A).
Proof.
  refine (Codec None (λ o, match o with Some a => enc c a | None => JNull end)
    (λ old v, if not_null v then Some <$> dec c (default (zero c) old) v else Ok None)
    (λ o, match o with Some a => valid c a ∧ not_null (enc c a) = true | None => True end) _).
  intros [a|]; [|done]. intros [Ha Hn]. rewrite Hn. simpl. by rewrite dec_enc.
Defined.

(** A slice; nil and empty are one value. *)
Definition c_slice {A} (c : codec A) : codec (list A).
Proof.
  refine (Codec [] (λ l, JArray (enc c <$> l))
    (λ old v, match v with JNull => Ok [] | JArray l => mapM (dec c (zero c)) l | _ => Err mismatch end)
    (Forall (valid c)) _).
  intros l Hl. change (mapM (dec c (zero c)) (enc c <$> l) = Ok l).
  induction Hl as [|a l Ha Hl IH]; [done|]. rewrite fmap_cons. cbn [mapM].
  rewrite dec_enc by done. cbn [mbind outcome_bind]. by rewrite IH.
Defined.

(** [map[string]T], possibly nil; keys are written in order. *)
Definition key_le {A} (x y : string * A) : Prop := String.leb x.1 y.1 = true.
#[export] Instance key_le_dec {A} (x y : string * A) : Decision (key_le x y) := bool_eq_dec _ _.

Definition dec_members {A} (c : codec A) (old : gmap string A) (ms : list (string * json)) : outcome (gmap string A) :=
  foldl (λ acc kv, m ← acc; v ← dec c (zero c) kv.2; Ok (<[kv.1 := v]> m)) (Ok old) ms.

Lemma dec_members_enc {A} (c : codec A) (l : list (string * A)) old :
  Forall (λ kv, valid c kv.2) l →
  dec_members c old ((λ kv, (kv.1, enc c kv.2)) <$> l) = Ok (foldl (λ m kv, <[kv.1 := kv.2]> m) old l).
Proof.
  intros H. revert old. induction H as [|[k a] l Ha H IH]; intros old; [done|]. unfold dec_members in *. simpl.
  rewrite dec_enc by done. simpl. apply IH.
Qed.

Lemma foldl_insert {A} (l : list (string * A)) :
  foldl (λ m kv, <[kv.1 := kv.2]> m) (∅ : gmap string A) l = list_to_map (reverse l).
Proof.
  induction l as [|[k a] l IH] using rev_ind; [done|]. rewrite foldl_snoc, IH, reverse_snoc. done.
Qed.

Definition c_map {A} (c : codec A) : codec (option (gmap string A)).
Proof.
  refine (Codec None
    (λ o, match o with
          | Some m => JObject ((λ kv, (kv.1, enc c kv.2)) <$> merge_sort key_le (map_to_list m))
          | None => JNull
          end)
    (λ old v, match v with
              | JNull => Ok None
              | JObject ms => Some <$> dec_members c (default ∅ old) ms
              | _ => Err mismatch
              end)
    (λ o, match o with Some m => map_Forall (λ _, valid c) m | None => True end) _).
  intros [m|]; [|done]. intros Hm. set (l := merge_sort _ _).
  assert (l ≡ₚ map_to_list m) as Hl by apply merge_sort_Permutation.
  rewrite dec_members_enc.
  - cbn [from_option]. rewrite foldl_insert. cbn [fmap outcome_fmap]. do 2 f_equal.
    assert (reverse l ≡ₚ map_to_list m) as Hp by (by rewrite reverse_Permutation).
    transitivity (list_to_map (map_to_list m) : gmap string A); [|apply list_to_map_to_list].
    apply list_to_map_proper; [|done].
    rewrite Hp. apply NoDup_fst_map_to_list.
  - rewrite Hl. apply Forall_forall. intros [k a] Hin%elem_of_map_to_list. by apply (Hm k).
Defined.

(** [interface{}]: kept as the tree. *)
Definition c_any : codec json.
Proof. by refine (Codec JNull id (λ _ v, Ok v) (λ _, True) _). Defined.

(** ** Structs *)

Definition members_of (f : string) (ms : list (string * json)) : list json :=
  snd <$> List.filter (λ kv, bool_decide (ToLower kv.1 = f)) ms.

Definition member {A} (f : string) (c : codec A) (a : A) : list (string * json) := [(f, enc c a)].

(** A member tagged [omitempty]. *)
Definition omitempty {A} (f : string) (c : codec A) (is_zero : bool) (a : A) : list (string * json) :=
  if is_zero then [] else [(f, enc c a)].

Definition field {A} (f : string) (c : codec A) (ms : list (string * json)) : outcome A :=
  foldl (λ acc v, a ← acc; dec c a v) (Ok (zero c)) (members_of f ms).

Lemma members_of_app f l1 l2 : members_of f (l1 ++ l2) = members_of f l1 ++ members_of f l2.
Proof. unfold members_of. by rewrite List.filter_app, fmap_app. Qed.

Lemma members_of_member {A} f g (c : codec A) a :
  members_of f (member g c a) = if bool_decide (ToLower g = f) then [enc c a] else [].
Proof. unfold members_of, member. simpl. by destruct (bool_decide _). Qed.

Lemma members_of_omitempty {A} f g (c : codec A) z a :
  members_of f (omitempty g c z a) =
  if bool_decide (ToLower g = f) then (if z then [] else [enc c a]) else [].
Proof. unfold members_of, omitempty. destruct z; simpl; by destruct (bool_decide _). Qed.

(** What a struct decoder needs: each field is found again. *)
Lemma field_found {A} f (c : codec A) ms a :
  valid c a → members_of f ms = [enc c a] → field f c ms = Ok a.
Proof. intros Hv Hm. unfold field. rewrite Hm. simpl. by apply dec_enc. Qed.

Lemma field_optional {A} f (c : codec A) ms z a :
  valid c a → (z = true → a = zero c) → members_of f ms = (if z then [] else [enc c a]) →
  field f c ms = Ok a.
Proof.
  intros Hv Hz Hm. unfold field. rewrite Hm. destruct z; simpl; [by rewrite Hz|by apply dec_enc].
Qed.

(** A struct from a JSON value. *)
Definition struct {A} (old : A) (decode : list (string * json) → outcome A) (v : json) : outcome A :=
  match v with
  | JNull => Ok old
  | JObject ms => decode ms
  | _ => Err mismatch
  end.

Definition is_none {A} (o : option A) : bool := match o with None => true | Some _ => false end.
Definition is_nil {A} (l : list A) : bool := match l with [] => true | _ => false end.

(** Finds a member among the members of an encoded struct. *)
Ltac find_member :=
  rewrite ?members_of_app, ?members_of_member, ?members_of_omitempty;
  repeat match goal with
  | |- context [bool_decide (ToLower ?g = ?f)] =>
      let b := eval vm_compute in (bool_decide (ToLower g = f)) in
      change (bool_decide (ToLower g = f)) with b
  end;
  cbv iota; rewrite ?app_nil_l, ?app_nil_r; reflexivity.
(** Decodes the next field; leaves the validity of its value and, for an
    optional one, that it is omitted only when zero. *)
Ltac decode_field :=
  match goal with
  | |- field ?f ?c ?ms ≫= _ = _ =>
      first [ erewrite (field_found f c ms); [ | | find_member ]
            | erewrite (field_optional f c ms); [ | | | find_member ] ];
      cbn [mbind outcome_bind]
  end.

(** What [decode_field] leaves, from the validity of the struct, whose fields
    are variables. *)
Ltac field_valid :=
  unfold is_none, is_nil, is_empty; cbn;
  first [ done | tauto | by intros ???
        | match goal with |- context [match ?x with _ => _ end] => destruct x end; cbn;
          first [ done | tauto | by intros ??? ] ].
Ltac decode_struct := repeat (decode_field; [|field_valid..]).
