(* ===== verification/Clock.v ===== *)
(** * Vector clocks (internal/sync/vectorclock.go)

    [VectorClock.t] is the Go type [map[string]int64].  The loops over a Go map
    are written over an explicit enumeration of its entries, so that the
    theorems cover every iteration order; the operations themselves use the
    canonical one.  A clock is read through [Get], where a missing peer counts
    0: [≡ᵥ] identifies the clocks that no reader can tell apart. *)

From S2P Require Import Prelude.

Module VectorClock.

Abbreviation t := (gmap string Z).

Definition NewVectorClock : t := ∅.

Definition Get (vc : t) (peerID : string) : Z := map_get 0 vc peerID.

Definition Increment (vc : t) (peerID : string) : t :=
  <[peerID := Get vc peerID +! 1]> vc.

Definition Set_ (vc : t) (peerID : string) (value : Z) : t :=
  <[peerID := value]> vc.

(** Body of the loop of [Merge]. *)
Definition merge_entry (vc : t) (e : string * Z) : t :=
  if Get vc e.1 <? e.2 then <[e.1 := e.2]> vc else vc.

Definition merge_loop (vc : t) (entries : list (string * Z)) : t :=
  foldl merge_entry vc entries.

Definition Merge (vc other : t) : t := merge_loop vc (map_to_list other).

(** Body of the loop of [Compare] over the peers of both clocks. *)
Definition compare_peer (vc other : t) (acc : bool * bool) (peerID : string) : bool * bool :=
  let '(less, greater) := acc in
  let v1 := Get vc peerID in
  let v2 := Get other peerID in
  if v1 <? v2 then (true, greater)
  else if v2 <? v1 then (less, true)
  else (less, greater).

Definition compare_loop (vc other : t) (peers : list string) : bool * bool :=
  foldl (compare_peer vc other) (false, false) peers.

Definition allPeers (vc other : t) : gset string := dom vc ∪ dom other.

Definition verdict (acc : bool * bool) : Z :=
  let '(less, greater) := acc in
  if less && negb greater then -1
  else if greater && negb less then 1
  else 0.

Definition Compare (vc other : t) : Z :=
  verdict (compare_loop vc other (elements (allPeers vc other))).

Definition IsConcurrent (vc other : t) : bool := Compare vc other =? 0.

(** The JSON text of a [map[string]int64], as a tree: [null] or an object with
    integer members; the empty text and anything else are not accepted by
    [json.Unmarshal]. *)
Inductive json : Type :=
  | JNull
  | JObject (members : t)
  | JEmpty
  | JOther.

(** A possibly nil map. *)
Definition MarshalJSON (vc : option t) : outcome json :=
  match vc with None => Ok JNull | Some m => Ok (JObject m) end.

Definition UnmarshalJSON (data : json) : outcome (option t) :=
  match data with
  | JNull => Ok None
  | JObject m => Ok (Some m)
  | JEmpty | JOther => Err "failed to unmarshal vector clock"
  end.

(** ** Abstract specification: the pointwise order *)

Definition vle (a b : t) : Prop := ∀ p, Get a p ≤ Get b p.
Definition veq (a b : t) : Prop := ∀ p, Get a p = Get b p.
Definition vlt (a b : t) : Prop := vle a b ∧ ∃ p, Get a p < Get b p.

(** Counters start at 0 and only grow: the clocks the program builds. *)
Definition wf (vc : t) : Prop := map_Forall (λ _ v, 0 ≤ v) vc.

End VectorClock.

Infix "≤ᵥ" := VectorClock.vle (at level 70) : go_scope.
Infix "≡ᵥ" := VectorClock.veq (at level 70) : go_scope.
Infix "<ᵥ" := VectorClock.vlt (at level 70) : go_scope.

Import VectorClock.

(** ** Reading updated clocks *)

Lemma Get_insert vc p q v : Get (<[p:=v]> vc) q = if decide (p = q) then v else Get vc q.
Proof.
  unfold Get, map_get. case_decide; subst.
  - by rewrite lookup_insert_eq.
  - by rewrite lookup_insert_ne.
Qed.

Lemma Get_Some vc p v : vc !! p = Some v → Get vc p = v.
Proof. unfold Get, map_get. by intros ->. Qed.

Lemma Get_not_in_dom vc p : p ∉ dom vc → Get vc p = 0.
Proof. unfold Get, map_get. by intros ->%not_elem_of_dom. Qed.

Lemma wf_Get vc p : wf vc → 0 ≤ Get vc p.
Proof.
  intros H. unfold Get, map_get. destruct (vc !! p) eqn:E; [by apply (H p)|done].
Qed.

#[export] Hint Rewrite Get_insert : go.
#[export] Hint Resolve wf_Get : go.

(** ** The order *)

#[export] Instance vle_preorder : PreOrder vle.
Proof. split; [by intros a p | intros a b c H1 H2 p; etrans; [apply H1|apply H2]]. Qed.

#[export] Instance veq_equivalence : Equivalence veq.
Proof.
  split; [by intros a p | by intros a b H p | intros a b c H1 H2 p; by rewrite H1].
Qed.

#[export] Instance vle_antisymm : AntiSymm veq vle.
Proof. intros a b H1 H2 p. specialize (H1 p); specialize (H2 p). lia. Qed.

#[export] Instance Get_proper : Proper (veq ==> eq ==> eq) Get.
Proof. intros a b H p ? <-. apply H. Qed.

#[export] Instance vle_proper : Proper (veq ==> veq ==> iff) vle.
Proof.
  intros a a' Ha b b' Hb. unfold vle.
  split; intros H p; [rewrite <- (Ha p), <- (Hb p) | rewrite (Ha p), (Hb p)]; apply H.
Qed.

#[export] Instance vlt_proper : Proper (veq ==> veq ==> iff) vlt.
Proof.
  intros a a' Ha b b' Hb. unfold vlt. rewrite Ha, Hb.
  split; intros [H [p Hp]]; (split; [done|]); exists p;
    [rewrite <- (Ha p), <- (Hb p) | rewrite (Ha p), (Hb p)]; done.
Qed.

#[export] Instance vlt_strict : StrictOrder vlt.
Proof.
  split.
  - intros a [_ [p Hp]]. lia.
  - intros a b c [H1 [p Hp]] [H2 _]. split; [by etrans|].
    exists p. specialize (H2 p). lia.
Qed.

(** ** The loops *)

Lemma merge_entry_Get vc e q :
  Get (merge_entry vc e) q =
  if decide (e.1 = q) then Z.max (Get vc q) e.2 else Get vc q.
Proof.
  unfold merge_entry. destruct e as [p v]; simpl.
  destruct (Z.ltb_spec (Get vc p) v); autorewrite with go; case_decide; subst; lia.
Qed.

Lemma merge_loop_Get vc es q :
  NoDup es.*1 →
  Get (merge_loop vc es) q =
  match list_to_map (M:=gmap string Z) es !! q with
  | Some v => Z.max (Get vc q) v
  | None => Get vc q
  end.
Proof.
  revert vc. induction es as [|[p v] es IH]; intros vc; simpl; [done|].
  intros [Hp Hnd]%NoDup_cons. rewrite IH by done. rewrite merge_entry_Get; simpl.
  destruct (decide (p = q)) as [->|Hne].
  - rewrite lookup_insert_eq, not_elem_of_list_to_map_1; done.
  - by rewrite lookup_insert_ne.
Qed.

Lemma Merge_Get vc other q :
  Get (Merge vc other) q =
  match other !! q with Some v => Z.max (Get vc q) v | None => Get vc q end.
Proof.
  unfold Merge. rewrite merge_loop_Get by apply NoDup_fst_map_to_list.
  by rewrite list_to_map_to_list.
Qed.

Lemma Merge_Get_wf vc other q :
  wf vc → Get (Merge vc other) q = Z.max (Get vc q) (Get other q).
Proof.
  intros Hwf. rewrite Merge_Get. pose proof (wf_Get vc q Hwf).
  unfold Get at 4, map_get. destruct (other !! q); simpl; lia.
Qed.

Lemma compare_loop_spec vc other ps :
  compare_loop vc other ps =
  (existsb (λ p, Get vc p <? Get other p) ps, existsb (λ p, Get other p <? Get vc p) ps).
Proof.
  unfold compare_loop.
  enough (∀ l g, foldl (compare_peer vc other) (l, g) ps =
    (l || existsb (λ p, Get vc p <? Get other p) ps,
     g || existsb (λ p, Get other p <? Get vc p) ps)) as ->; [done|].
  induction ps as [|p ps IH]; intros l g; simpl; [by rewrite !orb_false_r|].
  destruct (Z.ltb_spec (Get vc p) (Get other p)); rewrite ?IH; simpl.
  - destruct (Z.ltb_spec (Get other p) (Get vc p)); [lia|].
    by rewrite orb_true_r.
  - destruct (Z.ltb_spec (Get other p) (Get vc p)); rewrite IH; simpl;
      by rewrite ?orb_true_r.
Qed.

Lemma existsb_allPeers vc other (f : Z → Z → bool) :
  f 0 0 = false →
  existsb (λ p, f (Get vc p) (Get other p)) (elements (allPeers vc other)) = true ↔
  ∃ p, f (Get vc p) (Get other p) = true.
Proof.
  intros Hz. rewrite existsb_exists. split; [intros (p & _ & Hp); eauto|].
  intros [p Hp]. exists p. split; [|done].
  apply list_elem_of_In, elem_of_elements. unfold allPeers.
  destruct (decide (p ∈ dom vc ∪ dom other)) as [|Hn]; [done|].
  rewrite (Get_not_in_dom vc), (Get_not_in_dom other) in Hp by set_solver. congruence.
Qed.

(** The two flags [Compare] computes, as propositions. *)
Definition some_less (a b : t) : Prop := ∃ p, Get a p < Get b p.

Lemma Compare_flags a b :
  ∃ l g, Compare a b = verdict (l, g) ∧
    (l = true ↔ some_less a b) ∧ (g = true ↔ some_less b a).
Proof.
  unfold Compare. rewrite compare_loop_spec. do 2 eexists. split; [done|].
  unfold some_less. split.
  - rewrite (existsb_allPeers a b Z.ltb) by done. by setoid_rewrite Z.ltb_lt.
  - rewrite (existsb_allPeers a b (λ x y, y <? x)) by done. by setoid_rewrite Z.ltb_lt.
Qed.

Lemma not_some_less a b : ¬ some_less b a ↔ a ≤ᵥ b.
Proof.
  unfold some_less, vle. split.
  - intros H p. destruct (decide (Get a p ≤ Get b p)); [done|].
    destruct H. exists p. lia.
  - intros H [p Hp]. specialize (H p). lia.
Qed.

Lemma Compare_lt_iff a b : Compare a b = -1 ↔ a <ᵥ b.
Proof.
  destruct (Compare_flags a b) as (l & g & -> & Hl & Hg). unfold vlt.
  rewrite <- not_some_less, <- Hg. change (∃ p, _) with (some_less a b). rewrite <- Hl.
  destruct l, g; simpl; naive_solver.
Qed.

Lemma Compare_swap a b : Compare b a = - Compare a b.
Proof.
  unfold Compare. rewrite !compare_loop_spec.
  assert (allPeers b a = allPeers a b) as -> by (unfold allPeers; set_solver).
  unfold verdict. by destruct (existsb _ _), (existsb _ _).
Qed.

Lemma Compare_gt_iff a b : Compare a b = 1 ↔ b <ᵥ a.
Proof. rewrite <- Compare_lt_iff, (Compare_swap a b). lia. Qed.

Lemma Compare_range a b : Compare a b = -1 ∨ Compare a b = 0 ∨ Compare a b = 1.
Proof.
  destruct (Compare_flags a b) as (l & g & -> & _). destruct l, g; simpl; auto.
Qed.

(** The iteration order of the Go map does not matter. *)
Lemma merge_loop_any_order a b entries :
  entries ≡ₚ map_to_list b → merge_loop a entries ≡ᵥ Merge a b.
Proof.
  intros Hperm q. assert (NoDup entries.*1) as Hnd.
  { rewrite Hperm. apply NoDup_fst_map_to_list. }
  rewrite (Merge_Get a b q), (merge_loop_Get a entries q Hnd).
  rewrite (list_to_map_proper entries _ Hnd Hperm).
  by rewrite list_to_map_to_list.
Qed.

Lemma Merge_le_l a b : wf a → a ≤ᵥ Merge a b.
Proof. intros Ha p. rewrite Merge_Get_wf by done. lia. Qed.

Lemma Merge_le_r a b : wf a → b ≤ᵥ Merge a b.
Proof. intros Ha p. rewrite Merge_Get_wf by done. lia. Qed.

Lemma Merge_wf a b : wf a → wf (Merge a b).
Proof.
  unfold Merge, merge_loop. generalize (map_to_list b). intros es. revert a.
  induction es as [|[p v] es IH]; intros a Ha; simpl; [done|]. apply IH.
  unfold merge_entry; simpl. destruct (Z.ltb_spec (Get a p) v); [|done].
  apply map_Forall_insert_2; [|done]. pose proof (wf_Get a p Ha). lia.
Qed.

#[export] Instance Increment_proper : Proper (veq ==> eq ==> veq) Increment.
Proof.
  intros a b H p ? <- q. unfold Increment. autorewrite with go. by rewrite (H p), (H q).
Qed.

Lemma Increment_wf vc p : wf vc → Get vc p < two63 - 1 → wf (Increment vc p).
Proof.
  intros Hwf Hlt. apply map_Forall_insert_2; [|done].
  pose proof (wf_Get vc p Hwf). rewrite wrap64_id; [lia|]. unfold in64, two63 in *. lia.
Qed.

Lemma Increment_le vc p : wf vc → Get vc p < two63 - 1 → vc ≤ᵥ Increment vc p.
Proof.
  intros Hwf Hlt q. pose proof (wf_Get vc p Hwf). unfold Increment. autorewrite with go.
  case_decide; [|done]. subst. rewrite wrap64_id; [lia|]. unfold in64, two63 in *. lia.
Qed.

Lemma Increment_lt vc p : wf vc → Get vc p < two63 - 1 → vc <ᵥ Increment vc p.
Proof.
  intros Hwf Hlt. pose proof (wf_Get vc p Hwf).
  assert (Get vc p +! 1 = Get vc p + 1) as E by (apply wrap64_id; unfold in64, two63 in *; lia).
  split; [intros q | exists p]; unfold Increment; autorewrite with go; rewrite E; case_decide; subst; (congruence || lia).
Qed.

#[export] Hint Resolve Merge_le_l Merge_le_r Merge_wf Increment_wf : go.

(** ** Properties *)

(** C13: [Compare] decides the causal order: it returns -1 exactly when the
    first clock is strictly below the second in the pointwise order, 1 exactly
    when it is strictly above, and 0 exactly when the two are indistinguishable
    or incomparable. *)
Theorem Compare_correct a b :
  (Compare a b = -1 ↔ a <ᵥ b) ∧ (Compare a b = 1 ↔ b <ᵥ a) ∧
  (Compare a b = 0 ↔ a ≡ᵥ b ∨ (¬ a ≤ᵥ b ∧ ¬ b ≤ᵥ a)).
Proof.
  split; [apply Compare_lt_iff|]. split; [apply Compare_gt_iff|].
  destruct (Compare_flags a b) as (l & g & -> & Hl & Hg).
  rewrite <- !not_some_less, <- Hl, <- Hg.
  assert (a ≡ᵥ b ↔ l = false ∧ g = false) as ->.
  { rewrite <- !not_true_iff_false, Hl, Hg, !not_some_less.
    split; [intros H; split; intros p; rewrite (H p); done|].
    intros [H1 H2]. by apply (anti_symm vle). }
  destruct l, g; simpl; naive_solver.
Qed.

(** C14: on the clocks the program builds (no negative counter) [Merge] is the
    least upper bound of the two clocks, whatever order the Go map iteration
    visits the other clock's entries in. *)
Theorem Merge_least_upper_bound a b entries :
  wf a → entries ≡ₚ map_to_list b →
  let m := merge_loop a entries in
  a ≤ᵥ m ∧ b ≤ᵥ m ∧ (∀ c, a ≤ᵥ c → b ≤ᵥ c → m ≤ᵥ c).
Proof.
  intros Ha Hperm m. pose proof (merge_loop_any_order a b entries Hperm) as Hm. fold m in Hm.
  rewrite !Hm. split; [auto with go|]. split; [auto with go|].
  intros c H1 H2. rewrite Hm. intros p. rewrite Merge_Get_wf by done.
  specialize (H1 p); specialize (H2 p). lia.
Qed.

Lemma Merge_least_upper_bound_witness :
  let a : VectorClock.t := {["p" := 2; "q" := 1]} in
  let b : VectorClock.t := {["q" := 4; "r" := 1]} in
  let m := merge_loop a [("r", 1); ("q", 4)]%string in
  a ≤ᵥ m ∧ b ≤ᵥ m ∧ (∀ c, a ≤ᵥ c → b ≤ᵥ c → m ≤ᵥ c).
Proof.
  apply Merge_least_upper_bound; [by apply (bool_decide_unpack _)|].
  vm_compute. first [reflexivity | apply Permutation_swap].
Defined.

(** a local event ([Increment]) moves the clock strictly up as long as the
    counter has not reached the largest [int64], and a clock that has merged the
    result is never reported older than or concurrent with the old one. *)
Theorem Increment_advances vc p other :
  wf vc → wf other → Get vc p < two63 - 1 →
  Compare vc (Increment vc p) = -1 ∧
  Compare vc (Merge other (Increment vc p)) = -1.
Proof.
  intros Hwf Ho Hlt. rewrite !Compare_lt_iff.
  pose proof (Increment_lt vc p Hwf Hlt) as H. split; [done|]. destruct H as [H1 [q Hq]].
  pose proof (Merge_le_r other (Increment vc p) Ho) as H2.
  split; [by etrans | exists q; specialize (H2 q); lia].
Qed.

Lemma Increment_advances_witness :
  let vc : VectorClock.t := {["p" := 2]} in
  Compare vc (Increment vc "p") = -1 ∧
  Compare vc (Merge {["q" := 7]} (Increment vc "p")) = -1.
Proof.
  apply Increment_advances; [by apply (bool_decide_unpack _)..|vm_compute; reflexivity].
Defined.

Lemma json_roundtrip vc : MarshalJSON vc ≫= UnmarshalJSON = Ok vc.
Proof. by destruct vc. Qed.
