(* ===== verification/Conflict.v ===== *)
(** * Conflict resolution (internal/sync/conflict/resolver.go, merge.go)

    [Merge] is merge.go: the two-way merge by common prefix and suffix.
    [Resolver] is resolver.go: causal order first, then last-write-wins or the
    merge, and the three-way merge on whole strings. *)

From Stdlib Require Import Strings.Byte Strings.Ascii Strings.String.
From S2P Require Import Prelude GoStrings Clock.

Module ConflictOp.
(** [conflict.SyncOperation]. *)
Record t : Type := mk {
  ID : string; Type_ : string; Path : string; FromPath : option string;
  FileID : string; Checksum : string; Size : Z; Timestamp : Z; PeerID : string;
  Data : bytes
}.
End ConflictOp.

Module Merge.

Abbreviation lines := (list string).

Fixpoint findCommonPrefix (lines1 lines2 : lines) : lines :=
  match lines1, lines2 with
  | x :: l1, y :: l2 => if decide (x = y) then x :: findCommonPrefix l1 l2 else []
  | _, _ => []
  end.

(** The loop walks both arrays from the end and prepends what it finds. *)
Definition findCommonSuffix (lines1 lines2 : lines) : lines :=
  reverse (findCommonPrefix (reverse lines1) (reverse lines2)).

Definition contains (ls : lines) (line : string) : bool := bool_decide (line ∈ ls).

Definition areDisjoint (lines1 lines2 : lines) : bool :=
  negb (existsb (λ line, contains lines1 line) lines2).

Definition getLinePrefix (line : string) : string :=
  match SplitN2 ":" line with
  | (p, Some _) =>
      let prefix := TrimSpace p in
      if HasPrefix prefix "Line " || Contains prefix " " then (prefix +:+ ":")%string else ""
  | (_, None) => ""
  end.

Definition isModificationOf (line : string) (ls : lines) : bool :=
  let linePrefix := getLinePrefix line in
  if is_empty linePrefix then false
  else existsb (λ l, bool_decide (getLinePrefix l = linePrefix)) ls.

(** [lines[start:end]] when [end > start], the nil slice otherwise. *)
Definition middle (ls : lines) (start stop : nat) : lines :=
  if (start <? stop)%nat then drop start (take stop ls) else [].

(** The two middles differ and neither is empty. *)
Definition mergeBoth (middle1 middle2 suffix : lines) : lines :=
  let middleSuffix := findCommonSuffix middle1 middle2 in
  let before1 := take (length middle1 - length middleSuffix) middle1 in
  let before2 := take (length middle2 - length middleSuffix) middle2 in
  match before1, before2 with
  | [], [] => middleSuffix
  | [], _ => before2 ++ middleSuffix
  | _, [] => before1 ++ middleSuffix
  | _, _ =>
      if negb (areDisjoint before1 before2) then
        before2 ++ middleSuffix ++
        List.filter (λ line, negb (contains before2 line) && negb (contains middleSuffix line)
                             && negb (isModificationOf line before2)) before1
      else if (0 <? length middleSuffix)%nat then
        before2 ++ middleSuffix ++ List.filter (λ line, negb (contains before2 line)) before1
      else if (0 <? length suffix)%nat then
        ["<<<<<<< branch1"%string] ++ before1 ++ ["======="%string] ++ before2 ++ [">>>>>>> branch2"%string]
      else before1 ++ before2
  end.

Definition mergeLinesDiff (lines1 lines2 : lines) : lines :=
  let prefix := findCommonPrefix lines1 lines2 in
  let suffix := findCommonSuffix lines1 lines2 in
  let middle1 := middle lines1 (length prefix) (length lines1 - length suffix) in
  let middle2 := middle lines2 (length prefix) (length lines2 - length suffix) in
  prefix ++
  match middle1, middle2 with
  | [], [] => []
  | [], _ => middle2
  | _, [] => middle1
  | _, _ => mergeBoth middle1 middle2 suffix
  end ++ suffix.

Definition mergeLines (lines1 lines2 : lines) : lines := mergeLinesDiff lines1 lines2.

Definition maxInt64 (a b : Z) : Z := if b <? a then a else b.

Definition mergedText (data1 data2 : bytes) : bytes :=
  to_bytes (Join newline (mergeLines (Split newline (of_bytes data1)) (Split newline (of_bytes data2)))).

Definition ThreeWayMerge (op1 op2 : ConflictOp.t) : outcome ConflictOp.t :=
  Ok (ConflictOp.mk op1.(ConflictOp.ID) op1.(ConflictOp.Type_) op1.(ConflictOp.Path)
        op1.(ConflictOp.FromPath) op1.(ConflictOp.FileID) ""
        op1.(ConflictOp.Size)
        (maxInt64 op1.(ConflictOp.Timestamp) op2.(ConflictOp.Timestamp) +! 1)
        op1.(ConflictOp.PeerID) (mergedText op1.(ConflictOp.Data) op2.(ConflictOp.Data))).

(** Helpers of merge.go that the merge itself no longer calls. *)
Definition canMergeMiddles (middle1 middle2 : lines) : bool := true.

Definition isSubset (lines1 lines2 : lines) : bool :=
  if (length lines2 <? length lines1)%nat then false
  else forallb (λ line, contains lines2 line) lines1.

Definition mergeMiddles (middle1 middle2 : lines) : lines :=
  if isSubset middle1 middle2 then middle2
  else if isSubset middle2 middle1 then middle1
  else middle1 ++ middle2.

Definition findNextMatch (ls : lines) (start : nat) (target : string) : Z :=
  match list_find (λ l, l = target) (drop start ls) with
  | Some (i, _) => Z.of_nat (start + i)
  | None => -1
  end.

Fixpoint is_prefix_of (lines2 lines1 : lines) : bool :=
  match lines2, lines1 with
  | [], _ => true
  | y :: l2, x :: l1 => bool_decide (x = y) && is_prefix_of l2 l1
  | _ :: _, [] => false
  end.

Definition isAddition (lines1 lines2 : lines) : bool :=
  if (length lines1 <? length lines2)%nat then false else is_prefix_of lines2 lines1.

End Merge.

Module Resolver.

Import Merge.

Record t : Type := mk { strategy : string }.

Definition NewResolver (strategy : string) : t := mk strategy.

(** resolver.go repeats the text of [VectorClock.Compare] on its own map type. *)
Definition compareVectorClocks (vc1 vc2 : VectorClock.t) : Z :=
  VectorClock.verdict
    (VectorClock.compare_loop vc1 vc2 (elements (VectorClock.allPeers vc1 vc2))).

Definition isConcurrent (vc1 vc2 : VectorClock.t) : bool := compareVectorClocks vc1 vc2 =? 0.

Definition isTextFile (data : bytes) : bool :=
  match data with
  | [] => false
  | _ => forallb (λ b, let n := Byte.to_N b in
                       negb ((n <? 32) && negb (n =? 9) && negb (n =? 10) && negb (n =? 13)))%N data
  end.

Definition lastWriteWins (op1 op2 : ConflictOp.t) : ConflictOp.t :=
  if op2.(ConflictOp.Timestamp) <? op1.(ConflictOp.Timestamp) then op1
  else if op1.(ConflictOp.Timestamp) <? op2.(ConflictOp.Timestamp) then op2
  else if (op1.(ConflictOp.PeerID) <? op2.(ConflictOp.PeerID))%string then op1
  else op2.

Definition intelligentMerge (op1 op2 : ConflictOp.t) : outcome ConflictOp.t :=
  if (0 <? length op1.(ConflictOp.Data))%nat && (0 <? length op2.(ConflictOp.Data))%nat
     && isTextFile op1.(ConflictOp.Data) && isTextFile op2.(ConflictOp.Data) then
    match ThreeWayMerge op1 op2 with
    | Ok merged => Ok merged
    | Err _ => Ok (lastWriteWins op1 op2)
    | Panic w => Panic w
    end
  else Ok (lastWriteWins op1 op2).

Definition ResolveConflict (r : t) (op1 op2 : ConflictOp.t) (vc1 vc2 : VectorClock.t) : outcome ConflictOp.t :=
  if negb (isConcurrent vc1 vc2) then
    if compareVectorClocks vc1 vc2 <? 0 then Ok op2 else Ok op1
  else if bool_decide (r.(strategy) = "intelligent_merge"%string) then intelligentMerge op1 op2
  else Ok (lastWriteWins op1 op2).

(** [filepath.Ext]: from the last dot of the last path element. *)
Fixpoint ext_scan (rev_path : list ascii) (acc : list ascii) : list ascii :=
  match rev_path with
  | [] => []
  | c :: r => if Ascii.eqb c "/" then []
              else if Ascii.eqb c "." then c :: acc
              else ext_scan r (c :: acc)
  end.

Definition Ext (path : string) : string :=
  string_of_list_ascii (ext_scan (reverse (list_ascii_of_string path)) []).

Definition textExtensions : list string :=
  [".txt"; ".md"; ".go"; ".py"; ".js"; ".ts"; ".json"; ".yaml"; ".yml"; ".xml"; ".html"; ".css"]%string.

Definition SelectStrategy (r : t) (op : ConflictOp.t) : outcome string :=
  let ext := ToLower (Ext op.(ConflictOp.Path)) in
  if bool_decide (ext ∈ textExtensions) then Ok "intelligent_merge"%string
  else if isTextFile op.(ConflictOp.Data) then Ok "intelligent_merge"%string
  else Ok "last_write_wins"%string.

Definition ResolveLWW (r : t) (op1 op2 : ConflictOp.t) : outcome ConflictOp.t :=
  Ok (lastWriteWins op1 op2).

Definition ResolveLWWFallback (r : t) (content1 content2 : string) (ts1 ts2 : Z) : string :=
  if ts2 <? ts1 then content1 else if ts1 <? ts2 then content2 else content1.

(** *** The three-way merge on strings *)

Fixpoint findCommonPrefixCount (base lines1 lines2 : lines) : nat :=
  match base, lines1, lines2 with
  | b :: bs, x :: xs, y :: ys =>
      if decide (b = x) then if decide (b = y) then S (findCommonPrefixCount bs xs ys) else O else O
  | _, _, _ => O
  end.

Definition findCommonSuffixCount (base lines1 lines2 : lines) : nat :=
  findCommonPrefixCount (reverse base) (reverse lines1) (reverse lines2).

Definition extractMiddle (ls : lines) (prefixCount suffixCount : nat) : lines :=
  if (length ls <=? prefixCount + suffixCount)%nat then []
  else drop prefixCount (take (length ls - suffixCount) ls).

Fixpoint arraysEqual (a b : lines) : bool :=
  match a, b with
  | [], [] => true
  | x :: a', y :: b' => bool_decide (x = y) && arraysEqual a' b'
  | _, _ => false
  end.

Definition min3 (a b c : Z) : Z :=
  if a <? b then (if a <? c then a else c) else if b <? c then b else c.

Definition threeWayMergeWithBase (base branch1 branch2 : string) : outcome string :=
  let baseLines := Split newline base in
  let lines1 := Split newline branch1 in
  let lines2 := Split newline branch2 in
  if bool_decide (branch1 = base) then Ok branch2
  else if bool_decide (branch2 = base) then Ok branch1
  else if bool_decide (branch1 = branch2) then Ok branch1
  else
    let commonPrefix := findCommonPrefixCount baseLines lines1 lines2 in
    let commonSuffix := findCommonSuffixCount baseLines lines1 lines2 in
    let baseMiddle := extractMiddle baseLines commonPrefix commonSuffix in
    let middle1 := extractMiddle lines1 commonPrefix commonSuffix in
    let middle2 := extractMiddle lines2 commonPrefix commonSuffix in
    if negb (arraysEqual baseMiddle middle1) && negb (arraysEqual baseMiddle middle2)
       && negb (arraysEqual middle1 middle2) then
      Ok (Join newline
            (take commonPrefix baseLines ++ ["<<<<<<< HEAD"%string] ++ middle1 ++ ["======="%string]
             ++ middle2 ++ [">>>>>>> remote"%string]
             ++ (if (0 <? commonSuffix)%nat then drop (length baseLines - commonSuffix) baseLines else [])))
    else if negb (arraysEqual baseMiddle middle1) then Ok branch1
    else Ok branch2.

Definition Resolve3Way (r : t) (base branch1 branch2 : string) : outcome string :=
  threeWayMergeWithBase base branch1 branch2.

End Resolver.
