(* ===== verification/ConflictProps.v ===== *)
(** * Properties of conflict resolution *)

From Stdlib Require Import Strings.Byte Strings.Ascii Strings.String.
From S2P Require Import Prelude GoStrings Clock Conflict.
Import Merge Resolver.

(** ** Common prefixes and suffixes *)

Lemma findCommonPrefix_l l1 l2 : findCommonPrefix l1 l2 `prefix_of` l1.
Proof.
  revert l2. induction l1 as [|x l1 IH]; intros [|y l2]; simpl; try apply prefix_nil.
  case_decide; [by apply prefix_cons|apply prefix_nil].
Qed.

Lemma findCommonPrefix_comm l1 l2 : findCommonPrefix l1 l2 = findCommonPrefix l2 l1.
Proof.
  revert l2. induction l1 as [|x l1 IH]; intros [|y l2]; simpl; try done.
  repeat case_decide; subst; try done. by rewrite IH.
Qed.

Lemma findCommonPrefix_r l1 l2 : findCommonPrefix l1 l2 `prefix_of` l2.
Proof. rewrite findCommonPrefix_comm. apply findCommonPrefix_l. Qed.

Lemma findCommonPrefix_self l : findCommonPrefix l l = l.
Proof. induction l; simpl; [done|]. rewrite decide_True by done. by f_equal. Qed.

(** What follows the common prefix differs at the first line. *)
Lemma findCommonPrefix_next k1 k2 l1 l2 x y :
  l1 = findCommonPrefix l1 l2 ++ x :: k1 → l2 = findCommonPrefix l1 l2 ++ y :: k2 → x ≠ y.
Proof.
  revert l2. induction l1 as [|a l1 IH]; intros [|b l2]; simpl; try done.
  case_decide as E; simpl.
  - subst. intros [= H1] [= H2]. eauto.
  - by intros [= -> _] [= -> _].
Qed.

Lemma findCommonSuffix_l l1 l2 : findCommonSuffix l1 l2 `suffix_of` l1.
Proof.
  unfold findCommonSuffix. rewrite <- (reverse_involutive l1) at 2.
  apply prefix_suffix_reverse. apply findCommonPrefix_l.
Qed.

Lemma findCommonSuffix_comm l1 l2 : findCommonSuffix l1 l2 = findCommonSuffix l2 l1.
Proof. unfold findCommonSuffix. by rewrite findCommonPrefix_comm. Qed.

Lemma findCommonSuffix_r l1 l2 : findCommonSuffix l1 l2 `suffix_of` l2.
Proof. rewrite findCommonSuffix_comm. apply findCommonSuffix_l. Qed.

Lemma findCommonSuffix_self l : findCommonSuffix l l = l.
Proof. unfold findCommonSuffix. by rewrite findCommonPrefix_self, reverse_involutive. Qed.

Lemma findCommonSuffix_next k1 k2 l1 l2 x y :
  l1 = k1 ++ x :: findCommonSuffix l1 l2 → l2 = k2 ++ y :: findCommonSuffix l1 l2 → x ≠ y.
Proof.
  intros H1 H2. apply (findCommonPrefix_next (reverse k1) (reverse k2) (reverse l1) (reverse l2)).
  - rewrite H1 at 1. unfold findCommonSuffix.
    by rewrite reverse_app, reverse_cons, reverse_involutive, <- app_assoc.
  - rewrite H2 at 1. unfold findCommonSuffix.
    by rewrite reverse_app, reverse_cons, reverse_involutive, <- app_assoc.
Qed.

Lemma findCommonSuffix_last_ne k1 k2 x y :
  x ≠ y → findCommonSuffix (k1 ++ [x]) (k2 ++ [y]) = [].
Proof.
  intros Hne. unfold findCommonSuffix. rewrite !reverse_snoc. simpl.
  by rewrite decide_False.
Qed.

(** ** Splitting a text around its common prefix and suffix *)

Lemma middle_app (p m s : lines) :
  middle (p ++ m ++ s) (length p) (length (p ++ m ++ s) - length s) = m.
Proof.
  unfold middle. rewrite !length_app.
  replace (length p + (length m + length s) - length s)%nat with (length p + length m)%nat by lia.
  destruct (Nat.ltb_spec (length p) (length p + length m)) as [|Hge].
  - rewrite app_assoc, <- length_app, take_app_length. apply drop_app_length.
  - destruct m; [done|simpl in Hge; lia].
Qed.

(** Of two suffixes of a list the shorter one is a suffix of the longer. *)
Lemma suffix_shorter {A} (l k1 k2 : list A) :
  k1 `suffix_of` l → k2 `suffix_of` l → (length k1 ≤ length k2)%nat → k1 `suffix_of` k2.
Proof.
  intros H1 H2 Hlen. destruct (suffix_weak_total k1 k2 l H1 H2) as [|H]; [done|].
  assert (k2 = k1) as ->; [|done]. by apply suffix_length_eq.
Qed.

Lemma prefix_suffix_split (l p s : lines) :
  p `prefix_of` l → s `suffix_of` l → (length p + length s ≤ length l)%nat →
  ∃ m, l = p ++ m ++ s.
Proof.
  intros [k1 ->] Hs Hlen. rewrite length_app in Hlen.
  destruct (suffix_shorter (p ++ k1) s k1) as [m ->]; [done|by exists p|lia|]. eauto.
Qed.

(** Either the prefix and the suffix do not overlap, and the middle is what is
    between them, or they overlap and the middle is empty. *)
Lemma middle_cases (l p s : lines) :
  p `prefix_of` l → s `suffix_of` l →
  l = p ++ middle l (length p) (length l - length s) ++ s ∨
  (length l < length p + length s)%nat ∧ middle l (length p) (length l - length s) = [].
Proof.
  intros Hp Hs. destruct (decide (length p + length s ≤ length l)%nat) as [Hle|Hgt].
  - left. destruct (prefix_suffix_split l p s Hp Hs Hle) as [m ->]. by rewrite middle_app.
  - right. split; [lia|]. unfold middle. by destruct (Nat.ltb_spec (length p) (length l - length s)); [lia|].
Qed.

Lemma overlap_sublist (l p s : lines) :
  p `prefix_of` l → s `suffix_of` l → (length l ≤ length p + length s)%nat →
  l `sublist_of` p ++ s.
Proof.
  intros [k1 ->] Hs Hlen. rewrite length_app in Hlen.
  apply sublist_app; [done|].
  destruct (suffix_shorter (p ++ k1) k1 s) as [k ->]; [by exists p|done|lia|].
  by apply sublist_inserts_l.
Qed.

(** ** The merge without its unreachable branches *)

Definition mergeBoth_ref (m1 m2 suffix : lines) : lines :=
  if existsb (λ line, contains m1 line) m2 then
    m2 ++ List.filter (λ line, negb (contains m2 line) && negb (isModificationOf line m2)) m1
  else match suffix with
       | [] => m1 ++ m2
       | _ => ["<<<<<<< branch1"%string] ++ m1 ++ ["======="%string] ++ m2 ++ [">>>>>>> branch2"%string]
       end.

Definition mergeLines_ref (lines1 lines2 : lines) : lines :=
  let p := findCommonPrefix lines1 lines2 in
  let s := findCommonSuffix lines1 lines2 in
  let m1 := middle lines1 (length p) (length lines1 - length s) in
  let m2 := middle lines2 (length p) (length lines2 - length s) in
  p ++ (match m1, m2 with
        | [], _ => m2
        | _, [] => m1
        | _, _ => mergeBoth_ref m1 m2 s
        end) ++ s.

Lemma mergeBoth_no_suffix m1 m2 s :
  m1 ≠ [] → m2 ≠ [] → findCommonSuffix m1 m2 = [] → mergeBoth m1 m2 s = mergeBoth_ref m1 m2 s.
Proof.
  intros H1 H2 Hs. unfold mergeBoth, mergeBoth_ref. rewrite Hs. simpl.
  rewrite !Nat.sub_0_r, !take_ge by lia.
  destruct m1 as [|x m1], m2 as [|y m2]; try done.
  unfold areDisjoint. rewrite negb_involutive.
  destruct (existsb _ _).
  - f_equal. apply filter_ext. intros line. by rewrite andb_true_r.
  - destruct s; done.
Qed.

Lemma last_exists {A} (m : list A) : m ≠ [] → ∃ m' x, m = m' ++ [x].
Proof. destruct m as [|x m' _] using rev_ind; [done|eauto]. Qed.

(** The suffix taken from the whole texts leaves nothing common at the end of
    the two middles. *)
Lemma middles_no_suffix lines1 lines2 :
  let p := findCommonPrefix lines1 lines2 in
  let s := findCommonSuffix lines1 lines2 in
  let m1 := middle lines1 (length p) (length lines1 - length s) in
  let m2 := middle lines2 (length p) (length lines2 - length s) in
  m1 ≠ [] → m2 ≠ [] → findCommonSuffix m1 m2 = [].
Proof.
  intros p s m1 m2 H1 H2.
  destruct (middle_cases lines1 p s) as [E1|[_ E1]];
    [apply findCommonPrefix_l|apply findCommonSuffix_l| |by destruct H1].
  destruct (middle_cases lines2 p s) as [E2|[_ E2]];
    [apply findCommonPrefix_r|apply findCommonSuffix_r| |by destruct H2].
  fold m1 in E1. fold m2 in E2.
  destruct (last_exists m1 H1) as (k1 & x & F1), (last_exists m2 H2) as (k2 & y & F2).
  rewrite F1, F2. apply findCommonSuffix_last_ne.
  apply (findCommonSuffix_next (p ++ k1) (p ++ k2) lines1 lines2); fold s.
  - rewrite E1 at 1. by rewrite F1, <- !app_assoc.
  - rewrite E2 at 1. by rewrite F2, <- !app_assoc.
Qed.

Lemma mergeLinesDiff_ref lines1 lines2 :
  mergeLinesDiff lines1 lines2 = mergeLines_ref lines1 lines2.
Proof.
  unfold mergeLinesDiff, mergeLines_ref. f_equal. f_equal.
  pose proof (middles_no_suffix lines1 lines2) as Hs. simpl in Hs. revert Hs.
  generalize (middle lines1 (length (findCommonPrefix lines1 lines2))
                (length lines1 - length (findCommonSuffix lines1 lines2))) as m1.
  generalize (middle lines2 (length (findCommonPrefix lines1 lines2))
                (length lines2 - length (findCommonSuffix lines1 lines2))) as m2.
  intros [|y m2] [|x m1] Hs; try done. apply mergeBoth_no_suffix; auto.
Qed.

Lemma mergeBoth_ref_keeps m1 m2 s : m2 `sublist_of` mergeBoth_ref m1 m2 s.
Proof.
  unfold mergeBoth_ref. destruct (existsb _ _); [by apply sublist_inserts_r|].
  destruct s; [by apply sublist_inserts_l|].
  do 3 apply sublist_inserts_l. by apply sublist_inserts_r.
Qed.

(** A line of the first text either stays, or counts as a modification. *)
Lemma mergeBoth_ref_first m1 m2 s line :
  line ∈ m1 → line ∈ mergeBoth_ref m1 m2 s ∨ isModificationOf line m2 = true.
Proof.
  intros Hin. unfold mergeBoth_ref. destruct (existsb _ _).
  - destruct (isModificationOf line m2) eqn:E; [by right|left].
    apply elem_of_app. destruct (contains m2 line) eqn:C.
    + left. by apply bool_decide_eq_true in C.
    + right. apply list_elem_of_In, filter_In. rewrite C, E.
      split; [by apply list_elem_of_In|done].
  - left. destruct s; set_solver.
Qed.

(** The merged text, given that the parts cover the two texts. *)
Definition part (l p m s : lines) : Prop :=
  l = p ++ m ++ s ∨ (length l < length p + length s)%nat ∧ m = [].

Definition merge_parts (p m1 m2 s : lines) : lines :=
  p ++ (match m1, m2 with [], _ => m2 | _, [] => m1 | _, _ => mergeBoth_ref m1 m2 s end) ++ s.

Lemma merge_parts_second l2 p m1 m2 s :
  p `prefix_of` l2 → s `suffix_of` l2 → part l2 p m2 s → l2 `sublist_of` merge_parts p m1 m2 s.
Proof.
  intros Hp Hs Hpart. unfold merge_parts.
  assert (l2 `sublist_of` p ++ m2 ++ s) as H.
  { destruct Hpart as [<-|[Hlt ->]]; [done|]. apply (overlap_sublist l2 p s); auto; lia. }
  rewrite H. apply sublist_app; [done|]. apply sublist_app; [|done].
  destruct m1, m2; try done; [apply sublist_nil_l|apply mergeBoth_ref_keeps].
Qed.

Lemma isModificationOf_mono line m l :
  (∀ x, x ∈ m → x ∈ l) → isModificationOf line m = true → isModificationOf line l = true.
Proof.
  intros Hsub. unfold isModificationOf. destruct (is_empty _); [done|].
  rewrite !existsb_exists. intros (x & Hx & E). exists x. split; [|done].
  apply list_elem_of_In, Hsub, list_elem_of_In, Hx.
Qed.

Lemma merge_parts_first l1 l2 p s m1 m2 line :
  p `prefix_of` l1 → s `suffix_of` l1 → part l1 p m1 s → part l2 p m2 s → line ∈ l1 →
  line ∈ merge_parts p m1 m2 s ∨ isModificationOf line l2 = true.
Proof.
  intros Hp Hs H1 H2 Hin. unfold merge_parts.
  assert (line ∈ p ++ m1 ++ s) as Hin'.
  { destruct H1 as [<-|[Hlt ->]]; [done|].
    apply (elem_of_sublist l1); [done|]. apply (overlap_sublist l1 p s); auto; lia. }
  assert (∀ x, x ∈ m2 → x ∈ l2) as Hsub.
  { destruct H2 as [->|[_ ->]]; set_solver. }
  rewrite !elem_of_app in Hin' |- *.
  destruct Hin' as [?|[Hm|?]]; [auto| |auto].
  destruct m1 as [|x m1]; [set_solver|]. destruct m2 as [|y m2]; [auto|].
  destruct (mergeBoth_ref_first (x :: m1) (y :: m2) s line Hm) as [?|?]; [auto|].
  right. by eapply isModificationOf_mono.
Qed.

(** ** Last write wins *)

(** Two writes that a last-write-wins register can tell apart. *)
Definition distinguishable (a b : ConflictOp.t) : Prop :=
  ConflictOp.Timestamp a ≠ ConflictOp.Timestamp b ∨ ConflictOp.PeerID a ≠ ConflictOp.PeerID b.

Lemma lastWriteWins_comm a b : distinguishable a b → lastWriteWins a b = lastWriteWins b a.
Proof.
  unfold lastWriteWins, distinguishable. intros H.
  destruct (Z.ltb_spec (ConflictOp.Timestamp b) (ConflictOp.Timestamp a)),
           (Z.ltb_spec (ConflictOp.Timestamp a) (ConflictOp.Timestamp b)); try lia; try done.
  destruct H as [H|H]; [lia|]. rewrite (string_ltb_antisym _ _ H). by destruct (_ <? _)%string.
Qed.

(** [ResolveConflict] in terms of the causal order of Clock.v. *)
Lemma ResolveConflict_eq r a b va vb :
  ResolveConflict r a b va vb =
  if VectorClock.Compare va vb =? 0 then
    if bool_decide (strategy r = "intelligent_merge"%string) then intelligentMerge a b
    else Ok (lastWriteWins a b)
  else if VectorClock.Compare va vb <? 0 then Ok b else Ok a.
Proof.
  unfold ResolveConflict, isConcurrent.
  change (compareVectorClocks va vb) with (VectorClock.Compare va vb).
  by destruct (_ =? 0).
Qed.

Lemma lastWriteWins_newest a b :
  (ConflictOp.Timestamp a ≤ ConflictOp.Timestamp (lastWriteWins a b) ∧
   ConflictOp.Timestamp b ≤ ConflictOp.Timestamp (lastWriteWins a b)) ∧
  (lastWriteWins a b = a ∨ lastWriteWins a b = b).
Proof.
  unfold lastWriteWins.
  destruct (Z.ltb_spec (ConflictOp.Timestamp b) (ConflictOp.Timestamp a)),
           (Z.ltb_spec (ConflictOp.Timestamp a) (ConflictOp.Timestamp b));
    try destruct (_ <? _)%string; (split; [lia|auto]).
Qed.

(** ** Properties *)

(** C12: when one operation causally precedes the other, [ResolveConflict]
    returns the later one, whatever the strategy, the timestamps and the order
    in which the two operations are presented. *)
Theorem ResolveConflict_causal r old new vo vn :
  vo <ᵥ vn →
  ResolveConflict r old new vo vn = Ok new ∧ ResolveConflict r new old vn vo = Ok new.
Proof.
  intros H%Compare_lt_iff. by rewrite !ResolveConflict_eq, (Compare_swap vo vn), H.
Qed.

Definition demo_op (id peer : string) (ts : Z) (data : string) : ConflictOp.t :=
  ConflictOp.mk id "update" "notes.txt" None "f1" id (Z.of_nat (String.length data)) ts peer (to_bytes data).

Lemma ResolveConflict_causal_witness :
  let o := demo_op "c1" "A" 50 "old" in
  let n := demo_op "c2" "B" 10 "new" in
  let r := NewResolver "last_write_wins" in
  let vo : VectorClock.t := {["A" := 1]} in
  let vn : VectorClock.t := {["A" := 1; "B" := 1]} in
  ResolveConflict r o n vo vn = Ok n ∧ ResolveConflict r n o vn vo = Ok n.
Proof. apply ResolveConflict_causal. apply Compare_lt_iff. vm_compute. reflexivity. Defined.

(** C36: with any strategy but the text merge, two peers that resolve the same
    pair of operations from opposite sides choose the same winner, provided the
    operations differ in timestamp or in peer; the winner is one of the two and
    on concurrent operations no older than either. *)
Theorem ResolveConflict_agreement r a b va vb :
  strategy r ≠ "intelligent_merge"%string → distinguishable a b →
  ∃ w, ResolveConflict r a b va vb = Ok w ∧ ResolveConflict r b a vb va = Ok w ∧
    (w = a ∨ w = b) ∧
    (VectorClock.IsConcurrent va vb = true →
     ConflictOp.Timestamp a ≤ ConflictOp.Timestamp w ∧ ConflictOp.Timestamp b ≤ ConflictOp.Timestamp w).
Proof.
  intros Hs Hd. rewrite !ResolveConflict_eq, (bool_decide_eq_false_2 _ Hs).
  unfold VectorClock.IsConcurrent. rewrite (Compare_swap va vb).
  destruct (Compare_range va vb) as [-> | [-> | ->]]; simpl.
  - exists b. split_and!; auto; discriminate.
  - rewrite <- (lastWriteWins_comm a b Hd). pose proof (lastWriteWins_newest a b) as [? ?].
    eexists; eauto 10.
  - exists a. split_and!; auto; discriminate.
Qed.

Lemma ResolveConflict_agreement_witness :
  let a := demo_op "c1" "A" 10 "left" in
  let b := demo_op "c2" "B" 10 "right" in
  let r := NewResolver "last_write_wins" in
  let va : VectorClock.t := {["A" := 1]} in
  let vb : VectorClock.t := {["B" := 1]} in
  ∃ w, ResolveConflict r a b va vb = Ok w ∧ ResolveConflict r b a vb va = Ok w ∧
    (w = a ∨ w = b) ∧
    (VectorClock.IsConcurrent va vb = true →
     ConflictOp.Timestamp a ≤ ConflictOp.Timestamp w ∧ ConflictOp.Timestamp b ≤ ConflictOp.Timestamp w).
Proof. apply ResolveConflict_agreement; [discriminate|right; discriminate]. Defined.

(** with the text merge two peers that merge the same concurrent edits from
    opposite sides obtain different contents: the merge does not converge. *)
Theorem ThreeWayMerge_diverges :
  ∃ a b va vb wa wb,
    let r := NewResolver "intelligent_merge" in
    distinguishable a b ∧
    ResolveConflict r a b va vb = Ok wa ∧ ResolveConflict r b a vb va = Ok wb ∧
    ConflictOp.Data wa ≠ ConflictOp.Data wb.
Proof.
  exists (demo_op "c1" "A" 10 "left"), (demo_op "c2" "B" 10 "right"), {["A" := 1]}, {["B" := 1]}.
  do 2 eexists. split; [right; discriminate|].
  split; [vm_compute; reflexivity|]. split; [vm_compute; reflexivity|].
  vm_compute. discriminate.
Qed.

(** C37: the merge equals a definition without the branches for a common suffix
    of the two middles (that suffix is always empty), and so never drops a line
    of the second text: all its lines appear in the merged text, in order;
    a line of the first text is only left out if it occurs in the second text
    or counts as a modification of one of the lines between the common prefix
    and suffix. *)
Theorem mergeLinesDiff_preserves lines1 lines2 :
  mergeLinesDiff lines1 lines2 = mergeLines_ref lines1 lines2 ∧
  lines2 `sublist_of` mergeLinesDiff lines1 lines2 ∧
  ∀ line, line ∈ lines1 →
    line ∈ mergeLinesDiff lines1 lines2 ∨ isModificationOf line lines2 = true.
Proof.
  split; [apply mergeLinesDiff_ref|]. rewrite mergeLinesDiff_ref. unfold mergeLines_ref.
  set (p := findCommonPrefix lines1 lines2). set (s := findCommonSuffix lines1 lines2).
  assert (p `prefix_of` lines1) as P1 by apply findCommonPrefix_l.
  assert (p `prefix_of` lines2) as P2 by apply findCommonPrefix_r.
  assert (s `suffix_of` lines1) as S1 by apply findCommonSuffix_l.
  assert (s `suffix_of` lines2) as S2 by apply findCommonSuffix_r.
  clearbody p s.
  pose proof (middle_cases lines1 p s P1 S1) as H1.
  pose proof (middle_cases lines2 p s P2 S2) as H2.
  split; [by apply merge_parts_second|]. intros line. by apply (merge_parts_first lines1).
Qed.

(** merging a text with itself duplicates it: the common prefix and the
    common suffix are both the whole text, and both are kept. *)
Theorem mergeLinesDiff_self_duplicates l : mergeLinesDiff l l = l ++ l.
Proof.
  unfold mergeLinesDiff. rewrite findCommonPrefix_self, findCommonSuffix_self, Nat.sub_diag.
  by destruct l.
Qed.
