(* ===== verification/Hashing.v ===== *)
(** * Content hashes and file identifiers (internal/hashing)

    BLAKE3 is a third-party package: it is the parameter [blake3].  What is
    modelled is what the source builds on it: the hexadecimal digest, the text
    that is hashed into a file identifier and the validity test of identifiers.
    [GenerateFileIDFromData] appends to a sub-slice of its argument, so the
    model also returns the caller's slice as the call leaves it. *)

From Stdlib Require Import Strings.Byte Strings.Ascii Strings.String.
From S2P Require Import Prelude GoStrings.

Definition FileIDPrefixSize : Z := 64 * 1024.

Section Hashing.
Context (blake3 : bytes → bytes).

Definition Hash (data : bytes) : bytes := blake3 data.

Definition HashString (data : bytes) : string := hexEncode (Hash data).

(** [GenerateFileID] on the file found at the path: its content and its
    modification time; [None] when [os.Open] fails. *)
Definition GenerateFileID (file : option (bytes * time)) (peerID : string) : outcome string :=
  match file with
  | None => Err "failed to open file"
  | Some (content, creationTime) =>
      let size := zlen content in
      if size =? 0 then
        Ok (HashString (to_bytes (sprint_d (wrap64 creationTime) +:+ ":" +:+ sprint_d size +:+ ":" +:+ peerID)))
      else
        let readSize := if size <? FileIDPrefixSize then size else FileIDPrefixSize in
        let prefix := take (Z.to_nat readSize) content in
        Ok (HashString (prefix ++ to_bytes (":" +:+ sprint_d size +:+ ":" +:+ sprint_d (wrap64 creationTime))))
  end.

(** [append(s[:n], tail...)]: the result, and the array under [s] afterwards;
    [cap_s] is the capacity of [s].  When the capacity suffices the tail is
    written over what follows [s[:n]]. *)
Definition append_at (s : bytes) (n : nat) (cap_s : nat) (tail : bytes) : bytes * bytes :=
  let result := take n s ++ tail in
  (result,
   if (length result <=? cap_s)%nat then take (length s) (result ++ drop (length result) s) else s).

Definition GenerateFileIDFromData (data : bytes) (cap_data : nat) (size : Z) (creationTime : time)
    (peerID : string) : string * bytes :=
  if size =? 0 then
    (HashString (to_bytes (sprint_d (wrap64 creationTime) +:+ ":" +:+ sprint_d size +:+ ":" +:+ peerID)), data)
  else
    let readSize := if zlen data <? FileIDPrefixSize then zlen data else FileIDPrefixSize in
    let '(input, data') :=
      append_at data (Z.to_nat readSize) cap_data
        (to_bytes (":" +:+ sprint_d size +:+ ":" +:+ sprint_d (wrap64 creationTime))) in
    (HashString input, data').

End Hashing.

Definition ValidateFileID (fileID : string) : bool :=
  (String.length fileID =? 64)%nat && hex_decodable fileID.

(** ** Properties *)

Lemma hex_digit_ok n : (n < 16)%nat → is_hex_digit (hex_digit n) = true.
Proof. intros H. do 16 (destruct n as [|n]; [reflexivity|]). lia. Qed.

Lemma hexEncode_decodable b : hex_decodable (hexEncode b) = true.
Proof.
  unfold hex_decodable. rewrite hexEncode_length. rewrite Nat.even_mul. simpl.
  unfold hexEncode. rewrite list_ascii_of_string_of_list_ascii.
  induction b as [|x b IH]; [done|]. rewrite bind_cons, forallb_app, IH. cbn [forallb].
  cut (N.to_nat (Byte.to_N x) < 256)%nat; [intros Hn|pose proof (Byte.to_N_bounded x); lia].
  rewrite !hex_digit_ok; [done|..]; [apply Nat.mod_upper_bound; lia|].
  apply Nat.Div0.div_lt_upper_bound. lia.
Qed.

(** an identifier made by [GenerateFileID] passes [ValidateFileID] when
    BLAKE3 returns 32 bytes, and it is the identifier that
    [GenerateFileIDFromData] makes from the same content, size and time. *)
Theorem GenerateFileID_valid (blake3 : bytes → bytes) content mtime peerID cap :
  (∀ d, length (blake3 d) = 32%nat) →
  ∃ id, GenerateFileID blake3 (Some (content, mtime)) peerID = Ok id ∧
    ValidateFileID id = true ∧
    fst (GenerateFileIDFromData blake3 content cap (zlen content) mtime peerID) = id.
Proof.
  intros Hb. unfold GenerateFileID, GenerateFileIDFromData, append_at, ValidateFileID, HashString, Hash.
  destruct (zlen content =? 0); simpl; eexists; (split; [done|]);
    by rewrite hexEncode_length, Hb, hexEncode_decodable.
Qed.

Definition blake3_demo (d : bytes) : bytes := replicate 32 (default Byte.x00 (head d)).

Lemma GenerateFileID_valid_witness :
  ∃ id, GenerateFileID blake3_demo (Some (to_bytes "hello", 7)) "peer" = Ok id ∧
    ValidateFileID id = true ∧
    fst (GenerateFileIDFromData blake3_demo (to_bytes "hello") 5 (zlen (to_bytes "hello")) 7 "peer") = id.
Proof. apply GenerateFileID_valid. intros d. reflexivity. Defined.

(** for more than 64 KiB of data [GenerateFileIDFromData] overwrites the
    caller's bytes after the first 64 KiB with the text it appends, as soon as
    the data reaches that far. *)
Theorem GenerateFileIDFromData_clobbers (blake3 : bytes → bytes) data size mtime peerID :
  let tail := to_bytes (":" +:+ sprint_d size +:+ ":" +:+ sprint_d (wrap64 mtime)) in
  let n := Z.to_nat FileIDPrefixSize in
  size ≠ 0 → (n + length tail ≤ length data)%nat →
  snd (GenerateFileIDFromData blake3 data (length data) size mtime peerID)
  = take n data ++ tail ++ drop (n + length tail) data.
Proof.
  intros tail n Hsize Hlen. unfold GenerateFileIDFromData. fold tail.
  rewrite (proj2 (Z.eqb_neq size 0) Hsize).
  destruct (Z.ltb_spec (zlen data) FileIDPrefixSize) as [Hlt|_].
  { subst n. unfold FileIDPrefixSize in *. lia. }
  fold n. clearbody n. unfold append_at; cbn [snd].
  assert (length (take n data ++ tail) = n + length tail)%nat as Hl.
  { rewrite length_app, length_take. lia. }
  rewrite Hl. destruct (Nat.leb_spec (n + length tail) (length data)); [|lia].
  rewrite take_ge; [by rewrite app_assoc|]. rewrite length_app, Hl, length_drop. lia.
Qed.

Lemma GenerateFileIDFromData_clobbers_witness :
  ∃ data tail n,
    snd (GenerateFileIDFromData blake3_demo data (length data) 9 1 "peer")
    = take n data ++ tail ++ drop (n + length tail) data.
Proof.
  exists (replicate (Z.to_nat FileIDPrefixSize + 4) Byte.x41),
    (to_bytes (":" +:+ sprint_d 9 +:+ ":" +:+ sprint_d (wrap64 1))), (Z.to_nat FileIDPrefixSize).
  refine (GenerateFileIDFromData_clobbers blake3_demo _ 9 1 "peer" _ _); [discriminate|].
  apply Nat.leb_le. vm_compute. reflexivity.
Defined.
