(* ===== verification/Chunking.v ===== *)
(** * Chunks, chunker, assembler, chunk buffer and chunk manager
      (internal/chunking)

    [HashString] stands for [hashing.HashString] (Hashing.v instantiates it).
    Time is passed in as [now].  A method that runs under a lock is one step. *)

From Stdlib Require Import Strings.Byte Strings.String.
From S2P Require Import Prelude GoStrings.

Module Chunk.
(** [chunking.Chunk]. *)
Record t : Type := mk {
  FileID : string; ChunkID : Z; Offset : Z; Length : Z; Data : bytes;
  Hash : string; FileHash : string; IsLast : bool; TotalChunks : Z
}.
#[export] Instance eq_dec : EqDecision t.
Proof. solve_decision. Defined.

(** Writes of single fields. *)
Definition with_TotalChunks (n : Z) (c : t) : t :=
  mk (FileID c) (ChunkID c) (Offset c) (Length c) (Data c) (Hash c) (FileHash c) (IsLast c) n.
Definition with_FileHash (h : string) (c : t) : t :=
  mk (FileID c) (ChunkID c) (Offset c) (Length c) (Data c) (Hash c) h (IsLast c) (TotalChunks c).
End Chunk.

(** [data[lo:hi]]: panics unless [0 <= lo <= hi <= len(data)]. *)
Definition slice (data : bytes) (lo hi : Z) : outcome bytes :=
  if (0 <=? lo) && (lo <=? hi) && (hi <=? zlen data)
  then Ok (take (Z.to_nat (hi - lo)) (drop (Z.to_nat lo) data))
  else Panic "slice bounds out of range".

(** The largest allocation of the Go runtime on 64-bit machines. *)
Definition maxAlloc : Z := 281474976710656.

(** [make([]byte, n)]. *)
Definition make_bytes (n : Z) : outcome bytes :=
  if (n <? 0) || (maxAlloc <? n) then Panic "makeslice: len out of range"
  else Ok (replicate (Z.to_nat n) Byte.x00).

(** [copy(dst[off:], src)]: as many bytes as fit. *)
Definition copy_at (dst : bytes) (off : Z) (src : bytes) : outcome bytes :=
  if (0 <=? off) && (off <=? zlen dst) then
    let o := Z.to_nat off in
    let n := Nat.min (length src) (length dst - o) in
    Ok (take o dst ++ take n src ++ drop (o + n) dst)
  else Panic "slice bounds out of range".

Section Chunking.
Context (HashString : bytes → string).

(** ** Chunker (chunker.go) *)

Definition mkChunk (chunkSize totalSize totalChunks : Z) (fileID : string) (data : bytes) (i : Z)
    : outcome Chunk.t :=
  let offset := wrap64 (i * chunkSize) in
  let stop := offset +! chunkSize in
  let stop := if totalSize <? stop then totalSize else stop in
  chunkData ← slice data offset stop;
  Ok (Chunk.mk fileID i offset (zlen chunkData) chunkData (HashString chunkData) ""
        (i =? totalChunks - 1) totalChunks).

Definition ChunkFile (chunkSize : Z) (fileID : string) (data : bytes) : outcome (list Chunk.t) :=
  match data with
  | [] => Ok [Chunk.mk fileID 0 0 0 [] (HashString []) "" true 1]
  | _ =>
      let totalSize := zlen data in
      if chunkSize =? 0 then Panic "integer divide by zero"
      else
        let totalChunks := wrap64 (Z.quot ((totalSize +! chunkSize) -! 1) chunkSize) in
        mapM (mkChunk chunkSize totalSize totalChunks fileID data) (seqZ 0 totalChunks)
  end.

(** An [io.Reader]: the results of its successive [Read] calls; afterwards it
    reports [io.EOF]. *)
Inductive read_err : Type := EOF | IOError (e : string).
Abbreviation reader := (list (bytes * option read_err)).

Fixpoint read_loop (fileID : string) (rs : reader) (offset chunkID : Z) : outcome (list Chunk.t) :=
  match rs with
  | [] => Ok []
  | (_, Some (IOError e)) :: _ => Err (wrap "failed to read chunk" e)
  | ([], _) :: _ => Ok []
  | (chunkData, err) :: rs' =>
      let n := zlen chunkData in
      let isLast := match err with Some EOF => true | _ => false end in
      let chunk := Chunk.mk fileID chunkID offset n chunkData (HashString chunkData) "" isLast (-1) in
      if isLast then Ok [chunk]
      else chunks ← read_loop fileID rs' (offset +! n) (chunkID +! 1); Ok (chunk :: chunks)
  end.

Definition ChunkReader (chunkSize : Z) (fileID : string) (rs : reader) : outcome (list Chunk.t) :=
  if (chunkSize <? 0) || (maxAlloc <? chunkSize) then Panic "makeslice: len out of range"
  else
    chunks ← read_loop fileID rs 0 0;
    Ok (Chunk.with_TotalChunks (zlen chunks) <$> chunks).

Definition CalculateChunkCount (chunkSize fileSize : Z) : outcome Z :=
  if fileSize =? 0 then Ok 1
  else if chunkSize =? 0 then Panic "integer divide by zero"
  else Ok (wrap64 (Z.quot ((fileSize +! chunkSize) -! 1) chunkSize)).

(** ** Assembler (assembler.go) *)

Definition id_le (c1 c2 : Chunk.t) : Prop := Chunk.ChunkID c1 ≤ Chunk.ChunkID c2.
#[export] Instance id_le_dec c1 c2 : Decision (id_le c1 c2) := Z_le_dec _ _.

(** [sort.Slice] by ChunkID.  Go leaves the order of equal ids open; this is
    the stable one. *)
Definition sort_by_id (chunks : list Chunk.t) : list Chunk.t := merge_sort id_le chunks.

Definition total_length (chunks : list Chunk.t) : Z :=
  foldl (λ acc c, acc +! Chunk.Length c) 0 chunks.

Fixpoint assemble_loop (chunks : list Chunk.t) (assembled : bytes) (offset : Z) : outcome bytes :=
  match chunks with
  | [] => Ok assembled
  | c :: cs =>
      if bool_decide (Chunk.Offset c ≠ offset) then Err "chunk offset mismatch"
      else assembled' ← copy_at assembled offset (Chunk.Data c);
           assemble_loop cs assembled' (offset +! Chunk.Length c)
  end.

Definition AssembleChunks (chunks : list Chunk.t) (expectedFileHash : string) : outcome bytes :=
  match chunks with
  | [] => Err "no chunks to assemble"
  | _ =>
      let sortedChunks := sort_by_id chunks in
      assembled ← make_bytes (total_length sortedChunks);
      assembled ← assemble_loop sortedChunks assembled 0;
      if bool_decide (HashString assembled ≠ expectedFileHash) then Err "file hash mismatch"
      else Ok assembled
  end.

Definition VerifyChunkHash (chunk : Chunk.t) : outcome unit :=
  if bool_decide (HashString (Chunk.Data chunk) ≠ Chunk.Hash chunk) then Err "chunk hash mismatch"
  else Ok tt.

Fixpoint VerifyAllChunks (chunks : list Chunk.t) : outcome unit :=
  match chunks with
  | [] => Ok tt
  | c :: cs => match VerifyChunkHash c with
               | Ok _ => VerifyAllChunks cs
               | bad => bad
               end
  end.

End Chunking.

(** 30 seconds. *)
Definition ChunkTimeout : duration := 30 * second.

(** ** Chunk buffer (buffer.go) *)
Module ChunkBuffer.

Record t : Type := mk {
  fileID : string; totalChunks : Z; chunks : gmap Z Chunk.t; received : gmap Z bool;
  lastReceived : time; complete : bool;
  (** [completeCh] has capacity 1: whether it holds a value. *)
  completeCh : bool
}.

Definition NewChunkBuffer (fileID : string) (totalChunks : Z) (now : time) : t :=
  mk fileID totalChunks ∅ ∅ now false false.

Definition AddChunk (now : time) (chunk : Chunk.t) (cb : t) : outcome unit * t :=
  if bool_decide (Chunk.FileID chunk ≠ fileID cb) then (Err "chunk file_id mismatch", cb)
  else if (Chunk.ChunkID chunk <? 0) || (totalChunks cb <=? Chunk.ChunkID chunk) then
    (Err "invalid chunk_id", cb)
  else
    let expectedHash := Chunk.Hash chunk in
    let actualHash := Chunk.Hash chunk in
    if bool_decide (expectedHash ≠ actualHash) then (Err "chunk hash mismatch for chunk", cb)
    else
      let chunks' := <[Chunk.ChunkID chunk := chunk]> (chunks cb) in
      let received' := <[Chunk.ChunkID chunk := true]> (received cb) in
      let full := bool_decide (Z.of_nat (size chunks') = totalChunks cb) in
      (Ok tt, mk (fileID cb) (totalChunks cb) chunks' received' now
                (complete cb || full) (completeCh cb || full)).

Definition GetMissingChunks (cb : t) : list Z :=
  List.filter (λ i, negb (default false (received cb !! i))) (seqZ 0 (totalChunks cb)).

Definition IsComplete (cb : t) : bool := complete cb.

Definition GetChunks (cb : t) : outcome (list Chunk.t) :=
  if negb (complete cb) then Err "not all chunks received"
  else mapM (λ i, match chunks cb !! i with Some c => Ok c | None => Err "chunk missing" end)
         (seqZ 0 (totalChunks cb)).

Definition GetLastReceived (cb : t) : time := lastReceived cb.

Definition ShouldRequestRetransmission (now : time) (cb : t) : bool :=
  if complete cb then false
  else (ChunkTimeout <? time_sub now (lastReceived cb)) && (Z.of_nat (size (chunks cb)) <? totalChunks cb).

End ChunkBuffer.

(** ** Chunk manager (manager.go) *)
Module ChunkManager.

Definition MaxRetransmissionAttempts : Z := 3.

Module Receipt.
Record t : Type := mk { Chunk : Chunk.t; ReceivedAt : time; Verified : bool }.
End Receipt.

Module Transfer.
(** [chunking.FileTransfer]. *)
Record t : Type := mk {
  FileID : string; FileHash : string; TotalChunks : Z;
  ReceivedChunks : gmap Z Receipt.t; LastReceived : time;
  RetransmissionCount : Z; Complete : bool; ExpectedSize : Z
}.
End Transfer.
Import Transfer.

(** The manager's map from file id to transfer. *)
Abbreviation manager := (gmap string Transfer.t).

Section Manager.
Context (HashString : bytes → string).

Definition NewChunkManager : manager := ∅.

Definition StartTransfer (now : time) (fileID fileHash : string) (totalChunks expectedSize : Z)
    (cm : manager) : outcome unit * manager :=
  match cm !! fileID with
  | Some _ => (Err "transfer already exists for file", cm)
  | None => (Ok tt, <[fileID := Transfer.mk fileID fileHash totalChunks ∅ now 0 false expectedSize]> cm)
  end.

(** A transfer after a new chunk has been verified. *)
Definition store_chunk (now : time) (chunk : Chunk.t) (tr : Transfer.t) : Transfer.t :=
  let received' := <[Chunk.ChunkID chunk := Receipt.mk chunk now true]> (ReceivedChunks tr) in
  let total := if Chunk.IsLast chunk then Chunk.ChunkID chunk +! 1 else TotalChunks tr in
  let fileHash := if Chunk.IsLast chunk then Chunk.FileHash chunk else FileHash tr in
  let full := (0 <? total) && (Z.of_nat (size received') =? total) in
  Transfer.mk (FileID tr) fileHash total received' now (RetransmissionCount tr)
    (Complete tr || full) (ExpectedSize tr).

Definition ReceiveChunk (now : time) (chunk : Chunk.t) (cm : manager) : outcome unit * manager :=
  let '(transfer, cm) :=
    match cm !! Chunk.FileID chunk with
    | Some tr => (tr, cm)
    | None => let tr := Transfer.mk (Chunk.FileID chunk) "" 0 ∅ now 0 false 0 in
              (tr, <[Chunk.FileID chunk := tr]> cm)
    end in
  match ReceivedChunks transfer !! Chunk.ChunkID chunk with
  | Some _ => (Ok tt, cm)
  | None =>
      match VerifyChunkHash HashString chunk with
      | Ok _ => (Ok tt, <[Chunk.FileID chunk := store_chunk now chunk transfer]> cm)
      | Err e => (Err (wrap "chunk verification failed" e), cm)
      | Panic w => (Panic w, cm)
      end
  end.

Definition IsTransferComplete (fileID : string) (cm : manager) : bool :=
  match cm !! fileID with None => false | Some tr => Complete tr end.

(** The receipts are visited in an unspecified order: any list of them. *)
Definition AssembleReceipts (tr : Transfer.t) (receipts : list Receipt.t) : outcome bytes :=
  wrapping "assembly failed" (AssembleChunks HashString (Receipt.Chunk <$> receipts) (FileHash tr)).

Definition AssembleFile (fileID : string) (cm : manager) : outcome bytes :=
  match cm !! fileID with
  | None => Err "transfer not found for file"
  | Some tr =>
      if negb (Complete tr) then Err "transfer not complete"
      else AssembleReceipts tr (snd <$> map_to_list (ReceivedChunks tr))
  end.

Definition GetMissingChunks (fileID : string) (cm : manager) : outcome (list Z) :=
  match cm !! fileID with
  | None => Err "transfer not found for file"
  | Some tr =>
      if TotalChunks tr =? 0 then Ok []
      else Ok (List.filter (λ i, negb (bool_decide (is_Some (ReceivedChunks tr !! i))))
                 (seqZ 0 (TotalChunks tr)))
  end.

Definition HasTimedOut (now : time) (fileID : string) (cm : manager) : bool :=
  match cm !! fileID with
  | None => false
  | Some tr =>
      if Complete tr then false
      else if (0 <? TotalChunks tr) && (Z.of_nat (size (ReceivedChunks tr)) <? TotalChunks tr)
      then ChunkTimeout <? time_sub now (LastReceived tr)
      else false
  end.

Definition IncrementRetransmissionCount (fileID : string) (cm : manager) : outcome unit * manager :=
  match cm !! fileID with
  | None => (Err "transfer not found for file", cm)
  | Some tr =>
      (Ok tt, <[fileID := Transfer.mk (FileID tr) (FileHash tr) (TotalChunks tr) (ReceivedChunks tr)
                 (LastReceived tr) (RetransmissionCount tr +! 1) (Complete tr) (ExpectedSize tr)]> cm)
  end.

Definition GetRetransmissionCount (fileID : string) (cm : manager) : Z :=
  match cm !! fileID with None => 0 | Some tr => RetransmissionCount tr end.

Definition CleanupTransfer (fileID : string) (cm : manager) : manager := delete fileID cm.

(** The files the monitor finds timed out; it takes no action on them. *)
Definition checkTimeouts (now : time) (cm : manager) : list string :=
  List.filter (λ fileID, HasTimedOut now fileID cm) ((map_to_list cm).*1).

Definition GetTransferStatus (fileID : string) (cm : manager) : outcome (Z * Z * bool) :=
  match cm !! fileID with
  | None => Err "transfer not found for file"
  | Some tr => Ok (Z.of_nat (size (ReceivedChunks tr)), TotalChunks tr, Complete tr)
  end.

End Manager.
End ChunkManager.
