(* ===== verification/ChunkingProps.v ===== *)
(** * Properties of chunking: splitting and reassembling a file *)

From Stdlib Require Import Strings.Byte Strings.String.
From S2P Require Import Prelude GoStrings Chunking.

(** ** Running a fallible function over a list *)

Lemma mapM_Ok {A B} (f : A → outcome B) (g : A → B) l :
  (∀ x, x ∈ l → f x = Ok (g x)) → mapM f l = Ok (g <$> l).
Proof.
  induction l as [|x l IH]; intros H; [done|]. simpl.
  rewrite (H x) by set_solver. simpl. rewrite IH by set_solver. done.
Qed.

(** ** What it means for a list of chunks to be a chunking of some data *)

Fixpoint contiguous (off : Z) (cs : list Chunk.t) : Prop :=
  match cs with
  | [] => True
  | c :: cs' => Chunk.Offset c = off ∧ Chunk.Length c = zlen (Chunk.Data c) ∧
                contiguous (off + Chunk.Length c) cs'
  end.

Record chunking_of (data : bytes) (cs : list Chunk.t) : Prop := {
  ch_ids : Chunk.ChunkID <$> cs = seqZ 0 (zlen cs);
  ch_contiguous : contiguous 0 cs;
  ch_data : mjoin (Chunk.Data <$> cs) = data;
  ch_nonempty : cs ≠ []
}.

(** ** Chunk ids: sorted and unique *)

Lemma ids_sorted m n cs : Chunk.ChunkID <$> cs = seqZ m n → Sorted id_le cs.
Proof.
  revert m n. induction cs as [|c cs IH]; intros m n H; [constructor|].
  destruct (decide (0 < n)) as [Hn|]; [|by rewrite seqZ_nil in H by lia].
  rewrite seqZ_cons in H by done. injection H as Hc Hcs. constructor; [by eapply IH|].
  destruct cs as [|c' cs]; constructor. unfold id_le.
  destruct (decide (0 < Z.pred n)); [|by rewrite seqZ_nil in Hcs by lia].
  rewrite seqZ_cons in Hcs by done. injection Hcs as Hc' _. lia.
Qed.

Lemma ids_unique m n cs c1 c2 :
  Chunk.ChunkID <$> cs = seqZ m n → c1 ∈ cs → c2 ∈ cs → Chunk.ChunkID c1 = Chunk.ChunkID c2 → c1 = c2.
Proof.
  intros H [i1 H1]%list_elem_of_lookup [i2 H2]%list_elem_of_lookup E.
  assert (∀ i c, cs !! i = Some c → Chunk.ChunkID c = m + Z.of_nat i) as Hid.
  { intros i c Hi. assert ((Chunk.ChunkID <$> cs) !! i = Some (Chunk.ChunkID c)) as Hf
      by (by rewrite list_lookup_fmap, Hi).
    rewrite H in Hf. apply lookup_seqZ in Hf. lia. }
  apply Hid in H1 as ?. apply Hid in H2 as ?. assert (i1 = i2) by lia. congruence.
Qed.

Lemma id_le_trans : Transitive id_le.
Proof. unfold id_le. intros x y z. lia. Qed.

Lemma id_le_total : Total id_le.
Proof. unfold id_le. intros x y. lia. Qed.

(** Whatever order the chunks arrived in, sorting puts them back. *)
Lemma sort_by_id_chunking data cs arrivals :
  chunking_of data cs → arrivals ≡ₚ cs → sort_by_id arrivals = cs.
Proof.
  intros Hc Hperm. unfold sort_by_id.
  pose proof id_le_trans. pose proof id_le_total.
  apply (Sorted_unique_strong id_le).
  - intros x1 x2 H1 H2 L1 L2.
    rewrite merge_sort_Permutation, Hperm in H1.
    eapply (ids_unique _ _ cs); [apply (ch_ids _ _ Hc)|done..|]. unfold id_le in *. lia.
  - apply Sorted_merge_sort, _.
  - eapply ids_sorted, ch_ids, Hc.
  - by rewrite merge_sort_Permutation.
Qed.

(** ** The assembly loop *)

Lemma copy_at_fill pre src post :
  zlen (pre ++ src ++ post) < two63 →
  copy_at (pre ++ replicate (length src) Byte.x00 ++ post) (zlen pre) src = Ok (pre ++ src ++ post).
Proof.
  intros _. unfold copy_at. rewrite !length_app, length_replicate.
  destruct (Z.leb_spec 0 (zlen pre)); [|lia].
  destruct (Z.leb_spec (zlen pre) (Z.of_nat (length pre + (length src + length post)))); [|lia].
  simpl. rewrite !Nat2Z.id.
  replace (Nat.min _ _) with (length src) by lia.
  rewrite take_app_length, (take_ge src) by done. f_equal. f_equal. f_equal.
  rewrite app_assoc, drop_app_length'; [done|]. rewrite length_app, length_replicate. done.
Qed.

(** The data of a list of chunks, glued together. *)
Abbreviation glue cs := (mjoin (Chunk.Data <$> cs)).

Lemma glue_cons c cs : glue (c :: cs) = Chunk.Data c ++ glue cs.
Proof. reflexivity. Qed.

Lemma assemble_loop_ok cs pre :
  contiguous (zlen pre) cs →
  zlen pre + zlen (glue cs) < two63 →
  assemble_loop cs (pre ++ replicate (length (glue cs)) Byte.x00) (zlen pre)
  = Ok (pre ++ glue cs).
Proof.
  revert pre. induction cs as [|c cs IH]; intros pre; [done|].
  rewrite !glue_cons, !length_app. cbn [contiguous assemble_loop].
  intros (Ho & Hl & Hc) Hb. rewrite bool_decide_eq_false_2 by (by intros ?).
  rewrite replicate_add, copy_at_fill by (rewrite !length_app, length_replicate; lia).
  cbn [mbind outcome_bind]. rewrite app_assoc.
  assert (zlen pre +! Chunk.Length c = zlen (pre ++ Chunk.Data c)) as ->.
  { rewrite wrap64_id; rewrite ?length_app; [lia|]. unfold in64, two63 in *. lia. }
  rewrite IH; [by rewrite app_assoc| |]; rewrite length_app; [|lia].
  replace (Z.of_nat _) with (zlen pre + Chunk.Length c) by lia. done.
Qed.

Lemma total_length_ok cs off acc :
  contiguous off cs → 0 ≤ acc → acc + zlen (glue cs) < two63 →
  foldl (λ acc c, acc +! Chunk.Length c) acc cs = acc + zlen (glue cs).
Proof.
  revert off acc. induction cs as [|c cs IH]; intros off acc; [simpl; lia|].
  rewrite !glue_cons, !length_app. cbn [contiguous foldl].
  intros (_ & Hl & Hc) Ha Hb.
  rewrite wrap64_id by (unfold in64, two63 in *; lia).
  rewrite (IH (off + Chunk.Length c)) by (done || lia). lia.
Qed.

Lemma AssembleChunks_chunking H data cs arrivals h :
  chunking_of data cs → zlen data ≤ maxAlloc → arrivals ≡ₚ cs →
  AssembleChunks H arrivals h =
  if bool_decide (H data ≠ h) then Err "file hash mismatch" else Ok data.
Proof.
  intros Hc Hlen Hperm. unfold AssembleChunks.
  destruct arrivals as [|a arrivals].
  { apply Permutation_nil in Hperm. by destruct (ch_nonempty _ _ Hc). }
  rewrite (sort_by_id_chunking data cs) by done.
  destruct Hc as [Hids Hcon Hdata Hne].
  assert (zlen data < two63) as Hb by (unfold maxAlloc, two63 in *; lia).
  unfold total_length. rewrite (total_length_ok cs 0 0), Hdata; [|done|lia|rewrite Hdata; lia].
  rewrite Z.add_0_l. unfold make_bytes.
  destruct (Z.ltb_spec (zlen data) 0), (Z.ltb_spec maxAlloc (zlen data)); try lia.
  simpl. rewrite Nat2Z.id.
  pose proof (assemble_loop_ok cs [] Hcon) as L. rewrite Hdata in L. simpl in L.
  change (Z.of_nat 0) with 0 in L. rewrite L by lia. done.
Qed.

(** ** What [ChunkFile] returns *)

Lemma ChunkFile_nonempty H chunkSize fileID data :
  data ≠ [] → chunkSize ≠ 0 →
  let totalChunks := wrap64 (Z.quot ((zlen data +! chunkSize) -! 1) chunkSize) in
  ChunkFile H chunkSize fileID data =
  mapM (mkChunk H chunkSize (zlen data) totalChunks fileID data) (seqZ 0 totalChunks).
Proof.
  intros Hd Hs. unfold ChunkFile. destruct data; [done|]. destruct (Z.eqb_spec chunkSize 0); done.
Qed.

Section ChunkFile.
Context (H : bytes → string) (chunkSize : Z) (fileID : string) (data : bytes).
Hypothesis size_pos : 0 < chunkSize.
Hypothesis size_bound : zlen data + chunkSize < two63.
Hypothesis data_nonempty : data ≠ [].

(** The number of chunks: the length divided by the chunk size, rounded up. *)
Definition nchunks : Z := (zlen data + chunkSize - 1) / chunkSize.

Definition chunk_data (i : Z) : bytes := take (Z.to_nat chunkSize) (drop (Z.to_nat (i * chunkSize)) data).

Definition chunk_at (i : Z) : Chunk.t :=
  Chunk.mk fileID i (i * chunkSize) (zlen (chunk_data i)) (chunk_data i) (H (chunk_data i)) ""
    (i =? nchunks - 1) nchunks.

Lemma len_pos : 0 < zlen data.
Proof using All. destruct data; simpl; [done|lia]. Qed.

Lemma nchunks_spec : (nchunks - 1) * chunkSize < zlen data ≤ nchunks * chunkSize.
Proof using All.
  unfold nchunks. pose proof (Z.mod_pos_bound (zlen data + chunkSize - 1) chunkSize size_pos).
  pose proof (Z.div_mod (zlen data + chunkSize - 1) chunkSize). lia.
Qed.

Lemma nchunks_pos : 0 < nchunks.
Proof using All. pose proof nchunks_spec. pose proof len_pos. nia. Qed.

Lemma chunk_offset_lt i : i < nchunks → i * chunkSize < zlen data.
Proof using All. pose proof nchunks_spec. nia. Qed.

Lemma chunk_data_length i : 0 ≤ i < nchunks →
  zlen (chunk_data i) = Z.min (zlen data) ((i + 1) * chunkSize) - i * chunkSize.
Proof using All.
  intros Hi. pose proof (chunk_offset_lt i). unfold chunk_data. rewrite length_take, length_drop. nia.
Qed.

Lemma mkChunk_ok i : 0 ≤ i < nchunks →
  mkChunk H chunkSize (zlen data) nchunks fileID data i = Ok (chunk_at i).
Proof using All.
  intros Hi. unfold mkChunk. pose proof (chunk_offset_lt i) as Ho.
  assert (0 ≤ i * chunkSize) by nia.
  rewrite (wrap64_id (i * chunkSize)) by (unfold in64, two63 in *; lia).
  rewrite (wrap64_id (_ + _)) by (unfold in64, two63 in *; lia).
  set (stop := if zlen data <? i * chunkSize + chunkSize then _ else _).
  assert (stop = Z.min (zlen data) ((i + 1) * chunkSize)) as -> by
    (unfold stop; destruct (Z.ltb_spec (zlen data) (i * chunkSize + chunkSize)); lia).
  assert (slice data (i * chunkSize) (Z.min (zlen data) ((i + 1) * chunkSize)) = Ok (chunk_data i)) as ->; [|done].
  unfold slice. replace (_ && _ && _) with true by lia. f_equal. unfold chunk_data.
  destruct (decide (zlen data ≤ (i + 1) * chunkSize)).
  - rewrite !take_ge; [done|rewrite length_drop; lia..].
  - f_equal. lia.
Qed.

Lemma ChunkFile_eq : ChunkFile H chunkSize fileID data = Ok (chunk_at <$> seqZ 0 nchunks).
Proof using All.
  rewrite ChunkFile_nonempty by (done || lia).
  rewrite (wrap64_id (zlen data + _)) by (unfold in64, two63 in *; lia).
  rewrite (wrap64_id (_ - 1)) by (unfold in64, two63 in *; lia).
  rewrite Z.quot_div_nonneg by lia. fold nchunks.
  pose proof nchunks_spec. rewrite wrap64_id by (unfold in64, two63 in *; nia).
  apply mapM_Ok. intros i Hi%elem_of_seqZ. apply mkChunk_ok. lia.
Qed.

Lemma glue_take (k : nat) : glue (chunk_at <$> seqZ 0 (Z.of_nat k)) = take (k * Z.to_nat chunkSize) data.
Proof using All.
  induction k as [|k IH]; [done|].
  replace (Z.of_nat (S k)) with (Z.of_nat k + 1) by lia. rewrite seqZ_app by lia.
  rewrite !fmap_app, join_app, IH. simpl. rewrite app_nil_r. unfold chunk_data.
  replace (Z.to_nat ((_ + _) * chunkSize)) with (k * Z.to_nat chunkSize)%nat by lia.
  replace (Z.to_nat chunkSize + k * Z.to_nat chunkSize)%nat
    with (k * Z.to_nat chunkSize + Z.to_nat chunkSize)%nat by lia.
  by rewrite take_take_drop.
Qed.

Lemma chunks_contiguous (k : nat) m : 0 ≤ m → m + Z.of_nat k ≤ nchunks →
  contiguous (Z.min (zlen data) (m * chunkSize)) (chunk_at <$> seqZ m (Z.of_nat k)).
Proof using All.
  revert m. induction k as [|k IH]; intros m Hm Hk; [done|].
  rewrite seqZ_cons by lia. replace (Z.pred (Z.of_nat (S k))) with (Z.of_nat k) by lia.
  pose proof (chunk_offset_lt m). cbn [fmap list_fmap contiguous chunk_at Chunk.Offset Chunk.Length Chunk.Data].
  split; [lia|]. split; [done|].
  rewrite chunk_data_length by lia. replace (_ + _) with (Z.min (zlen data) (Z.succ m * chunkSize)) by lia.
  apply IH; lia.
Qed.

Lemma ChunkFile_chunking : chunking_of data (chunk_at <$> seqZ 0 nchunks).
Proof using All.
  pose proof nchunks_pos. pose proof nchunks_spec. split.
  - rewrite <- list_fmap_compose, length_fmap, length_seqZ. rewrite Z2Nat.id by lia.
    rewrite <- (list_fmap_id (seqZ 0 nchunks)) at 2. done.
  - replace nchunks with (Z.of_nat (Z.to_nat nchunks)) by lia.
    pose proof (chunks_contiguous (Z.to_nat nchunks) 0) as C. rewrite Z.mul_0_l, Z.min_r in C by lia.
    apply C; lia.
  - replace nchunks with (Z.of_nat (Z.to_nat nchunks)) by lia.
    rewrite glue_take. apply take_ge. nia.
  - rewrite seqZ_cons by lia. done.
Qed.

End ChunkFile.

(** The only chunk of an empty file. *)
Definition empty_chunk (H : bytes → string) (fileID : string) : Chunk.t :=
  Chunk.mk fileID 0 0 0 [] (H []) "" true 1.

(** [good_chunk H fileID n c]: what every chunk of a file of [n] chunks satisfies. *)
Record good_chunk (H : bytes → string) (fileID : string) (n : Z) (c : Chunk.t) : Prop := {
  gc_id : 0 ≤ Chunk.ChunkID c < n;
  gc_file : Chunk.FileID c = fileID;
  gc_hash : Chunk.Hash c = H (Chunk.Data c);
  gc_last : Chunk.IsLast c = true ↔ Chunk.ChunkID c = n - 1;
  gc_total : Chunk.TotalChunks c = n
}.

(** Chunking succeeds, for every chunk size and every content. *)
Lemma ChunkFile_spec H chunkSize fileID data :
  0 < chunkSize → zlen data + chunkSize < two63 →
  ∃ cs, ChunkFile H chunkSize fileID data = Ok cs ∧ chunking_of data cs ∧
        CalculateChunkCount chunkSize (zlen data) = Ok (zlen cs) ∧
        Forall (λ c, good_chunk H fileID (zlen cs) c ∧ zlen (Chunk.Data c) ≤ chunkSize) cs.
Proof.
  intros Hp Hb. destruct (decide (data = [])) as [->|Hne].
  { exists [empty_chunk H fileID]. split_and!; try done.
    repeat constructor; simpl; try done; lia. }
  exists (chunk_at H chunkSize fileID data <$> seqZ 0 (nchunks chunkSize data)).
  pose proof (nchunks_pos H chunkSize fileID data Hp Hb Hne) as Hn.
  pose proof (nchunks_spec H chunkSize fileID data Hp Hb Hne) as Hs.
  assert (zlen (chunk_at H chunkSize fileID data <$> seqZ 0 (nchunks chunkSize data))
          = nchunks chunkSize data) as Hlen by (rewrite length_fmap, length_seqZ; lia).
  split_and!.
  - by apply ChunkFile_eq.
  - by apply ChunkFile_chunking.
  - unfold CalculateChunkCount. rewrite Hlen.
    destruct (Z.eqb_spec (zlen data) 0); [by destruct data|].
    destruct (Z.eqb_spec chunkSize 0); [lia|]. f_equal.
    rewrite (wrap64_id (zlen data + _)) by (unfold in64, two63 in *; lia).
    rewrite (wrap64_id (_ - 1)) by (unfold in64, two63 in *; lia).
    rewrite Z.quot_div_nonneg by lia. apply wrap64_id. unfold nchunks, in64, two63 in *. nia.
  - rewrite Hlen. apply Forall_fmap, Forall_forall. intros i Hi%elem_of_seqZ.
    split; [split|]; cbn [compose chunk_at Chunk.ChunkID Chunk.FileID Chunk.Hash Chunk.Data
              Chunk.IsLast Chunk.TotalChunks]; try done; try lia.
    rewrite chunk_data_length by (done || lia). lia.
Qed.

(** C9: Splitting a file with [ChunkFile] succeeds for every content and every
    positive chunk size, gives as many chunks as [CalculateChunkCount]
    announces, none longer than the chunk size and each with a valid hash, and
    [AssembleChunks] restores the file from the chunks in whatever order they
    arrive. *)
Theorem ChunkFile_AssembleChunks H chunkSize fileID data :
  0 < chunkSize → zlen data + chunkSize < two63 → zlen data ≤ maxAlloc →
  ∃ cs, ChunkFile H chunkSize fileID data = Ok cs ∧
        CalculateChunkCount chunkSize (zlen data) = Ok (zlen cs) ∧
        VerifyAllChunks H cs = Ok tt ∧
        Forall (λ c, zlen (Chunk.Data c) ≤ chunkSize) cs ∧
        ∀ arrivals, arrivals ≡ₚ cs → AssembleChunks H arrivals (H data) = Ok data.
Proof.
  intros Hp Hb Ha. destruct (ChunkFile_spec H chunkSize fileID data Hp Hb) as (cs & E & Hc & Hn & Hg).
  exists cs. split_and!; [done..| | |].
  - clear -Hg. generalize dependent (zlen cs). intros n Hg.
    induction Hg as [|c cs [Hc _] _ IH]; [done|]. simpl. unfold VerifyChunkHash.
    rewrite (gc_hash _ _ _ _ Hc), bool_decide_eq_false_2 by (by intros ?). done.
  - eapply Forall_impl; [exact Hg|]. by intros c [_ ?].
  - intros arrivals Hperm. rewrite (AssembleChunks_chunking _ data cs) by done.
    by rewrite bool_decide_eq_false_2 by (by intros ?).
Qed.

(** A toy hash for the witnesses: the hexadecimal text of the first bytes. *)
Definition toy_hash (d : bytes) : string := hexEncode (take 8 d).

Lemma ChunkFile_AssembleChunks_witness :
  ∃ cs, ChunkFile toy_hash 2 "f" (to_bytes "abcde") = Ok cs ∧ length cs = 3%nat ∧
        AssembleChunks toy_hash (reverse cs) (toy_hash (to_bytes "abcde")) = Ok (to_bytes "abcde").
Proof.
  destruct (ChunkFile_AssembleChunks toy_hash 2 "f" (to_bytes "abcde"))
    as (cs & E & Hn & _ & _ & Ha); [done..|]. exists cs. split; [exact E|]. split.
  - vm_compute in E. injection E as <-. reflexivity.
  - apply Ha. apply reverse_Permutation.
Defined.

(** ** Reassembly by the chunk manager *)

Section Transfers.
Context (H : bytes → string) (fileID h : string) (data : bytes) (cs : list Chunk.t).
Hypothesis Hcs : chunking_of data cs.
Hypothesis Hgood : ∀ c, c ∈ cs → good_chunk H fileID (zlen cs) c.
Hypothesis Hstamp : ∀ c, c ∈ cs → Chunk.FileHash c = h.
Hypothesis Hsmall : zlen cs < two63.

(** What the transfer record knows after the chunks [seen]. *)
Record transfer_inv (seen : list Chunk.t) (tr : ChunkManager.Transfer.t) : Prop := {
  ti_sound : ∀ i r, ChunkManager.Transfer.ReceivedChunks tr !! i = Some r →
    ChunkManager.Receipt.Chunk r ∈ seen ∧ Chunk.ChunkID (ChunkManager.Receipt.Chunk r) = i;
  ti_recorded : ∀ c, c ∈ seen → is_Some (ChunkManager.Transfer.ReceivedChunks tr !! Chunk.ChunkID c);
  ti_total : (ChunkManager.Transfer.TotalChunks tr = 0 ∧ ∀ c, c ∈ seen → Chunk.IsLast c = false) ∨
    (ChunkManager.Transfer.TotalChunks tr = zlen cs ∧ ChunkManager.Transfer.FileHash tr = h);
  ti_complete : ChunkManager.Transfer.Complete tr = true ↔
    ChunkManager.Transfer.TotalChunks tr = zlen cs ∧
    Z.of_nat (size (ChunkManager.Transfer.ReceivedChunks tr)) = zlen cs
}.

Lemma cs_pos : 0 < zlen cs.
Proof using All. pose proof (ch_nonempty _ _ Hcs). destruct cs; [done|simpl; lia]. Qed.

Lemma cs_id i : 0 ≤ i < zlen cs → ∃ c, c ∈ cs ∧ Chunk.ChunkID c = i.
Proof using All.
  intros Hi. assert (i ∈ Chunk.ChunkID <$> cs) as E.
  { rewrite (ch_ids _ _ Hcs). apply elem_of_seqZ. lia. }
  apply list_elem_of_fmap in E as (c & -> & ?). by exists c.
Qed.

Lemma cs_same_id c1 c2 : c1 ∈ cs → c2 ∈ cs → Chunk.ChunkID c1 = Chunk.ChunkID c2 → c1 = c2.
Proof using All. apply (ids_unique 0 (zlen cs) cs), (ch_ids _ _ Hcs). Qed.

(** The ids 0, ..., n-1 as a set. *)
Definition all_ids : gset Z := list_to_set (seqZ 0 (zlen cs)).

Lemma size_all_ids : size all_ids = length cs.
Proof using All.
  unfold all_ids. rewrite size_list_to_set by apply NoDup_seqZ. rewrite length_seqZ. lia.
Qed.

Lemma received_ids seen tr :
  transfer_inv seen tr → seen ⊆ cs → dom (ChunkManager.Transfer.ReceivedChunks tr) ⊆ all_ids.
Proof using All.
  intros Hi Hs i [r Hr]%elem_of_dom. destruct (ti_sound _ _ Hi i r Hr) as [Hin <-].
  apply elem_of_list_to_set, elem_of_seqZ. pose proof (gc_id _ _ _ _ (Hgood _ (Hs _ Hin))). lia.
Qed.

(** Every chunk is recorded exactly when all of them have been seen. *)
Lemma received_size seen tr :
  transfer_inv seen tr → seen ⊆ cs →
  Z.of_nat (size (ChunkManager.Transfer.ReceivedChunks tr)) = zlen cs ↔ cs ⊆ seen.
Proof using All.
  intros Hi Hs. rewrite <- size_dom, <- size_all_ids. pose proof (received_ids seen tr Hi Hs) as Hsub.
  split.
  - intros E c Hc. assert (Chunk.ChunkID c ∈ dom (ChunkManager.Transfer.ReceivedChunks tr)) as Hd.
    { rewrite (set_subseteq_size_eq _ _ Hsub) by lia.
      apply elem_of_list_to_set, elem_of_seqZ. pose proof (gc_id _ _ _ _ (Hgood _ Hc)). lia. }
    apply elem_of_dom in Hd as [r Hr]. destruct (ti_sound _ _ Hi _ _ Hr) as [Hin E'].
    by rewrite <- (cs_same_id _ _ (Hs _ Hin) Hc E').
  - intros Hall. assert (all_ids ⊆ dom (ChunkManager.Transfer.ReceivedChunks tr)) as Hsup.
    { intros i Hi'%elem_of_list_to_set%elem_of_seqZ. destruct (cs_id i) as (c & Hc & <-); [lia|].
      apply elem_of_dom, (ti_recorded _ _ Hi), Hall, Hc. }
    f_equal. apply set_size_proper. set_solver.
Qed.

Lemma store_chunk_inv now seen tr c :
  transfer_inv seen tr → seen ⊆ cs → c ∈ cs →
  ChunkManager.Transfer.ReceivedChunks tr !! Chunk.ChunkID c = None →
  transfer_inv (c :: seen) (ChunkManager.store_chunk now c tr).
Proof using All.
  intros Hi Hs Hc Hnone. pose proof cs_pos. pose proof (Hgood _ Hc) as Hg.
  pose proof (gc_id _ _ _ _ Hg). pose proof (gc_last _ _ _ _ Hg) as Hlast.
  assert (wrap64 (Chunk.ChunkID c + 1) = Chunk.ChunkID c + 1) as Hw
    by (apply wrap64_id; unfold in64, two63 in *; lia).
  split; unfold ChunkManager.store_chunk; simpl.
  - intros i r [[<- <-]|[Hne Hr]]%lookup_insert_Some; simpl; [set_solver|].
    destruct (ti_sound _ _ Hi i r Hr). set_solver.
  - intros c' [->|Hin]%elem_of_cons; [by rewrite lookup_insert_eq|].
    destruct (decide (Chunk.ChunkID c' = Chunk.ChunkID c)) as [->|]; [by rewrite lookup_insert_eq|].
    rewrite lookup_insert_ne by done. by apply (ti_recorded _ _ Hi).
  - destruct (Chunk.IsLast c) eqn:El.
    + right. rewrite Hw. destruct Hlast as [Hl _]. split; [lia|]. by apply Hstamp.
    + destruct (ti_total _ _ Hi) as [[? Hno]|?]; [left; set_solver|by right].
  - rewrite orb_true_iff, andb_true_iff, Z.ltb_lt, Z.eqb_eq, (ti_complete _ _ Hi).
    set (sz := size (<[_:=_]> _)).
    assert (sz = S (size (ChunkManager.Transfer.ReceivedChunks tr))) as Hsz by (by apply map_size_insert_None).
    assert (Z.of_nat (size (ChunkManager.Transfer.ReceivedChunks tr)) ≠ zlen cs) as Hnot.
    { rewrite (received_size seen tr) by done. intros Hall.
      destruct (ti_recorded _ _ Hi c (Hall _ Hc)). congruence. }
    destruct (Chunk.IsLast c) eqn:El.
    + rewrite Hw. destruct Hlast as [Hl _]. lia.
    + destruct (ti_total _ _ Hi) as [[? ?]|[? ?]]; lia.
Qed.

(** Before the first chunk: no record, or the one made by [StartTransfer]. *)
Definition fresh_transfer (cm : ChunkManager.manager) : Prop :=
  cm !! fileID = None ∨
  ∃ now size, cm !! fileID = Some (ChunkManager.Transfer.mk fileID h (zlen cs) ∅ now 0 false size).

(** The record of the file after the chunks [seen] of it. *)
Definition tracks (seen : list Chunk.t) (cm : ChunkManager.manager) : Prop :=
  match cm !! fileID with
  | Some tr => transfer_inv seen tr
  | None => seen = []
  end.

Lemma transfer_inv_empty total file now rc size :
  (total = 0 ∨ (total = zlen cs ∧ file = h)) →
  transfer_inv [] (ChunkManager.Transfer.mk fileID file total ∅ now rc false size).
Proof using All.
  intros Ht. pose proof cs_pos. split; simpl.
  - intros i r Hr. by rewrite lookup_empty in Hr.
  - set_solver.
  - destruct Ht as [->|[-> ->]]; [left|right]; set_solver.
  - rewrite map_size_empty. split; [done|lia].
Qed.

Lemma fresh_tracks cm : fresh_transfer cm → tracks [] cm.
Proof using All.
  unfold tracks. intros [->|(now & size & ->)]; [done|]. apply transfer_inv_empty. by right.
Qed.

Lemma transfer_inv_again seen tr c : transfer_inv seen tr → seen ⊆ cs → c ∈ cs →
  is_Some (ChunkManager.Transfer.ReceivedChunks tr !! Chunk.ChunkID c) → transfer_inv (c :: seen) tr.
Proof using All.
  intros Hi Hs Hc [r Hr]. destruct (ti_sound _ _ Hi _ _ Hr) as [Hin E].
  assert (c ∈ seen) as Hseen by (by rewrite <- (cs_same_id _ _ (Hs _ Hin) Hc E)).
  destruct Hi as [H1 H2 H3 H4]. split; [|set_solver|set_solver|done].
  intros i r' Hr'. destruct (H1 i r' Hr'). set_solver.
Qed.

(** One arrival of a chunk of the file. *)
Lemma ReceiveChunk_tracks now seen c cm :
  tracks seen cm → seen ⊆ cs → c ∈ cs →
  (ChunkManager.ReceiveChunk H now c cm).1 = Ok tt ∧
  is_Some ((ChunkManager.ReceiveChunk H now c cm).2 !! fileID) ∧
  tracks (c :: seen) (ChunkManager.ReceiveChunk H now c cm).2.
Proof using All.
  intros Ht Hs Hc. pose proof (Hgood _ Hc) as Hg. unfold ChunkManager.ReceiveChunk, VerifyChunkHash.
  rewrite (gc_file _ _ _ _ Hg), (gc_hash _ _ _ _ Hg), bool_decide_eq_false_2 by (by intros ?).
  unfold tracks in *. destruct (cm !! fileID) as [tr|] eqn:Etr.
  - destruct (ChunkManager.Transfer.ReceivedChunks tr !! Chunk.ChunkID c) eqn:Er; simpl.
    + rewrite Etr. split_and!; [done..|]. by apply transfer_inv_again.
    + rewrite lookup_insert_eq. split_and!; [done..|]. by apply store_chunk_inv.
  - subst seen. simpl. rewrite lookup_empty. simpl. rewrite lookup_insert_eq.
    split_and!; [done..|]. apply store_chunk_inv; [|done..].
    apply transfer_inv_empty. by left.
Qed.

Lemma ReceiveChunk_other now c cm : Chunk.FileID c ≠ fileID →
  (ChunkManager.ReceiveChunk H now c cm).2 !! fileID = cm !! fileID.
Proof using All.
  intros Hne. unfold ChunkManager.ReceiveChunk.
  repeat case_match; simplify_eq/=; by rewrite ?lookup_insert_ne.
Qed.

(** The chunks of this file among the arrivals. *)
Definition of_file (arrivals : list (time * Chunk.t)) : list Chunk.t :=
  List.filter (λ c, bool_decide (Chunk.FileID c = fileID)) arrivals.*2.

(** The manager after a sequence of arrivals. *)
Fixpoint receive_all (arrivals : list (time * Chunk.t)) (cm : ChunkManager.manager)
    : ChunkManager.manager :=
  match arrivals with
  | [] => cm
  | (now, c) :: rest => receive_all rest (ChunkManager.ReceiveChunk H now c cm).2
  end.

Lemma receive_all_tracks arrivals seen cm :
  tracks seen cm → seen ⊆ cs → of_file arrivals ⊆ cs →
  tracks (reverse (of_file arrivals) ++ seen) (receive_all arrivals cm).
Proof using All.
  revert seen cm. induction arrivals as [|[now c] rest IH]; intros seen cm Ht Hs Ha; [done|].
  unfold of_file in *. cbn [fmap list_fmap snd List.filter receive_all] in *.
  case_bool_decide as Ef.
  - rewrite reverse_cons, <- (assoc_L (++)). simpl. apply IH.
    + apply ReceiveChunk_tracks; [done..|]. set_solver.
    + set_solver.
    + set_solver.
  - apply IH; [|done..]. unfold tracks. by rewrite ReceiveChunk_other.
Qed.

(** The receipts of a complete transfer are the chunks of the file. *)
Lemma receipts_Permutation seen tr :
  transfer_inv seen tr → seen ⊆ cs → cs ⊆ seen →
  ChunkManager.Receipt.Chunk <$> (map_to_list (ChunkManager.Transfer.ReceivedChunks tr)).*2 ≡ₚ cs.
Proof using All.
  intros Hi Hs Hall. apply NoDup_Permutation.
  - apply (NoDup_fmap_1 Chunk.ChunkID). rewrite <- !list_fmap_compose.
    rewrite (list_fmap_ext _ fst); [apply NoDup_fst_map_to_list|].
    intros k [i r] Hk%list_elem_of_lookup_2%elem_of_map_to_list. by apply (ti_sound _ _ Hi).
  - apply (NoDup_fmap_1 Chunk.ChunkID). rewrite (ch_ids _ _ Hcs). apply NoDup_seqZ.
  - intros c. rewrite <- list_fmap_compose, list_elem_of_fmap. split.
    + intros ([i r] & -> & Hin%elem_of_map_to_list). apply Hs, (ti_sound _ _ Hi _ _ Hin).
    + intros Hc. destruct (ti_recorded _ _ Hi c (Hall _ Hc)) as [r Hr].
      exists (Chunk.ChunkID c, r). split; [|by apply elem_of_map_to_list]. simpl.
      destruct (ti_sound _ _ Hi _ _ Hr) as [Hin E]. symmetry. by apply cs_same_id; [apply Hs| |].
Qed.

(** A tracked transfer is complete exactly when all chunks have been seen. *)
Lemma complete_iff seen tr :
  transfer_inv seen tr → seen ⊆ cs → ChunkManager.Transfer.Complete tr = true ↔ cs ⊆ seen.
Proof using All.
  intros Ht Hs. rewrite (ti_complete _ _ Ht), (received_size seen tr Ht Hs).
  split; [tauto|]. intros Hall. split; [|done].
  destruct (ti_total _ _ Ht) as [[_ Hno]|[? _]]; [|done].
  pose proof cs_pos. destruct (cs_id (zlen cs - 1)) as (l & Hl & El); [lia|].
  pose proof (proj2 (gc_last _ _ _ _ (Hgood _ Hl)) El) as Hlast.
  rewrite Hno in Hlast by auto. done.
Qed.

Lemma AssembleReceipts_ok seen tr :
  transfer_inv seen tr → seen ⊆ cs → cs ⊆ seen → zlen data ≤ maxAlloc → h = H data →
  ChunkManager.AssembleReceipts H tr (map_to_list (ChunkManager.Transfer.ReceivedChunks tr)).*2 = Ok data.
Proof using All.
  intros Ht Hs Hall Hmax Hh. unfold ChunkManager.AssembleReceipts.
  rewrite (AssembleChunks_chunking H data cs) by eauto using receipts_Permutation.
  pose proof (proj2 (complete_iff seen tr Ht Hs) Hall) as Hc.
  apply (ti_complete _ _ Ht) in Hc as [Htot _]. pose proof cs_pos.
  destruct (ti_total _ _ Ht) as [[? _]|[_ ->]]; [lia|].
  by rewrite Hh, bool_decide_eq_false_2 by (by intros ?).
Qed.

Lemma transfer_result cm arrivals :
  fresh_transfer cm → of_file arrivals ⊆ cs → zlen data ≤ maxAlloc → h = H data →
  let cm' := receive_all arrivals cm in
  (ChunkManager.IsTransferComplete fileID cm' = true ↔ cs ⊆ of_file arrivals) ∧
  (ChunkManager.IsTransferComplete fileID cm' = true →
   ChunkManager.AssembleFile H fileID cm' = Ok data).
Proof using All.
  intros Hfresh Harr Hmax Hh cm'.
  pose proof (receive_all_tracks arrivals [] cm (fresh_tracks cm Hfresh) ltac:(set_solver) Harr) as Ht.
  rewrite app_nil_r in Ht. fold cm' in Ht. unfold tracks in Ht.
  unfold ChunkManager.IsTransferComplete, ChunkManager.AssembleFile.
  destruct (cm' !! fileID) as [tr|].
  - assert (reverse (of_file arrivals) ⊆ cs) as Hsub by set_solver.
    pose proof (complete_iff _ tr Ht Hsub) as Hiff. split; [set_solver|].
    intros Hct. rewrite Hct. simpl. apply Hiff in Hct. by eapply AssembleReceipts_ok.
  - assert (of_file arrivals = []) as Hnil by (by rewrite <- (reverse_involutive (of_file _)), Ht).
    rewrite Hnil. split; [|done]. split; [done|]. intros Hall. pose proof cs_pos.
    destruct cs; [done|]. set_solver.
Qed.

End Transfers.

Lemma chunking_of_stamped data h cs :
  chunking_of data cs → chunking_of data (Chunk.with_FileHash h <$> cs).
Proof.
  intros [H1 H2 H3 H4]. split.
  - by rewrite <- list_fmap_compose, length_fmap.
  - clear -H2. revert H2. generalize 0 as off. induction cs as [|c cs IH]; [done|].
    intros off (? & ? & ?). simpl. auto.
  - by rewrite <- list_fmap_compose.
  - by destruct cs.
Qed.

Lemma good_chunk_stamped H fileID n h c :
  good_chunk H fileID n c → good_chunk H fileID n (Chunk.with_FileHash h c).
Proof. by intros []. Qed.

(** The chunk manager reassembles a file from the chunks [ChunkFile] made
    of it, stamped with the file's hash.  They may arrive in any order, any
    number of times, mixed with chunks of other files: the transfer is
    complete exactly when every chunk has arrived, and a complete transfer
    assembles to the file. *)
Theorem transfer_reassembles H chunkSize fileID data :
  0 < chunkSize → zlen data + chunkSize < two63 → zlen data ≤ maxAlloc →
  ∃ cs, ChunkFile H chunkSize fileID data = Ok cs ∧
    let sent := Chunk.with_FileHash (H data) <$> cs in
    ∀ cm arrivals, fresh_transfer fileID (H data) sent cm → of_file fileID arrivals ⊆ sent →
      let cm' := receive_all H arrivals cm in
      (ChunkManager.IsTransferComplete fileID cm' = true ↔ sent ⊆ of_file fileID arrivals) ∧
      (ChunkManager.IsTransferComplete fileID cm' = true →
       ChunkManager.AssembleFile H fileID cm' = Ok data).
Proof.
  intros Hp Hb Ha. destruct (ChunkFile_spec H chunkSize fileID data Hp Hb) as (cs & E & Hc & Hn & Hg).
  exists cs. split; [done|]. intros sent cm arrivals Hfresh Harr.
  apply (transfer_result H fileID (H data)); try done; unfold sent; try (by apply chunking_of_stamped); rewrite ?length_fmap.
  - intros ? (c & -> & Hin)%list_elem_of_fmap.
    apply good_chunk_stamped. rewrite Forall_forall in Hg. by apply Hg.
  - by intros ? (c & -> & _)%list_elem_of_fmap.
  - unfold CalculateChunkCount in Hn. repeat case_match; simplify_eq; [lia|].
    rewrite <- Hn. apply wrap64_range.
Qed.

(** Three chunks, delivered backwards with a duplicate. *)
Lemma transfer_reassembles_witness :
  ∃ cs, ChunkFile toy_hash 2 "f" (to_bytes "abcde") = Ok cs ∧
    let sent := Chunk.with_FileHash (toy_hash (to_bytes "abcde")) <$> cs in
    let cm := receive_all toy_hash ((λ c, (0, c)) <$> (reverse sent ++ sent)) ∅ in
    ChunkManager.IsTransferComplete "f" cm = true ∧
    ChunkManager.AssembleFile toy_hash "f" cm = Ok (to_bytes "abcde").
Proof.
  destruct (transfer_reassembles toy_hash 2 "f" (to_bytes "abcde")) as (cs & E & Hr); [done..|].
  exists cs. split; [exact E|]. cbv zeta.
  specialize (Hr ∅ ((λ c, (0, c)) <$> (reverse (Chunk.with_FileHash (toy_hash (to_bytes "abcde")) <$> cs) ++
    (Chunk.with_FileHash (toy_hash (to_bytes "abcde")) <$> cs)))).
  vm_compute in E. injection E as <-.
  destruct Hr as [Hc Hd]; [by left|vm_compute; set_solver|].
  split; [|apply Hd]; apply Hc; vm_compute; set_solver.
Defined.

(** A chunk is only as trustworthy as its [Length]: the chunk manager
    checks the hash of the data and nothing else, so one chunk with a valid
    hash and a negative [Length] completes a transfer, and assembling it makes
    the receiving process panic. *)
Theorem negative_Length_panics H now c :
  Chunk.ChunkID c = 0 → Chunk.IsLast c = true → Chunk.Hash c = H (Chunk.Data c) →
  - two63 ≤ Chunk.Length c < 0 →
  let '(res, cm) := ChunkManager.ReceiveChunk H now c ∅ in
  res = Ok tt ∧ ChunkManager.IsTransferComplete (Chunk.FileID c) cm = true ∧
  ChunkManager.AssembleFile H (Chunk.FileID c) cm = Panic "makeslice: len out of range".
Proof.
  intros Hid Hl Hh Hneg. unfold ChunkManager.ReceiveChunk, VerifyChunkHash.
  rewrite lookup_empty. cbn [ChunkManager.Transfer.ReceivedChunks]. rewrite lookup_empty.
  rewrite Hh, bool_decide_eq_false_2 by (by intros ?). split; [done|].
  unfold ChunkManager.IsTransferComplete, ChunkManager.AssembleFile.
  rewrite lookup_insert_eq. unfold ChunkManager.store_chunk. rewrite Hl, Hid.
  cbn [ChunkManager.Transfer.ReceivedChunks ChunkManager.Transfer.Complete].
  rewrite insert_empty, map_size_singleton. cbn [orb]. split; [done|]. simpl.
  unfold ChunkManager.AssembleReceipts. simpl. rewrite map_to_list_singleton. simpl.
  unfold total_length, sort_by_id. simpl. rewrite Z.add_0_l, wrap64_id by (unfold in64, two63 in *; lia).
  unfold make_bytes. destruct (Z.ltb_spec (Chunk.Length c) 0); [done|lia].
Qed.

Lemma negative_Length_panics_witness :
  let c := Chunk.mk "f" 0 0 (-1) [] (toy_hash []) "" true 1 in
  ChunkManager.AssembleFile toy_hash "f" (ChunkManager.ReceiveChunk toy_hash 0 c ∅).2 =
  Panic "makeslice: len out of range".
Proof.
  exact (proj2 (proj2 (negative_Length_panics toy_hash 0
    (Chunk.mk "f" 0 0 (-1) [] (toy_hash []) "" true 1) eq_refl eq_refl eq_refl
    ltac:(unfold two63; simpl; lia)))).
Defined.
