(* ===== verification/Database.v ===== *)
(** * The SQLite database (internal/database)

    A table is the list of its rows in the order the engine visits them, and a
    statement of the source is the function it denotes on the tables, with the
    constraints of the schema in db.go: primary keys, [UNIQUE], the foreign key
    from chunks to files, [AUTOINCREMENT].  Errors of the disk or the driver
    are not modelled.  [REAL] columns hold floats; [unixepoch()] is the second
    of [now].  A JSON column holds the tree its text denotes. *)

From Stdlib Require Import Strings.String.
From S2P Require Import Prelude GoStrings Json Clock.

(** ** Statements shared by the tables *)
Section Tables.
Context {A : Type}.

(** [INSERT ... ON CONFLICT DO UPDATE]: [same] says which row conflicts. *)
Definition upsert (same : A → bool) (update : A → A) (new : A) (rows : list A) : list A :=
  if existsb same rows then (λ r, if same r then update r else r) <$> rows else rows ++ [new].

(** [UPDATE ... WHERE]. *)
Definition update_where (cond : A → bool) (update : A → A) (rows : list A) : list A :=
  (λ r, if cond r then update r else r) <$> rows.

(** [DELETE ... WHERE]. *)
Definition delete_where (cond : A → bool) (rows : list A) : list A :=
  List.filter (λ r, negb (cond r)) rows.

(** [ORDER BY]: stable; [le] is decidable. *)
Definition order_by (le : A → A → Prop) `{!∀ x y, Decision (le x y)} (rows : list A) : list A :=
  merge_sort le rows.

End Tables.

(** The whole second [t] falls in, as a column of type [REAL]. *)
Definition to_real_time (t : time) : Z := round_f64 (unix_sec t).
Definition of_real_time (r : Z) : time := of_unix (f64_to_int64 r).

(** ** Rows and the structs they are scanned into *)

Module FileMetadata.
Record t : Type := mk {
  FileID : string; Path : string; Checksum : string; Size : Z; Mtime : time;
  Mode : option Z; PeerID : string; VectorClock : option Clock.VectorClock.t; Compressed : bool;
  OriginalSize : option Z; CompressionAlgorithm : option string;
  CreatedAt : time; UpdatedAt : time
}.
End FileMetadata.

Module FileRow.
Record t : Type := mk {
  file_id : string; path : string; checksum : string; size : Z; mtime : Z;
  mode : option Z; peer_id : string; vector_clock : Clock.VectorClock.json; compressed : bool;
  original_size : option Z; compression_algorithm : option string;
  created_at : Z; updated_at : Z
}.
End FileRow.

Module LogEntry.
Record t : Type := mk {
  Sequence : Z; OperationID : string; Timestamp : time; OperationType : string;
  PeerID : string; VectorClock : option Clock.VectorClock.t; Acknowledged : bool; Persisted : bool;
  FileID : option string; Path : string; FromPath : option string; Checksum : option string;
  Size : option Z; Mtime : option time; Mode : option Z; ChunkCount : Z; Data : bytes;
  Compressed : bool; OriginalSize : option Z; CompressionAlgorithm : option string
}.
End LogEntry.

Module OpRow.
Record t : Type := mk {
  sequence : Z; operation_id : string; timestamp : Z; operation_type : string;
  peer_id : string; vector_clock : Clock.VectorClock.json; acknowledged : bool; persisted : bool;
  file_id : option string; path : string; from_path : option string; checksum : option string;
  size : option Z; mtime : option Z; mode : option Z; chunk_count : Z; data : bytes;
  compressed : bool; original_size : option Z; compression_algorithm : option string
}.
Definition with_acknowledged (r : t) : t :=
  mk (sequence r) (operation_id r) (timestamp r) (operation_type r) (peer_id r) (vector_clock r)
    true (persisted r) (file_id r) (path r) (from_path r) (checksum r) (size r) (mtime r) (mode r)
    (chunk_count r) (data r) (compressed r) (original_size r) (compression_algorithm r).
Definition with_persisted (r : t) : t :=
  mk (sequence r) (operation_id r) (timestamp r) (operation_type r) (peer_id r) (vector_clock r)
    (acknowledged r) true (file_id r) (path r) (from_path r) (checksum r) (size r) (mtime r) (mode r)
    (chunk_count r) (data r) (compressed r) (original_size r) (compression_algorithm r).
End OpRow.

Module ChunkInfo.
Record t : Type := mk {
  FileID : string; ChunkID : Z; ChunkHash : string; Offset : Z; Length : Z;
  Received : bool; ReceivedAt : option time
}.
End ChunkInfo.

Module ChunkRow.
Record t : Type := mk {
  file_id : string; chunk_id : Z; chunk_hash : string; offset : Z; length : Z;
  received : bool; received_at : option Z
}.
End ChunkRow.

Module PeerInfo.
Record t : Type := mk {
  PeerID : string; Address : option string; Port : option Z; PublicKey : option string;
  Certificate : option string; Capabilities : option (list (string * json));
  LastSeen : option time; ConnectionState : string; TrustLevel : string; CreatedAt : time
}.
End PeerInfo.

Module PeerRow.
Record t : Type := mk {
  peer_id : string; address : option string; port : option Z; public_key : option string;
  certificate : option string;
  (** [None] is text that is not JSON. *)
  capabilities : option json;
  last_seen : option Z; connection_state : string; trust_level : string; created_at : Z
}.
Definition with_last_seen (s : option Z) (r : t) : t :=
  mk (peer_id r) (address r) (port r) (public_key r) (certificate r) (capabilities r) s
    (connection_state r) (trust_level r) (created_at r).
Definition with_connection_state (s : string) (r : t) : t :=
  mk (peer_id r) (address r) (port r) (public_key r) (certificate r) (capabilities r) (last_seen r)
    s (trust_level r) (created_at r).
End PeerRow.

(** ** The database *)
Module DB.
Record t : Type := mk {
  files : list FileRow.t; operations : list OpRow.t; peers : list PeerRow.t;
  chunks : list ChunkRow.t;
  (** The largest sequence number ever given out ([AUTOINCREMENT]). *)
  last_sequence : Z
}.
Definition with_files (f : list FileRow.t) (d : t) : t :=
  mk f (operations d) (peers d) (chunks d) (last_sequence d).
Definition with_operations (o : list OpRow.t) (d : t) : t :=
  mk (files d) o (peers d) (chunks d) (last_sequence d).
Definition with_peers (p : list PeerRow.t) (d : t) : t :=
  mk (files d) (operations d) p (chunks d) (last_sequence d).
Definition with_chunks (c : list ChunkRow.t) (d : t) : t :=
  mk (files d) (operations d) (peers d) c (last_sequence d).

(** [initSchema] on a new file. *)
Definition initSchema : t := mk [] [] [] [] 0.

(** *** Files (files.go) *)

Definition is_file (fileID : string) (r : FileRow.t) : bool := bool_decide (FileRow.file_id r = fileID).

Definition file_row (created : Z) (now : time) (fm : FileMetadata.t) (vc : Clock.VectorClock.json) : FileRow.t :=
  FileRow.mk (FileMetadata.FileID fm) (FileMetadata.Path fm) (FileMetadata.Checksum fm)
    (FileMetadata.Size fm) (to_real_time (FileMetadata.Mtime fm)) (FileMetadata.Mode fm)
    (FileMetadata.PeerID fm) vc (FileMetadata.Compressed fm) (FileMetadata.OriginalSize fm)
    (FileMetadata.CompressionAlgorithm fm) created (to_real_time now).

Definition InsertFile (now : time) (fm : FileMetadata.t) : GoM t unit :=
  vc ← glift (wrapping "failed to marshal vector clock"
                (Clock.VectorClock.MarshalJSON (FileMetadata.VectorClock fm)));
  gmodify (λ d, with_files
    (upsert (is_file (FileMetadata.FileID fm))
       (λ r, file_row (FileRow.created_at r) now fm vc)
       (file_row (to_real_time now) now fm vc) (files d)) d).

(** The struct filled from a row. *)
Definition scan_file (r : FileRow.t) : outcome FileMetadata.t :=
  vc ← Clock.VectorClock.UnmarshalJSON (FileRow.vector_clock r);
  Ok (FileMetadata.mk (FileRow.file_id r) (FileRow.path r) (FileRow.checksum r) (FileRow.size r)
        (of_real_time (FileRow.mtime r)) (FileRow.mode r) (FileRow.peer_id r) vc
        (FileRow.compressed r) (FileRow.original_size r) (FileRow.compression_algorithm r)
        (of_real_time (FileRow.created_at r)) (of_real_time (FileRow.updated_at r))).

Definition GetFile (fileID : string) (d : t) : outcome FileMetadata.t :=
  match List.find (is_file fileID) (files d) with
  | None => Err "file not found"
  | Some r => scan_file r
  end.

Definition newest_first (r1 r2 : FileRow.t) : Prop := FileRow.updated_at r2 ≤ FileRow.updated_at r1.
#[export] Instance newest_first_dec r1 r2 : Decision (newest_first r1 r2) := Z_le_dec _ _.

Definition GetFileByPath (path : string) (d : t) : outcome FileMetadata.t :=
  match order_by newest_first
          (List.filter (λ r, bool_decide (FileRow.path r = path)) (files d)) with
  | [] => Err "file not found"
  | r :: _ => scan_file r
  end.

(** An empty [vector_clock] leaves the clock nil. *)
Definition GetFileByID (fileID : string) (d : t) : outcome FileMetadata.t :=
  match order_by newest_first (List.filter (is_file fileID) (files d)) with
  | [] => Err "file not found"
  | r :: _ =>
      match FileRow.vector_clock r with
      | Clock.VectorClock.JEmpty =>
          scan_file (FileRow.mk (FileRow.file_id r) (FileRow.path r) (FileRow.checksum r)
            (FileRow.size r) (FileRow.mtime r) (FileRow.mode r) (FileRow.peer_id r)
            Clock.VectorClock.JNull (FileRow.compressed r) (FileRow.original_size r)
            (FileRow.compression_algorithm r) (FileRow.created_at r) (FileRow.updated_at r))
      | _ => scan_file r
      end
  end.

(** The foreign key of chunks refuses to orphan them. *)
Definition DeleteFile (fileID : string) : GoM t unit := λ d,
  if existsb (is_file fileID) (files d) &&
     existsb (λ c, bool_decide (ChunkRow.file_id c = fileID)) (chunks d)
  then (Err (wrap "failed to delete file" "FOREIGN KEY constraint failed"), d)
  else (Ok tt, with_files (delete_where (is_file fileID) (files d)) d).

Definition path_le (r1 r2 : FileRow.t) : Prop := String.leb (FileRow.path r1) (FileRow.path r2) = true.
#[export] Instance path_le_dec r1 r2 : Decision (path_le r1 r2) := bool_eq_dec _ _.

Definition GetAllFiles (d : t) : outcome (list FileMetadata.t) :=
  mapM scan_file (order_by path_le (files d)).

(** *** Operation log (operations.go) *)

Definition op_row (seq : Z) (entry : LogEntry.t) (vc : Clock.VectorClock.json) : OpRow.t :=
  OpRow.mk seq (LogEntry.OperationID entry) (to_real_time (LogEntry.Timestamp entry))
    (LogEntry.OperationType entry) (LogEntry.PeerID entry) vc (LogEntry.Acknowledged entry)
    (LogEntry.Persisted entry) (LogEntry.FileID entry) (LogEntry.Path entry)
    (LogEntry.FromPath entry) (LogEntry.Checksum entry) (LogEntry.Size entry)
    (to_real_time <$> LogEntry.Mtime entry) (LogEntry.Mode entry) (LogEntry.ChunkCount entry)
    (LogEntry.Data entry) (LogEntry.Compressed entry) (LogEntry.OriginalSize entry)
    (LogEntry.CompressionAlgorithm entry).

Definition is_operation (operationID : string) (r : OpRow.t) : bool :=
  bool_decide (OpRow.operation_id r = operationID).

Definition AppendOperation (entry : LogEntry.t) : GoM t unit := λ d,
  match Clock.VectorClock.MarshalJSON (LogEntry.VectorClock entry) with
  | Ok vc =>
      if existsb (is_operation (LogEntry.OperationID entry)) (operations d)
      then (Err (wrap "failed to append operation" "UNIQUE constraint failed"), d)
      else
        let seq := last_sequence d + 1 in
        (Ok tt, mk (files d) (operations d ++ [op_row seq entry vc]) (peers d) (chunks d) seq)
  | Err e => (Err (wrap "failed to marshal vector clock" e), d)
  | Panic w => (Panic w, d)
  end.

Definition MarkOperationAcknowledged (operationID : string) : GoM t unit :=
  gmodify (λ d, with_operations
    (update_where (is_operation operationID) OpRow.with_acknowledged (operations d)) d).

Definition MarkOperationPersisted (operationID : string) : GoM t unit :=
  gmodify (λ d, with_operations
    (update_where (is_operation operationID) OpRow.with_persisted (operations d)) d).

(** [size] is an INTEGER column read through a [sql.NullFloat64]. *)
Definition scan_entry (r : OpRow.t) : outcome LogEntry.t :=
  vc ← Clock.VectorClock.UnmarshalJSON (OpRow.vector_clock r);
  Ok (LogEntry.mk (OpRow.sequence r) (OpRow.operation_id r) (of_real_time (OpRow.timestamp r))
        (OpRow.operation_type r) (OpRow.peer_id r) vc (OpRow.acknowledged r) (OpRow.persisted r)
        (OpRow.file_id r) (OpRow.path r) (OpRow.from_path r) (OpRow.checksum r)
        ((λ n, f64_to_int64 (round_f64 n)) <$> OpRow.size r) (of_real_time <$> OpRow.mtime r)
        (OpRow.mode r) (OpRow.chunk_count r) (OpRow.data r) (OpRow.compressed r)
        (OpRow.original_size r) (OpRow.compression_algorithm r)).

Definition scanLogEntries (rows : list OpRow.t) : outcome (list LogEntry.t) := mapM scan_entry rows.

Definition seq_le (r1 r2 : OpRow.t) : Prop := OpRow.sequence r1 ≤ OpRow.sequence r2.
#[export] Instance seq_le_dec r1 r2 : Decision (seq_le r1 r2) := Z_le_dec _ _.

Definition GetUnacknowledgedOperations (d : t) : outcome (list LogEntry.t) :=
  scanLogEntries (order_by seq_le (List.filter (λ r, negb (OpRow.acknowledged r)) (operations d))).

Definition GetOperationsByFileID (fileID : string) (d : t) : outcome (list LogEntry.t) :=
  scanLogEntries (order_by seq_le
    (List.filter (λ r, bool_decide (OpRow.file_id r = Some fileID)) (operations d))).

Definition GetAllOperations (d : t) : outcome (list LogEntry.t) :=
  scanLogEntries (order_by seq_le (operations d)).

Definition CompactLog (maxEntries : Z) : GoM t unit := λ d,
  let count := zlen (operations d) in
  if count <=? maxEntries then (Ok tt, d)
  else
    let toDelete := count -! maxEntries in
    let acked := order_by seq_le (List.filter OpRow.acknowledged (operations d)) in
    (** A negative LIMIT is no limit. *)
    let victims := OpRow.sequence <$> (if toDelete <? 0 then acked else take (Z.to_nat toDelete) acked) in
    (Ok tt, with_operations
       (delete_where (λ r, bool_decide (OpRow.sequence r ∈ victims)) (operations d)) d).

(** *** Chunks (chunks.go) *)

Definition is_chunk (fileID : string) (chunkID : Z) (r : ChunkRow.t) : bool :=
  bool_decide (ChunkRow.file_id r = fileID) && (ChunkRow.chunk_id r =? chunkID).

Definition chunk_row (c : ChunkInfo.t) : ChunkRow.t :=
  ChunkRow.mk (ChunkInfo.FileID c) (ChunkInfo.ChunkID c) (ChunkInfo.ChunkHash c)
    (ChunkInfo.Offset c) (ChunkInfo.Length c) (ChunkInfo.Received c)
    (to_real_time <$> ChunkInfo.ReceivedAt c).

Definition InsertOrUpdateChunk (c : ChunkInfo.t) : GoM t unit := λ d,
  let same := is_chunk (ChunkInfo.FileID c) (ChunkInfo.ChunkID c) in
  if negb (existsb same (chunks d)) && negb (existsb (is_file (ChunkInfo.FileID c)) (files d))
  then (Err (wrap "failed to insert/update chunk" "FOREIGN KEY constraint failed"), d)
  else (Ok tt, with_chunks (upsert same (λ _, chunk_row c) (chunk_row c) (chunks d)) d).

Definition chunk_le (r1 r2 : ChunkRow.t) : Prop := ChunkRow.chunk_id r1 ≤ ChunkRow.chunk_id r2.
#[export] Instance chunk_le_dec r1 r2 : Decision (chunk_le r1 r2) := Z_le_dec _ _.

Definition scan_chunk (r : ChunkRow.t) : ChunkInfo.t :=
  ChunkInfo.mk (ChunkRow.file_id r) (ChunkRow.chunk_id r) (ChunkRow.chunk_hash r)
    (ChunkRow.offset r) (ChunkRow.length r) (ChunkRow.received r)
    (of_real_time <$> ChunkRow.received_at r).

Definition GetChunksForFile (fileID : string) (d : t) : outcome (list ChunkInfo.t) :=
  Ok (scan_chunk <$> order_by chunk_le
       (List.filter (λ r, bool_decide (ChunkRow.file_id r = fileID)) (chunks d))).

Definition GetMissingChunks (fileID : string) (d : t) : outcome (list ChunkInfo.t) :=
  Ok (scan_chunk <$> order_by chunk_le
       (List.filter (λ r, bool_decide (ChunkRow.file_id r = fileID) && negb (ChunkRow.received r))
          (chunks d))).

Definition MarkChunkReceived (now : time) (fileID : string) (chunkID : Z) : GoM t unit :=
  gmodify (λ d, with_chunks
    (update_where (is_chunk fileID chunkID)
       (λ r, ChunkRow.mk (ChunkRow.file_id r) (ChunkRow.chunk_id r) (ChunkRow.chunk_hash r)
               (ChunkRow.offset r) (ChunkRow.length r) true (Some (to_real_time now)))
       (chunks d)) d).

Definition DeleteChunksForFile (fileID : string) : GoM t unit :=
  gmodify (λ d, with_chunks
    (delete_where (λ r, bool_decide (ChunkRow.file_id r = fileID)) (chunks d)) d).

(** *** Peers (peers.go) *)

Definition is_peer (peerID : string) (r : PeerRow.t) : bool := bool_decide (PeerRow.peer_id r = peerID).

Definition peer_row (created : Z) (p : PeerInfo.t) : PeerRow.t :=
  PeerRow.mk (PeerInfo.PeerID p) (PeerInfo.Address p) (PeerInfo.Port p) (PeerInfo.PublicKey p)
    (PeerInfo.Certificate p) (Some (JObject (default [] (PeerInfo.Capabilities p))))
    (to_real_time <$> PeerInfo.LastSeen p) (PeerInfo.ConnectionState p) (PeerInfo.TrustLevel p) created.

Definition InsertOrUpdatePeer (now : time) (p : PeerInfo.t) : GoM t unit :=
  gmodify (λ d, with_peers
    (upsert (is_peer (PeerInfo.PeerID p)) (λ r, peer_row (PeerRow.created_at r) p)
       (peer_row (to_real_time now) p) (peers d)) d).

(** Text that is not an object leaves an empty map, [null] a nil one. *)
Definition scan_peer (r : PeerRow.t) : PeerInfo.t :=
  PeerInfo.mk (PeerRow.peer_id r) (PeerRow.address r) (PeerRow.port r) (PeerRow.public_key r)
    (PeerRow.certificate r)
    (match PeerRow.capabilities r with
     | Some (JObject m) => Some m
     | Some JNull => None
     | _ => Some []
     end)
    (of_real_time <$> PeerRow.last_seen r) (PeerRow.connection_state r) (PeerRow.trust_level r)
    (of_real_time (PeerRow.created_at r)).

Definition GetPeer (peerID : string) (d : t) : outcome PeerInfo.t :=
  match List.find (is_peer peerID) (peers d) with
  | None => Err "peer not found"
  | Some r => Ok (scan_peer r)
  end.

(** Descending; a NULL comes last. *)
Definition seen_first (r1 r2 : PeerRow.t) : Prop :=
  match PeerRow.last_seen r1, PeerRow.last_seen r2 with
  | Some s1, Some s2 => s2 ≤ s1
  | None, Some _ => False
  | _, None => True
  end.
#[export] Instance seen_first_dec r1 r2 : Decision (seen_first r1 r2).
Proof. unfold seen_first. repeat case_match; apply _. Defined.

Definition GetAllPeers (d : t) : outcome (list PeerInfo.t) :=
  Ok (scan_peer <$> order_by seen_first (peers d)).

Definition UpdatePeerLastSeen (now : time) (peerID : string) : GoM t unit :=
  gmodify (λ d, with_peers
    (update_where (is_peer peerID) (PeerRow.with_last_seen (Some (to_real_time now))) (peers d)) d).

Definition UpdatePeerConnectionState (peerID state : string) : GoM t unit :=
  gmodify (λ d, with_peers
    (update_where (is_peer peerID) (PeerRow.with_connection_state state) (peers d)) d).

End DB.
