(* ===== verification/DatabaseProps.v ===== *)
(** * Properties of the database: integrity, file records, the operation log *)

From Stdlib Require Import Strings.String.
From S2P Require Import Prelude GoStrings Clock Database.

(** ** Tables with a key *)
Section Keyed.
Context {A K : Type} `{!EqDecision K} (key : A → K) (k : K) (same : A → bool).
Hypothesis same_key : ∀ r, same r = true ↔ key r = k.

Lemma existsb_same rows : existsb same rows = true ↔ k ∈ key <$> rows.
Proof using All.
  rewrite existsb_exists, list_elem_of_fmap. split.
  - intros (r & Hr & Hs). exists r. rewrite same_key in Hs. split; [done|]. by apply list_elem_of_In.
  - intros (r & -> & Hr). exists r. rewrite same_key. split; [|done]. by apply list_elem_of_In.
Qed.

Lemma keys_update (f : A → A) rows :
  (∀ r, same r = true → key (f r) = key r) → key <$> update_where same f rows = key <$> rows.
Proof using All.
  intros Hf. unfold update_where. rewrite <- list_fmap_compose. apply list_fmap_ext.
  intros i r _. unfold compose. destruct (same r) eqn:E; auto.
Qed.

Lemma keys_upsert (f : A → A) new rows :
  (∀ r, same r = true → key (f r) = k) → key new = k →
  key <$> upsert same f new rows =
  if existsb same rows then key <$> rows else (key <$> rows) ++ [k].
Proof using All.
  intros Hf Hn. unfold upsert. destruct (existsb same rows).
  - apply keys_update. intros r Hr. rewrite Hf by done. symmetry. by apply same_key.
  - by rewrite fmap_app, <- Hn.
Qed.

Lemma NoDup_upsert (f : A → A) new rows :
  (∀ r, same r = true → key (f r) = k) → key new = k →
  NoDup (key <$> rows) → NoDup (key <$> upsert same f new rows).
Proof using All.
  intros Hf Hn Hd. rewrite keys_upsert by done. destruct (existsb same rows) eqn:E; [done|].
  apply NoDup_app. split_and!; [done| |apply NoDup_singleton].
  intros x Hx ->%list_elem_of_singleton. apply existsb_same in Hx. congruence.
Qed.

Lemma find_upsert (f : A → A) new rows :
  (∀ r, same r = true → same (f r) = true) → same new = true →
  List.find same (upsert same f new rows) =
  Some (match List.find same rows with Some r => f r | None => new end).
Proof using All.
  intros Hf Hn. unfold upsert. destruct (existsb same rows) eqn:E.
  - induction rows as [|r rows IH]; [done|]. simpl in *. destruct (same r) eqn:Er.
    + by rewrite Hf.
    + rewrite Er. by apply IH.
  - induction rows as [|r rows IH]; simpl in *; [by rewrite Hn|].
    apply orb_false_iff in E as [Er E]. rewrite Er. by apply IH.
Qed.

(** Rows with another key are not touched. *)
Lemma find_upsert_other (other : A → bool) (f : A → A) new rows :
  (∀ r, same r = true → other r = false) → (∀ r, same r = true → other (f r) = false) →
  other new = false →
  List.find other (upsert same f new rows) = List.find other rows.
Proof using All.
  intros Ho Hf Hn. unfold upsert. destruct (existsb same rows).
  - induction rows as [|r rows IH]; [done|]. simpl.
    destruct (same r) eqn:Er; [by rewrite Hf, (Ho r)|]. by destruct (other r).
  - induction rows as [|r rows IH]; simpl; [by rewrite Hn|]. by rewrite IH.
Qed.

End Keyed.

Lemma delete_where_sublist {A} (c : A → bool) rows : delete_where c rows `sublist_of` rows.
Proof.
  unfold delete_where. induction rows as [|r rows IH]; simpl; [constructor|].
  destruct (negb (c r)); by constructor.
Qed.

Lemma NoDup_delete_where {A K} (key : A → K) c rows :
  NoDup (key <$> rows) → NoDup (key <$> delete_where c rows).
Proof. intros H. eapply sublist_NoDup; [done|]. apply fmap_sublist, delete_where_sublist. Qed.

Lemma elem_of_delete_where {A} (c : A → bool) rows r :
  r ∈ delete_where c rows ↔ r ∈ rows ∧ c r = false.
Proof.
  unfold delete_where. rewrite !list_elem_of_In, List.filter_In, negb_true_iff. done.
Qed.

(** ** Integrity of the database *)
Import DB.

Definition chunk_key (c : ChunkRow.t) : string * Z := (ChunkRow.file_id c, ChunkRow.chunk_id c).

Record wf (d : DB.t) : Prop := {
  wf_files : NoDup (FileRow.file_id <$> files d);
  wf_operations : NoDup (OpRow.operation_id <$> operations d);
  wf_sequences : NoDup (OpRow.sequence <$> operations d);
  wf_last : ∀ r, r ∈ operations d → OpRow.sequence r ≤ last_sequence d;
  wf_peers : NoDup (PeerRow.peer_id <$> peers d);
  wf_chunks : NoDup (chunk_key <$> chunks d);
  wf_foreign : ∀ c, c ∈ chunks d → ChunkRow.file_id c ∈ FileRow.file_id <$> files d
}.

Lemma initSchema_wf : wf initSchema.
Proof. split; simpl; try apply NoDup_nil_2; set_solver. Qed.

Lemma is_file_key k r : is_file k r = true ↔ FileRow.file_id r = k.
Proof. apply bool_decide_eq_true. Qed.
Lemma is_peer_key k r : is_peer k r = true ↔ PeerRow.peer_id r = k.
Proof. apply bool_decide_eq_true. Qed.
Lemma is_operation_key k r : is_operation k r = true ↔ OpRow.operation_id r = k.
Proof. apply bool_decide_eq_true. Qed.
Lemma is_chunk_key f i r : is_chunk f i r = true ↔ chunk_key r = (f, i).
Proof.
  unfold is_chunk, chunk_key. rewrite andb_true_iff, bool_decide_eq_true, Z.eqb_eq.
  split; [by intros [-> ->]|]. by intros [= -> ->].
Qed.

(** The statements that change the database. *)
Inductive statement : Type :=
  | SInsertFile (now : time) (fm : FileMetadata.t)
  | SDeleteFile (fileID : string)
  | SAppendOperation (entry : LogEntry.t)
  | SMarkAcknowledged (operationID : string)
  | SMarkPersisted (operationID : string)
  | SCompactLog (maxEntries : Z)
  | SInsertOrUpdateChunk (c : ChunkInfo.t)
  | SMarkChunkReceived (now : time) (fileID : string) (chunkID : Z)
  | SDeleteChunksForFile (fileID : string)
  | SInsertOrUpdatePeer (now : time) (p : PeerInfo.t)
  | SUpdatePeerLastSeen (now : time) (peerID : string)
  | SUpdatePeerConnectionState (peerID state : string).

Definition exec (s : statement) : GoM DB.t unit :=
  match s with
  | SInsertFile now fm => InsertFile now fm
  | SDeleteFile f => DeleteFile f
  | SAppendOperation e => AppendOperation e
  | SMarkAcknowledged o => MarkOperationAcknowledged o
  | SMarkPersisted o => MarkOperationPersisted o
  | SCompactLog n => CompactLog n
  | SInsertOrUpdateChunk c => InsertOrUpdateChunk c
  | SMarkChunkReceived now f i => MarkChunkReceived now f i
  | SDeleteChunksForFile f => DeleteChunksForFile f
  | SInsertOrUpdatePeer now p => InsertOrUpdatePeer now p
  | SUpdatePeerLastSeen now p => UpdatePeerLastSeen now p
  | SUpdatePeerConnectionState p s => UpdatePeerConnectionState p s
  end.

(** *** Each table *)

Lemma with_files_wf f d :
  wf d → NoDup (FileRow.file_id <$> f) →
  (∀ c, c ∈ chunks d → ChunkRow.file_id c ∈ FileRow.file_id <$> f) → wf (with_files f d).
Proof. by intros [] ??. Qed.

Lemma InsertFile_state now fm d :
  ∃ vc, InsertFile now fm d =
    (Ok tt, with_files (upsert (is_file (FileMetadata.FileID fm))
       (λ r, file_row (FileRow.created_at r) now fm vc)
       (file_row (to_real_time now) now fm vc) (files d)) d) ∧
    Clock.VectorClock.UnmarshalJSON vc = Ok (FileMetadata.VectorClock fm).
Proof. unfold InsertFile. destruct (FileMetadata.VectorClock fm); eexists; by split. Qed.

Lemma InsertFile_wf now fm d : wf d → wf (InsertFile now fm d).2.
Proof.
  intros Hd. destruct (InsertFile_state now fm d) as (vc & -> & _). simpl. apply with_files_wf; [done| |].
  - apply (NoDup_upsert _ _ _ (is_file_key _)); [done..|apply wf_files, Hd].
  - intros c Hc. rewrite (keys_upsert _ _ _ (is_file_key _)) by done.
    pose proof (wf_foreign _ Hd c Hc). destruct (existsb _ _); set_solver.
Qed.

Lemma DeleteFile_wf f d : wf d → wf (DeleteFile f d).2.
Proof.
  intros Hd. unfold DeleteFile. destruct (existsb (is_file f) (files d)) eqn:E1,
    (existsb (λ c, bool_decide (ChunkRow.file_id c = f)) (chunks d)) eqn:E2; simpl; [done|..];
    (apply with_files_wf; [done|apply NoDup_delete_where, wf_files, Hd|]; intros c Hc;
     pose proof (wf_foreign _ Hd c Hc) as Hin; apply list_elem_of_fmap in Hin as (r & Hr & Hin);
     apply list_elem_of_fmap; exists r; split; [done|]; apply elem_of_delete_where; split; [done|];
     apply not_true_iff_false; intros Hk%is_file_key).
  - rewrite <- not_true_iff_false, existsb_exists in E2. apply E2. exists c.
    split; [by apply list_elem_of_In|]. apply bool_decide_eq_true. congruence.
  - rewrite <- not_true_iff_false, (existsb_same _ _ _ (is_file_key f)) in E1.
    apply E1, list_elem_of_fmap. by exists r.
  - rewrite <- not_true_iff_false, (existsb_same _ _ _ (is_file_key f)) in E1.
    apply E1, list_elem_of_fmap. by exists r.
Qed.

Lemma with_operations_wf o d :
  wf d → o `sublist_of` operations d ∨
         (OpRow.operation_id <$> o = OpRow.operation_id <$> operations d ∧
          OpRow.sequence <$> o = OpRow.sequence <$> operations d) →
  wf (with_operations o d).
Proof.
  intros [H1 H2 H3 H4 H5 H6 H7] Ho. split; try done; simpl.
  - destruct Ho as [Hs|[-> _]]; [|done]. eapply sublist_NoDup; [exact H2|]. by apply fmap_sublist.
  - destruct Ho as [Hs|[_ ->]]; [|done]. eapply sublist_NoDup; [exact H3|]. by apply fmap_sublist.
  - intros r Hr. destruct Ho as [Hs|[_ Hs]].
    + apply H4. by eapply sublist_subseteq.
    + assert (OpRow.sequence r ∈ OpRow.sequence <$> operations d) as (r' & -> & ?)%list_elem_of_fmap.
      { rewrite <- Hs. apply list_elem_of_fmap. by exists r. }
      by apply H4.
Qed.

Lemma update_operations_wf (same : OpRow.t → bool) f d :
  (∀ r, OpRow.operation_id (f r) = OpRow.operation_id r ∧ OpRow.sequence (f r) = OpRow.sequence r) →
  wf d → wf (with_operations (update_where same f (operations d)) d).
Proof.
  intros Hf Hd. apply with_operations_wf; [done|]. right.
  unfold update_where. split; rewrite <- list_fmap_compose; apply list_fmap_ext;
    intros i r _; unfold compose; destruct (same r); [|done| |done]; apply Hf.
Qed.

Lemma CompactLog_wf n d : wf d → wf (CompactLog n d).2.
Proof.
  intros Hd. unfold CompactLog. destruct (_ <=? _); [done|]. simpl.
  apply with_operations_wf; [done|]. left. apply delete_where_sublist.
Qed.

Lemma AppendOperation_fresh e d :
  existsb (is_operation (LogEntry.OperationID e)) (operations d) = false →
  ∃ vc, AppendOperation e d =
    (Ok tt, DB.mk (files d) (operations d ++ [op_row (last_sequence d + 1) e vc]) (peers d) (chunks d)
              (last_sequence d + 1)) ∧
    Clock.VectorClock.UnmarshalJSON vc = Ok (LogEntry.VectorClock e).
Proof.
  intros E. unfold AppendOperation. rewrite E.
  destruct (LogEntry.VectorClock e); eexists; by split.
Qed.

Lemma AppendOperation_duplicate e d :
  existsb (is_operation (LogEntry.OperationID e)) (operations d) = true →
  AppendOperation e d = (Err (wrap "failed to append operation" "UNIQUE constraint failed"), d).
Proof. intros E. unfold AppendOperation. rewrite E. by destruct (LogEntry.VectorClock e). Qed.

Lemma AppendOperation_wf e d : wf d → wf (AppendOperation e d).2.
Proof.
  intros Hd. destruct (existsb (is_operation (LogEntry.OperationID e)) (operations d)) eqn:E.
  { by rewrite AppendOperation_duplicate. }
  destruct (AppendOperation_fresh e d E) as (vc & -> & _). simpl.
  rewrite <- not_true_iff_false, (existsb_same _ _ _ (is_operation_key _)) in E.
  destruct Hd as [H1 H2 H3 H4 H5 H6 H7]. split; try done; simpl.
  - rewrite fmap_app. apply NoDup_app. split_and!; [done| |apply NoDup_singleton].
    intros x Hx ->%list_elem_of_singleton. done.
  - rewrite fmap_app. apply NoDup_app. split_and!; [done| |apply NoDup_singleton].
    intros x (r & -> & Hr)%list_elem_of_fmap Hx%list_elem_of_singleton. apply H4 in Hr. simpl in Hx. lia.
  - intros r [Hr| ->%list_elem_of_singleton]%elem_of_app; [apply H4 in Hr; lia|simpl; lia].
Qed.

Lemma with_chunks_wf c d :
  wf d → NoDup (chunk_key <$> c) →
  (∀ x, x ∈ c → ChunkRow.file_id x ∈ FileRow.file_id <$> files d) → wf (with_chunks c d).
Proof. by intros [] ??. Qed.

Lemma foreign_keys d (cs : list ChunkRow.t) :
  wf d → (∀ x, x ∈ chunk_key <$> cs → x ∈ chunk_key <$> chunks d) →
  ∀ c, c ∈ cs → ChunkRow.file_id c ∈ FileRow.file_id <$> files d.
Proof.
  intros Hd Hs c Hc.
  assert (chunk_key c ∈ chunk_key <$> chunks d) as (c' & E & Hc')%list_elem_of_fmap
    by (apply Hs, list_elem_of_fmap; by exists c).
  injection E as -> _. by apply (wf_foreign _ Hd).
Qed.

Lemma InsertOrUpdateChunk_wf c d : wf d → wf (InsertOrUpdateChunk c d).2.
Proof.
  intros Hd. unfold InsertOrUpdateChunk.
  set (same := is_chunk (ChunkInfo.FileID c) (ChunkInfo.ChunkID c)).
  pose proof (is_chunk_key (ChunkInfo.FileID c) (ChunkInfo.ChunkID c)) as Hk. fold same in Hk.
  destruct (existsb same (chunks d)) eqn:E1, (existsb (is_file (ChunkInfo.FileID c)) (files d)) eqn:E2;
    simpl; [..|done]; (apply with_chunks_wf; [done|by apply (NoDup_upsert _ _ _ Hk); [..|apply wf_chunks]|]).
  - apply (foreign_keys d); [done|]. rewrite (keys_upsert _ _ _ Hk), E1 by done. done.
  - apply (foreign_keys d); [done|]. rewrite (keys_upsert _ _ _ Hk), E1 by done. done.
  - intros x. unfold upsert. rewrite E1. intros [Hx| ->%list_elem_of_singleton]%elem_of_app.
    + by apply (wf_foreign _ Hd).
    + by apply (existsb_same _ _ _ (is_file_key _)).
Qed.

Lemma MarkChunkReceived_wf now f i d : wf d → wf (MarkChunkReceived now f i d).2.
Proof.
  intros Hd. simpl. set (g := λ r : ChunkRow.t, _).
  assert (chunk_key <$> update_where (is_chunk f i) g (chunks d) = chunk_key <$> chunks d) as E
    by (by apply (keys_update _ _ _ (is_chunk_key f i))).
  apply with_chunks_wf; [done|rewrite E; apply wf_chunks, Hd|].
  apply (foreign_keys d); [done|]. by rewrite E.
Qed.

Lemma DeleteChunksForFile_wf f d : wf d → wf (DeleteChunksForFile f d).2.
Proof.
  intros Hd. simpl. apply with_chunks_wf; [done|apply NoDup_delete_where, wf_chunks, Hd|].
  intros x [Hx _]%elem_of_delete_where. by apply (wf_foreign _ Hd).
Qed.

Lemma with_peers_wf p d : wf d → NoDup (PeerRow.peer_id <$> p) → wf (with_peers p d).
Proof. by intros [] ?. Qed.

Lemma exec_wf s d : wf d → wf (exec s d).2.
Proof.
  destruct s; simpl exec; intros Hd.
  - by apply InsertFile_wf.
  - by apply DeleteFile_wf.
  - by apply AppendOperation_wf.
  - by apply update_operations_wf.
  - by apply update_operations_wf.
  - by apply CompactLog_wf.
  - by apply InsertOrUpdateChunk_wf.
  - by apply MarkChunkReceived_wf.
  - by apply DeleteChunksForFile_wf.
  - apply with_peers_wf; [done|]. apply (NoDup_upsert _ _ _ (is_peer_key _)); [done..|]. apply wf_peers, Hd.
  - apply with_peers_wf; [done|]. rewrite (keys_update _ _ _ (is_peer_key _)) by done. apply wf_peers, Hd.
  - apply with_peers_wf; [done|]. rewrite (keys_update _ _ _ (is_peer_key _)) by done. apply wf_peers, Hd.
Qed.

(** C17: Whatever statements are executed on a new database, succeeding or
    failing, keys and sequence numbers stay unique, no sequence number exceeds
    the counter, and every chunk row belongs to a stored file. *)
Theorem database_integrity (ss : list statement) :
  wf (foldl (λ d s, (exec s d).2) initSchema ss).
Proof.
  pose proof initSchema_wf as H. revert H. generalize initSchema.
  induction ss as [|s ss IH]; intros d Hd; [done|]. by apply IH, exec_wf.
Qed.

(** ** File records *)

(** What the columns keep of a time: its whole second. *)
Definition truncated (t : time) : time := of_unix (unix_sec t).
Definition stored_time (t : time) : Prop := exact_f64 (unix_sec t).

Lemma real_time_roundtrip t : stored_time t → of_real_time (to_real_time t) = truncated t.
Proof. intros H. unfold of_real_time, to_real_time. by rewrite f64_roundtrip. Qed.

Lemma truncated_spec t : truncated t ≤ t < truncated t + second.
Proof. unfold truncated, of_unix, unix_sec, second, nano_per_sec. pose proof (Z.mod_pos_bound t 1000000000). pose proof (Z.div_mod t 1000000000). lia. Qed.

(** Writing [now] and reading it back. *)
Definition stored (now : time) (created : time) (fm : FileMetadata.t) : FileMetadata.t :=
  FileMetadata.mk (FileMetadata.FileID fm) (FileMetadata.Path fm) (FileMetadata.Checksum fm)
    (FileMetadata.Size fm) (truncated (FileMetadata.Mtime fm)) (FileMetadata.Mode fm)
    (FileMetadata.PeerID fm) (FileMetadata.VectorClock fm) (FileMetadata.Compressed fm)
    (FileMetadata.OriginalSize fm) (FileMetadata.CompressionAlgorithm fm)
    created (truncated now).

Lemma scan_file_row created now fm vc :
  stored_time (FileMetadata.Mtime fm) → stored_time now →
  Clock.VectorClock.UnmarshalJSON vc = Ok (FileMetadata.VectorClock fm) →
  scan_file (file_row created now fm vc) = Ok (stored now (of_real_time created) fm).
Proof.
  intros Hm Hn Hvc. unfold scan_file, file_row. simpl. rewrite Hvc. simpl.
  by rewrite !real_time_roundtrip.
Qed.

(** A file record written with [InsertFile] is read back by [GetFile]
    unchanged except that its times are cut to the second; a second write under
    the same id replaces the record but keeps its creation time; records of
    other files are not touched. *)
Theorem InsertFile_GetFile now fm d :
  stored_time (FileMetadata.Mtime fm) → stored_time now →
  let '(res, d') := InsertFile now fm d in
  res = Ok tt ∧
  GetFile (FileMetadata.FileID fm) d' =
    Ok (stored now (match List.find (is_file (FileMetadata.FileID fm)) (files d) with
                    | Some r => of_real_time (FileRow.created_at r)
                    | None => truncated now
                    end) fm) ∧
  ∀ other, other ≠ FileMetadata.FileID fm → GetFile other d' = GetFile other d.
Proof.
  intros Hm Hn. destruct (InsertFile_state now fm d) as (vc & -> & Hvc). split; [done|].
  set (k := FileMetadata.FileID fm) in *. unfold GetFile, with_files, files. split.
  - rewrite (find_upsert FileRow.file_id k _ (is_file_key k)) by (intros; by apply is_file_key).
    destruct (List.find _ _); rewrite scan_file_row by done; [done|]. by rewrite real_time_roundtrip.
  - intros other Hne. rewrite (find_upsert_other FileRow.file_id k _ (is_file_key k)); [done|..].
    + intros r Hr%is_file_key. apply bool_decide_eq_false. congruence.
    + intros r _. by apply bool_decide_eq_false.
    + by apply bool_decide_eq_false.
Qed.

(** With unique ids the two lookups by id find the same row. *)
Lemma filter_unique rows k : NoDup (FileRow.file_id <$> rows) →
  List.filter (is_file k) rows = match List.find (is_file k) rows with Some r => [r] | None => [] end.
Proof.
  induction rows as [|r rows IH]; [done|]. intros [Hr Hnd]%NoDup_cons. simpl.
  destruct (is_file k r) eqn:E; [|by apply IH]. f_equal. rewrite (IH Hnd).
  destruct (List.find (is_file k) rows) as [r'|] eqn:E'; [|done].
  apply find_some in E' as [Hin Hk]. apply is_file_key in E, Hk. destruct Hr. rewrite E, <- Hk.
  apply list_elem_of_fmap. exists r'. split; [done|by apply list_elem_of_In].
Qed.

Lemma GetFileByID_find k d : wf d →
  GetFileByID k d = match List.find (is_file k) (files d) with
                    | None => Err "file not found"
                    | Some r => GetFileByID k (with_files [r] d)
                    end.
Proof.
  intros Hwf. unfold GetFileByID. rewrite filter_unique by apply Hwf.
  destruct (List.find (is_file k) (files d)) as [r|] eqn:E; [|done].
  apply find_some in E as [_ E]. by simpl; rewrite E.
Qed.

Lemma InsertFile_GetFileByID now fm d :
  wf d → stored_time (FileMetadata.Mtime fm) → stored_time now →
  ∃ created, GetFileByID (FileMetadata.FileID fm) (InsertFile now fm d).2 = Ok (stored now created fm).
Proof.
  intros Hwf Hm Hn. rewrite GetFileByID_find by by apply InsertFile_wf.
  destruct (InsertFile_state now fm d) as (vc & -> & Hvc).
  set (k := FileMetadata.FileID fm) in *. cbn [snd files with_files].
  rewrite (find_upsert FileRow.file_id k _ (is_file_key k)) by (intros; by apply is_file_key).
  assert (∀ c, GetFileByID k (with_files [file_row c now fm vc] d) = Ok (stored now (of_real_time c) fm)) as H.
  { intros c. unfold GetFileByID, with_files, files, order_by. simpl.
    replace (is_file k (file_row c now fm vc)) with true by (symmetry; by apply is_file_key). simpl.
    rewrite <- (scan_file_row c now fm vc) by done. by destruct vc. }
  destruct (List.find _ _); eexists; apply H.
Qed.

Definition demo_fm : FileMetadata.t :=
  FileMetadata.mk "id1" "a.txt" "c1" 3 1700000000123456789 None "p" (Some {["p" := 1]}) false
    None None 0 0.

Lemma InsertFile_GetFile_witness :
  GetFile "id1" (InsertFile 1700000001500000000 demo_fm initSchema).2
  = Ok (stored 1700000001500000000 1700000001000000000 demo_fm).
Proof. apply (InsertFile_GetFile 1700000001500000000 demo_fm initSchema); done. Defined.

(** *** Lookup by path *)

#[export] Instance newest_first_trans : Transitive newest_first.
Proof. unfold newest_first. intros ???. lia. Qed.
#[export] Instance newest_first_total : Total newest_first.
Proof. unfold newest_first. intros ??. lia. Qed.

Lemma order_by_head {A} (le : A → A → Prop) `{!∀ x y, Decision (le x y)} `{!Transitive le} `{!Total le} rows :
  match order_by le rows with
  | [] => rows = []
  | r :: _ => r ∈ rows ∧ ∀ r', r' ∈ rows → le r r'
  end.
Proof.
  unfold order_by. pose proof (merge_sort_Permutation le rows) as Hp.
  pose proof (StronglySorted_merge_sort le rows) as Hs.
  destruct (merge_sort le rows) as [|r l].
  - by apply Permutation_nil in Hp.
  - apply StronglySorted_inv in Hs as [_ Hall]. rewrite Forall_forall in Hall.
    split; [rewrite <- Hp; set_solver|]. intros r'. rewrite <- Hp.
    intros [->|Hin]%elem_of_cons; [|by apply Hall]. by destruct (total le r r).
Qed.

Lemma in_filter {A} (P : A → bool) l x : x ∈ List.filter P l ↔ x ∈ l ∧ P x = true.
Proof. by rewrite !list_elem_of_In, List.filter_In. Qed.

(** [GetFileByPath] reports an error exactly when no file has the path, and
    otherwise reads a record of that path that no other record of it was updated
    after. *)
Theorem GetFileByPath_newest p d :
  match List.filter (λ r, bool_decide (FileRow.path r = p)) (files d) with
  | [] => GetFileByPath p d = Err "file not found"
  | _ => ∃ r, GetFileByPath p d = scan_file r ∧ r ∈ files d ∧ FileRow.path r = p ∧
              ∀ r', r' ∈ files d → FileRow.path r' = p → FileRow.updated_at r' ≤ FileRow.updated_at r
  end.
Proof.
  unfold GetFileByPath. set (rows := List.filter _ _).
  pose proof (order_by_head newest_first rows) as Ho.
  destruct (order_by newest_first rows) as [|r l]; [by rewrite Ho|].
  destruct Ho as [Hin Hmax]. assert (rows ≠ []) as Hne by (intros E; rewrite E in Hin; set_solver).
  destruct rows eqn:Er; [done|]. rewrite <- Er in *. exists r. split; [done|].
  unfold rows in *. apply in_filter in Hin as [Hin Hp%bool_decide_eq_true]. split_and!; [done..|].
  intros r' Hr' Hp'. apply Hmax. apply in_filter. by rewrite bool_decide_eq_true.
Qed.

(** ** The operation log *)

(** The abstract log: the rows by sequence number. *)
Definition oplog (d : DB.t) : list OpRow.t := order_by seq_le (operations d).

#[export] Instance seq_le_trans : Transitive seq_le.
Proof. unfold seq_le. intros ???. lia. Qed.
#[export] Instance seq_le_total : Total seq_le.
Proof. unfold seq_le. intros ??. lia. Qed.

Lemma unique_sequence rows r1 r2 :
  NoDup (OpRow.sequence <$> rows) → r1 ∈ rows → r2 ∈ rows →
  OpRow.sequence r1 = OpRow.sequence r2 → r1 = r2.
Proof.
  intros Hn [i1 H1]%list_elem_of_lookup [i2 H2]%list_elem_of_lookup E.
  assert (i1 = i2) as ->; [|congruence].
  eapply (NoDup_lookup _ _ _ _ Hn); [by rewrite list_lookup_fmap, H1|by rewrite list_lookup_fmap, H2, E].
Qed.

(** Unique sequence numbers make the order unique. *)
Lemma order_by_unique rows sorted :
  NoDup (OpRow.sequence <$> rows) → Sorted seq_le sorted → sorted ≡ₚ rows →
  order_by seq_le rows = sorted.
Proof.
  intros Hn Hs Hp. unfold order_by. apply (Sorted_unique_strong seq_le).
  - intros r1 r2 H1 H2 L1 L2. rewrite merge_sort_Permutation in H1. rewrite Hp in H2.
    apply (unique_sequence rows); [done..|]. unfold seq_le in *. lia.
  - apply Sorted_merge_sort, _.
  - done.
  - by rewrite merge_sort_Permutation, Hp.
Qed.

Lemma filter_sorted (P : OpRow.t → bool) l : Sorted seq_le l → Sorted seq_le (List.filter P l).
Proof.
  intros Hs%(Sorted_StronglySorted _). apply StronglySorted_Sorted.
  induction Hs as [|r l Hs IH Hall]; simpl; [constructor|].
  destruct (P r); [|done]. constructor; [done|].
  rewrite Forall_forall in *. intros x [Hx _]%in_filter. by apply Hall.
Qed.

Lemma filter_Permutation {A} (P : A → bool) l l' : l ≡ₚ l' → List.filter P l ≡ₚ List.filter P l'.
Proof.
  induction 1; simpl; repeat case_match; try done.
  - by constructor.
  - constructor.
  - by etrans.
Qed.

Lemma NoDup_filter_key {A K} (key : A → K) (P : A → bool) rows :
  NoDup (key <$> rows) → NoDup (key <$> List.filter P rows).
Proof.
  intros H. eapply sublist_NoDup; [exact H|]. apply fmap_sublist.
  induction rows as [|r rows IH]; simpl in *; [constructor|].
  apply NoDup_cons in H as [_ H]. destruct (P r); constructor; by apply IH.
Qed.

Lemma oplog_sorted d : Sorted seq_le (oplog d).
Proof. apply Sorted_merge_sort, _. Qed.

Lemma oplog_Permutation d : oplog d ≡ₚ operations d.
Proof. apply merge_sort_Permutation. Qed.

(** A query is a filter of the log. *)
Lemma query_oplog P d : wf d →
  order_by seq_le (List.filter P (operations d)) = List.filter P (oplog d).
Proof.
  intros Hd. apply order_by_unique.
  - apply NoDup_filter_key, wf_sequences, Hd.
  - apply filter_sorted, oplog_sorted.
  - apply filter_Permutation, oplog_Permutation.
Qed.

Lemma oplog_append r d : wf d → last_sequence d < OpRow.sequence r →
  order_by seq_le (operations d ++ [r]) = oplog d ++ [r].
Proof.
  intros Hd Hl. assert (∀ x, x ∈ operations d → OpRow.sequence x < OpRow.sequence r) as Hx
    by (intros x Hx%(wf_last _ Hd); lia).
  apply order_by_unique.
  - rewrite fmap_app. apply NoDup_app. split_and!; [apply wf_sequences, Hd| |apply NoDup_singleton].
    intros s (x & -> & Hin)%list_elem_of_fmap E%list_elem_of_singleton. apply Hx in Hin. lia.
  - assert (∀ x, x ∈ oplog d → seq_le x r) as Hle.
    { intros x. rewrite oplog_Permutation. intros Hin%Hx. unfold seq_le. lia. }
    pose proof (oplog_sorted d) as Hs. apply (Sorted_StronglySorted _) in Hs.
    apply StronglySorted_Sorted. induction Hs as [|x l Hs IH Hall]; simpl; [repeat constructor|].
    constructor; [apply IH; set_solver|]. apply Forall_app. split; [done|].
    constructor; [apply Hle; set_solver|constructor].
  - by rewrite oplog_Permutation.
Qed.

Lemma oplog_update (same : OpRow.t → bool) f d : wf d →
  (∀ r, OpRow.sequence (f r) = OpRow.sequence r) →
  order_by seq_le (update_where same f (operations d)) = update_where same f (oplog d).
Proof.
  intros Hd Hf. unfold update_where. set (g := λ r, if same r then f r else r).
  assert (∀ r, OpRow.sequence (g r) = OpRow.sequence r) as Hg by (intros r; unfold g; by destruct (same r)).
  apply order_by_unique.
  - rewrite <- list_fmap_compose. rewrite (list_fmap_ext _ OpRow.sequence); [apply wf_sequences, Hd|].
    intros i r _. apply Hg.
  - pose proof (oplog_sorted d) as Hs. apply (Sorted_StronglySorted _) in Hs. apply StronglySorted_Sorted.
    induction Hs as [|x l Hs IH Hall]; simpl; constructor; [done|]. rewrite Forall_forall in *.
    intros y (z & -> & Hz)%list_elem_of_fmap. apply Hall in Hz. unfold seq_le in *. rewrite !Hg. done.
  - by rewrite oplog_Permutation.
Qed.

(** C16: The operation log behaves as an append-only list with flags:
    [AppendOperation] adds a new operation at the end and refuses an id already
    present without changing anything; the two marks change only the flag of the
    named operation; the queries return the matching entries in log order. *)
Theorem oplog_refinement d :
  wf d →
  (∀ e, if existsb (is_operation (LogEntry.OperationID e)) (oplog d)
        then AppendOperation e d =
               (Err (wrap "failed to append operation" "UNIQUE constraint failed"), d)
        else ∃ vc, (AppendOperation e d).1 = Ok tt ∧
               oplog (AppendOperation e d).2 = oplog d ++ [op_row (last_sequence d + 1) e vc] ∧
               Clock.VectorClock.UnmarshalJSON vc = Ok (LogEntry.VectorClock e)) ∧
  (∀ o, oplog (MarkOperationAcknowledged o d).2 =
        update_where (is_operation o) OpRow.with_acknowledged (oplog d)) ∧
  (∀ o, oplog (MarkOperationPersisted o d).2 =
        update_where (is_operation o) OpRow.with_persisted (oplog d)) ∧
  GetUnacknowledgedOperations d =
    scanLogEntries (List.filter (λ r, negb (OpRow.acknowledged r)) (oplog d)) ∧
  (∀ f, GetOperationsByFileID f d =
    scanLogEntries (List.filter (λ r, bool_decide (OpRow.file_id r = Some f)) (oplog d))) ∧
  GetAllOperations d = scanLogEntries (oplog d).
Proof.
  intros Hd. split_and!.
  - intros e. assert (existsb (is_operation (LogEntry.OperationID e)) (oplog d) =
      existsb (is_operation (LogEntry.OperationID e)) (operations d)) as ->.
    { apply eq_bool_prop_intro. rewrite !Is_true_true, !(existsb_same _ _ _ (is_operation_key _)).
      by rewrite oplog_Permutation. }
    destruct (existsb _ _) eqn:E; [by apply AppendOperation_duplicate|].
    destruct (AppendOperation_fresh e d E) as (vc & -> & Hvc). exists vc. split_and!; [done| |done].
    apply (oplog_append _ d Hd). simpl. lia.
  - intros o. by apply oplog_update.
  - intros o. by apply oplog_update.
  - unfold GetUnacknowledgedOperations. by rewrite query_oplog.
  - intros f. unfold GetOperationsByFileID. by rewrite query_oplog.
  - done.
Qed.

Definition demo_entry : LogEntry.t :=
  LogEntry.mk 0 "op1" 0 "create" "p" None false false (Some "f"%string) "a.txt" None None (Some 5) None None 0 []
    false None None.

Lemma oplog_refinement_witness :
  ∃ vc, oplog (AppendOperation demo_entry initSchema).2 = [] ++ [op_row 1 demo_entry vc] ∧
        Clock.VectorClock.UnmarshalJSON vc = Ok None.
Proof.
  destruct (oplog_refinement initSchema initSchema_wf) as [Ha _].
  destruct (Ha demo_entry) as (vc & _ & Hl & Hv). exists vc. split; [exact Hl|exact Hv].
Defined.

(** ** Compaction *)

Abbreviation acked := (List.filter OpRow.acknowledged).
Abbreviation unacked := (List.filter (λ r, negb (OpRow.acknowledged r))).

Lemma filter_split {A} (P : A → bool) l :
  length l = (length (List.filter P l) + length (List.filter (λ x, negb (P x)) l))%nat.
Proof. induction l as [|x l IH]; [done|]. simpl. destruct (P x); simpl; lia. Qed.

Lemma filter_comm {A} (P Q : A → bool) l :
  List.filter P (List.filter Q l) = List.filter Q (List.filter P l).
Proof.
  induction l as [|x l IH]; [done|]. simpl.
  destruct (P x) eqn:EP, (Q x) eqn:EQ; simpl; rewrite ?EP, ?EQ; congruence.
Qed.

(** Deleting the first [k] rows by key leaves the others. *)
Lemma delete_prefix (k : nat) l :
  NoDup (OpRow.sequence <$> l) →
  delete_where (λ r, bool_decide (OpRow.sequence r ∈ OpRow.sequence <$> take k l)) l = drop k l.
Proof.
  intros Hn. unfold delete_where. set (keep := λ r, negb _).
  transitivity (List.filter keep (take k l ++ drop k l)); [by rewrite take_drop|].
  rewrite List.filter_app, (filter_none keep (take k l)), (filter_all keep (drop k l)); [done|..]; unfold keep.
  - intros r Hr. apply negb_true_iff, bool_decide_eq_false. intros Hin.
    rewrite <- (take_drop k l), fmap_app in Hn. apply NoDup_app in Hn as (_ & Hd & _).
    eapply Hd; [exact Hin|]. by apply list_elem_of_fmap_2.
  - intros r Hr. apply negb_false_iff, bool_decide_eq_true. by apply list_elem_of_fmap_2.
Qed.

(** The rows [CompactLog] deletes. *)
Definition compaction_victims (k : nat) (d : DB.t) : list Z := OpRow.sequence <$> take k (acked (oplog d)).

Lemma CompactLog_state maxEntries d :
  wf d → 0 ≤ maxEntries < zlen (operations d) → zlen (operations d) < two63 →
  CompactLog maxEntries d = (Ok tt, with_operations
    (delete_where (λ r, bool_decide (OpRow.sequence r ∈
       compaction_victims (length (operations d) - Z.to_nat maxEntries) d)) (operations d)) d).
Proof.
  intros Hd Hm Hc. unfold CompactLog, compaction_victims. destruct (Z.leb_spec (zlen (operations d)) maxEntries); [lia|].
  rewrite wrap64_id by (unfold in64, two63 in *; lia).
  destruct (Z.ltb_spec (zlen (operations d) - maxEntries) 0); [lia|].
  rewrite query_oplog by done. by replace (Z.to_nat _) with (length (operations d) - Z.to_nat maxEntries)%nat by lia.
Qed.

Lemma compaction_log k d : wf d →
  let gone := λ r, bool_decide (OpRow.sequence r ∈ compaction_victims k d) in
  order_by seq_le (delete_where gone (operations d)) = delete_where gone (oplog d) ∧
  unacked (delete_where gone (oplog d)) = unacked (oplog d) ∧
  acked (delete_where gone (oplog d)) = drop k (acked (oplog d)).
Proof.
  intros Hd gone. assert (NoDup (OpRow.sequence <$> oplog d)) as Hn
    by (rewrite oplog_Permutation; apply wf_sequences, Hd).
  split_and!; [by apply query_oplog| |]; unfold delete_where; rewrite filter_comm.
  - apply filter_all. intros r [Hr Ha]%in_filter.
    apply negb_true_iff, bool_decide_eq_false. intros (r' & E & Hr')%list_elem_of_fmap.
    apply (subseteq_take k) in Hr'. apply in_filter in Hr' as [Hr' Ha'].
    rewrite (unique_sequence (oplog d) r r') in Ha by done. by rewrite Ha' in Ha.
  - apply delete_prefix, NoDup_filter_key, Hn.
Qed.

(** C18: [CompactLog] never loses an unacknowledged operation: it deletes the
    oldest acknowledged ones, as many as the log is over its limit, and the log
    is then within the limit unless unacknowledged operations alone exceed it. *)
Theorem CompactLog_spec maxEntries d :
  wf d → 0 ≤ maxEntries → zlen (operations d) < two63 →
  let '(res, d') := CompactLog maxEntries d in
  res = Ok tt ∧
  unacked (oplog d') = unacked (oplog d) ∧
  acked (oplog d') = drop (length (operations d) - Z.to_nat maxEntries) (acked (oplog d)) ∧
  zlen (operations d') =
    Z.min (zlen (operations d)) (Z.max maxEntries (zlen (unacked (operations d)))).
Proof.
  intros Hd Hm Hc. pose proof (filter_split OpRow.acknowledged (operations d)) as Hl.
  destruct (decide (zlen (operations d) ≤ maxEntries)) as [Hle|Hgt].
  { unfold CompactLog. rewrite (proj2 (Z.leb_le _ _) Hle). split_and!; [done..| |lia].
    by replace (_ - _)%nat with 0%nat by lia. }
  rewrite CompactLog_state by (done || lia). set (k := (length (operations d) - _)%nat).
  destruct (compaction_log k d Hd) as (Ho & Hu & Ha). unfold oplog at 1 3. simpl.
  rewrite Ho, Hu, Ha. split_and!; [done..|].
  assert (length (delete_where (λ r, bool_decide (OpRow.sequence r ∈ compaction_victims k d)) (operations d))
          = length (delete_where (λ r, bool_decide (OpRow.sequence r ∈ compaction_victims k d)) (oplog d))) as ->.
  { rewrite <- Ho. symmetry. apply Permutation_length, merge_sort_Permutation. }
  rewrite (filter_split OpRow.acknowledged (delete_where _ (oplog d))), Hu, Ha, length_drop.
  pose proof (Permutation_length (filter_Permutation OpRow.acknowledged _ _ (oplog_Permutation d))).
  pose proof (Permutation_length (filter_Permutation (λ r, negb (OpRow.acknowledged r)) _ _ (oplog_Permutation d))).
  unfold k. lia.
Qed.

(** One acknowledged and one unacknowledged operation, limit 1. *)
Definition demo_log : DB.t :=
  (MarkOperationAcknowledged "op1" (AppendOperation
    (LogEntry.mk 0 "op2" 0 "update" "p" None false false None "b.txt" None None None None None 0 []
       false None None) (AppendOperation demo_entry initSchema).2).2).2.

Lemma CompactLog_spec_witness :
  unacked (oplog (CompactLog 1 demo_log).2) = unacked (oplog demo_log) ∧
  OpRow.operation_id <$> operations (CompactLog 1 demo_log).2 = ["op2"%string].
Proof.
  split; [|reflexivity].
  assert (wf demo_log) as Hd.
  { apply (exec_wf (SMarkAcknowledged _)), (exec_wf (SAppendOperation _)),
      (exec_wf (SAppendOperation _)), initSchema_wf. }
  pose proof (CompactLog_spec 1 demo_log Hd) as Hs.
  destruct (CompactLog 1 demo_log) as [res d'] eqn:E. apply Hs; [lia|reflexivity].
Defined.

(** ** Precision: the log reads sizes back through a float *)
Lemma large_size_rounded :
  ∃ e, GetAllOperations (AppendOperation
      (LogEntry.mk 0 "op" 0 "create" "p" None false false None "a" None None (Some 9007199254740993)
         None None 0 [] false None None) initSchema).2 = Ok [e] ∧
    LogEntry.Size e = Some 9007199254740992.
Proof. by eexists. Qed.
