(* ===== verification/Migrations.v ===== *)
(** * Migrations (internal/database/migrations.go)

    [Migrate] keeps a table of applied versions and applies none: the schema is
    made by [initSchema].  No code calls it.  What the database driver answers is
    an argument. *)

From Stdlib Require Import Strings.String.
From S2P Require Import Prelude GoStrings Database.

Module Migrations.

(** The table [schema_migrations], if there is one, beside the tables of [DB]. *)
Record t : Type := mk { tables : DB.t; schema_migrations : option (list (Z * time)) }.

(** [sql.ErrNoRows]. *)
Definition ErrNoRows : error := "sql: no rows in result set".

(** [SELECT COALESCE(MAX(version), 0)]. *)
Definition current_version (rows : list (Z * time)) : Z :=
  match rows.*1 with [] => 0 | v :: vs => foldr Z.max v vs end.

(** [created], [scanned]: the fates of the two statements. *)
Definition Migrate (created scanned : option error) (d : t) : outcome unit * t :=
  match created with
  | Some e => (Err (wrap "failed to create migrations table" e), d)
  | None =>
      let d := mk (tables d) (Some (default [] (schema_migrations d))) in
      match scanned with
      | Some e => if bool_decide (e = ErrNoRows) then (Ok tt, d) else (Err (wrap "failed to get current migration version" e), d)
      | None => let currentVersion := current_version (default [] (schema_migrations d)) in (Ok tt, d)
      end
  end.

End Migrations.

(** Whatever the driver answers, the program's tables and the versions recorded
    stay as they are, and a second call changes nothing at all. *)
Lemma Migrate_spec created scanned d :
  let d' := (Migrations.Migrate created scanned d).2 in
  Migrations.tables d' = Migrations.tables d ∧
  default [] (Migrations.schema_migrations d') = default [] (Migrations.schema_migrations d) ∧
  (Migrations.Migrate None None d').2 = if created then (Migrations.Migrate None None d).2 else d'.
Proof. unfold Migrations.Migrate. destruct created, scanned; try case_bool_decide; by destruct d as [? [?|]]. Qed.
