(* ===== verification/Filesystem.v ===== *)
(** * Files on disk (internal/filesystem)

    [OS] models the part of package os the source uses, on a map from cleaned
    paths to nodes (no links; a relative path is not identified with its
    absolute form).  Every system call consumes one [fault]: it succeeds, fails,
    or the process dies in it.  The package itself follows: operations.go,
    xattr.go, rename_detector.go, watcher.go. *)

From Stdlib Require Import Strings.Byte Strings.Ascii Strings.String.
From S2P Require Import Prelude GoStrings GoPath.

Module OS.

Record file : Type := mkFile {
  content : bytes; mode : Z; mtime : time; xattrs : gmap string string
}.
Inductive node : Type := File (f : file) | Directory.

(** The fate of one system call; a failing or dying [write] has written [n]
    bytes. *)
Inductive fault : Type := Fine | Fails (n : nat) | Dies (n : nat).

Record t : Type := mk { nodes : gmap string node; faults : list fault }.

Definition set_nodes (f : gmap string node → gmap string node) (s : t) : t := mk (f (nodes s)) (faults s).
Definition put (p : string) (n : node) (s : t) : t := set_nodes <[p := n]> s.
Definition look (p : string) (s : t) : option node := nodes s !! p.

(** The death of the process is a panic nothing recovers from. *)
Definition dead : string := "process died".

(** A system call: [partial] is what a failing one has already done. *)
Definition sys {A} (name : string) (partial : nat → t → t) (call : GoM t A) : GoM t A := λ s,
  let s' := mk (nodes s) (List.tl (faults s)) in
  match faults s with
  | [] | Fine :: _ => call s'
  | Fails n :: _ => (Err name, partial n s')
  | Dies n :: _ => (Panic dead, partial n s')
  end.

Definition nothing (n : nat) (s : t) : t := s.

Definition is_dir (p : string) (s : t) : bool :=
  match look p s with
  | Some Directory => true
  | Some (File _) => false
  | None => bool_decide (p = "/"%string) || bool_decide (p = "."%string)
  end.

(** [os.Stat]: size, modification time, mode, directory or not. *)
Definition Stat (p : string) : GoM t (Z * time * Z * bool) :=
  sys "stat" nothing (λ s,
    match look (Clean p) s with
    | Some (File f) => (Ok (zlen (content f), mtime f, mode f, false), s)
    | _ => if is_dir (Clean p) s then (Ok (4096, 0, 2147484141, true), s)
           else (Err "no such file or directory", s)
    end).

Definition ReadFile (p : string) : GoM t bytes :=
  sys "read" nothing (λ s,
    match look (Clean p) s with
    | Some (File f) => (Ok (content f), s)
    | _ => if is_dir (Clean p) s then (Err "is a directory", s) else (Err "no such file or directory", s)
    end).

(** [os.MkdirAll]: every missing ancestor is made; a file in the way is an error. *)
Fixpoint mkdirs (ps : list string) (s : t) : outcome unit * t :=
  match ps with
  | [] => (Ok tt, s)
  | p :: ps' =>
      match look p s with
      | Some (File _) => (Err "not a directory", s)
      | Some Directory => mkdirs ps' s
      | None => if is_dir p s then mkdirs ps' s else mkdirs ps' (put p Directory s)
      end
  end.

(** The path and its ancestors, outermost first. *)
Definition ancestors (p : string) : list string :=
  let cs := components p in
  (λ n, render (is_rooted p) (take n cs)) <$> seq 1 (length cs).

Definition MkdirAll (p : string) : GoM t unit := sys "mkdir" nothing (mkdirs (ancestors p)).

(** [os.CreateTemp] with the random part [rand]: an empty file of mode 0600. *)
Definition CreateTemp (now : time) (dir pattern rand : string) : GoM t string :=
  sys "open" nothing (λ s,
    let name := Join2 dir (pattern +:+ rand) in
    if negb (is_dir (Clean dir) s) then (Err "no such file or directory", s)
    else match look name s with
         | Some _ => (Err "file exists", s)
         | None => (Ok name, put name (File (mkFile [] 384 now ∅)) s)
         end).

(** Changes the file at [p] through a handle. *)
Definition alter_file (p : string) (f : file → file) (s : t) : t :=
  match look p s with
  | Some (File x) => put p (File (f x)) s
  | _ => s
  end.

Definition append_data (now : time) (d : bytes) (x : file) : file :=
  mkFile (content x ++ d) (mode x) now (xattrs x).

Definition Write (now : time) (p : string) (data : bytes) : GoM t unit :=
  sys "write" (λ n, alter_file p (append_data now (take n data)))
    (λ s, (Ok tt, alter_file p (append_data now data) s)).

Definition Chmod (p : string) (m : Z) : GoM t unit :=
  sys "chmod" nothing (λ s, (Ok tt, alter_file p (λ x, mkFile (content x) m (mtime x) (xattrs x)) s)).

Definition Sync : GoM t unit := sys "sync" nothing (λ s, (Ok tt, s)).
Definition Close : GoM t unit := sys "close" nothing (λ s, (Ok tt, s)).

(** A file moves over a file or a free name in an existing directory. *)
Definition Rename (from to : string) : GoM t unit :=
  sys "rename" nothing (λ s,
    match look (Clean from) s with
    | None => (Err "no such file or directory", s)
    | Some Directory => (Err "directory", s)
    | Some (File f) =>
        if negb (is_dir (Dir to) s) then (Err "no such file or directory", s)
        else if is_dir (Clean to) s then (Err "file exists", s)
        else (Ok tt, set_nodes (λ m, <[Clean to := File f]> (delete (Clean from) m)) s)
    end).

(** A directory is removed only when nothing is below it. *)
Definition has_children (p : string) (s : t) : bool :=
  existsb (λ q, bool_decide (Dir q = p) && negb (bool_decide (q = p))) ((map_to_list (nodes s)).*1).

Definition NotExist : error := "no such file or directory".

Definition Remove (p : string) : GoM t unit :=
  sys "remove" nothing (λ s,
    match look (Clean p) s with
    | None => (Err NotExist, s)
    | Some (File _) => (Ok tt, set_nodes (delete (Clean p)) s)
    | Some Directory =>
        if has_children (Clean p) s then (Err "directory not empty", s)
        else (Ok tt, set_nodes (delete (Clean p)) s)
    end).

Definition Setxattr (p key value : string) : GoM t unit :=
  sys "setxattr" nothing (λ s,
    match look (Clean p) s with
    | Some (File _) =>
        (Ok tt, alter_file (Clean p)
           (λ x, mkFile (content x) (mode x) (mtime x) (<[key := value]> (xattrs x))) s)
    | _ => (Err NotExist, s)
    end).

(** The value is cut to the size of the buffer. *)
Definition Getxattr (p key : string) : GoM t string :=
  sys "getxattr" nothing (λ s,
    match look (Clean p) s with
    | Some (File x) => match xattrs x !! key with
                       | Some v => if (256 <? String.length v)%nat then (Err "numerical result out of range", s)
                                   else (Ok v, s)
                       | None => (Err "no data available", s)
                       end
    | _ => (Err NotExist, s)
    end).

End OS.

(** ** operations.go *)

(** [if err = m; err != nil { cleanup; return wrap(err) }]: a panic runs no
    cleanup. *)
Definition or_else {A} (m : GoM OS.t A) (cleanup : GoM OS.t unit) (ctx : error) : GoM OS.t A := λ s,
  match m s with
  | (Err e, s') => match cleanup s' with
                   | (Panic w, s'') => (Panic w, s'')
                   | (_, s'') => (Err (wrap ctx e), s'')
                   end
  | r => r
  end.

Definition no_cleanup : GoM OS.t unit := mret tt.

(** A cleanup call whose error is dropped. *)
Definition ignore_err {A} (m : GoM OS.t A) : GoM OS.t unit := λ s,
  match m s with
  | (Panic w, s') => (Panic w, s')
  | (_, s') => (Ok tt, s')
  end.

Definition tmp_pattern : string := ".p2p-sync-tmp-".

(** The deferred [os.Remove(tmpPath)] runs when [err] is set; failing writes
    close the file first. *)
Definition AtomicWriteFile (now : time) (rand : string) (filePath : string) (data : bytes) (mode : Z)
    : GoM OS.t unit :=
  let dir := Dir filePath in
  or_else (OS.MkdirAll dir) no_cleanup "failed to create directory";;
  tmpPath ← or_else (OS.CreateTemp now dir tmp_pattern rand) no_cleanup "failed to create temp file";
  let remove := ignore_err (OS.Remove tmpPath) in
  let close_remove := ignore_err OS.Close;; remove in
  or_else (OS.Write now tmpPath data) close_remove "failed to write temp file";;
  or_else (OS.Chmod tmpPath mode) close_remove "failed to set permissions";;
  or_else OS.Sync close_remove "failed to sync temp file";;
  or_else OS.Close remove "failed to close temp file";;
  or_else (OS.Rename tmpPath filePath) remove "failed to rename temp file".

(** [io.Copy] reads the reader to its end and writes what it gets; a read error
    keeps what was copied before it. *)
Definition io_Copy (now : time) (p : string) (reads : list (bytes + error)) : GoM OS.t unit :=
  fold_right (λ r rest, match r with
                        | inl d => OS.Write now p d;; rest
                        | inr e => gfail e
                        end) (mret tt) reads.

Definition AtomicWriteFileFromReader (now : time) (rand : string) (filePath : string)
    (reads : list (bytes + error)) (mode : Z) : GoM OS.t unit :=
  let dir := Dir filePath in
  or_else (OS.MkdirAll dir) no_cleanup "failed to create directory";;
  tmpPath ← or_else (OS.CreateTemp now dir tmp_pattern rand) no_cleanup "failed to create temp file";
  let remove := ignore_err (OS.Remove tmpPath) in
  let close_remove := ignore_err OS.Close;; remove in
  or_else (io_Copy now tmpPath reads) close_remove "failed to copy data";;
  or_else (OS.Chmod tmpPath mode) close_remove "failed to set permissions";;
  or_else OS.Sync close_remove "failed to sync temp file";;
  or_else OS.Close remove "failed to close temp file";;
  or_else (OS.Rename tmpPath filePath) remove "failed to rename temp file".

Definition GetFileMetadata (filePath : string) : GoM OS.t (Z * Z * Z) := λ s,
  match OS.Stat filePath s with
  | (Ok (size, mtime, mode, _), s') => (Ok (size, unix_sec mtime, mode), s')
  | (Err e, s') => (Err (wrap "failed to stat file" e), s')
  | (Panic w, s') => (Panic w, s')
  end.

Definition EnsureDirectory (dirPath : string) : GoM OS.t unit := OS.MkdirAll dirPath.
Definition RemoveFile (filePath : string) : GoM OS.t unit := OS.Remove filePath.
Definition RemoveDirectory (dirPath : string) : GoM OS.t unit := OS.Remove dirPath.

Definition FileExists (filePath : string) : GoM OS.t bool := λ s,
  match OS.Stat filePath s with
  | (Ok _, s') => (Ok true, s')
  | (Err _, s') => (Ok false, s')
  | (Panic w, s') => (Panic w, s')
  end.

Definition IsDirectory (path : string) : GoM OS.t bool := λ s,
  match OS.Stat path s with
  | (Ok (_, _, _, d), s') => (Ok d, s')
  | (Err _, s') => (Ok false, s')
  | (Panic w, s') => (Panic w, s')
  end.

(** ** xattr.go *)
Definition XattrKey : string := "user.p2p_sync.file_id".

Definition setXattr (filePath key value : string) : GoM OS.t unit :=
  or_else (OS.Setxattr filePath key value) no_cleanup "failed to set xattr".

Definition getXattr (filePath key : string) : GoM OS.t string :=
  or_else (OS.Getxattr filePath key) no_cleanup "failed to get xattr".

(** Best effort: a failure is not reported. *)
Definition SetFileID (filePath fileID : string) : GoM OS.t unit :=
  ignore_err (setXattr filePath XattrKey fileID).

Definition GetFileID (filePath : string) : GoM OS.t string := getXattr filePath XattrKey.

(** ** rename_detector.go *)
Module RenameDetector.

(** 5 seconds. *)
Definition RenameDetectionTTL : duration := 5 * second.

Record DeletedFileInfo : Type := mkInfo {
  FileID : string; Checksum : string; Size : Z; Mtime : time; Path : string; DeletedAt : time
}.

(** [recentDeletes]. *)
Abbreviation detector := (gmap string DeletedFileInfo).

Definition NewRenameDetector : detector := ∅.

Definition RecordDelete (now : time) (fileID checksum path : string) (size : Z) (mtime : time)
    (rd : detector) : detector :=
  <[fileID := mkInfo fileID checksum size mtime path now]> rd.

(** Either way the entry is consumed. *)
Definition CheckRename (fileID checksum : string) (size : Z) (rd : detector)
    : (bool * string) * detector :=
  match rd !! fileID with
  | None => ((false, ""%string), rd)
  | Some deleted =>
      if bool_decide (Checksum deleted = checksum) && (Size deleted =? size)
      then ((true, Path deleted), delete fileID rd)
      else ((false, ""%string), delete fileID rd)
  end.

(** One tick of the cleanup goroutine. *)
Definition cleanup (now : time) (rd : detector) : detector :=
  filter (λ '(_, info), time_sub now (DeletedAt info) ≤ RenameDetectionTTL) rd.

Definition Close (rd : detector) : detector := ∅.

Definition GetRecentDeletesCount (rd : detector) : Z := Z.of_nat (size rd).

End RenameDetector.

(** ** watcher.go *)
Module Watcher.

(** [fsnotify.Op], a bit set, as fsnotify numbers it. *)
Definition op_Create : Z := 1.
Definition op_Write : Z := 2.
Definition op_Remove : Z := 4.
Definition op_Rename : Z := 8.

Module FileEvent.
Record t : Type := mk { Path : string; Op : Z; Operation : string }.
#[export] Instance eq_dec : EqDecision t.
Proof. solve_decision. Defined.
End FileEvent.

Record t : Type := mk {
  (** Events sent and not yet received, oldest first; at most [capacity]. *)
  events : list FileEvent.t;
  ignoreMap : gset string;
  closed : bool;
  (** Pending event of each path and the time its timer fires. *)
  pendingEvents : gmap string (FileEvent.t * time)
}.

Definition capacity : Z := 100.
Definition debounceTime : duration := 500 * 1000000.

Definition NewWatcher : t := mk [] ∅ false ∅.

Definition IgnorePath (path : string) (w : t) : t :=
  mk (events w) ({[path]} ∪ ignoreMap w) (closed w) (pendingEvents w).
Definition WatchPath (path : string) (w : t) : t :=
  mk (events w) (ignoreMap w ∖ {[path]}) (closed w) (pendingEvents w).

Definition Close (w : t) : t :=
  if closed w then w else mk (events w) (ignoreMap w) true ∅.

Definition operation_of (op : Z) : string :=
  if Z.land op op_Create =? op_Create then "create"
  else if Z.land op op_Write =? op_Write then "update"
  else if Z.land op op_Remove =? op_Remove then "delete"
  else if Z.land op op_Rename =? op_Rename then "rename"
  else "unknown".

(** [Base(name)] starts with ".p" and is longer than one byte. *)
Definition is_temporary (name : string) : bool := HasPrefix (Base name) ".p".

Definition debounceEvent (now : time) (event : FileEvent.t) (w : t) : t :=
  let path := FileEvent.Path event in
  let event' := match pendingEvents w !! path with
                | Some (old, _) =>
                    if bool_decide (FileEvent.Operation old ≠ "create"%string) then event else old
                | None => event
                end in
  mk (events w) (ignoreMap w) (closed w) (<[path := (event', now + debounceTime)]> (pendingEvents w)).

(** One event from fsnotify. *)
Definition processEvent (now : time) (name : string) (op : Z) (w : t) : t :=
  let ignored := bool_decide (name ∈ ignoreMap w) || Contains name ".p2p-sync" in
  if ignored then w
  else if is_temporary name then w
  else if closed w then w
  else debounceEvent now (FileEvent.mk name op (operation_of op)) w.

(** The timer of [path] fires. *)
Definition sendDebouncedEvent (path : string) (w : t) : t :=
  match pendingEvents w !! path with
  | None => w
  | Some (event, _) =>
      let w' := mk (events w) (ignoreMap w) (closed w) (delete path (pendingEvents w)) in
      if closed w then w'
      else if zlen (events w) <? capacity
      then mk (events w ++ [event]) (ignoreMap w) (closed w) (delete path (pendingEvents w))
      else w'
  end.

(** The engine takes the oldest event. *)
Definition receive (w : t) : option (FileEvent.t * t) :=
  match events w with
  | [] => None
  | e :: es => Some (e, mk es (ignoreMap w) (closed w) (pendingEvents w))
  end.

End Watcher.
