(* ===== verification/FilesystemProps.v ===== *)
(** * Properties of the file system package: atomic writes, rename detection,
      the debounced watcher *)

From Stdlib Require Import Strings.Byte Strings.String.
From S2P Require Import Prelude GoStrings GoPath Filesystem.

(** ** System calls *)

Lemma sys_triple {A} name partial (call : GoM OS.t A) P Q E D :
  (∀ n fs f, P (OS.mk n fs) → P (OS.mk n f)) →
  triple P call Q E D → (∀ k s, P s → E (partial k s)) → (∀ k s, P s → D (partial k s)) →
  triple P (OS.sys name partial call) Q E D.
Proof.
  intros HP Hc HE HD s Hs. unfold OS.sys.
  assert (P (OS.mk (OS.nodes s) (List.tl (OS.faults s)))) as Hs'.
  { apply (HP _ (OS.faults s)). by destruct s. }
  destruct (OS.faults s) as [|[|n|n] fs]; [by apply Hc..|by apply HE|by apply HD].
Qed.

Lemma or_else_triple {A} (m : GoM OS.t A) cleanup ctx P Q F E D :
  triple P m Q F D → triple F cleanup (λ _, E) E D → triple P (or_else m cleanup ctx) Q E D.
Proof.
  intros Hm Hc s Hs. specialize (Hm s Hs). unfold or_else.
  destruct (m s) as [[a|e|w] s']; [done| |done]. specialize (Hc s' Hm).
  by destruct (cleanup s') as [[?|?|?] ?].
Qed.

Lemma ignore_err_triple {A} (m : GoM OS.t A) P Q E D :
  triple P m (λ _, Q) Q D → triple P (ignore_err m) (λ _, Q) E D.
Proof.
  intros Hm s Hs. specialize (Hm s Hs). unfold ignore_err. by destruct (m s) as [[?|?|?] ?].
Qed.

(** ** Atomic writes *)

Section Atomic.
Context (now : time) (rand filePath : string) (data : bytes) (mode : Z) (s0 : OS.t).

Definition target : string := Clean filePath.
Definition tmp : string := Join2 (Dir filePath) (tmp_pattern +:+ rand).
Definition made : list string := OS.ancestors (Dir filePath).

Hypothesis tmp_target : tmp ≠ target.
Hypothesis target_made : target ∉ made.

(** Nothing but the temporary file and directories on the way has changed. *)
Definition untouched (s : OS.t) : Prop :=
  ∀ q, q ≠ tmp → q ∉ made → OS.look q s = OS.look q s0.

(** The temporary file holds [d] with mode [m]. *)
Definition written (d : bytes) (m : Z) (s : OS.t) : Prop :=
  untouched s ∧ OS.look tmp s = Some (OS.File (OS.mkFile d m now ∅)).

(** The write is complete. *)
Definition installed (s : OS.t) : Prop :=
  OS.look target s = Some (OS.File (OS.mkFile data mode now ∅)) ∧
  OS.look tmp s = None ∧
  ∀ q, q ≠ tmp → q ≠ target → q ∉ made → OS.look q s = OS.look q s0.

Lemma untouched_faults n f f' : untouched (OS.mk n f) → untouched (OS.mk n f').
Proof using All. done. Qed.

Lemma written_faults d m n f f' : written d m (OS.mk n f) → written d m (OS.mk n f').
Proof using All. done. Qed.

Lemma untouched_put_tmp x s : untouched s → untouched (OS.put tmp x s).
Proof using All.
  intros H q Hq Hm. unfold OS.look, OS.put, OS.set_nodes. simpl.
  rewrite lookup_insert_ne by done. by apply H.
Qed.

Lemma untouched_alter f s : untouched s → untouched (OS.alter_file tmp f s).
Proof using All.
  intros H. unfold OS.alter_file. destruct (OS.look tmp s) as [[x|]|]; [|done..].
  by apply untouched_put_tmp.
Qed.

Lemma written_alter d m f s :
  written d m s → untouched (OS.alter_file tmp f s) ∧
  OS.look tmp (OS.alter_file tmp f s) = Some (OS.File (f (OS.mkFile d m now ∅))).
Proof using All.
  intros [H1 H2]. split; [by apply untouched_alter|]. unfold OS.alter_file. rewrite H2.
  unfold OS.look, OS.put, OS.set_nodes. simpl. by rewrite lookup_insert_eq.
Qed.

Lemma tmp_clean : Clean tmp = tmp.
Proof using All.
  unfold tmp, Join2. change (is_empty (tmp_pattern +:+ rand)) with false.
  destruct (is_empty (Dir filePath)); apply Clean_Clean.
Qed.

Lemma MkdirAll_untouched : triple untouched (OS.MkdirAll (Dir filePath)) (λ _, untouched) untouched untouched.
Proof using All.
  apply sys_triple; [done| |by intros ??..]. fold made.
  assert (∀ ps, (∀ p, p ∈ ps → p ∈ made) → triple untouched (OS.mkdirs ps) (λ _, untouched) untouched untouched) as H;
    [|by apply H].
  induction ps as [|p ps IH]; intros Hp s Hs; [done|]. simpl.
  assert (∀ s, untouched s → match OS.mkdirs ps s with
    (Ok _, s') => untouched s' | (Err _, s') => untouched s' | (Panic _, s') => untouched s' end) as H
    by (intros; apply IH; [set_solver|done]).
  destruct (OS.look p s) as [[x|]|]; [done|by apply H|].
  destruct (OS.is_dir p s); apply H; [done|]. intros q Hq Hm.
  unfold OS.look, OS.put, OS.set_nodes. simpl. rewrite lookup_insert_ne by set_solver. by apply Hs.
Qed.

Lemma CreateTemp_written :
  triple untouched (OS.CreateTemp now (Dir filePath) tmp_pattern rand)
    (λ p s, p = tmp ∧ written [] 384 s) untouched untouched.
Proof using All.
  apply sys_triple; [done| |by intros ??..]. intros s Hs. fold tmp. cbv zeta.
  destruct (negb _); [done|]. destruct (OS.look tmp s); [done|]. split; [done|].
  split; [by apply untouched_put_tmp|]. unfold OS.look, OS.put, OS.set_nodes. simpl. by rewrite lookup_insert_eq.
Qed.

Lemma Write_written d m b :
  triple (written d m) (OS.Write now tmp b) (λ _, written (d ++ b) m) untouched untouched.
Proof using All.
  apply sys_triple; [done| |intros k s [H _]; by apply untouched_alter..].
  intros s Hs. by apply (written_alter d m (OS.append_data now b)) in Hs.
Qed.

Lemma Chmod_written d m m' :
  triple (written d m) (OS.Chmod tmp m') (λ _, written d m') untouched untouched.
Proof using All.
  apply sys_triple; [done| |by intros k s [H _]..].
  intros s Hs. by apply (written_alter d m (λ x, OS.mkFile (OS.content x) m' (OS.mtime x) (OS.xattrs x))) in Hs.
Qed.

(** Calls that do not change the files. *)
Lemma silent_triple P (name : string) :
  (∀ n f f', P (OS.mk n f) → P (OS.mk n f')) →
  triple P (OS.sys name OS.nothing (λ s, (Ok tt, s))) (λ _, P) P P.
Proof using All. intros HP. by apply sys_triple; [done|..]; intros ??. Qed.

Lemma Sync_written d m : triple (written d m) OS.Sync (λ _, written d m) untouched untouched.
Proof using All.
  eapply (triple_weaken (written d m) _ _ (λ _, written d m) _ (written d m) _ (written d m));
    [by apply silent_triple|done|done|by intros ? []|by intros ? []].
Qed.

Lemma Close_written d m : triple (written d m) OS.Close (λ _, written d m) untouched untouched.
Proof using All.
  eapply (triple_weaken (written d m) _ _ (λ _, written d m) _ (written d m) _ (written d m));
    [by apply silent_triple|done|done|by intros ? []|by intros ? []].
Qed.

Lemma Remove_untouched : triple untouched (OS.Remove tmp) (λ _, untouched) untouched untouched.
Proof using All.
  apply sys_triple; [done| |by intros ??..]. intros s Hs. rewrite tmp_clean.
  assert (untouched (OS.set_nodes (delete tmp) s)).
  { intros q Hq Hm. unfold OS.look, OS.set_nodes. simpl. rewrite lookup_delete_ne by done. by apply Hs. }
  destruct (OS.look tmp s) as [[x|]|]; [done| |done]. by destruct (OS.has_children _ _).
Qed.

Lemma Rename_installed :
  triple (written data mode) (OS.Rename tmp filePath) (λ _, installed) untouched untouched.
Proof using All.
  apply sys_triple; [done| |by intros k s [H _]..]. intros s [Hu Ht]. rewrite tmp_clean. rewrite Ht.
  destruct (negb _); [done|]. destruct (OS.is_dir _ _); [done|]. fold target.
  split; [|split].
  - unfold OS.look, OS.set_nodes. simpl. by rewrite lookup_insert_eq.
  - unfold OS.look, OS.set_nodes. simpl. rewrite lookup_insert_ne by done. by rewrite lookup_delete_eq.
  - intros q Hq Hqt Hm. unfold OS.look, OS.set_nodes. simpl.
    rewrite lookup_insert_ne, lookup_delete_ne by done. by apply Hu.
Qed.

Lemma remove_cleanup : triple untouched (ignore_err (OS.Remove tmp)) (λ _, untouched) untouched untouched.
Proof using All. apply ignore_err_triple, Remove_untouched. Qed.

Lemma close_remove_cleanup :
  triple untouched (ignore_err OS.Close;; ignore_err (OS.Remove tmp)) (λ _, untouched) untouched untouched.
Proof using All.
  eapply triple_seq; [|apply remove_cleanup].
  apply ignore_err_triple, silent_triple. done.
Qed.

Lemma no_cleanup_triple (P : OS.t → Prop) D : triple P no_cleanup (λ _, P) P D.
Proof using All. by intros s Hs. Qed.

(** What is common to the two functions: from the open temporary file to the rename. *)
Lemma finish_triple d m :
  triple (written data m)
    (or_else (OS.Chmod tmp mode) (ignore_err OS.Close;; ignore_err (OS.Remove tmp)) d;;
     or_else OS.Sync (ignore_err OS.Close;; ignore_err (OS.Remove tmp)) "failed to sync temp file";;
     or_else OS.Close (ignore_err (OS.Remove tmp)) "failed to close temp file";;
     or_else (OS.Rename tmp filePath) (ignore_err (OS.Remove tmp)) "failed to rename temp file")
    (λ _, installed) untouched untouched.
Proof using All.
  eapply triple_seq; [eapply or_else_triple; [apply Chmod_written|apply close_remove_cleanup]|].
  eapply triple_seq; [eapply or_else_triple; [apply Sync_written|apply close_remove_cleanup]|].
  eapply triple_seq; [eapply or_else_triple; [apply Close_written|apply remove_cleanup]|].
  eapply or_else_triple; [apply Rename_installed|apply remove_cleanup].
Qed.

Lemma AtomicWriteFile_triple :
  triple untouched (AtomicWriteFile now rand filePath data mode) (λ _, installed) untouched untouched.
Proof using All.
  unfold AtomicWriteFile.
  eapply triple_seq; [eapply or_else_triple; [apply MkdirAll_untouched|apply no_cleanup_triple]|].
  eapply triple_bind; [eapply or_else_triple; [apply CreateTemp_written|apply no_cleanup_triple]|intros p].
  intros s [-> Hs]. revert s Hs. change (triple (written [] 384)
    (or_else (OS.Write now tmp data) (ignore_err OS.Close;; ignore_err (OS.Remove tmp)) "failed to write temp file";;
     or_else (OS.Chmod tmp mode) (ignore_err OS.Close;; ignore_err (OS.Remove tmp)) "failed to set permissions";;
     or_else OS.Sync (ignore_err OS.Close;; ignore_err (OS.Remove tmp)) "failed to sync temp file";;
     or_else OS.Close (ignore_err (OS.Remove tmp)) "failed to close temp file";;
     or_else (OS.Rename tmp filePath) (ignore_err (OS.Remove tmp)) "failed to rename temp file")
    (λ _, installed) untouched untouched).
  eapply triple_seq; [eapply or_else_triple; [apply Write_written|apply close_remove_cleanup]|].
  apply finish_triple.
Qed.

End Atomic.

(** C15: [AtomicWriteFile] is atomic whatever system call fails and wherever the
    process dies: afterwards the target holds either exactly what it held before
    or the whole new content with the requested mode; it is the new content when
    the call succeeds and the old one otherwise, and no other file changes. *)
Theorem AtomicWriteFile_atomic now rand filePath data mode s :
  let tmp := Join2 (Dir filePath) (tmp_pattern +:+ rand) in
  tmp ≠ Clean filePath → Clean filePath ∉ OS.ancestors (Dir filePath) →
  let '(res, s') := AtomicWriteFile now rand filePath data mode s in
  OS.look (Clean filePath) s' =
    (match res with
     | Ok _ => Some (OS.File (OS.mkFile data mode now ∅))
     | _ => OS.look (Clean filePath) s
     end) ∧
  (is_ok res = true → OS.look tmp s' = None) ∧
  ∀ q, q ≠ Clean filePath → q ≠ tmp → q ∉ OS.ancestors (Dir filePath) → OS.look q s' = OS.look q s.
Proof.
  intros tmp Ht Hm. pose proof (AtomicWriteFile_triple now rand filePath data mode s Ht Hm s) as H.
  specialize (H ltac:(done)).
  destruct (AtomicWriteFile now rand filePath data mode s) as [[[]|e|w] s'].
  - destruct H as (H1 & H2 & H3). split_and!; [done..|]. intros q ???. by apply H3.
  - split_and!; [by apply H|done|]. intros q ???. by apply H.
  - split_and!; [by apply H|done|]. intros q ???. by apply H.
Qed.

(** The process dies after two bytes of an overwrite. *)
Definition demo_fs (fs : list OS.fault) : OS.t :=
  OS.mk {["/sync" := OS.Directory; "/sync/a" := OS.File (OS.mkFile (to_bytes "old") 420 0 ∅)]} fs.

Lemma AtomicWriteFile_atomic_witness :
  let s := demo_fs [OS.Fine; OS.Fine; OS.Dies 2] in
  let '(res, s') := AtomicWriteFile 7 "x" "/sync/a" (to_bytes "new") 420 s in
  res = Panic OS.dead ∧ OS.look "/sync/a" s' = OS.look "/sync/a" s.
Proof.
  pose proof (AtomicWriteFile_atomic 7 "x" "/sync/a" (to_bytes "new") 420
    (demo_fs [OS.Fine; OS.Fine; OS.Dies 2])) as H.
  specialize (H ltac:(by vm_compute) ltac:(vm_compute; set_solver)).
  destruct (AtomicWriteFile _ _ _ _ _ _) as [res s'] eqn:E.
  vm_compute in E. injection E as <- <-. split; [reflexivity|]. exact (proj1 H).
Defined.

(** ** The rename detector *)

(** A recorded delete is matched by the first create of the same file id
    checked within 5 seconds, as a rename exactly when checksum and size agree,
    and never a second time; other files' records are not touched. *)
Theorem rename_detected_once (deleted now : time) fileID c p size mtime c' size' rd :
  let rd' := RenameDetector.cleanup now (RenameDetector.RecordDelete deleted fileID c p size mtime rd) in
  let '(res, rd'') := RenameDetector.CheckRename fileID c' size' rd' in
  res = (if bool_decide (time_sub now deleted ≤ RenameDetector.RenameDetectionTTL ∧ c = c' ∧ size = size')
         then (true, p) else (false, ""%string)) ∧
  (∀ c2 size2, (RenameDetector.CheckRename fileID c2 size2 rd'').1 = (false, ""%string)) ∧
  ∀ other, other ≠ fileID → rd'' !! other = RenameDetector.cleanup now rd !! other.
Proof.
  intros rd'. unfold RenameDetector.CheckRename.
  assert (rd' !! fileID = if decide (time_sub now deleted ≤ RenameDetector.RenameDetectionTTL)
    then Some (RenameDetector.mkInfo fileID c size mtime p deleted) else None) as ->.
  { unfold rd', RenameDetector.cleanup, RenameDetector.RecordDelete.
    rewrite map_lookup_filter, lookup_insert_eq. simpl.
    destruct (decide (_ ≤ _)) as [Ht|Ht]; [by rewrite option_guard_True|by rewrite option_guard_False]. }
  assert (∀ other, other ≠ fileID → rd' !! other = RenameDetector.cleanup now rd !! other) as Ho.
  { intros other Hne. unfold rd', RenameDetector.cleanup, RenameDetector.RecordDelete.
    by rewrite !map_lookup_filter, lookup_insert_ne. }
  case_decide as Ht; simpl.
  - destruct (bool_decide (c = c')) eqn:E1, (Z.eqb_spec size size') as [E2|E2]; simpl;
      (split; [|split; [by intros; rewrite lookup_delete_eq|by intros; rewrite lookup_delete_ne by done; apply Ho]]).
    all: try apply bool_decide_eq_true in E1; try apply bool_decide_eq_false in E1.
    + by rewrite bool_decide_eq_true_2.
    + rewrite bool_decide_eq_false_2; [done|]. tauto.
    + rewrite bool_decide_eq_false_2; [done|]. tauto.
    + rewrite bool_decide_eq_false_2; [done|]. tauto.
  - split_and!; [by rewrite bool_decide_eq_false_2 by tauto| |done].
    intros c2 size2. unfold rd', RenameDetector.cleanup, RenameDetector.RecordDelete.
    rewrite map_lookup_filter, lookup_insert_eq. simpl. by rewrite option_guard_False.
Qed.

(** ** The watcher *)
Import Watcher.

(** Raw events in the order they arrive: time, path, operation bits. *)
Abbreviation raw := (time * string * Z)%type.

Definition process_all (rs : list raw) (w : Watcher.t) : Watcher.t :=
  foldl (λ w '(now, name, op), processEvent now name op w) w rs.

(** The watcher reports events of [path]. *)
Definition watched (path : string) (w : Watcher.t) : Prop :=
  closed w = false ∧ path ∉ ignoreMap w ∧ Contains path ".p2p-sync" = false ∧ is_temporary path = false.

(** Specification of the debouncing: the first create if there is one, else
    the last event; the timer runs from the last event. *)
Definition is_create (r : raw) : bool := Z.land r.2 op_Create =? op_Create.

Definition chosen (r : raw) (rs : list raw) : raw :=
  match List.find is_create (r :: rs) with
  | Some c => c
  | None => List.last rs r
  end.

Lemma last_cons {A} (x d : A) xs : List.last (x :: xs) d = List.last xs x.
Proof. revert x d. induction xs as [|y xs IH]; intros x d; [done|]. by rewrite (IH y x), <- (IH y d). Qed.

Definition event_of (r : raw) : FileEvent.t := FileEvent.mk r.1.2 r.2 (operation_of r.2).

Lemma operation_of_create r : bool_decide (operation_of r.2 ≠ "create"%string) = negb (is_create r).
Proof. unfold operation_of, is_create. by repeat case_match. Qed.

Lemma processEvent_settings now name op w :
  closed (processEvent now name op w) = closed w ∧ ignoreMap (processEvent now name op w) = ignoreMap w ∧
  events (processEvent now name op w) = events w.
Proof. unfold processEvent. by repeat case_match. Qed.

Lemma watched_process path now name op w : watched path w → watched path (processEvent now name op w).
Proof. unfold watched. by destruct (processEvent_settings now name op w) as (-> & -> & _). Qed.

Lemma processEvent_other now name op w path : name ≠ path →
  pendingEvents (processEvent now name op w) !! path = pendingEvents w !! path.
Proof.
  intros Hne. unfold processEvent, debounceEvent. repeat case_match; try done; simpl; by rewrite lookup_insert_ne.
Qed.

Lemma processEvent_watched now op w path : watched path w →
  pendingEvents (processEvent now path op w) !! path =
  Some (match pendingEvents w !! path with
        | Some (old, _) => if bool_decide (FileEvent.Operation old ≠ "create"%string)
                           then event_of (now, path, op) else old
        | None => event_of (now, path, op)
        end, now + debounceTime).
Proof.
  intros (Hc & Hi & Hs & Ht). unfold processEvent. rewrite bool_decide_eq_false_2, Hs, Ht, Hc by done. simpl.
  by rewrite lookup_insert_eq.
Qed.

(** Later events of a path that already has a pending one. *)
Lemma process_all_pending path rs w r t :
  watched path w → pendingEvents w !! path = Some (event_of r, t) →
  pendingEvents (process_all rs w) !! path =
  Some (event_of (if is_create r then r
                  else match List.filter (λ x, bool_decide (x.1.2 = path)) rs with
                       | [] => r
                       | x :: xs => chosen x xs
                       end),
        match List.filter (λ x, bool_decide (x.1.2 = path)) rs with
        | [] => t
        | x :: xs => (List.last xs x).1.1 + debounceTime
        end).
Proof.
  revert w r t. induction rs as [|[[now name] op] rs IH]; intros w r t Hw Hp.
  { simpl. rewrite Hp. by destruct (is_create r). }
  cbn [process_all foldl List.filter fst snd]. fold (process_all rs (processEvent now name op w)).
  case_bool_decide as E.
  - subst name. pose proof (processEvent_watched now op w path Hw) as Hp'.
    rewrite Hp in Hp'. simpl in Hp'. rewrite operation_of_create in Hp'.
    assert (Some (if negb (is_create r) then event_of (now, path, op) else event_of r, now + debounceTime)
      = Some (event_of (if is_create r then r else (now, path, op)), now + debounceTime)) as Hr
      by (by destruct (is_create r)).
    rewrite Hr in Hp'. rewrite (IH _ _ _ (watched_process _ _ _ _ _ Hw) Hp'). f_equal.
    set (rest := List.filter _ rs).
    destruct (is_create r) eqn:Er; [rewrite Er|]; destruct rest as [|x xs]; rewrite ?last_cons; try done.
    + unfold chosen. simpl. by destruct (is_create (now, path, op)).
    + unfold chosen. cbn [List.find]. destruct (is_create (now, path, op)); [done|].
      destruct (is_create x); by rewrite ?last_cons.
  - apply IH; [by apply watched_process|]. by rewrite processEvent_other.
Qed.

(** Debouncing: whatever events arrive between two firings of a path's
    timer, exactly one is pending, the first create among them if there is one and
    else the last of them, and its timer runs for 500 ms after the last. *)
Theorem watcher_coalesces path rs w :
  watched path w → pendingEvents w !! path = None →
  pendingEvents (process_all rs w) !! path =
  match List.filter (λ x, bool_decide (x.1.2 = path)) rs with
  | [] => None
  | x :: xs => Some (event_of (chosen x xs), (List.last xs x).1.1 + debounceTime)
  end.
Proof.
  revert w. induction rs as [|[[now name] op] rs IH]; intros w Hw Hp; [done|].
  cbn [process_all foldl List.filter fst snd]. fold (process_all rs (processEvent now name op w)).
  case_bool_decide as E.
  - subst name. pose proof (processEvent_watched now op w path Hw) as Hp'. rewrite Hp in Hp'.
    rewrite (process_all_pending path rs _ _ _ (watched_process _ _ _ _ _ Hw) Hp'). f_equal.
    set (rest := List.filter _ rs). unfold chosen. destruct rest as [|x xs]; rewrite ?last_cons; cbn [List.find].
    + by destruct (is_create (now, path, op)).
    + destruct (is_create (now, path, op)); [done|]. by destruct (is_create x).
  - apply IH; [by apply watched_process|]. by rewrite processEvent_other.
Qed.

(** A file made and removed within the window: only the create is reported. *)
Lemma watcher_coalesces_witness :
  watched "/sync/a" NewWatcher ∧
  events (sendDebouncedEvent "/sync/a"
    (process_all [(0, "/sync/a"%string, op_Create); (1000, "/sync/b"%string, op_Write);
                  (2000, "/sync/a"%string, op_Remove)] NewWatcher))
  = [FileEvent.mk "/sync/a" op_Create "create"].
Proof.
  assert (watched "/sync/a" NewWatcher) as Hw by (by vm_compute).
  split; [exact Hw|]. unfold sendDebouncedEvent.
  rewrite (watcher_coalesces "/sync/a"); [reflexivity|exact Hw|reflexivity].
Defined.
