(* ===== verification/Messages.v ===== *)
(** * The messages of the protocol (internal/network/messages)

    One Module per struct of types.go, with its codec: the members a struct is
    encoded to, with their tags, and how it is decoded.  A payload is an
    [interface{}]: a struct, a pointer to one, or the generic tree
    [DecodeMessage] leaves. *)

From Stdlib Require Import Strings.Byte Strings.Ascii Strings.String.
From S2P Require Import Prelude GoStrings Json.

Definition TypeDiscovery : string := "discovery".
Definition TypeDiscoveryResponse : string := "discovery_response".
Definition TypeHandshake : string := "handshake".
Definition TypeHandshakeAck : string := "handshake_ack".
Definition TypeHandshakeComplete : string := "handshake_complete".
Definition TypeStateDeclaration : string := "state_declaration".
Definition TypeFileRequest : string := "file_request".
Definition TypeSyncOperation : string := "sync_operation".
Definition TypeChunk : string := "chunk".
Definition TypeChunkRequest : string := "chunk_request".
Definition TypeOperationAck : string := "operation_ack".
Definition TypeChunkAck : string := "chunk_ack".
Definition TypeHeartbeat : string := "heartbeat".

Module DiscoveryMessage.
Record t : Type := mk {
  PeerID : string; Port : Z; SyncPort : Z; Capabilities : option (gmap string json);
  Version : string
}.
Definition encode (m : t) : list (string * json) :=
  member "peer_id" c_string (PeerID m) ++ member "port" c_int64 (Port m) ++
  member "sync_port" c_int64 (SyncPort m) ++
  member "capabilities" (c_map c_any) (Capabilities m) ++ member "version" c_string (Version m).
Definition decode (ms : list (string * json)) : outcome t :=
  x0 ← field "peer_id" c_string ms; x1 ← field "port" c_int64 ms;
  x2 ← field "sync_port" c_int64 ms; x3 ← field "capabilities" (c_map c_any) ms;
  x4 ← field "version" c_string ms; Ok (mk x0 x1 x2 x3 x4).
Definition valid (m : t) : Prop :=
  in64 (Port m) ∧ in64 (SyncPort m).
Definition zero : t := mk ""%string 0 0 None ""%string.
Lemma DiscoveryMessage_roundtrip m : valid m → decode (encode m) = Ok m.
Proof. destruct m. unfold valid. intros H. cbn in H. unfold decode, encode. decode_struct. done. Qed.
Definition codec : Json.codec t :=
  Codec zero (λ m, JObject (encode m)) (λ old, struct old decode) valid DiscoveryMessage_roundtrip.
End DiscoveryMessage.

Module DiscoveryResponseMessage.
Record t : Type := mk {
  PeerID : string; Port : Z; SyncPort : Z; Version : string
}.
Definition encode (m : t) : list (string * json) :=
  member "peer_id" c_string (PeerID m) ++ member "port" c_int64 (Port m) ++
  member "sync_port" c_int64 (SyncPort m) ++ member "version" c_string (Version m).
Definition decode (ms : list (string * json)) : outcome t :=
  x0 ← field "peer_id" c_string ms; x1 ← field "port" c_int64 ms;
  x2 ← field "sync_port" c_int64 ms; x3 ← field "version" c_string ms; Ok (mk x0 x1 x2 x3).
Definition valid (m : t) : Prop :=
  in64 (Port m) ∧ in64 (SyncPort m).
Definition zero : t := mk ""%string 0 0 ""%string.
Lemma DiscoveryResponseMessage_roundtrip m : valid m → decode (encode m) = Ok m.
Proof. destruct m. unfold valid. intros H. cbn in H. unfold decode, encode. decode_struct. done. Qed.
Definition codec : Json.codec t :=
  Codec zero (λ m, JObject (encode m)) (λ old, struct old decode) valid DiscoveryResponseMessage_roundtrip.
End DiscoveryResponseMessage.

Module HandshakeMessage.
Record t : Type := mk {
  PublicKey : string; Nonce : bytes; AuthChallenge : bytes
}.
Definition encode (m : t) : list (string * json) :=
  member "public_key" c_string (PublicKey m) ++ member "nonce" c_bytes (Nonce m) ++
  omitempty "auth_challenge" c_bytes (is_nil (AuthChallenge m)) (AuthChallenge m).
Definition decode (ms : list (string * json)) : outcome t :=
  x0 ← field "public_key" c_string ms; x1 ← field "nonce" c_bytes ms;
  x2 ← field "auth_challenge" c_bytes ms; Ok (mk x0 x1 x2).
Definition valid (m : t) : Prop :=
  True.
Definition zero : t := mk ""%string [] [].
Lemma HandshakeMessage_roundtrip m : valid m → decode (encode m) = Ok m.
Proof. destruct m. unfold valid. intros H. cbn in H. unfold decode, encode. decode_struct. done. Qed.
Definition codec : Json.codec t :=
  Codec zero (λ m, JObject (encode m)) (λ old, struct old decode) valid HandshakeMessage_roundtrip.
End HandshakeMessage.

Module HandshakeChallengeMessage.
Record t : Type := mk {
  AuthResponse : bytes; PublicKey : string; Nonce : bytes; AuthChallenge : bytes
}.
Definition encode (m : t) : list (string * json) :=
  member "auth_response" c_bytes (AuthResponse m) ++ member "public_key" c_string (PublicKey m) ++
  member "nonce" c_bytes (Nonce m) ++ member "auth_challenge" c_bytes (AuthChallenge m).
Definition decode (ms : list (string * json)) : outcome t :=
  x0 ← field "auth_response" c_bytes ms; x1 ← field "public_key" c_string ms;
  x2 ← field "nonce" c_bytes ms; x3 ← field "auth_challenge" c_bytes ms; Ok (mk x0 x1 x2 x3).
Definition valid (m : t) : Prop :=
  True.
Definition zero : t := mk [] ""%string [] [].
Lemma HandshakeChallengeMessage_roundtrip m : valid m → decode (encode m) = Ok m.
Proof. destruct m. unfold valid. intros H. cbn in H. unfold decode, encode. decode_struct. done. Qed.
Definition codec : Json.codec t :=
  Codec zero (λ m, JObject (encode m)) (λ old, struct old decode) valid HandshakeChallengeMessage_roundtrip.
End HandshakeChallengeMessage.

Module HandshakeCompleteMessage.
Record t : Type := mk {
  AuthResponse : bytes
}.
Definition encode (m : t) : list (string * json) :=
  member "auth_response" c_bytes (AuthResponse m).
Definition decode (ms : list (string * json)) : outcome t :=
  x0 ← field "auth_response" c_bytes ms; Ok (mk x0).
Definition valid (m : t) : Prop :=
  True.
Definition zero : t := mk [].
Lemma HandshakeCompleteMessage_roundtrip m : valid m → decode (encode m) = Ok m.
Proof. destruct m. unfold valid. intros H. cbn in H. unfold decode, encode. decode_struct. done. Qed.
Definition codec : Json.codec t :=
  Codec zero (λ m, JObject (encode m)) (λ old, struct old decode) valid HandshakeCompleteMessage_roundtrip.
End HandshakeCompleteMessage.

Module FileManifestEntry.
Record t : Type := mk {
  FileID : string; Path : string; Hash : string; Size : Z; Mtime : Z; LastModifiedBy : string
}.
Definition encode (m : t) : list (string * json) :=
  member "file_id" c_string (FileID m) ++ member "path" c_string (Path m) ++
  member "hash" c_string (Hash m) ++ member "size" c_int64 (Size m) ++
  member "mtime" c_int64 (Mtime m) ++ member "last_modified_by" c_string (LastModifiedBy m).
Definition decode (ms : list (string * json)) : outcome t :=
  x0 ← field "file_id" c_string ms; x1 ← field "path" c_string ms; x2 ← field "hash" c_string ms;
  x3 ← field "size" c_int64 ms; x4 ← field "mtime" c_int64 ms;
  x5 ← field "last_modified_by" c_string ms; Ok (mk x0 x1 x2 x3 x4 x5).
Definition valid (m : t) : Prop :=
  in64 (Size m) ∧ in64 (Mtime m).
Definition zero : t := mk ""%string ""%string ""%string 0 0 ""%string.
Lemma FileManifestEntry_roundtrip m : valid m → decode (encode m) = Ok m.
Proof. destruct m. unfold valid. intros H. cbn in H. unfold decode, encode. decode_struct. done. Qed.
Definition codec : Json.codec t :=
  Codec zero (λ m, JObject (encode m)) (λ old, struct old decode) valid FileManifestEntry_roundtrip.
End FileManifestEntry.

Module LogEntryPayload.
Record t : Type := mk {
  OperationID : string; Timestamp : Z; Type_ : string; PeerID : string;
  VectorClock : option (gmap string Z); FileID : option string; Path : string;
  FromPath : option string; Checksum : option string; Size : option Z; Mtime : option Z;
  Mode : option Z; Data : bytes; Compressed : option bool; OriginalSize : option Z;
  CompressionAlgorithm : option string
}.
Definition encode (m : t) : list (string * json) :=
  member "operation_id" c_string (OperationID m) ++ member "timestamp" c_int64 (Timestamp m) ++
  member "type" c_string (Type_ m) ++ member "peer_id" c_string (PeerID m) ++
  member "vector_clock" (c_map c_int64) (VectorClock m) ++
  omitempty "file_id" (c_ptr c_string) (is_none (FileID m)) (FileID m) ++
  member "path" c_string (Path m) ++
  omitempty "from_path" (c_ptr c_string) (is_none (FromPath m)) (FromPath m) ++
  omitempty "checksum" (c_ptr c_string) (is_none (Checksum m)) (Checksum m) ++
  omitempty "size" (c_ptr c_int64) (is_none (Size m)) (Size m) ++
  omitempty "mtime" (c_ptr c_int64) (is_none (Mtime m)) (Mtime m) ++
  omitempty "mode" (c_ptr c_uint32) (is_none (Mode m)) (Mode m) ++
  omitempty "data" c_bytes (is_nil (Data m)) (Data m) ++
  omitempty "compressed" (c_ptr c_bool) (is_none (Compressed m)) (Compressed m) ++
  omitempty "original_size" (c_ptr c_int64) (is_none (OriginalSize m)) (OriginalSize m) ++
  omitempty "compression_algorithm" (c_ptr c_string) (is_none (CompressionAlgorithm m)) (CompressionAlgorithm m).
Definition decode (ms : list (string * json)) : outcome t :=
  x0 ← field "operation_id" c_string ms; x1 ← field "timestamp" c_int64 ms;
  x2 ← field "type" c_string ms; x3 ← field "peer_id" c_string ms;
  x4 ← field "vector_clock" (c_map c_int64) ms; x5 ← field "file_id" (c_ptr c_string) ms;
  x6 ← field "path" c_string ms; x7 ← field "from_path" (c_ptr c_string) ms;
  x8 ← field "checksum" (c_ptr c_string) ms; x9 ← field "size" (c_ptr c_int64) ms;
  x10 ← field "mtime" (c_ptr c_int64) ms; x11 ← field "mode" (c_ptr c_uint32) ms;
  x12 ← field "data" c_bytes ms; x13 ← field "compressed" (c_ptr c_bool) ms;
  x14 ← field "original_size" (c_ptr c_int64) ms;
  x15 ← field "compression_algorithm" (c_ptr c_string) ms;
  Ok (mk x0 x1 x2 x3 x4 x5 x6 x7 x8 x9 x10 x11 x12 x13 x14 x15).
Definition valid (m : t) : Prop :=
  in64 (Timestamp m) ∧
  (match (VectorClock m) with Some v => map_Forall (λ _, in64) v | None => True end) ∧
  (match (Size m) with Some z => in64 z | None => True end) ∧
  (match (Mtime m) with Some z => in64 z | None => True end) ∧
  (match (Mode m) with Some z => 0 ≤ z < 4294967296 | None => True end) ∧
  (match (OriginalSize m) with Some z => in64 z | None => True end).
Definition zero : t := mk ""%string 0 ""%string ""%string None None ""%string None None None None None [] None None None.
Lemma LogEntryPayload_roundtrip m : valid m → decode (encode m) = Ok m.
Proof. destruct m. unfold valid. intros H. cbn in H. unfold decode, encode. decode_struct. done. Qed.
Definition codec : Json.codec t :=
  Codec zero (λ m, JObject (encode m)) (λ old, struct old decode) valid LogEntryPayload_roundtrip.
End LogEntryPayload.

Module StateDeclarationMessage.
Record t : Type := mk {
  PeerID : string; VectorClock : option (gmap string Z); FileManifest : list FileManifestEntry.t;
  PendingOperations : list LogEntryPayload.t
}.
Definition encode (m : t) : list (string * json) :=
  member "peer_id" c_string (PeerID m) ++ member "vector_clock" (c_map c_int64) (VectorClock m) ++
  member "file_manifest" (c_slice FileManifestEntry.codec) (FileManifest m) ++
  member "pending_operations" (c_slice LogEntryPayload.codec) (PendingOperations m).
Definition decode (ms : list (string * json)) : outcome t :=
  x0 ← field "peer_id" c_string ms; x1 ← field "vector_clock" (c_map c_int64) ms;
  x2 ← field "file_manifest" (c_slice FileManifestEntry.codec) ms;
  x3 ← field "pending_operations" (c_slice LogEntryPayload.codec) ms; Ok (mk x0 x1 x2 x3).
Definition valid (m : t) : Prop :=
  (match (VectorClock m) with Some v => map_Forall (λ _, in64) v | None => True end) ∧
  Forall FileManifestEntry.valid (FileManifest m) ∧
  Forall LogEntryPayload.valid (PendingOperations m).
Definition zero : t := mk ""%string None [] [].
Lemma StateDeclarationMessage_roundtrip m : valid m → decode (encode m) = Ok m.
Proof. destruct m. unfold valid. intros H. cbn in H. unfold decode, encode. decode_struct. done. Qed.
Definition codec : Json.codec t :=
  Codec zero (λ m, JObject (encode m)) (λ old, struct old decode) valid StateDeclarationMessage_roundtrip.
End StateDeclarationMessage.

Module RequestedFile.
Record t : Type := mk {
  FileID : string; Priority : string
}.
Definition encode (m : t) : list (string * json) :=
  member "file_id" c_string (FileID m) ++ member "priority" c_string (Priority m).
Definition decode (ms : list (string * json)) : outcome t :=
  x0 ← field "file_id" c_string ms; x1 ← field "priority" c_string ms; Ok (mk x0 x1).
Definition valid (m : t) : Prop :=
  True.
Definition zero : t := mk ""%string ""%string.
Lemma RequestedFile_roundtrip m : valid m → decode (encode m) = Ok m.
Proof. destruct m. unfold valid. intros H. cbn in H. unfold decode, encode. decode_struct. done. Qed.
Definition codec : Json.codec t :=
  Codec zero (λ m, JObject (encode m)) (λ old, struct old decode) valid RequestedFile_roundtrip.
End RequestedFile.

Module PeerCapabilities.
Record t : Type := mk {
  SupportsCompression : bool; MaxConcurrentTransfers : Z
}.
Definition encode (m : t) : list (string * json) :=
  member "supports_compression" c_bool (SupportsCompression m) ++
  member "max_concurrent_transfers" c_int64 (MaxConcurrentTransfers m).
Definition decode (ms : list (string * json)) : outcome t :=
  x0 ← field "supports_compression" c_bool ms; x1 ← field "max_concurrent_transfers" c_int64 ms;
  Ok (mk x0 x1).
Definition valid (m : t) : Prop :=
  in64 (MaxConcurrentTransfers m).
Definition zero : t := mk false 0.
Lemma PeerCapabilities_roundtrip m : valid m → decode (encode m) = Ok m.
Proof. destruct m. unfold valid. intros H. cbn in H. unfold decode, encode. decode_struct. done. Qed.
Definition codec : Json.codec t :=
  Codec zero (λ m, JObject (encode m)) (λ old, struct old decode) valid PeerCapabilities_roundtrip.
End PeerCapabilities.

Module FileRequestMessage.
Record t : Type := mk {
  RequestedFiles : list RequestedFile.t; Capabilities : PeerCapabilities.t
}.
Definition encode (m : t) : list (string * json) :=
  member "requested_files" (c_slice RequestedFile.codec) (RequestedFiles m) ++
  member "peer_capabilities" PeerCapabilities.codec (Capabilities m).
Definition decode (ms : list (string * json)) : outcome t :=
  x0 ← field "requested_files" (c_slice RequestedFile.codec) ms;
  x1 ← field "peer_capabilities" PeerCapabilities.codec ms; Ok (mk x0 x1).
Definition valid (m : t) : Prop :=
  Forall RequestedFile.valid (RequestedFiles m) ∧ PeerCapabilities.valid (Capabilities m).
Definition zero : t := mk [] PeerCapabilities.zero.
Lemma FileRequestMessage_roundtrip m : valid m → decode (encode m) = Ok m.
Proof. destruct m. unfold valid. intros H. cbn in H. unfold decode, encode. decode_struct. done. Qed.
Definition codec : Json.codec t :=
  Codec zero (λ m, JObject (encode m)) (λ old, struct old decode) valid FileRequestMessage_roundtrip.
End FileRequestMessage.

Module ChunkMessage.
Record t : Type := mk {
  FileID : string; FileHash : string; ChunkID : Z; TotalChunks : Z; Offset : Z; Length : Z;
  ChunkHash : string; Data : bytes; IsLast : bool
}.
Definition encode (m : t) : list (string * json) :=
  member "file_id" c_string (FileID m) ++ member "file_hash" c_string (FileHash m) ++
  member "chunk_id" c_int64 (ChunkID m) ++ member "total_chunks" c_int64 (TotalChunks m) ++
  member "offset" c_int64 (Offset m) ++ member "length" c_int64 (Length m) ++
  member "chunk_hash" c_string (ChunkHash m) ++ member "data" c_bytes (Data m) ++
  member "is_last" c_bool (IsLast m).
Definition decode (ms : list (string * json)) : outcome t :=
  x0 ← field "file_id" c_string ms; x1 ← field "file_hash" c_string ms;
  x2 ← field "chunk_id" c_int64 ms; x3 ← field "total_chunks" c_int64 ms;
  x4 ← field "offset" c_int64 ms; x5 ← field "length" c_int64 ms;
  x6 ← field "chunk_hash" c_string ms; x7 ← field "data" c_bytes ms;
  x8 ← field "is_last" c_bool ms; Ok (mk x0 x1 x2 x3 x4 x5 x6 x7 x8).
Definition valid (m : t) : Prop :=
  in64 (ChunkID m) ∧ in64 (TotalChunks m) ∧ in64 (Offset m) ∧ in64 (Length m).
Definition zero : t := mk ""%string ""%string 0 0 0 0 ""%string [] false.
Lemma ChunkMessage_roundtrip m : valid m → decode (encode m) = Ok m.
Proof. destruct m. unfold valid. intros H. cbn in H. unfold decode, encode. decode_struct. done. Qed.
Definition codec : Json.codec t :=
  Codec zero (λ m, JObject (encode m)) (λ old, struct old decode) valid ChunkMessage_roundtrip.
End ChunkMessage.

Module ChunkRequestMessage.
Record t : Type := mk {
  FileID : string; ChunkIDs : list Z
}.
Definition encode (m : t) : list (string * json) :=
  member "file_id" c_string (FileID m) ++ member "chunk_ids" (c_slice c_int64) (ChunkIDs m).
Definition decode (ms : list (string * json)) : outcome t :=
  x0 ← field "file_id" c_string ms; x1 ← field "chunk_ids" (c_slice c_int64) ms; Ok (mk x0 x1).
Definition valid (m : t) : Prop :=
  Forall in64 (ChunkIDs m).
Definition zero : t := mk ""%string [].
Lemma ChunkRequestMessage_roundtrip m : valid m → decode (encode m) = Ok m.
Proof. destruct m. unfold valid. intros H. cbn in H. unfold decode, encode. decode_struct. done. Qed.
Definition codec : Json.codec t :=
  Codec zero (λ m, JObject (encode m)) (λ old, struct old decode) valid ChunkRequestMessage_roundtrip.
End ChunkRequestMessage.

Module OperationAckMessage.
Record t : Type := mk {
  OperationID : string; Success : bool; Error : string
}.
Definition encode (m : t) : list (string * json) :=
  member "operation_id" c_string (OperationID m) ++ member "success" c_bool (Success m) ++
  omitempty "error" c_string (is_empty (Error m)) (Error m).
Definition decode (ms : list (string * json)) : outcome t :=
  x0 ← field "operation_id" c_string ms; x1 ← field "success" c_bool ms;
  x2 ← field "error" c_string ms; Ok (mk x0 x1 x2).
Definition valid (m : t) : Prop :=
  True.
Definition zero : t := mk ""%string false ""%string.
Lemma OperationAckMessage_roundtrip m : valid m → decode (encode m) = Ok m.
Proof. destruct m. unfold valid. intros H. cbn in H. unfold decode, encode. decode_struct. done. Qed.
Definition codec : Json.codec t :=
  Codec zero (λ m, JObject (encode m)) (λ old, struct old decode) valid OperationAckMessage_roundtrip.
End OperationAckMessage.

Module ChunkAckMessage.
Record t : Type := mk {
  FileID : string; ChunkID : Z; Success : bool; Error : string
}.
Definition encode (m : t) : list (string * json) :=
  member "file_id" c_string (FileID m) ++ member "chunk_id" c_int64 (ChunkID m) ++
  member "success" c_bool (Success m) ++ omitempty "error" c_string (is_empty (Error m)) (Error m).
Definition decode (ms : list (string * json)) : outcome t :=
  x0 ← field "file_id" c_string ms; x1 ← field "chunk_id" c_int64 ms;
  x2 ← field "success" c_bool ms; x3 ← field "error" c_string ms; Ok (mk x0 x1 x2 x3).
Definition valid (m : t) : Prop :=
  in64 (ChunkID m).
Definition zero : t := mk ""%string 0 false ""%string.
Lemma ChunkAckMessage_roundtrip m : valid m → decode (encode m) = Ok m.
Proof. destruct m. unfold valid. intros H. cbn in H. unfold decode, encode. decode_struct. done. Qed.
Definition codec : Json.codec t :=
  Codec zero (λ m, JObject (encode m)) (λ old, struct old decode) valid ChunkAckMessage_roundtrip.
End ChunkAckMessage.

Module SyncOperationMessage.
Record t : Type := mk {
  OperationID : string; Type_ : string; Path : string; FromPath : option string; FileID : string;
  Checksum : option string; Size : option Z; Mtime : option Z; Mode : option Z; Data : bytes;
  Compressed : option bool; OriginalSize : option Z; CompressionAlgorithm : option string
}.
Definition encode (m : t) : list (string * json) :=
  member "operation_id" c_string (OperationID m) ++ member "type" c_string (Type_ m) ++
  member "path" c_string (Path m) ++
  omitempty "from_path" (c_ptr c_string) (is_none (FromPath m)) (FromPath m) ++
  member "file_id" c_string (FileID m) ++
  omitempty "checksum" (c_ptr c_string) (is_none (Checksum m)) (Checksum m) ++
  omitempty "size" (c_ptr c_int64) (is_none (Size m)) (Size m) ++
  omitempty "mtime" (c_ptr c_int64) (is_none (Mtime m)) (Mtime m) ++
  omitempty "mode" (c_ptr c_uint32) (is_none (Mode m)) (Mode m) ++
  omitempty "data" c_bytes (is_nil (Data m)) (Data m) ++
  omitempty "compressed" (c_ptr c_bool) (is_none (Compressed m)) (Compressed m) ++
  omitempty "original_size" (c_ptr c_int64) (is_none (OriginalSize m)) (OriginalSize m) ++
  omitempty "compression_algorithm" (c_ptr c_string) (is_none (CompressionAlgorithm m)) (CompressionAlgorithm m).
Definition decode (ms : list (string * json)) : outcome t :=
  x0 ← field "operation_id" c_string ms; x1 ← field "type" c_string ms;
  x2 ← field "path" c_string ms; x3 ← field "from_path" (c_ptr c_string) ms;
  x4 ← field "file_id" c_string ms; x5 ← field "checksum" (c_ptr c_string) ms;
  x6 ← field "size" (c_ptr c_int64) ms; x7 ← field "mtime" (c_ptr c_int64) ms;
  x8 ← field "mode" (c_ptr c_uint32) ms; x9 ← field "data" c_bytes ms;
  x10 ← field "compressed" (c_ptr c_bool) ms; x11 ← field "original_size" (c_ptr c_int64) ms;
  x12 ← field "compression_algorithm" (c_ptr c_string) ms;
  Ok (mk x0 x1 x2 x3 x4 x5 x6 x7 x8 x9 x10 x11 x12).
Definition valid (m : t) : Prop :=
  (match (Size m) with Some z => in64 z | None => True end) ∧
  (match (Mtime m) with Some z => in64 z | None => True end) ∧
  (match (Mode m) with Some z => 0 ≤ z < 4294967296 | None => True end) ∧
  (match (OriginalSize m) with Some z => in64 z | None => True end).
Definition zero : t := mk ""%string ""%string ""%string None ""%string None None None None [] None None None.
Lemma SyncOperationMessage_roundtrip m : valid m → decode (encode m) = Ok m.
Proof. destruct m. unfold valid. intros H. cbn in H. unfold decode, encode. decode_struct. done. Qed.
Definition codec : Json.codec t :=
  Codec zero (λ m, JObject (encode m)) (λ old, struct old decode) valid SyncOperationMessage_roundtrip.
End SyncOperationMessage.

Module HeartbeatMessage.
Record t : Type := mk {
  Timestamp : Z
}.
Definition encode (m : t) : list (string * json) :=
  member "timestamp" c_int64 (Timestamp m).
Definition decode (ms : list (string * json)) : outcome t :=
  x0 ← field "timestamp" c_int64 ms; Ok (mk x0).
Definition valid (m : t) : Prop :=
  in64 (Timestamp m).
Definition zero : t := mk 0.
Lemma HeartbeatMessage_roundtrip m : valid m → decode (encode m) = Ok m.
Proof. destruct m. unfold valid. intros H. cbn in H. unfold decode, encode. decode_struct. done. Qed.
Definition codec : Json.codec t :=
  Codec zero (λ m, JObject (encode m)) (λ old, struct old decode) valid HeartbeatMessage_roundtrip.
End HeartbeatMessage.

(** ** Payloads (message.go) *)

(** The structs a payload can be. *)
Inductive body : Type :=
  | BDiscovery (m : DiscoveryMessage.t)
  | BDiscoveryResponse (m : DiscoveryResponseMessage.t)
  | BHandshake (m : HandshakeMessage.t)
  | BHandshakeChallenge (m : HandshakeChallengeMessage.t)
  | BHandshakeComplete (m : HandshakeCompleteMessage.t)
  | BStateDeclaration (m : StateDeclarationMessage.t)
  | BFileRequest (m : FileRequestMessage.t)
  | BLogEntry (m : LogEntryPayload.t)
  | BChunk (m : ChunkMessage.t)
  | BChunkRequest (m : ChunkRequestMessage.t)
  | BOperationAck (m : OperationAckMessage.t)
  | BChunkAck (m : ChunkAckMessage.t)
  | BSyncOperation (m : SyncOperationMessage.t)
  | BHeartbeat (m : HeartbeatMessage.t).

(** The dynamic value of the [interface{}]. *)
Inductive payload : Type :=
  | PGeneric (j : json)
  | PValue (b : body)
  | PPointer (b : body).

Definition enc_body (b : body) : json :=
  match b with
  | BDiscovery m => enc DiscoveryMessage.codec m
  | BDiscoveryResponse m => enc DiscoveryResponseMessage.codec m
  | BHandshake m => enc HandshakeMessage.codec m
  | BHandshakeChallenge m => enc HandshakeChallengeMessage.codec m
  | BHandshakeComplete m => enc HandshakeCompleteMessage.codec m
  | BStateDeclaration m => enc StateDeclarationMessage.codec m
  | BFileRequest m => enc FileRequestMessage.codec m
  | BLogEntry m => enc LogEntryPayload.codec m
  | BChunk m => enc ChunkMessage.codec m
  | BChunkRequest m => enc ChunkRequestMessage.codec m
  | BOperationAck m => enc OperationAckMessage.codec m
  | BChunkAck m => enc ChunkAckMessage.codec m
  | BSyncOperation m => enc SyncOperationMessage.codec m
  | BHeartbeat m => enc HeartbeatMessage.codec m
  end.

Definition EncodePayload (p : payload) : outcome json :=
  match p with
  | PGeneric j => Ok j
  | PValue b | PPointer b => Ok (enc_body b)
  end.

(** [json.Unmarshal] into a new struct of type [A]. *)
Definition unmarshal {A} (c : codec A) (inject : A → body) (data : json) : outcome payload :=
  wrapping "failed to decode payload" ((λ a, PPointer (inject a)) <$> dec c (zero c) data).

Definition DecodePayload (data : json) (msgType : string) : outcome payload :=
  if decide (msgType = TypeDiscovery) then unmarshal DiscoveryMessage.codec BDiscovery data
  else if decide (msgType = TypeDiscoveryResponse) then unmarshal DiscoveryResponseMessage.codec BDiscoveryResponse data
  else if decide (msgType = TypeHandshake) then unmarshal HandshakeMessage.codec BHandshake data
  else if decide (msgType = TypeHandshakeAck) then unmarshal HandshakeChallengeMessage.codec BHandshakeChallenge data
  else if decide (msgType = TypeHandshakeComplete) then unmarshal HandshakeCompleteMessage.codec BHandshakeComplete data
  else if decide (msgType = TypeStateDeclaration) then unmarshal StateDeclarationMessage.codec BStateDeclaration data
  else if decide (msgType = TypeFileRequest) then unmarshal FileRequestMessage.codec BFileRequest data
  else if decide (msgType = TypeSyncOperation) then unmarshal LogEntryPayload.codec BLogEntry data
  else if decide (msgType = TypeChunk) then unmarshal ChunkMessage.codec BChunk data
  else if decide (msgType = TypeChunkRequest) then unmarshal ChunkRequestMessage.codec BChunkRequest data
  else if decide (msgType = TypeOperationAck) then unmarshal OperationAckMessage.codec BOperationAck data
  else if decide (msgType = TypeChunkAck) then unmarshal ChunkAckMessage.codec BChunkAck data
  else if decide (msgType = TypeHeartbeat) then unmarshal HeartbeatMessage.codec BHeartbeat data
  else Err "unknown message type".

(** ** Messages (message.go) *)
Module Message.
Record t : Type := mk {
  ID : string; Type_ : string; Timestamp : Z; SenderID : string; Payload : payload;
  CorrelationID : option string
}.
End Message.

(** [UnixNano] is the clock itself. *)
Definition GenerateMessageID (now : time) : string := ("msg-" +:+ sprint_d now)%string.

Definition NewMessage (now : time) (msgType senderID : string) (p : payload) : Message.t :=
  Message.mk (GenerateMessageID now) msgType (unix_milli now) senderID p None.

Definition WithCorrelationID (correlationID : string) (m : Message.t) : Message.t :=
  Message.mk (Message.ID m) (Message.Type_ m) (Message.Timestamp m) (Message.SenderID m)
    (Message.Payload m) (Some correlationID).

Definition Encode (m : Message.t) : outcome json :=
  p ← EncodePayload (Message.Payload m);
  Ok (JObject (member "id" c_string (Message.ID m) ++ member "type" c_string (Message.Type_ m) ++
    member "timestamp" c_int64 (Message.Timestamp m) ++ member "sender_id" c_string (Message.SenderID m) ++
    member "payload" c_any p ++
    omitempty "correlation_id" (c_ptr c_string) (is_none (Message.CorrelationID m)) (Message.CorrelationID m))).

Definition decode_message (ms : list (string * json)) : outcome Message.t :=
  a ← field "id" c_string ms; b ← field "type" c_string ms; c ← field "timestamp" c_int64 ms;
  d ← field "sender_id" c_string ms; p ← field "payload" c_any ms;
  e ← field "correlation_id" (c_ptr c_string) ms; Ok (Message.mk a b c d (PGeneric p) e).

Definition zero_message : Message.t := Message.mk "" "" 0 "" (PGeneric JNull) None.

Definition DecodeMessage (data : json) : outcome Message.t :=
  wrapping "failed to decode message" (struct zero_message decode_message data).

(** ** Round trip *)

(** The message type [DecodePayload] expects for a struct; none for the unused
    [SyncOperationMessage]. *)
Definition type_of (b : body) : option string :=
  match b with
  | BDiscovery _ => Some TypeDiscovery
  | BDiscoveryResponse _ => Some TypeDiscoveryResponse
  | BHandshake _ => Some TypeHandshake
  | BHandshakeChallenge _ => Some TypeHandshakeAck
  | BHandshakeComplete _ => Some TypeHandshakeComplete
  | BStateDeclaration _ => Some TypeStateDeclaration
  | BFileRequest _ => Some TypeFileRequest
  | BLogEntry _ => Some TypeSyncOperation
  | BChunk _ => Some TypeChunk
  | BChunkRequest _ => Some TypeChunkRequest
  | BOperationAck _ => Some TypeOperationAck
  | BChunkAck _ => Some TypeChunkAck
  | BSyncOperation _ => None
  | BHeartbeat _ => Some TypeHeartbeat
  end.

(** Integers fit their Go types. *)
Definition valid_body (b : body) : Prop :=
  match b with
  | BDiscovery m => DiscoveryMessage.valid m
  | BDiscoveryResponse m => DiscoveryResponseMessage.valid m
  | BHandshake m => HandshakeMessage.valid m
  | BHandshakeChallenge m => HandshakeChallengeMessage.valid m
  | BHandshakeComplete m => HandshakeCompleteMessage.valid m
  | BStateDeclaration m => StateDeclarationMessage.valid m
  | BFileRequest m => FileRequestMessage.valid m
  | BLogEntry m => LogEntryPayload.valid m
  | BChunk m => ChunkMessage.valid m
  | BChunkRequest m => ChunkRequestMessage.valid m
  | BOperationAck m => OperationAckMessage.valid m
  | BChunkAck m => ChunkAckMessage.valid m
  | BSyncOperation m => SyncOperationMessage.valid m
  | BHeartbeat m => HeartbeatMessage.valid m
  end.

Lemma unmarshal_enc {A} (c : codec A) inject a :
  valid c a → unmarshal c inject (enc c a) = Ok (PPointer (inject a)).
Proof. intros H. unfold unmarshal. by rewrite dec_enc. Qed.

Lemma DecodePayload_enc b ty :
  valid_body b → type_of b = Some ty → DecodePayload (enc_body b) ty = Ok (PPointer b).
Proof.
  destruct b; intros Hv; intros [= <-]; by apply unmarshal_enc.
Qed.

Lemma decode_message_enc id ty ts sender j cid :
  in64 ts →
  decode_message (member "id" c_string id ++ member "type" c_string ty ++ member "timestamp" c_int64 ts ++
    member "sender_id" c_string sender ++ member "payload" c_any j ++
    omitempty "correlation_id" (c_ptr c_string) (is_none cid) cid)
  = Ok (Message.mk id ty ts sender (PGeneric j) cid).
Proof. intros H. unfold decode_message. decode_struct. done. Qed.


