(* ===== verification/State.v ===== *)
(** * State declarations, reconciliation and load balancing (internal/state)

    What a peer says it has ([StateDeclaration], declaration.go), what another
    peer makes of it ([Reconciler], reconciliation.go), and how files are spread
    over peers ([LoadBalancer], loadbalance.go).  A loop over a Go map takes the
    order of the keys as an argument. *)

From Stdlib Require Import Strings.Byte Strings.String.
From S2P Require Import Prelude GoStrings Json Clock Database Messages.

(** ** declaration.go *)
Module StateDeclaration.

Record t : Type := mk {
  PeerID : string; VectorClock : Clock.VectorClock.t; FileManifest : list FileManifestEntry.t;
  PendingOperations : list LogEntryPayload.t
}.

Definition manifest_entry (file : FileMetadata.t) : FileManifestEntry.t :=
  FileManifestEntry.mk (FileMetadata.FileID file) (FileMetadata.Path file) (FileMetadata.Checksum file)
    (FileMetadata.Size file) (unix_sec (FileMetadata.Mtime file)) (FileMetadata.PeerID file).

(** Times in seconds. *)
Definition pending_payload (op : LogEntry.t) : LogEntryPayload.t :=
  LogEntryPayload.mk (LogEntry.OperationID op) (unix_sec (LogEntry.Timestamp op)) (LogEntry.OperationType op)
    (LogEntry.PeerID op) (LogEntry.VectorClock op) (LogEntry.FileID op) (LogEntry.Path op) (LogEntry.FromPath op)
    (LogEntry.Checksum op) (LogEntry.Size op) (unix_sec <$> LogEntry.Mtime op) (LogEntry.Mode op) (LogEntry.Data op)
    (Some (LogEntry.Compressed op)) (LogEntry.OriginalSize op) (LogEntry.CompressionAlgorithm op).

(** Merging a nil clock changes nothing. *)
Definition merge_clocks (operations : list LogEntry.t) : Clock.VectorClock.t :=
  foldl (λ vc op, Clock.VectorClock.Merge vc (default ∅ (LogEntry.VectorClock op))) Clock.VectorClock.NewVectorClock
    operations.

Definition BuildStateDeclaration (peerID : string) (d : DB.t) : outcome t :=
  files ← DB.GetAllFiles d;
  operations ← DB.GetUnacknowledgedOperations d;
  Ok (mk peerID (merge_clocks operations) (manifest_entry <$> files) (pending_payload <$> operations)).

End StateDeclaration.

(** ** reconciliation.go *)
Module Reconciler.

(** [result[peerID] = append(result[peerID], file)]. *)
Definition append_file {A} (peerID : string) (file : A) (result : gmap string (list A)) : gmap string (list A) :=
  <[peerID := default [] (result !! peerID) ++ [file]]> result.

Fixpoint assign_loop (peerIDs : list string) (i : nat) (files : list string) (result : gmap string (list string))
    : gmap string (list string) :=
  match files with
  | [] => result
  | file :: rest =>
      assign_loop peerIDs (S i) rest (append_file (nth (i mod length peerIDs) peerIDs ""%string) file result)
  end.

(** [peerIDs]: the keys of [peers] in the order of the iteration. *)
Definition AssignFilesToPeers (peerIDs files : list string) : gmap string (list string) :=
  match peerIDs with
  | [] => ∅
  | _ => assign_loop peerIDs 0 files ∅
  end.

Module PeerCapabilities.
Record t : Type := mk { SupportsCompression : bool; MaxConcurrentTransfers : Z; BandwidthLimit : Z }.
End PeerCapabilities.

(** The two maps of the loop over the files. *)
Record assignment : Type := Assignment { result : gmap string (list string); remainingCapacity : gmap string Z }.

Definition initial (peerCapabilities : gmap string PeerCapabilities.t) (currentLoad : gmap string Z) : assignment :=
  Assignment ((λ _, []) <$> peerCapabilities)
    (map_imap (λ peerID c, Some (PeerCapabilities.MaxConcurrentTransfers c -! map_get 0 currentLoad peerID)) peerCapabilities).

(** The first peer of the iteration with capacity left. *)
Definition find_peer (order : list string) (s : assignment) : option string :=
  List.find (λ peerID, 0 <? map_get 0 (remainingCapacity s) peerID) order.

Definition assign_file (order : list string) (file : string) (s : assignment) : assignment :=
  match find_peer order s with
  | Some peerID => Assignment (append_file peerID file (result s))
      (<[peerID := map_get 0 (remainingCapacity s) peerID -! 1]> (remainingCapacity s))
  | None => s
  end.

(** [files]: each file with the order of the iteration that serves it. *)
Definition AssignFilesWithCapacity (peerCapabilities : gmap string PeerCapabilities.t) (currentLoad : gmap string Z)
    (files : list (list string * string)) : gmap string (list string) :=
  result (foldl (λ s '(order, file), assign_file order file s) (initial peerCapabilities currentLoad) files).

Module ReconciliationResult.
Record t : Type := mk {
  MissingFiles : list FileManifestEntry.t; ConflictingFiles : list FileManifestEntry.t;
  PendingOpsToApply : list LogEntryPayload.t
}.
End ReconciliationResult.

(** The local files by id; a later entry replaces an earlier one. *)
Definition local_files (manifest : list FileManifestEntry.t) : gmap string FileManifestEntry.t :=
  foldl (λ m f, <[FileManifestEntry.FileID f := f]> m) ∅ manifest.

Definition local_ops (ops : list LogEntryPayload.t) : gset string :=
  list_to_set (LogEntryPayload.OperationID <$> ops).

Definition check_file (localFiles : gmap string FileManifestEntry.t)
    (acc : list FileManifestEntry.t * list FileManifestEntry.t) (remoteFile : FileManifestEntry.t)
    : list FileManifestEntry.t * list FileManifestEntry.t :=
  let '(missing, conflicting) := acc in
  match localFiles !! FileManifestEntry.FileID remoteFile with
  | None => (missing ++ [remoteFile], conflicting)
  | Some localFile =>
      if bool_decide (FileManifestEntry.Hash localFile ≠ FileManifestEntry.Hash remoteFile)
      then (missing, conflicting ++ [remoteFile]) else (missing, conflicting)
  end.

Definition ReconcileStates (local remote : StateDeclaration.t) : ReconciliationResult.t :=
  let '(missing, conflicting) :=
    foldl (check_file (local_files (StateDeclaration.FileManifest local))) ([], []) (StateDeclaration.FileManifest remote) in
  let ops := local_ops (StateDeclaration.PendingOperations local) in
  ReconciliationResult.mk missing conflicting
    (List.filter (λ op, negb (bool_decide (LogEntryPayload.OperationID op ∈ ops))) (StateDeclaration.PendingOperations remote)).

End Reconciler.

(** ** loadbalance.go *)
Module LoadBalancer.

Record t : Type := mk { peers : list string }.

Definition NewLoadBalancer (peers : list string) : t := mk (sort_strings peers).

(** hash/fnv: FNV-1a on 32 bits. *)
Definition fnv32a (data : bytes) : Z :=
  foldl (λ h b, wrapu32 (Z.lxor h (byte_Z b) * 16777619)) 2166136261 data.

(** [int(hashValue)] of 32 bits is not negative. *)
Definition selectPeer (fileID : string) (lb : t) : string :=
  match peers lb with
  | [] => ""
  | [p] => p
  | ps => nth (Z.to_nat (fnv32a (to_bytes fileID) mod zlen ps)) ps ""
  end%string.

Definition GetPeerForFile : string → t → string := selectPeer.

Definition DistributeFiles (files : list FileManifestEntry.t) (lb : t) : gmap string (list FileManifestEntry.t) :=
  match peers lb with
  | [] => ∅
  | ps => foldl (λ d f, Reconciler.append_file (selectPeer (FileManifestEntry.FileID f) lb) f d)
            (list_to_map ((λ p, (p, [])) <$> ps)) files
  end.

End LoadBalancer.
