(* ===== verification/Compression.v ===== *)
(** * Compression (internal/compression)

    The algorithms are third-party code: [libraries] collects what the source
    calls of them, [lawful] what their documentation promises.  A [Compressor]
    is the record of the interface's methods. *)

From Stdlib Require Import Strings.Byte Strings.String.
From S2P Require Import Prelude GoStrings.

(** The calls into compress/gzip, klauspost/compress/zstd and pierrec/lz4. *)
Record libraries : Type := Libraries {
  gzip_write : Z → bytes → outcome bytes;
  gzip_read : bytes → outcome bytes;
  zstd_EncodeAll : Z → bytes → bytes;
  zstd_DecodeAll : bytes → outcome bytes;
  (** The bytes written to a buffer of the given size. *)
  lz4_CompressBlock : Z → bytes → Z → outcome bytes;
  lz4_UncompressBlock : bytes → Z → outcome bytes
}.

Definition lz4_short_buffer : error := "lz4: invalid source or destination buffer too short".

(** LZ4's compression buffer, [CompressBlockBound] of the input. *)
Definition lz4_bound (data : bytes) : Z := zlen data + zlen data / 255 + 16.

(** What is read back is what was written; LZ4 blocks do not carry their size
    and are refused when they do not fit the buffer. *)
Class lawful (L : libraries) : Prop := {
  gzip_law : ∀ level d, 1 ≤ level ≤ 9 → ∃ c, gzip_write L level d = Ok c ∧ gzip_read L c = Ok d;
  zstd_law : ∀ level d, zstd_DecodeAll L (zstd_EncodeAll L level d) = Ok d;
  lz4_law : ∀ level d, ∃ c, lz4_CompressBlock L level d (lz4_bound d) = Ok c ∧
    ∀ size, lz4_UncompressBlock L c size = if zlen d <=? size then Ok d else Err lz4_short_buffer
}.

Module Compressor.
Record t : Type := mk {
  Compress : bytes → outcome bytes;
  Decompress : bytes → outcome bytes;
  Algorithm : string
}.
End Compressor.

Section Compression.
Context (L : libraries).

Definition NewNoOpCompressor : Compressor.t := Compressor.mk Ok Ok "none".

Definition NewGzipCompressor (level : Z) : outcome Compressor.t :=
  if (level <? 1) || (9 <? level) then Err "gzip level must be between 1 and 9"
  else Ok (Compressor.mk (λ d, wrapping "failed to write data" (gzip_write L level d))
             (λ d, wrapping "failed to decompress" (gzip_read L d)) "gzip").

Definition NewZstdCompressor (level : Z) : outcome Compressor.t :=
  if (level <? 1) || (22 <? level) then Err "zstd level must be between 1 and 22"
  else Ok (Compressor.mk (λ d, Ok (zstd_EncodeAll L level d)) (zstd_DecodeAll L) "zstd").

Definition lz4_Compress (level : Z) (data : bytes) : outcome bytes :=
  wrapping "failed to compress" (lz4_CompressBlock L level data (lz4_bound data)).

(** The buffer is a guess: four times the input. *)
Definition lz4_Decompress (data : bytes) : outcome bytes :=
  wrapping "failed to decompress" (lz4_UncompressBlock L data (zlen data * 4)).

Definition lz4_DecompressWithSize (data : bytes) (originalSize : Z) : outcome bytes :=
  if originalSize <? 0 then Panic "makeslice: len out of range"
  else
    d ← wrapping "failed to decompress" (lz4_UncompressBlock L data originalSize);
    if negb (zlen d =? originalSize) then Err "decompressed size does not match expected" else Ok d.

Definition NewLZ4Compressor (level : Z) : outcome Compressor.t :=
  if (level <? 1) || (16 <? level) then Err "lz4 level must be between 1 and 16"
  else Ok (Compressor.mk (lz4_Compress level) lz4_Decompress "lz4").

Definition NewCompressor (algorithm : string) (level : Z) : outcome Compressor.t :=
  if decide (algorithm = "zstd"%string) then NewZstdCompressor level
  else if decide (algorithm = "lz4"%string) then NewLZ4Compressor level
  else if decide (algorithm = "gzip"%string) then NewGzipCompressor level
  else if decide (algorithm = "none"%string) then Ok NewNoOpCompressor
  else Err "unknown compression algorithm".

End Compression.

(** ** Properties *)

(** The data a compressor restores: all, but LZ4 guesses its buffer. *)
Definition restores (c : Compressor.t) (d : bytes) : Prop :=
  ∃ z, Compressor.Compress c d = Ok z ∧
    if decide (Compressor.Algorithm c = "lz4"%string)
    then Compressor.Decompress c z = if zlen d <=? zlen z * 4 then Ok d
                                     else Err (wrap "failed to decompress" lz4_short_buffer)
    else Compressor.Decompress c z = Ok d.

(** Every compressor that [NewCompressor] can make restores what it
    compressed, also through one made with another level, except LZ4: its
    [Decompress] fails on all data that was compressed to less than a quarter
    of its size. *)
Theorem compressors_restore L algorithm level level' c c' d :
  lawful L → NewCompressor L algorithm level = Ok c → NewCompressor L algorithm level' = Ok c' →
  restores c d ∧ Compressor.Algorithm c = algorithm ∧ Compressor.Decompress c' = Compressor.Decompress c.
Proof.
  intros HL H H'. unfold NewCompressor, NewZstdCompressor, NewLZ4Compressor, NewGzipCompressor in H, H'.
  repeat case_decide; subst; repeat (case_match; try discriminate); go_simpl; (split; [|done]); unfold restores; cbn;
    rewrite ?decide_True by done; rewrite ?decide_False by done.
  - eexists. split; [done|]. apply HL.
  - destruct (lz4_law (L := L) level d) as (z & Hz & Hu). exists z. unfold lz4_Compress, lz4_Decompress.
    rewrite Hz, Hu. split; [done|]. by destruct (_ <=? _).
  - destruct (gzip_law (L := L) level d) as (z & Hz & Hu); [lia|]. exists z. by rewrite Hz, Hu.
  - by exists d.
Qed.

(** Libraries that mark what they compressed. *)
Definition demo_libraries : libraries :=
  Libraries (λ _ d, Ok (Byte.x67 :: d)) (λ c, Ok (tail c)) (λ _ d, Byte.x7a :: d) (λ c, Ok (tail c))
    (λ _ d _, Ok d) (λ c size, if zlen c <=? size then Ok c else Err lz4_short_buffer).

#[local] Instance demo_lawful : lawful demo_libraries.
Proof. split; [by eauto|done|]. intros level d. exists d. by split. Qed.

Lemma compressors_restore_witness :
  ∃ c, NewCompressor demo_libraries "zstd" 3 = Ok c ∧ restores c (to_bytes "hello").
Proof.
  eexists. split; [reflexivity|].
  exact (proj1 (compressors_restore demo_libraries "zstd" 3 3 _ _ (to_bytes "hello") demo_lawful eq_refl eq_refl)).
Defined.
