(* ===== verification/Configuration.v ===== *)
(** * The configuration (internal/config)

    Defaults, the environment, validation and loading.  [getenv] is the
    environment; the YAML parser is a parameter that overwrites the settings a
    text names.  Validation looks at the folder through the store of
    Filesystem.v, and leaves its traces there. *)

From Stdlib Require Import Strings.Byte Strings.Ascii Strings.String.
From S2P Require Import Prelude GoStrings GoPath Chunking ChunkingProps Filesystem Compression.

(** ** config.go *)
Module SyncConfig.
Record t : Type := mk {
  FolderPath : string; ChunkSizeMin : Z; ChunkSizeMax : Z; ChunkSizeDefault : Z; MaxConcurrentTransfers : Z;
  OperationLogSize : Z; StateSyncInterval : Z
}.
End SyncConfig.

Module NetworkConfig.
Record t : Type := mk {
  Port : Z; DiscoveryPort : Z; Protocol : string; HeartbeatInterval : Z; ConnectionTimeout : Z; Peers : list string
}.
End NetworkConfig.

Module SecurityConfig.
Record t : Type := mk { KeyRotationInterval : Z; EncryptionAlgorithm : string }.
End SecurityConfig.

Module CompressionConfig.
Record t : Type := mk {
  Enabled : bool; FileSizeThreshold : Z; Algorithm : string; Level : Z; ChunkCompression : bool
}.

Definition within (lo hi v : Z) : bool := (lo <=? v) && (v <=? hi).

Definition Validate (cc : t) : outcome unit :=
  if negb (Enabled cc) then Ok tt
  else if negb (within 1024 1073741824 (FileSizeThreshold cc)) then Err "file_size_threshold must be between 1024 and 1073741824 bytes"
  else if decide (Algorithm cc = "zstd"%string) then
    if negb (within 1 22 (Level cc)) then Err "zstd level must be between 1 and 22" else Ok tt
  else if decide (Algorithm cc = "lz4"%string) then
    if negb (within 1 16 (Level cc)) then Err "lz4 level must be between 1 and 16" else Ok tt
  else if decide (Algorithm cc = "gzip"%string) then
    if negb (within 1 9 (Level cc)) then Err "gzip level must be between 1 and 9" else Ok tt
  else if decide (Algorithm cc = "none"%string) then Ok tt
  else Err "compression algorithm must be one of: zstd, lz4, gzip, none".
End CompressionConfig.

Module ObservabilityConfig.
Record t : Type := mk { OTELendpoint : string; LogLevel : string; MetricsEnabled : bool; TracingEnabled : bool }.
End ObservabilityConfig.

Module Config.

Record t : Type := mk {
  Sync : SyncConfig.t; Network : NetworkConfig.t; Security : SecurityConfig.t; Compression : CompressionConfig.t;
  ResolutionStrategy : string; Observability : ObservabilityConfig.t
}.

Definition DefaultConfig : t :=
  mk (SyncConfig.mk "/tmp/p2p-sync" 65536 2097152 524288 5 10000 0)
     (NetworkConfig.mk 8080 8081 "quic" 30 60 [])
     (SecurityConfig.mk 86400 "aes-256-gcm")
     (CompressionConfig.mk true 1048576 "zstd" 3 true)
     "intelligent_merge"
     (ObservabilityConfig.mk "" "info" true true).

Definition within := CompressionConfig.within.

(** [os.WriteFile]: the file is made or emptied, written, closed; the first error counts. *)
Definition WriteFile (now : time) (p : string) (data : bytes) (mode : Z) : GoM OS.t unit :=
  OS.sys "open" OS.nothing (λ s,
    if OS.is_dir (Clean p) s || negb (OS.is_dir (Dir p) s) then (Err "cannot open", s)
    else (Ok tt, OS.put (Clean p) (OS.File (match OS.look (Clean p) s with
                                            | Some (OS.File f) => OS.mkFile [] (OS.mode f) now (OS.xattrs f)
                                            | _ => OS.mkFile [] mode now ∅
                                            end)) s));;
  written ← gtry (OS.Write now (Clean p) data);
  closed ← gtry OS.Close;
  match written, closed with
  | inr e, _ | _, inr e => gfail e
  | _, _ => mret tt
  end.

(** The part of [Validate] that looks at the folder. *)
Definition validate_folder (now : time) (folder : string) : GoM OS.t unit :=
  if is_empty folder then gfail "sync.folder_path is required"
  else
    info ← gtry (OS.Stat folder);
    match info with
    | inl (_, _, _, true) => mret tt
    | inl (_, _, _, false) => gfail "sync folder path is not a directory"
    | inr e => if decide (e = OS.NotExist) then gwrap "cannot create sync folder" (OS.MkdirAll folder)
               else gfail (wrap "cannot access sync folder" e)
    end;;
    let testFile := Join2 folder ".p2p-sync-test" in
    gwrap "sync folder is not writable" (WriteFile now testFile (to_bytes "test") 420);;
    gtry (OS.Remove testFile);;
    mret tt.

(** The part of [Validate] that looks at the values; [testing] is
    [P2P_TESTING_MODE]. *)
Definition validate_values (testing : bool) (c : t) : outcome unit :=
  let s := Sync c in let n := Network c in
  if negb (within 4096 1048576 (SyncConfig.ChunkSizeMin s)) then Err "chunk_size_min must be between 4096 and 1048576 bytes"
  else if negb (within 1048576 10485760 (SyncConfig.ChunkSizeMax s)) then Err "chunk_size_max must be between 1048576 and 10485760 bytes"
  else if negb (within (SyncConfig.ChunkSizeMin s) (SyncConfig.ChunkSizeMax s) (SyncConfig.ChunkSizeDefault s)) then
    Err "chunk_size_default must be between chunk_size_min and chunk_size_max"
  else if negb (within 1 20 (SyncConfig.MaxConcurrentTransfers s)) then Err "max_concurrent_transfers must be between 1 and 20"
  else if negb (NetworkConfig.Port n =? 0) && negb (within 1024 65535 (NetworkConfig.Port n)) then
    Err "network.port must be 0 or between 1024 and 65535"
  else if negb (NetworkConfig.DiscoveryPort n =? 0) && negb (within 1024 65535 (NetworkConfig.DiscoveryPort n)) then
    Err "network.discovery_port must be 0 or between 1024 and 65535"
  else if negb (bool_decide (NetworkConfig.Protocol n ∈ ["quic"; "tcp"; ""]%string)) then
    Err "network.protocol must be 'quic', 'tcp', or empty (defaults to quic)"
  else if negb (within (if testing then 1 else 3600) 604800 (SecurityConfig.KeyRotationInterval (Security c))) then
    (if testing then Err "key_rotation_interval must be between 1 and 604800 seconds (test mode)"
     else Err "key_rotation_interval must be between 3600 and 604800 seconds")
  else
    _ ← wrapping "compression config" (CompressionConfig.Validate (Compression c));
    if negb (bool_decide (ObservabilityConfig.LogLevel (Observability c) ∈ ["debug"; "info"; "warn"; "error"]%string)) then
      Err "log_level must be one of: debug, info, warn, error"
    else Ok tt.

Definition Validate (now : time) (getenv : string → string) (c : t) : GoM OS.t unit :=
  validate_folder now (SyncConfig.FolderPath (Sync c));;
  glift (validate_values (bool_decide (getenv "P2P_TESTING_MODE"%string = "true"%string)) c).

Definition GetDataDir (c : t) : string := Join2 (SyncConfig.FolderPath (Sync c)) ".p2p-sync".
Definition GetDBPath (c : t) : string := Join2 (GetDataDir c) "p2p_sync.db".
Definition GetKeychainPath (c : t) : string := Join2 (GetDataDir c) "keychain.db".

(** ** loader.go *)

(** 0 on an error. *)
Definition parseInt (s : string) : Z := Sscanf_d 0 s.

(** The value of a variable that is set, else what there was. *)
Definition env_or {A} (getenv : string → string) (name : string) (f : string → A) (old : A) : A :=
  if is_empty (getenv name) then old else f (getenv name).

Definition env_port (getenv : string → string) (name : string) (old : Z) : Z :=
  env_or getenv name (λ v, if 0 <? parseInt v then parseInt v else old) old.

(** The entries of a comma-separated list, trimmed, without the empty ones. *)
Definition peer_list (v : string) : list string :=
  List.filter (λ p, negb (is_empty p)) (TrimSpace <$> Split "," v).

Definition loadFromEnv (getenv : string → string) (c : t) : t :=
  let s := Sync c in let n := Network c in let z := Compression c in let o := Observability c in
  mk (SyncConfig.mk (env_or getenv "P2P_SYNC_FOLDER" id (SyncConfig.FolderPath s)) (SyncConfig.ChunkSizeMin s) (SyncConfig.ChunkSizeMax s)
       (SyncConfig.ChunkSizeDefault s) (SyncConfig.MaxConcurrentTransfers s) (SyncConfig.OperationLogSize s) (SyncConfig.StateSyncInterval s))
     (NetworkConfig.mk (env_port getenv "P2P_PORT" (NetworkConfig.Port n)) (env_port getenv "P2P_DISCOVERY_PORT" (NetworkConfig.DiscoveryPort n))
       (env_or getenv "P2P_PROTOCOL" id (NetworkConfig.Protocol n)) (NetworkConfig.HeartbeatInterval n) (NetworkConfig.ConnectionTimeout n)
       (env_or getenv "PEERS" peer_list (NetworkConfig.Peers n)))
     (Security c)
     (CompressionConfig.mk (env_or getenv "P2P_COMPRESSION_ENABLED" (λ v, bool_decide (v = "true" ∨ v = "1")%string) (CompressionConfig.Enabled z))
       (CompressionConfig.FileSizeThreshold z) (env_or getenv "P2P_COMPRESSION_ALGORITHM" id (CompressionConfig.Algorithm z))
       (CompressionConfig.Level z) (CompressionConfig.ChunkCompression z))
     (ResolutionStrategy c)
     (ObservabilityConfig.mk (env_or getenv "OTEL_ENDPOINT" id (ObservabilityConfig.OTELendpoint o))
       (env_or getenv "P2P_LOG_LEVEL" id (ObservabilityConfig.LogLevel o)) (ObservabilityConfig.MetricsEnabled o) (ObservabilityConfig.TracingEnabled o)).

(** [yaml] is [yaml.Unmarshal]: the text and the configuration it overwrites. *)
Definition load_file (yaml : bytes → t → outcome t) (configPath : string) : GoM OS.t t :=
  if is_empty configPath then mret DefaultConfig
  else
    info ← gtry (OS.Stat configPath);
    match info with
    | inr _ => mret DefaultConfig
    | inl _ =>
        data ← gwrap "failed to read config file" (OS.ReadFile configPath);
        gwrap "failed to parse config file" (glift (yaml data DefaultConfig))
    end.

Definition LoadConfig (yaml : bytes → t → outcome t) (now : time) (getenv : string → string) (configPath : string) : GoM OS.t t :=
  cfg ← load_file yaml configPath;
  let cfg := loadFromEnv getenv cfg in
  gwrap "config validation failed" (Validate now getenv cfg);;
  mret cfg.

End Config.

(** ** Properties *)

Import Config.

Lemma within_spec lo hi v : CompressionConfig.within lo hi v = true ↔ lo ≤ v ≤ hi.
Proof. unfold CompressionConfig.within. lia. Qed.

Lemma negb_within lo hi v : negb (CompressionConfig.within lo hi v) = false → lo ≤ v ≤ hi.
Proof. intros H%negb_false_iff. by apply within_spec. Qed.

(** Validation accepts exactly what the factory of compressors accepts. *)
Lemma compression_accepted L cc :
  CompressionConfig.Enabled cc = true →
  1024 ≤ CompressionConfig.FileSizeThreshold cc ≤ 1073741824 →
  is_ok (CompressionConfig.Validate cc) = is_ok (NewCompressor L (CompressionConfig.Algorithm cc) (CompressionConfig.Level cc)).
Proof.
  intros He Ht. unfold CompressionConfig.Validate, NewCompressor, NewZstdCompressor, NewLZ4Compressor, NewGzipCompressor. rewrite He.
  rewrite (proj2 (within_spec _ _ _) Ht). cbn [negb].
  assert (∀ hi, negb (CompressionConfig.within 1 hi (CompressionConfig.Level cc)) =
    (CompressionConfig.Level cc <? 1) || (hi <? CompressionConfig.Level cc)) as Hw by (intros hi; unfold CompressionConfig.within; lia).
  rewrite !Hw. repeat case_decide; try done; by destruct (_ || _).
Qed.

Lemma validate_values_spec testing c :
  is_ok (validate_values testing c) = true →
  4096 ≤ SyncConfig.ChunkSizeMin (Sync c) ≤ SyncConfig.ChunkSizeDefault (Sync c) ∧
  SyncConfig.ChunkSizeDefault (Sync c) ≤ SyncConfig.ChunkSizeMax (Sync c) ≤ 10485760 ∧
  1 ≤ SyncConfig.MaxConcurrentTransfers (Sync c) ≤ 20 ∧
  (NetworkConfig.Port (Network c) = 0 ∨ 1024 ≤ NetworkConfig.Port (Network c) ≤ 65535) ∧
  NetworkConfig.Protocol (Network c) ∈ ["quic"; "tcp"; ""]%string ∧
  CompressionConfig.Validate (Compression c) = Ok tt.
Proof.
  unfold validate_values, within. intros H.
  repeat match type of H with is_ok (if ?b then _ else _) = true => destruct b eqn:?; [first [discriminate H|by destruct testing]|] end.
  destruct (CompressionConfig.Validate (Compression c)) as [[]|?|?] eqn:E; [|done..].
  repeat match goal with H : negb (CompressionConfig.within _ _ _) = false |- _ => apply negb_within in H end.
  match goal with H : negb (bool_decide (NetworkConfig.Protocol _ ∈ _)) = false |- _ => apply negb_false_iff, bool_decide_eq_true in H end.
  match goal with H : negb (NetworkConfig.Port _ =? 0) && _ = false |- _ => apply andb_false_iff in H end.
  split_and!; try done; try lia.
  match goal with H : negb (NetworkConfig.Port _ =? 0) = false ∨ _ |- _ => destruct H as [H%negb_false_iff%Z.eqb_eq|H%negb_within]; auto end.
Qed.

Lemma LoadConfig_validated yaml now getenv path disk cfg disk' :
  LoadConfig yaml now getenv path disk = (Ok cfg, disk') →
  is_ok (validate_values (bool_decide (getenv "P2P_TESTING_MODE"%string = "true"%string)) cfg) = true ∧
  SyncConfig.FolderPath (Sync cfg) ≠ ""%string.
Proof.
  unfold LoadConfig, mbind, gom_bind. destruct (load_file yaml path disk) as [[c|?|?] s]; [|done..].
  cbv zeta. unfold gwrap, Validate, mbind, gom_bind.
  destruct (validate_folder now _ s) as [[[]|?|?] s'] eqn:Ef; [|done..]. unfold glift.
  destruct (validate_values _ _) as [[]|?|?] eqn:E; [|done..]. intros [= <- <-]. rewrite E. split; [done|].
  intros He. unfold validate_folder in Ef. by rewrite He in Ef.
Qed.


Definition demo_env (name : string) : string :=
  if decide (name = "P2P_SYNC_FOLDER"%string) then "/sync" else if decide (name = "P2P_PORT"%string) then "9000" else "".


(** The data directory is inside the synchronised folder. *)
Lemma default_paths : GetDBPath DefaultConfig = "/tmp/p2p-sync/.p2p-sync/p2p_sync.db"%string ∧
  GetKeychainPath DefaultConfig = "/tmp/p2p-sync/.p2p-sync/keychain.db"%string.
Proof. split; by vm_compute. Qed.

(** A file of the user's named [.p2p-sync-test] does not survive a start. *)
Example validation_removes_a_file :
  let disk := OS.mk {[ "/s"%string := OS.Directory; "/s/.p2p-sync-test"%string := OS.File (OS.mkFile [Byte.x01] 420 0 ∅) ]} [] in
  OS.look "/s/.p2p-sync-test" (validate_folder 5 "/s" disk).2 = None.
Proof. by vm_compute. Qed.
