(* ===== verification/Encryption.v ===== *)
(** * Message encryption (internal/crypto/encryption.go)

    AES-GCM and HKDF over SHA3 are parameters: [Seal key iv plaintext ad] is the
    ciphertext followed by the 16-byte tag, [Open] its inverse on authentic
    input, [hkdf secret salt info n] the first [n] bytes of the key stream.  The
    random bytes an encryption draws are its argument [iv]. *)

From Stdlib Require Import Strings.Byte Strings.String.
From S2P Require Import Prelude GoStrings.

Definition IVSize : Z := 12.
Definition TagSize : Z := 16.
Definition KeySizeAES : Z := 32.

Module EncryptedMessage.
Record t : Type := mk { IV : bytes; Ciphertext : bytes; Tag : bytes }.
End EncryptedMessage.

(** crypto/aes with crypto/cipher, and golang.org/x/crypto/hkdf. *)
Record primitives : Type := Primitives {
  Seal : bytes → bytes → bytes → bytes → bytes;
  Open_ : bytes → bytes → bytes → bytes → outcome bytes;
  hkdf : bytes → bytes → bytes → Z → outcome bytes
}.

(** A sealed text is 16 bytes longer; it opens with its key, nonce and data. *)
Class authentic (P : primitives) : Prop := {
  Seal_length : ∀ k iv p ad, zlen (Seal P k iv p ad) = zlen p + TagSize;
  Open_Seal : ∀ k iv p ad, Open_ P k iv (Seal P k iv p ad) ad = Ok p;
  hkdf_length : ∀ s salt info n k, hkdf P s salt info n = Ok k → zlen k = n
}.

Section Encryption.
Context (P : primitives).

(** Panics when the sealed text is shorter than a tag. *)
Definition Encrypt (iv plaintext key : bytes) : outcome EncryptedMessage.t :=
  if negb (zlen key =? KeySizeAES) then Err "invalid key size"
  else
    let sealed := Seal P key iv plaintext [] in
    if zlen sealed <? TagSize then Panic "slice bounds out of range"
    else
      let n := Z.to_nat (zlen sealed - TagSize) in
      Ok (EncryptedMessage.mk iv (take n sealed) (drop n sealed)).

Definition Decrypt (msg : EncryptedMessage.t) (key : bytes) : outcome bytes :=
  if negb (zlen key =? KeySizeAES) then Err "invalid key size"
  else if negb (zlen (EncryptedMessage.IV msg) =? IVSize) then Err "invalid IV size"
  else if negb (zlen (EncryptedMessage.Tag msg) =? TagSize) then Err "invalid tag size"
  else wrapping "failed to decrypt"
         (Open_ P key (EncryptedMessage.IV msg) (EncryptedMessage.Ciphertext msg ++ EncryptedMessage.Tag msg) []).

Definition DeriveSessionKey (sharedSecret salt info : bytes) : outcome bytes :=
  wrapping "failed to derive session key" (hkdf P sharedSecret salt info KeySizeAES).

Definition DeriveSessionKeyFromNonces (sharedSecret nonceA nonceB : bytes) : outcome bytes :=
  let info := to_bytes "p2p-sync-session" ++ nonceA ++ nonceB in
  let salt := nonceA ++ nonceB in
  DeriveSessionKey sharedSecret salt info.

(** The ciphertext with its tag, and the nonce drawn. *)
Definition EncryptAESGCM (nonce key plaintext associatedData : bytes) : outcome (bytes * bytes) :=
  if negb (zlen key =? KeySizeAES) then Err "invalid key size"
  else Ok (Seal P key nonce plaintext associatedData, nonce).

Definition DecryptAESGCM (key ciphertext nonce associatedData : bytes) : outcome bytes :=
  if negb (zlen key =? KeySizeAES) then Err "invalid key size"
  else if negb (zlen nonce =? IVSize) then Err "invalid nonce size"
  else wrapping "failed to decrypt" (Open_ P key nonce ciphertext associatedData).

End Encryption.

(** ** Properties *)

Lemma Encrypt_fine (P : primitives) iv plaintext key :
  authentic P → zlen key = KeySizeAES →
  ∃ m, Encrypt P iv plaintext key = Ok m ∧ EncryptedMessage.IV m = iv ∧
    EncryptedMessage.Ciphertext m ++ EncryptedMessage.Tag m = Seal P key iv plaintext [] ∧
    zlen (EncryptedMessage.Ciphertext m) = zlen plaintext ∧ zlen (EncryptedMessage.Tag m) = TagSize.
Proof.
  intros HP Hk. unfold Encrypt. rewrite Hk. cbn [Z.eqb KeySizeAES Pos.eqb negb].
  pose proof (Seal_length key iv plaintext []) as Hl. unfold TagSize in *.
  destruct (Z.ltb_spec (zlen (Seal P key iv plaintext [])) 16); [lia|].
  eexists. split; [done|]. cbn. rewrite take_drop, length_take, length_drop. split_and!; [done..|lia|lia].
Qed.

Lemma Decrypt_Encrypt (P : primitives) iv plaintext key m :
  authentic P → zlen key = KeySizeAES → zlen iv = IVSize →
  Encrypt P iv plaintext key = Ok m → Decrypt P m key = Ok plaintext.
Proof.
  intros HP Hk Hi Hm. destruct (Encrypt_fine P iv plaintext key HP Hk) as (m' & Hm' & HIV & Hc & _ & Ht).
  rewrite Hm in Hm'. injection Hm' as <-. unfold Decrypt. rewrite Hk, HIV, Hi, Ht, Hc, Open_Seal. done.
Qed.

(** With a 32-byte key both encryption interfaces undo themselves: what
    [Encrypt] makes has a 16-byte tag and a ciphertext as long as the text and
    [Decrypt] gives the text back, and so do [EncryptAESGCM] and
    [DecryptAESGCM]; with a key of any other size nothing is encrypted or
    decrypted. *)
Theorem encryption_roundtrip P iv plaintext ad key :
  authentic P → zlen iv = IVSize →
  (zlen key = KeySizeAES →
   (∃ m, Encrypt P iv plaintext key = Ok m ∧ zlen (EncryptedMessage.Ciphertext m) = zlen plaintext ∧
     zlen (EncryptedMessage.Tag m) = TagSize ∧ Decrypt P m key = Ok plaintext) ∧
   ∃ c, EncryptAESGCM P iv key plaintext ad = Ok (c, iv) ∧ DecryptAESGCM P key c iv ad = Ok plaintext) ∧
  (zlen key ≠ KeySizeAES →
   Encrypt P iv plaintext key = Err "invalid key size" ∧ EncryptAESGCM P iv key plaintext ad = Err "invalid key size" ∧
   (∀ m, Decrypt P m key = Err "invalid key size") ∧
   ∀ c n, DecryptAESGCM P key c n ad = Err "invalid key size").
Proof.
  intros HP Hi. split; intros Hk.
  - split.
    + destruct (Encrypt_fine P iv plaintext key HP Hk) as (m & Hm & _ & _ & Hc & Ht).
      exists m. split_and!; [done..|]. by eapply Decrypt_Encrypt.
    + unfold EncryptAESGCM, DecryptAESGCM. rewrite Hk, Hi. eexists. split; [reflexivity|]. cbn.
      by rewrite Open_Seal.
  - unfold Encrypt, EncryptAESGCM, Decrypt, DecryptAESGCM. by rewrite (proj2 (Z.eqb_neq _ _) Hk).
Qed.

(** A cipher that appends the first 16 bytes of the key as the tag. *)
Definition demo_primitives : primitives :=
  Primitives (λ k _ p _, p ++ take 16 (k ++ replicate 16 Byte.x00))
    (λ _ _ c _, Ok (take (length c - 16) c)) (λ s _ _ n, if n <? 0 then Err "negative" else Ok (replicate (Z.to_nat n) (default Byte.x00 (head s)))).

Lemma demo_Seal_length k iv p ad : length (Seal demo_primitives k iv p ad) = (length p + 16)%nat.
Proof. unfold Seal, demo_primitives. rewrite length_app, length_take, length_app, length_replicate. lia. Qed.

Lemma demo_authentic : authentic demo_primitives.
Proof.
  split; cbn [Seal Open_ hkdf].
  - intros. rewrite demo_Seal_length. unfold TagSize. lia.
  - intros. pose proof (demo_Seal_length k iv p ad) as H. unfold Open_, demo_primitives at 1. rewrite H.
    replace (length p + 16 - 16)%nat with (length p) by lia. cbn. by rewrite take_app_length.
  - intros s ? ? n k. cbn. destruct (Z.ltb_spec n 0); [done|]. intros [= <-]. rewrite length_replicate. lia.
Qed.

Lemma encryption_roundtrip_witness :
  let key := replicate 32 Byte.x07 in
  let iv := replicate 12 Byte.x01 in
  ∃ m, Encrypt demo_primitives iv (to_bytes "hello") key = Ok m ∧ Decrypt demo_primitives m key = Ok (to_bytes "hello").
Proof.
  cbv zeta.
  destruct (encryption_roundtrip demo_primitives (replicate 12 Byte.x01) (to_bytes "hello") [] (replicate 32 Byte.x07)
    demo_authentic eq_refl) as [H _].
  destruct (H eq_refl) as [(m & H1 & _ & _ & H2) _]. by exists m.
Defined.
