(* ===== verification/Handshake.v ===== *)
(** * Key exchange, authentication and the handshake
      (internal/crypto/keyexchange.go, auth.go, handshake.go)

    Curve25519, SHA-256, HMAC and HKDF are parameters.  Random bytes are
    arguments, as what [rand.Read] answers.  No transport of the program uses
    this package: they derive their keys as Transport.v and Dialing.v say. *)

From Stdlib Require Import Strings.Byte Strings.String.
From S2P Require Import Prelude GoStrings Json.

(** Third-party functions: X25519 fails on points of low order. *)
Record curve : Type := Curve {
  X25519 : bytes → bytes → outcome bytes;
  Basepoint : bytes;
  sha256 : bytes → bytes;
  hmac_sha256 : bytes → bytes → bytes;
  (** HKDF-SHA256: secret, salt, info, length. *)
  hkdf_sha256 : bytes → bytes → bytes → Z → outcome bytes
}.

(** Diffie-Hellman: both sides reach the same point. *)
Class diffie_hellman (C : curve) : Prop := {
  X25519_comm a b pa pb : X25519 C a (Basepoint C) = Ok pa → X25519 C b (Basepoint C) = Ok pb →
    X25519 C a pb = X25519 C b pa
}.

Definition KeySize : Z := 32.
Definition NonceSize : Z := 32.
Definition ChallengeSize : Z := 32.
Definition SessionKeySize : Z := 32.
Definition SessionKeyRotationInterval : duration := 24 * 3600 * second.

(** ** keyexchange.go *)
Module KeyPair.
Record t : Type := mk { PrivateKey : bytes; PublicKey : bytes }.
End KeyPair.

Section KeyExchange.
Context (C : curve).

Definition map_byte (i : nat) (f : Z → Z) (b : bytes) : bytes := alter (λ x, Z_byte (f (byte_Z x))) i b.

Definition clamp (k : bytes) : bytes :=
  map_byte 31 (λ x, Z.lor x 64) (map_byte 31 (λ x, Z.land x 127) (map_byte 0 (λ x, Z.land x 248) k)).

Definition GenerateKeyPair (random : outcome bytes) : outcome KeyPair.t :=
  r ← wrapping "failed to generate private key" random;
  let privateKey := clamp r in
  publicKey ← wrapping "failed to compute public key" (X25519 C privateKey (Basepoint C));
  Ok (KeyPair.mk privateKey publicKey).

Definition ComputeSharedSecret (privateKey peerPublicKey : bytes) : outcome bytes :=
  if negb (zlen privateKey =? KeySize) then Err "invalid private key size"
  else if negb (zlen peerPublicKey =? KeySize) then Err "invalid public key size"
  else wrapping "failed to compute shared secret" (X25519 C privateKey peerPublicKey).

Definition EncodePublicKey (publicKey : bytes) : string := EncodeToString publicKey.

Definition DecodePublicKey (encoded : string) : outcome bytes :=
  decoded ← wrapping "failed to decode public key" (DecodeString encoded);
  if negb (zlen decoded =? KeySize) then Err "invalid public key size" else Ok decoded.

Definition EncodePrivateKey (privateKey : bytes) : string := EncodeToString privateKey.

Definition DecodePrivateKey (encoded : string) : outcome bytes :=
  decoded ← wrapping "failed to decode private key" (DecodeString encoded);
  if negb (zlen decoded =? KeySize) then Err "invalid private key size" else Ok decoded.

Lemma DecodePublicKey_Encode k : zlen k = KeySize → DecodePublicKey (EncodePublicKey k) = Ok k.
Proof.
  intros H. unfold DecodePublicKey, EncodePublicKey. rewrite DecodeString_EncodeToString. cbn.
  by rewrite (proj2 (Z.eqb_eq _ _) H).
Qed.
End KeyExchange.

(** ** auth.go *)
Module Authenticator.

Definition AuthMethodPSK : string := "psk".
Definition AuthMethodCert : string := "cert".
Definition AuthMethodTOFU : string := "tofu".

Record t : Type := mk { method : string; psk : bytes }.

Definition NewAuthenticator (method : string) (psk : bytes) : t := mk method psk.

Definition GenerateChallenge (random : outcome bytes) : outcome bytes :=
  wrapping "failed to generate challenge" random.

Section Auth.
Context (C : curve).

Definition GenerateResponse (challenge : bytes) (a : t) : outcome bytes :=
  if decide (method a ≠ AuthMethodPSK) then Err "PSK response requires PSK method"
  else if decide (psk a = []) then Err "PSK not set"
  else Ok (hmac_sha256 C (psk a) challenge).

Definition VerifyResponse (challenge response : bytes) (a : t) : bool :=
  if decide (method a ≠ AuthMethodPSK) then false
  else if decide (psk a = []) then false
  else match GenerateResponse challenge a with
       | Ok expectedResponse => bool_decide (response = expectedResponse)
       | _ => false
       end.

Definition EncodePSK (psk : bytes) : string := EncodeToString psk.
Definition DecodePSK (encoded : string) : outcome bytes := wrapping "failed to decode PSK" (DecodeString encoded).

Lemma VerifyResponse_spec challenge response a :
  VerifyResponse challenge response a = true ↔ GenerateResponse challenge a = Ok response.
Proof.
  unfold VerifyResponse. destruct (GenerateResponse challenge a) as [r| |] eqn:E; unfold GenerateResponse in E;
    repeat case_decide; try done; simplify_eq; rewrite ?bool_decide_eq_true; naive_solver.
Qed.
End Auth.
End Authenticator.

(** ** handshake.go *)
Module HandshakeManager.

Module SessionKey.
Record t : Type := mk { Key : bytes; CreatedAt : time; ExpiresAt : time; PeerID : string }.
End SessionKey.

Record t : Type := mk {
  keyPair : KeyPair.t;
  (** A nil slice is no pre-shared key; an empty one is a key. *)
  preSharedKey : option bytes;
  sessions : gmap string SessionKey.t
}.

Definition with_sessions (x : gmap string SessionKey.t) (hm : t) : t := mk (keyPair hm) (preSharedKey hm) x.

Module HandshakeState.
Record t : Type := mk {
  OurNonce : bytes; OurChallenge : bytes; PeerNonce : bytes; PeerPublicKey : bytes; SharedSecret : bytes; PeerID : string
}.
End HandshakeState.

Section Handshake.
Context (C : curve).

Definition NewHandshakeManager (random : outcome bytes) (preSharedKey : option bytes) : outcome t :=
  kp ← wrapping "failed to generate key pair" (GenerateKeyPair C random);
  Ok (mk kp preSharedKey ∅).

(** The answers of [rand.Read] for the nonce and the challenge. *)
Definition InitiateHandshake (nonce challenge : outcome bytes) (hm : t) : outcome (string * bytes * bytes) :=
  nonce ← wrapping "failed to generate nonce" nonce;
  challenge ← wrapping "failed to generate challenge" challenge;
  Ok (EncodePublicKey (KeyPair.PublicKey (keyPair hm)), nonce, challenge).

Definition generateAuthResponse (sharedSecret challenge : bytes) (hm : t) : bytes :=
  let key := match preSharedKey hm with
             | Some psk => sha256 C (sharedSecret ++ psk)
             | None => sharedSecret
             end in
  hmac_sha256 C key challenge.

Definition deriveSessionKey (sharedSecret nonceA nonceB : bytes) : outcome bytes :=
  wrapping "failed to derive session key"
    (hkdf_sha256 C sharedSecret (nonceA ++ nonceB) (to_bytes "p2p-sync-session") SessionKeySize).

Definition ProcessHandshake (ourNonce ourChallenge : outcome bytes) (peerPublicKey : string)
    (peerNonce peerChallenge : bytes) (hm : t) : outcome (bytes * string * bytes * bytes * HandshakeState.t) :=
  peerPubKey ← wrapping "failed to decode peer public key" (DecodePublicKey peerPublicKey);
  sharedSecret ← wrapping "failed to compute shared secret" (ComputeSharedSecret C (KeyPair.PrivateKey (keyPair hm)) peerPubKey);
  let authResponse := generateAuthResponse sharedSecret peerChallenge hm in
  ourNonce ← wrapping "failed to generate nonce" ourNonce;
  ourChallenge ← wrapping "failed to generate challenge" ourChallenge;
  Ok (authResponse, EncodePublicKey (KeyPair.PublicKey (keyPair hm)), ourNonce, ourChallenge,
      HandshakeState.mk ourNonce ourChallenge peerNonce peerPubKey sharedSecret "").

(** [now] and [now'] are the two readings of the clock. *)
Definition store_session (now now' : time) (key : bytes) (peerID : string) : GoM t SessionKey.t := λ hm,
  let session := SessionKey.mk key now (now' + SessionKeyRotationInterval) peerID in
  (Ok session, with_sessions (<[peerID := session]> (sessions hm)) hm).

Definition CompleteHandshake (now now' : time) (state : HandshakeState.t) (peerAuthResponse : bytes) (peerID : string)
    : GoM t SessionKey.t := λ hm,
  let expectedResponse := generateAuthResponse (HandshakeState.SharedSecret state) (HandshakeState.OurChallenge state) hm in
  if negb (bool_decide (expectedResponse = peerAuthResponse)) then (Err "authentication failed: invalid response", hm)
  else
    (sessionKey ← gwrap "failed to derive session key" (glift (deriveSessionKey (HandshakeState.SharedSecret state)
                    (HandshakeState.PeerNonce state) (HandshakeState.OurNonce state)));
     store_session now now' sessionKey peerID) hm.

(** The initiator's own response is computed and dropped. *)
Definition VerifyAndComplete (now now' : time) (ourNonce ourChallenge : bytes) (peerPublicKey : string)
    (peerNonce peerChallenge peerAuthResponse : bytes) (peerID : string) : GoM t SessionKey.t := λ hm,
  (peerPubKey ← gwrap "failed to decode peer public key" (glift (DecodePublicKey peerPublicKey));
   sharedSecret ← gwrap "failed to compute shared secret"
     (glift (ComputeSharedSecret C (KeyPair.PrivateKey (keyPair hm)) peerPubKey));
   if negb (bool_decide (generateAuthResponse sharedSecret ourChallenge hm = peerAuthResponse))
   then gfail "authentication failed: invalid response"
   else
     sessionKey ← gwrap "failed to derive session key" (glift (deriveSessionKey sharedSecret ourNonce peerNonce));
     store_session now now' sessionKey peerID) hm.

End Handshake.

Definition GetSessionKey (now : time) (peerID : string) (hm : t) : outcome SessionKey.t :=
  match sessions hm !! peerID with
  | None => Err "no session found for peer"
  | Some s => if SessionKey.ExpiresAt s <? now then Err "session expired for peer" else Ok s
  end.

Definition RemoveSession (peerID : string) (hm : t) : t := with_sessions (delete peerID (sessions hm)) hm.

Definition cleanupExpiredSessions (now : time) (hm : t) : t :=
  with_sessions (filter (λ ps, ¬ SessionKey.ExpiresAt ps.2 < now) (sessions hm)) hm.

Definition IsSessionValid (now : time) (peerID : string) (hm : t) : bool := is_ok (GetSessionKey now peerID hm).

Definition GetPrivateKey (hm : t) : bytes := KeyPair.PrivateKey (keyPair hm).
Definition GetPublicKey (hm : t) : bytes := KeyPair.PublicKey (keyPair hm).

End HandshakeManager.

(** ** Properties *)
Section Properties.
Context (C : curve).
Import HandshakeManager.

(** What [GenerateKeyPair] makes. *)
Definition valid_pair (kp : KeyPair.t) : Prop :=
  X25519 C (KeyPair.PrivateKey kp) (Basepoint C) = Ok (KeyPair.PublicKey kp) ∧
  zlen (KeyPair.PrivateKey kp) = KeySize ∧ zlen (KeyPair.PublicKey kp) = KeySize.

Lemma ComputeSharedSecret_valid a b s :
  valid_pair a → valid_pair b → X25519 C (KeyPair.PrivateKey a) (KeyPair.PublicKey b) = Ok s →
  ComputeSharedSecret C (KeyPair.PrivateKey a) (KeyPair.PublicKey b) = Ok s.
Proof.
  intros (_ & Ha & _) (_ & _ & Hb) Hs. unfold ComputeSharedSecret.
  by rewrite (proj2 (Z.eqb_eq _ _) Ha), (proj2 (Z.eqb_eq _ _) Hb), Hs.
Qed.

Lemma ProcessHandshake_valid nonce challenge kp peerNonce peerChallenge s hm :
  valid_pair (keyPair hm) → valid_pair kp → X25519 C (KeyPair.PrivateKey (keyPair hm)) (KeyPair.PublicKey kp) = Ok s →
  ProcessHandshake C (Ok nonce) (Ok challenge) (EncodePublicKey (KeyPair.PublicKey kp)) peerNonce peerChallenge hm =
  Ok (generateAuthResponse C s peerChallenge hm, EncodePublicKey (KeyPair.PublicKey (keyPair hm)), nonce, challenge,
      HandshakeState.mk nonce challenge peerNonce (KeyPair.PublicKey kp) s "").
Proof.
  intros Hv Hk Hs. unfold ProcessHandshake. rewrite DecodePublicKey_Encode by apply Hk. cbn [wrapping mbind outcome_bind].
  by rewrite (ComputeSharedSecret_valid _ kp s).
Qed.

(** The initiator accepts exactly the response made with the shared secret and
    its own pre-shared key. *)
Lemma VerifyAndComplete_valid now now' nonce challenge kp peerNonce peerChallenge response peerID s key hm :
  valid_pair (keyPair hm) → valid_pair kp → X25519 C (KeyPair.PrivateKey (keyPair hm)) (KeyPair.PublicKey kp) = Ok s →
  deriveSessionKey C s nonce peerNonce = Ok key →
  VerifyAndComplete C now now' nonce challenge (EncodePublicKey (KeyPair.PublicKey kp)) peerNonce peerChallenge response peerID hm =
  if decide (response = generateAuthResponse C s challenge hm) then store_session now now' key peerID hm
  else (Err "authentication failed: invalid response", hm).
Proof.
  intros Hv Hk Hs Hd. unfold VerifyAndComplete, mbind, gom_bind, gwrap, glift.
  rewrite DecodePublicKey_Encode by apply Hk. rewrite (ComputeSharedSecret_valid _ kp s) by done.
  destruct (decide _) as [->|Hne]; [by rewrite bool_decide_eq_true_2, Hd|].
  by rewrite bool_decide_eq_false_2 by congruence.
Qed.

Lemma CompleteHandshake_valid now now' state response peerID key hm :
  deriveSessionKey C (HandshakeState.SharedSecret state) (HandshakeState.PeerNonce state) (HandshakeState.OurNonce state) = Ok key →
  CompleteHandshake C now now' state response peerID hm =
  if decide (response = generateAuthResponse C (HandshakeState.SharedSecret state) (HandshakeState.OurChallenge state) hm)
  then store_session now now' key peerID hm else (Err "authentication failed: invalid response", hm).
Proof.
  intros Hd. unfold CompleteHandshake, mbind, gom_bind, gwrap, glift.
  destruct (decide _) as [->|Hne]; [by rewrite bool_decide_eq_true_2, Hd|].
  by rewrite bool_decide_eq_false_2 by congruence.
Qed.

(** A session is found until it expires, and never after. *)
Lemma stored_session_lifetime now now' key peerID hm t :
  let hm' := (store_session now now' key peerID hm).2 in
  GetSessionKey t peerID hm' =
  if t <=? now' + SessionKeyRotationInterval
  then Ok (SessionKey.mk key now (now' + SessionKeyRotationInterval) peerID) else Err "session expired for peer".
Proof.
  cbn. unfold GetSessionKey. cbn. rewrite lookup_insert_eq. cbn.
  destruct (Z.ltb_spec (now' + SessionKeyRotationInterval) t), (Z.leb_spec t (now' + SessionKeyRotationInterval)); done || lia.
Qed.

Lemma cleanup_keeps_valid now later peerID hm :
  now ≤ later → is_ok (GetSessionKey later peerID (cleanupExpiredSessions now hm)) = is_ok (GetSessionKey later peerID hm).
Proof.
  intros Hle. unfold GetSessionKey, cleanupExpiredSessions. cbn. rewrite map_lookup_filter.
  destruct (sessions hm !! peerID) as [s|]; [|done]. cbn.
  destruct (decide (SessionKey.ExpiresAt s < now)) as [Hlt|Hge].
  - rewrite option_guard_False by (by intros []). cbn. by rewrite (proj2 (Z.ltb_lt _ _)) by lia.
  - by rewrite option_guard_True.
Qed.
End Properties.


(** The pre-shared key authenticates nobody.  Whoever has a key pair of his
    own, and no pre-shared key, is accepted by a manager [a] that has started a
    handshake: he starts a second one with [a] itself, under [a]'s own challenge,
    and returns the response [a] gives.  The session is stored under whatever
    id is claimed, and its key follows from the attacker's private key. *)
Theorem psk_reflected C a attacker nA cA nonce challenge n1 n2 c2 s key peerID t t' :
  diffie_hellman C → valid_pair C (HandshakeManager.keyPair a) → valid_pair C attacker →
  X25519 C (KeyPair.PrivateKey attacker) (KeyPair.PublicKey (HandshakeManager.keyPair a)) = Ok s →
  HandshakeManager.deriveSessionKey C s nA n2 = Ok key →
  let pk := EncodePublicKey (KeyPair.PublicKey attacker) in
  ∃ pkA reflected nB cB state,
    HandshakeManager.InitiateHandshake (Ok nA) (Ok cA) a = Ok (pkA, nA, cA) ∧
    HandshakeManager.ProcessHandshake C (Ok nonce) (Ok challenge) pk n1 cA a = Ok (reflected, pkA, nB, cB, state) ∧
    let '(r, a') := HandshakeManager.VerifyAndComplete C t t' nA cA pk n2 c2 reflected peerID a in
    ∃ session, r = Ok session ∧ HandshakeManager.SessionKey.Key session = key ∧
      HandshakeManager.GetSessionKey t' peerID a' = Ok session.
Proof.
  intros HC Ha Hm Hs Hk. cbv zeta.
  assert (X25519 C (KeyPair.PrivateKey (HandshakeManager.keyPair a)) (KeyPair.PublicKey attacker) = Ok s) as Hs'.
  { rewrite <- Hs. apply (X25519_comm _ _ (KeyPair.PublicKey (HandshakeManager.keyPair a))); [apply Ha|apply Hm]. }
  do 5 eexists. split; [reflexivity|]. split; [by apply ProcessHandshake_valid|].
  rewrite (VerifyAndComplete_valid C _ _ _ _ attacker _ _ _ _ s key) by done. rewrite decide_True by done.
  pose proof (stored_session_lifetime t t' key peerID a t') as H.
  destruct (HandshakeManager.store_session t t' key peerID a) as [r a'] eqn:E. cbn [snd] in H.
  rewrite (proj2 (Z.leb_le _ _)) in H by (unfold SessionKeyRotationInterval, second, nano_per_sec; lia).
  injection E as <- <-. eexists. by split_and!.
Qed.

(** A toy curve: the bytes of the point where those of the scalar are zero. *)
Definition demo_curve : curve :=
  Curve (λ a p, Ok (zip_with (λ x y, if Byte.eqb x Byte.x00 then y else Byte.x00) a p)) (replicate 32 Byte.x09)
    (λ d, take 32 (d ++ replicate 32 Byte.x00)) (λ k d, k ++ d) (λ s salt info n, Ok (take 32 (s ++ salt))).

Lemma demo_diffie_hellman : diffie_hellman demo_curve.
Proof.
  split. unfold demo_curve. cbn [X25519 Basepoint]. generalize (replicate 32 Byte.x09). intros p a b pa pb [= <-] [= <-]. f_equal.
  revert a b. induction p as [|z p IH]; intros [|x a] [|y b]; cbn; try done.
  f_equal; [|apply IH]. by destruct (Byte.eqb x Byte.x00), (Byte.eqb y Byte.x00).
Qed.

Definition demo_pair (x : Byte.byte) : KeyPair.t :=
  let k := replicate 31 Byte.x00 ++ [x] in
  KeyPair.mk k (zip_with (λ x y, if Byte.eqb x Byte.x00 then y else Byte.x00) k (replicate 32 Byte.x09)).

Definition demo_hm (x : Byte.byte) : HandshakeManager.t := HandshakeManager.mk (demo_pair x) (Some (to_bytes "secret")) ∅.


Lemma psk_reflected_witness :
  let a := demo_hm Byte.x40 in
  let pk := EncodePublicKey (KeyPair.PublicKey (demo_pair Byte.x77)) in
  ∃ pkA reflected nB cB state,
    HandshakeManager.ProcessHandshake demo_curve (Ok [Byte.x03]) (Ok [Byte.x04]) pk [Byte.x05] [Byte.x02] a = Ok (reflected, pkA, nB, cB, state) ∧
    is_ok (HandshakeManager.VerifyAndComplete demo_curve 5 6 [Byte.x01] [Byte.x02] pk [Byte.x06] [Byte.x07] reflected "admin" a).1 = true.
Proof.
  cbv zeta.
  destruct (psk_reflected demo_curve (demo_hm Byte.x40) (demo_pair Byte.x77) [Byte.x01] [Byte.x02] [Byte.x03] [Byte.x04] [Byte.x05]
    [Byte.x06] [Byte.x07] _ _ "admin" 5 6 demo_diffie_hellman ltac:(by vm_compute) ltac:(by vm_compute) eq_refl eq_refl)
    as (pkA & reflected & nB & cB & state & _ & H2 & H).
  exists pkA, reflected, nB, cB, state. split; [exact H2|].
  destruct (HandshakeManager.VerifyAndComplete _ _ _ _ _ _ _ _ _ _ _) as [r a']. by destruct H as (session & -> & _).
Defined.
