(* ===== verification/Keychain.v ===== *)
(** * The keychain (internal/crypto/keychain.go)

    One table: a row per peer with its public key and, once set, the session key
    and the second at which it expires.  Keys are kept as base64 texts.  A
    statement on the open database succeeds; [now] is what [unixepoch()] and
    [time.Now()] read. *)

From Stdlib Require Import Strings.Byte Strings.String.
From S2P Require Import Prelude GoStrings Json Database DatabaseProps Handshake.

(** A row of [keys]; the columns that may be NULL are options, REAL columns the
    floats they hold. *)
Module KeyRow.
Record t : Type := mk {
  public_key : string; session_key : option string; session_key_expires_at : option Z; created_at : Z; updated_at : Z
}.
End KeyRow.

Module Keychain.

Abbreviation t := (gmap string KeyRow.t).

(** [CREATE TABLE IF NOT EXISTS keys]: on a file that has the table, its rows. *)
Definition NewKeychain (stored : option t) : t := default ∅ stored.

(** Insert, or on a conflict an update of the public key only. *)
Definition StorePeerKey (now : time) (peerID : string) (publicKey : bytes) (k : t) : t :=
  let encodedKey := EncodeToString publicKey in
  <[peerID := match k !! peerID with
     | None => KeyRow.mk encodedKey None None (to_real_time now) (to_real_time now)
     | Some row => KeyRow.mk encodedKey (KeyRow.session_key row) (KeyRow.session_key_expires_at row)
                     (KeyRow.created_at row) (to_real_time now)
     end]> k.

Definition GetPeerKey (peerID : string) (k : t) : outcome bytes :=
  match k !! peerID with
  | None => Err "peer key not found"
  | Some row => wrapping "failed to decode peer key" (DecodeString (KeyRow.public_key row))
  end.

(** An UPDATE: no row is no error. *)
Definition StoreSessionKey (now : time) (peerID : string) (sessionKey : bytes) (expiresAt : time) (k : t) : t :=
  alter (λ row, KeyRow.mk (KeyRow.public_key row) (Some (EncodeToString sessionKey)) (Some (to_real_time expiresAt))
                  (KeyRow.created_at row) (to_real_time now)) peerID k.

(** A NULL key does not scan into a string. *)
Definition GetSessionKey (peerID : string) (k : t) : outcome (bytes * option time) :=
  match k !! peerID with
  | None => Err "session key not found"
  | Some row =>
      match KeyRow.session_key row with
      | None => Err (wrap "failed to get session key" "converting NULL to string is unsupported")
      | Some encodedKey =>
          if is_empty encodedKey then Err "session key not set for peer"
          else
            sessionKey ← wrapping "failed to decode session key" (DecodeString encodedKey);
            Ok (sessionKey, of_real_time <$> KeyRow.session_key_expires_at row)
      end
  end.

Definition IsSessionKeyExpired (now : time) (peerID : string) (k : t) : outcome bool :=
  match k !! peerID with
  | None => Ok true
  | Some row =>
      match KeyRow.session_key_expires_at row with
      | None => Ok true
      | Some r => Ok (of_real_time r <? now)
      end
  end.

Definition RotateSessionKey (peerID : string) (k : t) : t :=
  alter (λ row, KeyRow.mk (KeyRow.public_key row) None None (KeyRow.created_at row) (KeyRow.updated_at row)) peerID k.

End Keychain.

Import Keychain.

(** ** Properties *)

Lemma EncodeToString_not_empty b : b ≠ [] → is_empty (EncodeToString b) = false.
Proof.
  intros Hb. pose proof (DecodeString_EncodeToString b) as H. destruct (EncodeToString b) eqn:E; [|done].
  assert (DecodeString (EncodeToString []) = Ok []) as H' by apply DecodeString_EncodeToString.
  replace (EncodeToString []) with ""%string in H' by done. rewrite H' in H. by injection H as <-.
Qed.

(** Two keychains agree on a peer. *)
Definition same_peer (q : string) (k k' : t) : Prop :=
  GetPeerKey q k = GetPeerKey q k' ∧ GetSessionKey q k = GetSessionKey q k' ∧
  ∀ now, IsSessionKeyExpired now q k = IsSessionKeyExpired now q k'.

Lemma same_peer_lookup q k k' : k !! q = k' !! q → same_peer q k k'.
Proof. unfold same_peer, GetPeerKey, GetSessionKey, IsSessionKeyExpired. by intros ->. Qed.

(** C31: The keychain gives back what was stored.  Once a peer's public key and
    then a session key are stored, both are read back as they were, with the
    whole second of the expiry, and the key counts as expired exactly after it,
    so never later than the session it was made for.  Rotation leaves the public
    key and no session, a new public key keeps the old session, and what is
    stored for one peer changes nothing for another.  A session key for a peer
    whose public key was never stored is lost without an error. *)
Theorem keychain_restores now now' p pk key e k :
  key ≠ [] → stored_time e →
  let k2 := StoreSessionKey now' p key e (StorePeerKey now p pk k) in
  GetPeerKey p k2 = Ok pk ∧ GetSessionKey p k2 = Ok (key, Some (truncated e)) ∧
  (∀ t, IsSessionKeyExpired t p k2 = Ok (truncated e <? t)) ∧ truncated e ≤ e ∧
  (let k3 := RotateSessionKey p k2 in
   GetPeerKey p k3 = Ok pk ∧ is_ok (GetSessionKey p k3) = false ∧ ∀ t, IsSessionKeyExpired t p k3 = Ok true) ∧
  (∀ pk' t, GetSessionKey p (StorePeerKey t p pk' k2) = Ok (key, Some (truncated e))) ∧
  (∀ q, q ≠ p → same_peer q k2 k ∧ same_peer q (RotateSessionKey p k2) k) ∧
  (k !! p = None → StoreSessionKey now' p key e k = k).
Proof.
  intros Hkey He k2.
  assert (∃ c u, k2 !! p = Some (KeyRow.mk (EncodeToString pk) (Some (EncodeToString key)) (Some (to_real_time e)) c u)) as (c & u & Hk).
  { unfold k2, StoreSessionKey, StorePeerKey. rewrite lookup_alter_eq, lookup_insert_eq. destruct (k !! p); by do 2 eexists. }
  assert (∀ q, q ≠ p → k2 !! q = k !! q) as Hne.
  { intros q Hq. unfold k2, StoreSessionKey, StorePeerKey. by rewrite lookup_alter_ne, lookup_insert_ne by congruence. }
  assert (∀ row, KeyRow.session_key row = Some (EncodeToString key) → KeyRow.session_key_expires_at row = Some (to_real_time e) →
    ∀ k', k' !! p = Some row → GetSessionKey p k' = Ok (key, Some (truncated e))) as Hs.
  { intros row H1 H2 k' H. unfold GetSessionKey. rewrite H, H1, H2, EncodeToString_not_empty, DecodeString_EncodeToString by done.
    cbn. by rewrite real_time_roundtrip. }
  split_and!.
  - unfold GetPeerKey. rewrite Hk. cbn. by rewrite DecodeString_EncodeToString.
  - by eapply Hs; [..|exact Hk].
  - intros t. unfold IsSessionKeyExpired. rewrite Hk. cbn. by rewrite real_time_roundtrip.
  - apply truncated_spec.
  - unfold GetPeerKey, GetSessionKey, IsSessionKeyExpired, RotateSessionKey. rewrite lookup_alter_eq, Hk. cbn.
    by rewrite DecodeString_EncodeToString.
  - intros pk' t. eapply Hs; [| |apply lookup_insert_eq]; by rewrite Hk.
  - intros q Hq. split; apply same_peer_lookup; [by apply Hne|]. unfold RotateSessionKey. by rewrite lookup_alter_ne, Hne by congruence.
  - intros Hn. apply map_eq. intros q. unfold StoreSessionKey. destruct (decide (q = p)) as [->|Hq].
    + by rewrite lookup_alter_eq, Hn.
    + by rewrite lookup_alter_ne by congruence.
Qed.

Lemma keychain_restores_witness :
  let k := StoreSessionKey 9 "B" [Byte.x07] 5500000000 (StorePeerKey 8 "B" [Byte.x01; Byte.x02] ∅) in
  GetPeerKey "B" k = Ok [Byte.x01; Byte.x02] ∧ GetSessionKey "B" k = Ok ([Byte.x07], Some 5000000000).
Proof.
  cbv zeta. destruct (keychain_restores 8 9 "B" [Byte.x01; Byte.x02] [Byte.x07] 5500000000 ∅ ltac:(done) ltac:(by vm_compute))
    as (H1 & H2 & _). split; [exact H1|exact H2].
Defined.
