(* ===== verification/Connection.v ===== *)
(** * Connections and heartbeats (internal/network/connection)

    [ConnectionManager] is manager.go, [HeartbeatManager] heartbeat.go.  The
    configuration enters as the optional [HeartbeatInterval] (in seconds).
    Callbacks run in goroutines of their own: the manager's state records the
    notifications that were launched, newest last. *)

From Stdlib Require Import Strings.String.
From S2P Require Import Prelude Messages.

Inductive ConnectionState : Type := StateDisconnected | StateConnecting | StateConnected.
#[export] Instance state_eq_dec : EqDecision ConnectionState.
Proof. solve_decision. Defined.

Inductive ConnectionEvent : Type := EventConnected | EventDisconnected | EventHeartbeatTimeout.
#[export] Instance event_eq_dec : EqDecision ConnectionEvent.
Proof. solve_decision. Defined.

Module Connection.
Record t : Type := mk {
  PeerID : string; Address : string; Port : Z; State : ConnectionState;
  ConnectedAt : time; LastSeen : time; LastHeartbeat : time; SessionKey : bytes;
  RetryCount : Z; LastRetryAt : time
}.
Definition with_State (s : ConnectionState) (c : t) : t :=
  mk (PeerID c) (Address c) (Port c) s (ConnectedAt c) (LastSeen c) (LastHeartbeat c) (SessionKey c)
    (RetryCount c) (LastRetryAt c).
Definition with_heartbeat (now : time) (c : t) : t :=
  mk (PeerID c) (Address c) (Port c) (State c) (ConnectedAt c) now now (SessionKey c) (RetryCount c)
    (LastRetryAt c).
Definition with_SessionKey (k : bytes) (c : t) : t :=
  mk (PeerID c) (Address c) (Port c) (State c) (ConnectedAt c) (LastSeen c) (LastHeartbeat c) k
    (RetryCount c) (LastRetryAt c).
Definition with_retry (now : time) (c : t) : t :=
  mk (PeerID c) (Address c) (Port c) StateConnecting (ConnectedAt c) (LastSeen c) (LastHeartbeat c)
    (SessionKey c) (RetryCount c +! 1) now.
End Connection.

Module ConnectionManager.

Record t : Type := mk {
  connections : gmap string Connection.t;
  (** Notifications launched so far. *)
  notified : list (string * ConnectionEvent)
}.

Definition set (peerID : string) (c : Connection.t) (cm : t) : t :=
  mk (<[peerID := c]> (connections cm)) (notified cm).
Definition notifyCallbacks (peerID : string) (e : ConnectionEvent) (cm : t) : t :=
  mk (connections cm) (notified cm ++ [(peerID, e)]).

Definition NewConnectionManager : t := mk ∅ [].

Definition not_found : error := "connection not found".

(** [LastHeartbeat], [RetryCount] and [LastRetryAt] keep their zero values. *)
Definition AddConnection (now : time) (peerID address : string) (port : Z) (cm : t) : t :=
  notifyCallbacks peerID EventConnected
    (set peerID (Connection.mk peerID address port StateConnected now now zero_time [] 0 zero_time) cm).

Definition GetConnection (peerID : string) (cm : t) : outcome Connection.t :=
  match connections cm !! peerID with
  | Some c => Ok c
  | None => Err not_found
  end.

Definition UpdateConnectionState (now : time) (peerID : string) (state : ConnectionState) (cm : t)
    : outcome unit * t :=
  match connections cm !! peerID with
  | None => (Err not_found, cm)
  | Some conn =>
      let oldState := Connection.State conn in
      let conn := Connection.with_State state conn in
      let conn := if decide (state = StateConnected) then Connection.with_heartbeat now conn else conn in
      let cm := set peerID conn cm in
      if decide (oldState ≠ state) then
        (Ok tt, notifyCallbacks peerID
                  (if decide (state = StateConnected) then EventConnected else EventDisconnected) cm)
      else (Ok tt, cm)
  end.

Definition RemoveConnection (peerID : string) (cm : t) : t :=
  let cm' := match connections cm !! peerID with
             | Some _ => notifyCallbacks peerID EventDisconnected cm
             | None => cm
             end in
  mk (delete peerID (connections cm')) (notified cm').

(** In the order the map is visited. *)
Definition GetAllConnections (cm : t) : list Connection.t := (map_to_list (connections cm)).*2.

Definition GetConnectedPeers (cm : t) : list string :=
  fst <$> List.filter (λ kv, bool_decide (Connection.State kv.2 = StateConnected))
            (map_to_list (connections cm)).

Definition UpdateHeartbeat (now : time) (peerID : string) (cm : t) : outcome unit * t :=
  match connections cm !! peerID with
  | None => (Err not_found, cm)
  | Some conn => (Ok tt, set peerID (Connection.with_heartbeat now conn) cm)
  end.

Definition GetSessionKey (peerID : string) (cm : t) : outcome bytes :=
  conn ← GetConnection peerID cm; Ok (Connection.SessionKey conn).

Definition SetSessionKey (peerID : string) (sessionKey : bytes) (cm : t) : outcome unit * t :=
  match connections cm !! peerID with
  | None => (Err not_found, cm)
  | Some conn => (Ok tt, set peerID (Connection.with_SessionKey sessionKey conn) cm)
  end.

Definition baseDelay : duration := second.
Definition maxDelay : duration := 300 * second.

(** [float64(baseDelay) * 2^(retryCount-1)], cut at [maxDelay]: products of 10^9
    with powers of two are exact, an infinite one is cut. *)
Definition calculateBackoffDuration (retryCount : Z) : duration :=
  if retryCount =? 0 then 0
  else if 0 <? retryCount then Z.min maxDelay (baseDelay * 2 ^ (retryCount - 1))
  else baseDelay / 2 ^ (1 - retryCount).

Definition AttemptReconnection (now : time) (peerID : string) (cm : t) : outcome unit * t :=
  match connections cm !! peerID with
  | None => (Err not_found, cm)
  | Some conn =>
      if decide (Connection.State conn = StateConnected) then (Ok tt, cm)
      else if time_sub now (Connection.LastRetryAt conn) <?
              calculateBackoffDuration (Connection.RetryCount conn) then (Ok tt, cm)
      else (Ok tt, notifyCallbacks peerID EventDisconnected (set peerID (Connection.with_retry now conn) cm))
  end.

(** What the health check does to one connection of its snapshot; the last
    component says whether a reconnection is started in the background. *)
Definition check_one (now : time) (heartbeatTimeout : duration) (peerID : string) (conn : Connection.t)
    (cm : t) : t * bool :=
  if bool_decide (Connection.State conn = StateConnected) &&
     (heartbeatTimeout <? time_sub now (Connection.LastHeartbeat conn))
  then (notifyCallbacks peerID EventHeartbeatTimeout
          (UpdateConnectionState now peerID StateDisconnected cm).2, true)
  else (cm, false).

Fixpoint check_all (now : time) (heartbeatTimeout : duration) (snapshot : list (string * Connection.t))
    (cm : t) : t * list string :=
  match snapshot with
  | [] => (cm, [])
  | (peerID, conn) :: rest =>
      let '(cm, retry) := check_one now heartbeatTimeout peerID conn cm in
      let '(cm, retries) := check_all now heartbeatTimeout rest cm in
      (cm, if retry then peerID :: retries else retries)
  end.

(** The new state and the reconnections started. *)
Definition checkConnectionHealth (HeartbeatInterval : option Z) (now : time) (cm : t) : t * list string :=
  match HeartbeatInterval with
  | None => (cm, [])
  | Some interval =>
      let heartbeatTimeout := wrap64 (wrap64 (interval * 2) * second) in
      check_all now heartbeatTimeout (map_to_list (connections cm)) cm
  end.

End ConnectionManager.

Module HeartbeatManager.
Import ConnectionManager.

Definition GetHeartbeatInterval (HeartbeatInterval : Z) : duration :=
  let interval := wrap64 (HeartbeatInterval * second) in
  if interval <=? 0 then 30 * second else interval.

Definition GetHeartbeatTimeout (HeartbeatInterval : Z) : duration :=
  wrap64 (GetHeartbeatInterval HeartbeatInterval * 2).

(** The heartbeat message, and the state after the transport's answer. *)
Definition heartbeat (now : time) (self : string) : Message.t :=
  NewMessage now TypeHeartbeat self (PValue (BHeartbeat (HeartbeatMessage.mk (unix_milli now)))).

Definition sendHeartbeatToPeer (now : time) (self : string)
    (SendMessage : string → string → Z → Message.t → outcome unit) (peerID : string)
    (cm : ConnectionManager.t) : ConnectionManager.t :=
  match GetConnection peerID cm with
  | Ok conn =>
      match SendMessage peerID (Connection.Address conn) (Connection.Port conn) (heartbeat now self) with
      | Ok _ => (UpdateHeartbeat now peerID cm).2
      | _ => cm
      end
  | _ => cm
  end.

(** The peers' goroutines, in the order they happen to run. *)
Definition sendHeartbeatToAllPeers (now : time) (self : string)
    (SendMessage : string → string → Z → Message.t → outcome unit) (cm : ConnectionManager.t)
    : ConnectionManager.t :=
  foldl (λ cm peerID, sendHeartbeatToPeer now self SendMessage peerID cm) cm (GetConnectedPeers cm).

Definition HandleHeartbeatResponse (now : time) (peerID : string) (cm : ConnectionManager.t)
    : ConnectionManager.t := (UpdateHeartbeat now peerID cm).2.

End HeartbeatManager.

(** ** Backoff *)
Import ConnectionManager.

Lemma pow2_pos r : 0 < r → 1 ≤ 2 ^ (r - 1).
Proof. intros H. assert (0 < 2 ^ (r - 1)) by (apply Z.pow_pos_nonneg; lia). lia. Qed.

(** The reconnection delay is nothing before the first retry, a second after
    it, doubles with every further one and stays at five minutes once there; an
    attempt is made exactly when the peer is not connected and that delay has
    passed since the last one, and it is counted. *)
Theorem reconnection_backoff :
  calculateBackoffDuration 0 = 0 ∧ calculateBackoffDuration 1 = second ∧
  (∀ r, 0 < r → calculateBackoffDuration (r + 1) = Z.min maxDelay (2 * calculateBackoffDuration r)) ∧
  (∀ r, 0 ≤ r → 0 ≤ calculateBackoffDuration r ≤ calculateBackoffDuration (r + 1) ≤ maxDelay) ∧
  ∀ now peerID cm conn, connections cm !! peerID = Some conn →
    (AttemptReconnection now peerID cm).1 = Ok tt ∧
    connections (AttemptReconnection now peerID cm).2 !! peerID =
      Some (if decide (Connection.State conn ≠ StateConnected ∧
                       calculateBackoffDuration (Connection.RetryCount conn)
                         ≤ time_sub now (Connection.LastRetryAt conn))
            then Connection.with_retry now conn else conn).
Proof.
  assert (∀ r, 0 < r → calculateBackoffDuration r = Z.min maxDelay (second * 2 ^ (r - 1))) as Hpos.
  { intros r Hr. unfold calculateBackoffDuration, baseDelay.
    destruct (Z.eqb_spec r 0), (Z.ltb_spec 0 r); lia. }
  assert (∀ r, 0 < r → calculateBackoffDuration (r + 1) = Z.min maxDelay (2 * calculateBackoffDuration r)) as Hd.
  { intros r Hr. rewrite !Hpos by lia. replace (r + 1 - 1) with (Z.succ (r - 1)) by lia.
    rewrite Z.pow_succ_r by lia. unfold maxDelay, second, nano_per_sec. lia. }
  assert (∀ r, 0 < r → second ≤ calculateBackoffDuration r ≤ maxDelay) as Hb.
  { intros r Hr. rewrite Hpos by lia. pose proof (pow2_pos r Hr).
    unfold maxDelay, second, nano_per_sec. lia. }
  split_and!; [done|done|done| |].
  - intros r Hr. destruct (decide (r = 0)) as [->|].
    + unfold calculateBackoffDuration, maxDelay, baseDelay, second, nano_per_sec. simpl. lia.
    + rewrite Hd by lia. pose proof (Hb r ltac:(lia)). unfold maxDelay, second, nano_per_sec in *. lia.
  - intros now peerID cm conn Hc. unfold AttemptReconnection. rewrite Hc.
    destruct (decide (Connection.State conn = StateConnected)) as [E|E].
    { split; [done|]. rewrite decide_False by (intros [? _]; done). done. }
    destruct (Z.ltb_spec (time_sub now (Connection.LastRetryAt conn))
                (calculateBackoffDuration (Connection.RetryCount conn))).
    + split; [done|]. rewrite decide_False by lia. done.
    + split; [done|]. rewrite decide_True by done. unfold notifyCallbacks, set. simpl. by rewrite lookup_insert_eq.
Qed.

(** ** The health check *)

Lemma check_one_other now timeout p conn cm q : p ≠ q →
  connections (check_one now timeout p conn cm).1 !! q = connections cm !! q.
Proof.
  intros H. unfold check_one, UpdateConnectionState, notifyCallbacks, set.
  repeat case_match; simplify_eq/=; by rewrite ?lookup_insert_ne.
Qed.

Lemma check_all_other now timeout snapshot cm q : q ∉ snapshot.*1 →
  connections (check_all now timeout snapshot cm).1 !! q = connections cm !! q.
Proof.
  revert cm. induction snapshot as [|[p conn] rest IH]; intros cm H; [done|]. simpl.
  pose proof (check_one_other now timeout p conn cm q). destruct (check_one _ _ _ _ _) as [cm' b].
  pose proof (IH cm'). destruct (check_all _ _ _ _) as [cm'' l]. simpl in *.
  rewrite H1, H0; [done|set_solver|set_solver].
Qed.

(** What a check does to a connection of the manager. *)
Definition expired (now : time) (timeout : duration) (conn : Connection.t) : bool :=
  bool_decide (Connection.State conn = StateConnected) &&
  (timeout <? time_sub now (Connection.LastHeartbeat conn)).

Lemma check_all_spec now timeout snapshot cm p conn :
  NoDup snapshot.*1 → (p, conn) ∈ snapshot → connections cm !! p = Some conn →
  connections (check_all now timeout snapshot cm).1 !! p =
    Some (if expired now timeout conn then Connection.with_State StateDisconnected conn else conn) ∧
  (p ∈ (check_all now timeout snapshot cm).2 ↔ expired now timeout conn = true).
Proof.
  revert cm. induction snapshot as [|[q c] rest IH]; intros cm Hn Hin Hp; [by apply elem_of_nil in Hin|].
  cbn [fmap list_fmap fst] in Hn. apply NoDup_cons in Hn as [Hq Hn]. simpl.
  destruct (check_one now timeout q c cm) as [cm' b] eqn:E1.
  pose proof (check_all_other now timeout rest cm' p) as Hother.
  destruct (decide (p = q)) as [<-|Hne].
  - assert (c = conn) as ->.
    { apply elem_of_cons in Hin as [[= ?]|Hin]; [done|]. destruct Hq. apply list_elem_of_fmap. by exists (p, conn). }
    specialize (Hother Hq). assert (p ∉ (check_all now timeout rest cm').2) as Hnot.
    { clear -Hq. revert cm'. induction rest as [|[r d] rest IH]; intros cm'; simpl; [set_solver|].
      destruct (check_one _ _ _ _ _) as [cm1 b]. specialize (IH ltac:(set_solver) cm1).
      destruct (check_all _ _ _ _) as [cm2 l]. destruct b; set_solver. }
    destruct (check_all now timeout rest cm') as [cm'' l]. simpl in *. rewrite Hother.
    unfold check_one in E1. fold (expired now timeout conn) in E1.
    destruct (expired now timeout conn); simplify_eq; [|split; [done|set_solver]].
    split; [|set_solver]. unfold UpdateConnectionState. rewrite Hp.
    case_decide; simpl; by rewrite lookup_insert_eq.
  - assert (connections cm' !! p = Some conn) as Hp'.
    { rewrite <- Hp. replace cm' with (check_one now timeout q c cm).1 by (by rewrite E1).
      by apply check_one_other. }
    apply elem_of_cons in Hin as [[= ??]|Hin]; [done|]. destruct (IH cm' Hn Hin Hp') as [IH1 IH2].
    destruct (check_all now timeout rest cm') as [cm'' l]. simpl in *. split; [done|].
    destruct b; set_solver.
Qed.

(** The health check disconnects exactly the connected peers whose last
    heartbeat is older than twice the heartbeat interval and starts a
    reconnection for each of them.  A connection that was just added has no
    heartbeat yet, so a check at any later time disconnects it, however recent it
    is. *)
Theorem checkConnectionHealth_spec interval now cm peerID :
  (∀ conn, connections cm !! peerID = Some conn →
    let timeout := wrap64 (wrap64 (interval * 2) * second) in
    let '(cm', retries) := checkConnectionHealth (Some interval) now cm in
    connections cm' !! peerID =
      Some (if expired now timeout conn then Connection.with_State StateDisconnected conn else conn) ∧
    (peerID ∈ retries ↔ expired now timeout conn = true)) ∧
  (∀ added address port, 0 ≤ interval < 4000000000 → 0 ≤ now →
    let '(cm', retries) := checkConnectionHealth (Some interval) now
                             (AddConnection added peerID address port cm) in
    Connection.State <$> connections cm' !! peerID = Some StateDisconnected ∧ peerID ∈ retries).
Proof.
  assert (∀ cm conn, connections cm !! peerID = Some conn →
    let timeout := wrap64 (wrap64 (interval * 2) * second) in
    let '(cm', retries) := checkConnectionHealth (Some interval) now cm in
    connections cm' !! peerID =
      Some (if expired now timeout conn then Connection.with_State StateDisconnected conn else conn) ∧
    (peerID ∈ retries ↔ expired now timeout conn = true)) as Hspec.
  { clear cm. intros cm conn Hc timeout. unfold checkConnectionHealth.
    pose proof (check_all_spec now timeout (map_to_list (connections cm)) cm peerID conn) as H.
    fold timeout. destruct (check_all _ _ _ _) as [cm' l]. apply H; [apply NoDup_fst_map_to_list| |done].
    by apply elem_of_map_to_list. }
  split; [by intros; apply Hspec|]. intros added address port Hi Hn.
  set (cm1 := AddConnection added peerID address port cm).
  assert (connections cm1 !! peerID = Some (Connection.mk peerID address port StateConnected added added
    zero_time [] 0 zero_time)) as Hc by (unfold cm1, AddConnection; simpl; by rewrite lookup_insert_eq).
  pose proof (Hspec cm1 _ Hc) as H. cbv zeta in H.
  assert (expired now (wrap64 (wrap64 (interval * 2) * second)) (Connection.mk peerID address port
    StateConnected added added zero_time [] 0 zero_time) = true) as He.
  { unfold expired. simpl. apply Z.ltb_lt. unfold second, nano_per_sec.
    rewrite (wrap64_id (interval * 2)), wrap64_id by (unfold in64, two63; lia).
    unfold time_sub, zero_time, two63, nano_per_sec. lia. }
  destruct (checkConnectionHealth _ _ _) as [cm' l]. destruct H as [H1 H2].
  rewrite H1, He. split; [done|]. by apply H2.
Qed.

Lemma checkConnectionHealth_spec_witness :
  let '(cm', retries) := checkConnectionHealth (Some 30) 1700000000000000001
    (AddConnection 1700000000000000000 "p" "10.0.0.1" 8080 NewConnectionManager) in
  Connection.State <$> connections cm' !! "p"%string = Some StateDisconnected ∧ "p"%string ∈ retries.
Proof.
  apply (proj2 (checkConnectionHealth_spec 30 1700000000000000001 NewConnectionManager "p")); lia.
Defined.

Lemma reconnection_backoff_witness :
  (AttemptReconnection 5 "p"
     (UpdateConnectionState 1 "p" StateDisconnected (AddConnection 0 "p" "h" 1 NewConnectionManager)).2).1 = Ok tt.
Proof.
  destruct reconnection_backoff as (_ & _ & _ & _ & H).
  eapply H. reflexivity.
Defined.
