(* ===== verification/Transport.v ===== *)
(** * Transports (internal/network/transport)

    [wire] is what JSON encoding and decoding make of a message.  [Net] is a
    transport as its callers see it: what [SendMessage] answered and what went
    out.  [TCP] is the message loop of one TCP connection with the handshake
    that sets the session key; [FallbackTransport] the choice between QUIC and
    TCP.  The QUIC transport and dialling are in Dialing.v. *)

From Stdlib Require Import Strings.Byte Strings.String.
From S2P Require Import Prelude GoStrings Json Messages Connection Encryption.

(** A message as the receiver decodes it. *)
Definition wire (m : Message.t) : outcome Message.t := Encode m ≫= DecodeMessage.

(** ** [Transport.SendMessage] *)
Module Net.

Record delivery : Type := Delivery { to_peer : string; to_address : string; to_port : Z; message : Message.t }.

(** Messages handed over, oldest first, and the fates of the calls to come: none
    left means success. *)
Record t : Type := mk { sent : list delivery; fates : list (outcome unit) }.

Definition SendMessage (peerID address : string) (port : Z) (m : Message.t) : GoM t unit := λ n,
  match fates n with
  | [] | Ok _ :: _ => (Ok tt, mk (sent n ++ [Delivery peerID address port m]) (tail (fates n)))
  | Err e :: fs => (Err e, mk (sent n) fs)
  | Panic w :: fs => (Panic w, mk (sent n) fs)
  end.

End Net.

(** ** tcp.go *)
Module TCP.

Section TCP.
Context (P : primitives) (sha256 : bytes → bytes).

(** Both ids, sorted, and fixed strings: nothing secret enters. *)
Definition deriveSessionKey (peerID1 peerID2 : string) : bytes :=
  let '(a, b) := if (peerID2 <? peerID1)%string then (peerID2, peerID1) else (peerID1, peerID2) in
  let sharedSecret := sha256 (to_bytes (a +:+ ":" +:+ b)) in
  match DeriveSessionKey P sharedSecret (to_bytes "p2p-sync-session-salt") (to_bytes "p2p-sync-aes-gcm-key") with
  | Ok sessionKey => sessionKey
  | _ => sharedSecret
  end.

Record t : Type := mk {
  localPeerID : string; connManager : option ConnectionManager.t;
  (** Peer to the number of its connection. *)
  connections : gmap string nat
}.

(** The variables of [handleConnection]. *)
Record conn : Type := Conn { number : nat; host : string; port : Z; peerID : string; connectionRegistered : bool }.

Inductive action : Type :=
  | ToHandler (m : Message.t)
  | Reply (m : Message.t)
  | Ignore.

Definition handshake_message (now : time) (localPeerID : string) : Message.t :=
  Message.mk (GenerateMessageID now) "handshake" (unix_sec now) localPeerID
    (PGeneric (JObject [("peer_id"%string, JString localPeerID)])) None.

Definition register (now : time) (peer host : string) (port : Z) (number : nat) (key : option bytes) (s : t) : t :=
  mk (localPeerID s)
    ((λ cm,
        let cm := ConnectionManager.AddConnection now peer host port cm in
        let cm := (ConnectionManager.UpdateConnectionState now peer StateConnected cm).2 in
        match key with
        | Some k => (ConnectionManager.SetSessionKey peer k cm).2
        | None => cm
        end) <$> connManager s)
    (match connections s !! peer with
     | Some _ => connections s
     | None => <[peer := number]> (connections s)
     end).

(** The key set for [peer]: none while the own id is not known. *)
Definition key_for (peer : string) (s : t) : option bytes :=
  if is_empty (localPeerID s) then None else Some (deriveSessionKey (localPeerID s) peer).

Definition updatePeerID (now : time) (oldID newID : string) (s : t) : t :=
  mk (localPeerID s)
    ((λ cm, match ConnectionManager.GetConnection oldID cm with
            | Ok old => (ConnectionManager.UpdateConnectionState now newID StateConnected
                 (ConnectionManager.AddConnection now newID (Connection.Address old) (Connection.Port old)
                   (ConnectionManager.RemoveConnection oldID cm))).2
            | _ => cm
            end) <$> connManager s)
    (match connections s !! oldID with
     | Some c => <[newID := c]> (delete oldID (connections s))
     | None => connections s
     end).

Definition set_key (peer : string) (s : t) : t :=
  match key_for peer s with
  | Some k => mk (localPeerID s) ((λ cm, (ConnectionManager.SetSessionKey peer k cm).2) <$> connManager s) (connections s)
  | None => s
  end.

(** One decoded message in [handleConnection]. *)
Definition on_message (now : time) (msg : Message.t) (c : conn) (s : t) : action * conn * t :=
  let peer := Message.SenderID msg in
  let is_handshake := bool_decide (Message.Type_ msg = TypeHandshake) in
  if negb (connectionRegistered c) && bool_decide (is_Some (connManager s)) && negb (is_empty peer) then
    let c' := Conn (number c) (host c) (port c) peer true in
    if is_handshake then
      (Reply (handshake_message now (localPeerID s)), c',
       register now peer (host c) (port c) (number c) (key_for peer s) s)
    else (ToHandler msg, c', register now peer (host c) (port c) (number c) None s)
  else if is_handshake && connectionRegistered c then
    if negb (bool_decide (peer = peerID c)) && negb (is_empty (localPeerID s)) then
      (Ignore, Conn (number c) (host c) (port c) peer true, set_key peer (updatePeerID now (peerID c) peer s))
    else (Ignore, c, s)
  else (ToHandler msg, c, s).

(** What is written back after the handler has returned. *)
Definition answer (now : time) (msg : Message.t) (result : outcome unit) : option Message.t :=
  match result with
  | Ok _ => Some (WithCorrelationID (Message.ID msg) (NewMessage now TypeOperationAck ""
              (PValue (BOperationAck (OperationAckMessage.mk (Message.ID msg) true "")))))
  | Err e => Some (WithCorrelationID (Message.ID msg) (NewMessage now TypeOperationAck ""
              (PValue (BOperationAck (OperationAckMessage.mk (Message.ID msg) false e)))))
  | Panic _ => None
  end.

(** The reply to the handshake sent on an outbound connection. *)
Definition readHandshakeResponse (now : time) (placeholder : string) (msg : Message.t) (s : t) : outcome unit * t :=
  if bool_decide (Message.Type_ msg = TypeHandshake) && negb (is_empty (Message.SenderID msg)) then
    let s := updatePeerID now placeholder (Message.SenderID msg) s in
    match key_for (Message.SenderID msg) s, connManager s with
    | None, _ => (Ok tt, s)
    | Some _, None => (Panic "nil pointer dereference", s)
    | Some k, Some cm =>
        match ConnectionManager.SetSessionKey (Message.SenderID msg) k cm with
        | (Ok _, cm) => (Ok tt, mk (localPeerID s) (Some cm) (connections s))
        | (Err e, _) => (Err (wrap "failed to set session key" e), s)
        | (Panic w, _) => (Panic w, s)
        end
    end
  else (Err "invalid handshake response", s).

(** *** Properties *)

Lemma deriveSessionKey_comm a b : deriveSessionKey a b = deriveSessionKey b a.
Proof.
  unfold deriveSessionKey. destruct (decide (a = b)) as [->|Hne]; [done|].
  rewrite (string_ltb_antisym a b Hne). by destruct (b <? a)%string.
Qed.

Lemma deriveSessionKey_length a b :
  authentic P → (∀ d, zlen (sha256 d) = 32) → zlen (deriveSessionKey a b) = KeySizeAES.
Proof.
  intros HP Hsha. unfold deriveSessionKey, DeriveSessionKey.
  destruct (b <? a)%string; destruct (hkdf P _ _ _ _) as [k|?|?] eqn:E; cbn; rewrite ?Hsha; try done;
    by eapply hkdf_length.
Qed.

(** What a handshake from a peer not seen before leaves in the connection table. *)
Lemma register_connection now peer host port number key s cm :
  connManager s = Some cm → ConnectionManager.connections cm !! peer = None →
  ∃ cm', connManager (register now peer host port number key s) = Some cm' ∧
    ConnectionManager.GetConnection peer cm' =
      Ok (Connection.mk peer host port StateConnected now now now (default [] key) 0 zero_time).
Proof.
  intros Hcm Hnew. unfold register. cbn [connManager]. rewrite Hcm. cbn [fmap option_fmap option_map].
  eexists. split; [reflexivity|].
  unfold ConnectionManager.AddConnection, ConnectionManager.UpdateConnectionState, ConnectionManager.SetSessionKey,
    ConnectionManager.GetConnection, ConnectionManager.set, ConnectionManager.notifyCallbacks.
  cbn. rewrite lookup_insert_eq. cbn. rewrite (decide_False (P := StateConnected ≠ StateConnected)) by auto.
  rewrite decide_True by done. destruct key; cbn; rewrite ?lookup_insert_eq; cbn; by rewrite ?lookup_insert_eq.
Qed.
End TCP.

(** The TCP handshake proves nothing.  Whoever sends a handshake message,
    under any identifier that is not connected yet, is registered at once as
    that peer and connected, under the session key [deriveSessionKey] of the two
    identifiers; both sides compute the same key, and so can everybody else,
    since only the identifiers enter: what is encrypted with it opens for anyone
    who knows them. *)
Theorem handshake_needs_no_secret P sha256 now msg c s cm iv plaintext :
  authentic P → (∀ d, zlen (sha256 d) = 32) → zlen iv = IVSize →
  connManager s = Some cm → connectionRegistered c = false →
  Message.Type_ msg = TypeHandshake → Message.SenderID msg ≠ ""%string → localPeerID s ≠ ""%string →
  ConnectionManager.connections cm !! Message.SenderID msg = None →
  let '(a, c', s') := on_message P sha256 now msg c s in
  let key := deriveSessionKey P sha256 (Message.SenderID msg) (localPeerID s) in
  a = Reply (handshake_message now (localPeerID s)) ∧
  (∃ cm' conn, connManager s' = Some cm' ∧ ConnectionManager.GetConnection (Message.SenderID msg) cm' = Ok conn ∧
    Connection.State conn = StateConnected ∧ Connection.SessionKey conn = key) ∧
  ∃ m, Encrypt P iv plaintext key = Ok m ∧ Decrypt P m key = Ok plaintext.
Proof.
  intros HP Hsha Hiv Hcm Hreg Hty Hs Hl Hnew. unfold on_message. rewrite Hreg, Hcm, Hty.
  rewrite (bool_decide_eq_true_2 (is_Some _)) by eauto. rewrite bool_decide_eq_true_2 by done.
  destruct (Message.SenderID msg) as [|x peer] eqn:Ep; [done|]. cbn [negb andb is_empty].
  unfold key_for. destruct (localPeerID s) as [|y local] eqn:El; [done|]. cbn [is_empty]. split; [done|]. split.
  - destruct (register_connection now (String x peer) (host c) (port c) (number c)
      (Some (deriveSessionKey P sha256 (String y local) (String x peer))) s cm Hcm Hnew) as (cm' & H1 & H2).
    eexists _, _. split; [exact H1|]. split; [exact H2|]. split; [done|]. cbn. apply deriveSessionKey_comm.
  - assert (zlen (deriveSessionKey P sha256 (String x peer) (String y local)) = KeySizeAES) as Hk.
    { by apply deriveSessionKey_length. }
    destruct (Encrypt_fine P iv plaintext _ HP Hk) as (m & Hm & _). exists m. split; [done|].
    by apply (Decrypt_Encrypt P iv).
Qed.

Lemma handshake_needs_no_secret_witness :
  let s := mk "victim" (Some ConnectionManager.NewConnectionManager) ∅ in
  let c := Conn 1 "evil.example" 4000 "" false in
  let sha256 := λ d : bytes, take 32 (d ++ replicate 32 Byte.x00) in
  let '(a, _, _) := on_message demo_primitives sha256 7 (handshake_message 5 "friend") c s in
  a = Reply (handshake_message 7 "victim").
Proof.
  cbv zeta.
  pose proof (handshake_needs_no_secret demo_primitives (λ d : bytes, take 32 (d ++ replicate 32 Byte.x00)) 7
    (handshake_message 5 "friend") (Conn 1 "evil.example" 4000 "" false)
    (mk "victim" (Some ConnectionManager.NewConnectionManager) ∅) ConnectionManager.NewConnectionManager
    (replicate 12 Byte.x01) [] demo_authentic
    ltac:(intros d; cbv beta; rewrite length_take, length_app, length_replicate; lia) eq_refl eq_refl eq_refl eq_refl
    ltac:(discriminate) ltac:(discriminate) eq_refl) as H.
  destruct (on_message _ _ _ _ _ _) as [[a c'] s']. by destruct H as [-> _].
Defined.

End TCP.

(** ** fallback.go *)
Module FallbackTransport.

Inductive protocol : Type := Quic | Tcp.
#[export] Instance protocol_eq_dec : EqDecision protocol.
Proof. solve_decision. Defined.

Record t : Type := mk {
  currentTransport : option protocol; usedFallback : bool; peerProtocols : gmap string protocol
}.

Definition NewFallbackTransport : t := mk None false ∅.

Definition remember (peerID : string) (p : protocol) (ft : t) : t :=
  mk (currentTransport ft) (usedFallback ft) (<[peerID := p]> (peerProtocols ft)).

(** [quic] and [tcp] are the answers of the two transports, should they be asked. *)
Definition Start (quic tcp : outcome unit) (ft : t) : outcome unit * t :=
  match quic with
  | Ok _ => (Ok tt, mk (Some Quic) false (peerProtocols ft))
  | Panic w => (Panic w, ft)
  | Err _ =>
      match tcp with
      | Ok _ => (Ok tt, mk (Some Tcp) true (peerProtocols ft))
      | Err e => (Err (wrap "both QUIC and TCP transports failed to start" e), ft)
      | Panic w => (Panic w, ft)
      end
  end.

(** QUIC, else TCP; what worked is remembered. *)
Definition try_both (ctx : error) (quic tcp : outcome unit) (peerID : string) (ft : t) : outcome unit * t :=
  match quic with
  | Ok _ => (Ok tt, remember peerID Quic ft)
  | Panic w => (Panic w, ft)
  | Err _ =>
      match tcp with
      | Ok _ => (Ok tt, remember peerID Tcp ft)
      | Err e => (Err (wrap ctx e), ft)
      | Panic w => (Panic w, ft)
      end
  end.

Definition answer_of (quic tcp : outcome unit) (p : protocol) : outcome unit :=
  match p with Quic => quic | Tcp => tcp end.

Definition SendMessage (quic tcp : outcome unit) (peerID : string) (ft : t) : outcome unit * t :=
  match currentTransport ft with
  | None => (Err "transport not started", ft)
  | Some current =>
      match peerProtocols ft !! peerID with
      | None => if usedFallback ft then (answer_of quic tcp current, ft)
                else try_both "both QUIC and TCP failed" quic tcp peerID ft
      | Some known => (answer_of quic tcp known, ft)
      end
  end.

Definition ConnectToPeer (quic tcp : outcome unit) (peerID : string) (ft : t) : outcome unit * t :=
  match currentTransport ft with
  | None => (Err "transport not started", ft)
  | Some current =>
      if usedFallback ft then (answer_of quic tcp current, ft)
      else try_both "both QUIC and TCP connection failed" quic tcp peerID ft
  end.

Definition GetActiveProtocol (ft : t) : protocol := if usedFallback ft then Tcp else Quic.

Definition GetPeerProtocol (peerID : string) (ft : t) : protocol :=
  match peerProtocols ft !! peerID with
  | Some p => p
  | None => GetActiveProtocol ft
  end.

(** Before [Start] there is no transport to set it on. *)
Definition SetPeerID (ft : t) : outcome unit :=
  match currentTransport ft with
  | None => Panic "nil pointer dereference"
  | Some _ => Ok tt
  end.

(** A message reaches a peer when either transport carries it, until one has
    worked: from then on only that one is asked. *)
Lemma SendMessage_sticky quic tcp peerID ft :
  currentTransport ft = Some Quic → usedFallback ft = false →
  match peerProtocols ft !! peerID with
  | None => is_ok (SendMessage quic tcp peerID ft).1 = is_ok quic || (negb (is_ok quic) && is_ok tcp)
            ∨ (∃ w, quic = Panic w)
  | Some p => SendMessage quic tcp peerID ft = (answer_of quic tcp p, ft)
  end.
Proof.
  intros Hc Hf. unfold SendMessage, try_both. rewrite Hc, Hf.
  destruct (peerProtocols ft !! peerID); [done|]. destruct quic, tcp; cbn; eauto.
Qed.

End FallbackTransport.
