(* ===== verification/Dialing.v ===== *)
(** * Connections made by a node (tcp.go, quic.go)

    The QUIC transport, and the half of the TCP transport that dials.  The
    network answers through arguments: what dialling gave (the number of the new
    connection), whether a stream could be opened and a message written, and the
    reply read after a handshake was sent.  Sockets and TLS are not modelled; the
    loops that accept connections and streams are in Loops.v. *)

From Stdlib Require Import Strings.Byte Strings.Ascii Strings.String.
From S2P Require Import Prelude GoStrings Json Messages Connection Encryption Transport.

(** The connection table with [peer] added and marked as connected. *)
Definition add_connected (now : time) (peer host : string) (port : Z) (cm : ConnectionManager.t) : ConnectionManager.t :=
  (ConnectionManager.UpdateConnectionState now peer StateConnected (ConnectionManager.AddConnection now peer host port cm)).2.

(** [addr] cut at its last colon. *)
Fixpoint last_colon (addr : string) : option (string * string) :=
  match addr with
  | EmptyString => None
  | String c rest => match last_colon rest with
                     | Some (host, port) => Some (String c host, port)
                     | None => if Ascii.eqb c ":" then Some (""%string, rest) else None
                     end
  end.

(** The host of an address of at least two bytes, and the port behind it. *)
Definition host_and_port (addr : string) (default_port : Z) : string * Z :=
  if (String.length addr <? 2)%nat then (addr, default_port)
  else match last_colon addr with
       | Some (host, port) => (host, Sscanf_d default_port port)
       | None => (addr, default_port)
       end.

(** ** quic.go *)
Module QUIC.

Record t : Type := mk {
  port : Z; localPeerID : string; connManager : option ConnectionManager.t;
  (** Peer to the number of its connection. *)
  connections : gmap string nat;
  handshakesSent : gset string;
  listening : bool; stopped : bool
}.

Definition NewQUICTransport (port : Z) : t := mk port "" None ∅ ∅ false false.

Definition SetConnectionManager (cm : ConnectionManager.t) (q : t) : t :=
  mk (port q) (localPeerID q) (Some cm) (connections q) (handshakesSent q) (listening q) (stopped q).
Definition SetPeerID (peerID : string) (q : t) : t :=
  mk (port q) peerID (connManager q) (connections q) (handshakesSent q) (listening q) (stopped q).
Definition with_manager (cm : option ConnectionManager.t) (q : t) : t :=
  mk (port q) (localPeerID q) cm (connections q) (handshakesSent q) (listening q) (stopped q).
Definition with_connections (x : gmap string nat) (q : t) : t :=
  mk (port q) (localPeerID q) (connManager q) x (handshakesSent q) (listening q) (stopped q).
Definition with_handshakesSent (x : gset string) (q : t) : t :=
  mk (port q) (localPeerID q) (connManager q) (connections q) x (listening q) (stopped q).

Definition Start (listen : outcome unit) (q : t) : outcome unit * t :=
  match listen with
  | Ok _ => (Ok tt, mk (port q) (localPeerID q) (connManager q) (connections q) (handshakesSent q) true (stopped q))
  | Err e => (Err (wrap "failed to listen on QUIC" e), q)
  | Panic w => (Panic w, q)
  end.

(** Nothing keeps the channel from being closed twice. *)
Definition Stop (q : t) : outcome unit * t :=
  if stopped q then (Panic "close of closed channel", q)
  else (Ok tt, mk (port q) (localPeerID q) (connManager q) (connections q) (handshakesSent q) (listening q) true).

Section QUIC.
Context (sha256 : bytes → bytes) (hkdf_sha256 : bytes → bytes → bytes → Z → outcome bytes).

Definition deriveSessionKey (peerID1 peerID2 : string) : outcome bytes :=
  let '(a, b) := if (peerID2 <? peerID1)%string then (peerID2, peerID1) else (peerID1, peerID2) in
  let sharedSecret := sha256 (to_bytes (a +:+ ":" +:+ b)) in
  match hkdf_sha256 sharedSecret (to_bytes "p2p-sync-session-salt") (to_bytes "p2p-sync-session-key") 32 with
  | Err _ => Panic "failed to derive session key"
  | r => r
  end.

Inductive action : Type :=
  | ToHandler (m : Message.t)
  (** The reply, after which the stream is closed. *)
  | ReplyAndClose (m : Message.t)
  | Crash (why : string).

(** The handshake as it is sent and answered. *)
Definition handshake_message (now : time) (localPeerID : string) : Message.t :=
  Message.mk (GenerateMessageID now) TypeHandshake (unix_sec now) localPeerID
    (PGeneric (JObject [("peer_id"%string, JString localPeerID)])) None.

(** [sendHandshake], which nothing calls: a stream of its own for the message,
    the second component, whose reply is not awaited. *)
Definition sendHandshake (now : time) (localPeerID : string) (opened' written' : outcome unit) : outcome unit * option Message.t :=
  match wrapping "failed to open stream for handshake" opened' with
  | Ok _ => (written', Some (handshake_message now localPeerID))
  | r => (r, None)
  end.

(** The peer behind an inbound handshake: registered under the port of this
    transport, whatever its own. *)
Definition register (now : time) (peer remoteAddr : string) (number : nat) (q : t) : t :=
  let q := with_connections (match connections q !! peer with Some _ => connections q | None => <[peer := number]> (connections q) end) q in
  with_manager (add_connected now peer (host_and_port remoteAddr 0).1 (port q) <$> connManager q) q.

(** An error of [SetSessionKey] is dropped. *)
Definition set_key (peer : string) (q : t) : outcome t :=
  match is_empty (localPeerID q), connManager q with
  | false, Some cm =>
      key ← deriveSessionKey (localPeerID q) peer;
      Ok (with_manager (Some (ConnectionManager.SetSessionKey peer key cm).2) q)
  | _, _ => Ok q
  end.

(** One message decoded in [handleStream], from connection [number]. *)
Definition on_stream_message (now : time) (msg : Message.t) (number : nat) (remoteAddr : string) (q : t) : action * t :=
  let peer := Message.SenderID msg in
  if bool_decide (Message.Type_ msg = TypeHandshake) && negb (is_empty peer) then
    let q1 := register now peer remoteAddr number q in
    match set_key peer q1 with
    | Ok q2 => (ReplyAndClose (handshake_message now (localPeerID q)), q2)
    | Err e => (Crash e, q1)
    | Panic w => (Crash w, q1)
    end
  else (ToHandler msg, q).

(** What is written back after the handler has returned, or without one. *)
Definition answer (now : time) (msg : Message.t) (result : outcome unit) : option Message.t :=
  let ack (a : OperationAckMessage.t) :=
    Some (WithCorrelationID (Message.ID msg) (NewMessage now TypeOperationAck "" (PValue (BOperationAck a)))) in
  match result with
  | Ok _ => ack (OperationAckMessage.mk (Message.ID msg) true "")
  | Err e => ack (OperationAckMessage.mk (Message.ID msg) false e)
  | Panic _ => None
  end.

(** *** Dialling *)

(** The answers of the network to one call: the connection dialled, the stream
    opened, the message written, the reply to the handshake (an error when it
    cannot be decoded or does not come in ten seconds). *)
Record network : Type := Network {
  dialled : outcome nat; opened : outcome unit; written : outcome unit; reply : outcome Message.t
}.

Definition sendAndReceiveHandshake (w : network) (q : t) : outcome unit * t :=
  match (wrapping "failed to open stream for handshake" (opened w);; wrapping "failed to encode handshake" (written w)) with
  | Err e => (Err e, q)
  | Panic x => (Panic x, q)
  | Ok _ =>
      match reply w with
      | Err e => (Err e, q)
      | Panic x => (Panic x, q)
      | Ok msg =>
          if bool_decide (Message.Type_ msg = TypeHandshake) && negb (is_empty (Message.SenderID msg)) then
            match is_empty (localPeerID q), connManager q with
            | false, Some cm =>
                match deriveSessionKey (localPeerID q) (Message.SenderID msg) with
                | Ok key =>
                    let '(r, cm) := ConnectionManager.SetSessionKey (Message.SenderID msg) key cm in
                    (wrapping "failed to set session key" r, with_manager (Some cm) q)
                | Err e => (Err e, q)
                | Panic x => (Panic x, q)
                end
            | _, _ => (Ok tt, q)
            end
          else (Err "invalid handshake response", q)
      end
  end.

(** The flag of the handshake is set before it is sent and never cleared. *)
Definition getOrCreateConnection (now : time) (peerID addr : string) (w : network) (q : t) : outcome nat * t :=
  match connections q !! peerID with
  | Some conn => (Ok conn, q)
  | None =>
      match dialled w with
      | Err e => (Err e, q)
      | Panic x => (Panic x, q)
      | Ok conn =>
          let q := with_connections (<[peerID := conn]> (connections q)) q in
          let '(host, port') := host_and_port addr (port q) in
          let q := with_manager (add_connected now peerID host port' <$> connManager q) q in
          if is_empty (localPeerID q) then (Ok conn, q)
          else
            let alreadySent := bool_decide (peerID ∈ handshakesSent q) in
            let q := with_handshakesSent ({[peerID]} ∪ handshakesSent q) q in
            if alreadySent then (Ok conn, q)
            else match sendAndReceiveHandshake w q with
                 | (Ok _, q) => (Ok conn, q)
                 | (Err e, q) => (Err (wrap "failed to complete handshake" e), q)
                 | (Panic x, q) => (Panic x, q)
                 end
      end
  end.

(** [w] answers while the connection is made, [opened'] and [written'] after. *)
Definition SendMessage (now : time) (peerID address : string) (port' : Z) (w : network) (opened' written' : outcome unit) (q : t)
    : outcome unit * t :=
  match getOrCreateConnection now peerID (address +:+ ":" +:+ sprint_d port')%string w q with
  | (Ok _, q) =>
      match opened' with
      | Err e => (Err (wrap "failed to open stream" e), with_connections (delete peerID (connections q)) q)
      | Panic x => (Panic x, q)
      | Ok _ => (wrapping "failed to encode message" written', q)
      end
  | (Err e, q) => (Err (wrap "failed to get connection" e), q)
  | (Panic x, q) => (Panic x, q)
  end.

Definition ConnectToPeer (now : time) (peerID address : string) (port' : Z) (w : network) (q : t) : outcome unit * t :=
  let '(r, q) := getOrCreateConnection now peerID (address +:+ ":" +:+ sprint_d port')%string w q in ((λ _, tt) <$> r, q).

End QUIC.
End QUIC.

(** ** The dialling half of tcp.go *)
Module TCPDial.

(** A call returns, or waits for a mutex that is never released. *)
Inductive call (A : Type) : Type := Returns (r : outcome A) | Blocks.
#[global] Arguments Returns {A} r.
#[global] Arguments Blocks {A}.

(** The transport of Transport.v with the flags of the handshakes sent;
    [mutex_held] when a call that never returns holds [connectionsMu]. *)
Record t : Type := mk { tcp : TCP.t; handshakesSent : gset string; stopped : bool; mutex_held : bool }.

Definition NewTCPTransport : t := mk (TCP.mk "" None ∅) ∅ false false.

Definition with_tcp (s : TCP.t) (d : t) : t := mk s (handshakesSent d) (stopped d) (mutex_held d).
Definition with_handshakesSent (x : gset string) (d : t) : t := mk (tcp d) x (stopped d) (mutex_held d).
Definition with_mutex_held (x : bool) (d : t) : t := mk (tcp d) (handshakesSent d) (stopped d) x.

Definition SetConnectionManager (cm : ConnectionManager.t) (d : t) : t :=
  with_tcp (TCP.mk (TCP.localPeerID (tcp d)) (Some cm) (TCP.connections (tcp d))) d.
Definition SetPeerID (peerID : string) (d : t) : t :=
  with_tcp (TCP.mk peerID (TCP.connManager (tcp d)) (TCP.connections (tcp d))) d.

(** [Start] and [Connect]: errors in order; the listener is an argument of [Stop],
    the connection made is none of the transport's. *)
Definition Start (resolve listen : outcome unit) : outcome unit :=
  wrapping "failed to resolve TCP address" resolve;; wrapping "failed to listen on TCP" listen.
Definition Connect (resolve : outcome unit) (dial : outcome nat) : outcome nat :=
  wrapping "failed to resolve address" resolve;; wrapping "failed to connect" dial.

(** [sync.Once] closes the channel the first time only. *)
Definition Stop (close_listener : outcome unit) (d : t) : outcome unit * t :=
  if stopped d then (Ok tt, d) else (close_listener, mk (tcp d) (handshakesSent d) true (mutex_held d)).

Section TCPDial.
Context (P : primitives) (sha256 : bytes → bytes).

(** The answers of the network; the address may also not resolve.  [reply] is
    what this reader gets: the goroutine of [handleConnection], started before
    the handshake is sent, reads from the same connection, and when it takes the
    reply this reader gets an error after ten seconds. *)
Record network : Type := Network {
  resolved : outcome unit; dialled : outcome nat; written : outcome unit; reply : outcome Message.t
}.

(** [readHandshakeResponse] under [connectionsMu]: of a handshake it calls
    [updatePeerID], which locks the same mutex. *)
Definition readHandshakeResponse_locked (now : time) (placeholder : string) (msg : Message.t) (d : t) : call unit * t :=
  if bool_decide (Message.Type_ msg = TypeHandshake) && negb (is_empty (Message.SenderID msg))
  then (Blocks, with_mutex_held true d)
  else let '(r, s) := TCP.readHandshakeResponse P sha256 now placeholder msg (tcp d) in (Returns r, with_tcp s d).

Definition getOrCreateConnection (now : time) (peerID address : string) (port : Z) (w : network) (d : t) : call nat * t :=
  if mutex_held d then (Blocks, d) else
  let s := tcp d in
  match TCP.connections s !! peerID with
  | Some conn => (Returns (Ok conn), d)
  | None =>
      match (wrapping "failed to resolve address" (resolved w);; dialled w) with
      | Err e => (Returns (Err e), d)
      | Panic x => (Returns (Panic x), d)
      | Ok conn =>
          let s := TCP.mk (TCP.localPeerID s) (add_connected now peerID address port <$> TCP.connManager s)
                     (<[peerID := conn]> (TCP.connections s)) in
          let d := with_tcp s d in
          if is_empty (TCP.localPeerID s) then (Returns (Ok conn), d)
          else
            let alreadySent := bool_decide (peerID ∈ handshakesSent d) in
            let d := with_handshakesSent ({[peerID]} ∪ handshakesSent d) d in
            if alreadySent then (Returns (Ok conn), d)
            else match wrapping "failed to send handshake" (written w) with
                 | Err e => (Returns (Err e), d)
                 | Panic x => (Returns (Panic x), d)
                 | Ok _ =>
                     match wrapping "failed to decode handshake response" (reply w) with
                     | Err e => (Returns (Err (wrap "failed to complete handshake" e)), d)
                     | Panic x => (Returns (Panic x), d)
                     | Ok msg =>
                         match readHandshakeResponse_locked now peerID msg d with
                         | (Returns (Ok _), d) => (Returns (Ok conn), d)
                         | (Returns (Err e), d) => (Returns (Err (wrap "failed to complete handshake" e)), d)
                         | (Returns (Panic x), d) => (Returns (Panic x), d)
                         | (Blocks, d) => (Blocks, d)
                         end
                     end
                 end
      end
  end.

(** A connection that cannot be written to is forgotten. *)
Definition SendMessage (now : time) (peerID address : string) (port : Z) (w : network) (written' : outcome unit) (d : t)
    : call unit * t :=
  match getOrCreateConnection now peerID address port w d with
  | (Returns (Ok _), d) =>
      match written' with
      | Err e => (Returns (Err (wrap "failed to encode message" e)),
          with_tcp (TCP.mk (TCP.localPeerID (tcp d)) (TCP.connManager (tcp d)) (delete peerID (TCP.connections (tcp d)))) d)
      | r => (Returns r, d)
      end
  | (Returns (Err e), d) => (Returns (Err (wrap "failed to get connection" e)), d)
  | (Returns (Panic x), d) => (Returns (Panic x), d)
  | (Blocks, d) => (Blocks, d)
  end.

Definition ConnectToPeer (now : time) (peerID address : string) (port : Z) (w : network) (d : t) : call unit * t :=
  match getOrCreateConnection now peerID address port w d with
  | (Returns r, d) => (Returns ((λ _, tt) <$> r), d)
  | (Blocks, d) => (Blocks, d)
  end.

End TCPDial.
End TCPDial.

(** *** interface.go *)
Inductive transport_kind : Type := QuicOnly | TcpOnly | QuicThenTcp.

Definition NewTransport (protocol : string) : transport_kind :=
  if decide (protocol = "quic"%string) then QuicOnly else if decide (protocol = "tcp"%string) then TcpOnly else QuicThenTcp.
