(* ===== verification/FlowControl.v ===== *)
(** * Flow control (internal/network/flowcontrol)

    [RateLimiter] is rate_limiter.go, a token bucket; [FlowController] is
    controller.go, a global bucket, buckets per file and a counting semaphore.
    The number of tokens for an elapsed time is computed in binary64 as the
    source does, with the Standard Library's specification of floats.  A call
    that waits is modelled by its attempts at successive times. *)

From Stdlib Require Import Floats.SpecFloat Strings.String.
From S2P Require Import Prelude.

(** ** binary64 *)
Definition f64_of_Z (z : Z) : spec_float := binary_normalize 53 1024 z 0 false.
Definition f64_add : spec_float → spec_float → spec_float := SFadd 53 1024.
Definition f64_mul : spec_float → spec_float → spec_float := SFmul 53 1024.
Definition f64_div : spec_float → spec_float → spec_float := SFdiv 53 1024.

(** [int64(f)]: toward zero; what the hardware gives out of range is the least
    integer. *)
Definition f64_trunc (f : spec_float) : Z :=
  match f with
  | S754_finite s m e =>
      let a := if 0 <=? e then Z.pos m * 2 ^ e else Z.pos m / 2 ^ (- e) in
      let z := if s then - a else a in
      if (- two63 <=? z) && (z <? two63) then z else - two63
  | S754_zero _ => 0
  | _ => - two63
  end.

(** [d.Seconds()]. *)
Definition Seconds (d : duration) : spec_float :=
  f64_add (f64_of_Z (Z.quot d second)) (f64_div (f64_of_Z (Z.rem d second)) (f64_of_Z 1000000000)).

(** [int64(elapsed.Seconds() * float64(rate))]. *)
Definition tokens_for (elapsed : duration) (rate : Z) : Z :=
  f64_trunc (f64_mul (Seconds elapsed) (f64_of_Z rate)).

Lemma tokens_for_demo :
  tokens_for second 1000 = 1000 ∧ tokens_for (second / 10) 1048576 = 104857 ∧ tokens_for 1000000 100 = 0.
Proof. by vm_compute. Qed.

(** ** rate_limiter.go *)
Module RateLimiter.
Record t : Type := mk {
  rate : Z; burst : Z; tokens : Z; lastRefill : time; cancelled : bool
}.

Definition NewRateLimiter (now : time) (rate burst : Z) : t := mk rate burst burst now false.

(** The refill common to [tryConsume] and to each tick of [refillTokens]. *)
Definition refill (now : time) (rl : t) : t :=
  let elapsed := time_sub now (lastRefill rl) in
  let tokensToAdd := tokens_for elapsed (rate rl) in
  if 0 <? tokensToAdd then
    let added := tokens rl +! tokensToAdd in
    mk (rate rl) (burst rl) (if burst rl <? added then burst rl else added) now (cancelled rl)
  else rl.

Definition tryConsume (now : time) (n : Z) (rl : t) : bool * t :=
  let rl := refill now rl in
  if n <=? tokens rl
  then (true, mk (rate rl) (burst rl) (tokens rl -! n) (lastRefill rl) (cancelled rl))
  else (false, rl).

(** [Wait]: one attempt at each of the given times, ten milliseconds apart in
    the source, until the context is done: [None] while it still waits. *)
Fixpoint Wait (attempts : list time) (n : Z) (rl : t) : option (outcome unit) * t :=
  match attempts with
  | [] => (None, rl)
  | now :: rest =>
      let '(ok, rl') := tryConsume now n rl in
      if ok then (Some (Ok tt), rl')
      else if cancelled rl' then (Some (Err "context canceled"), rl')
      else Wait rest n rl'
  end.

Definition Stop (rl : t) : t := mk (rate rl) (burst rl) (tokens rl) (lastRefill rl) true.
Definition GetAvailableTokens (rl : t) : Z := tokens rl.
Definition SetRate (r : Z) (rl : t) : t := mk r (burst rl) (tokens rl) (lastRefill rl) (cancelled rl).
Definition GetRate (rl : t) : Z := rate rl.
End RateLimiter.

(** ** controller.go *)
Module FlowController.
Record t : Type := mk {
  globalLimiter : RateLimiter.t; perFileLimiters : gmap string RateLimiter.t;
  maxConcurrent : Z; activeTransfers : gset string;
  (** Values in the semaphore channel, whose capacity is [maxConcurrent]. *)
  transferSemaphore : Z
}.

Definition NewFlowController (now : time) (globalBandwidth maxConcurrent : Z) : outcome t :=
  if maxConcurrent <? 0 then Panic "makechan: size out of range"
  else Ok (mk (RateLimiter.NewRateLimiter now globalBandwidth (wrap64 (globalBandwidth * 2)))
             ∅ maxConcurrent ∅ maxConcurrent).

(** [None] while no slot is free. *)
Definition AcquireTransferSlot (fileID : string) (fc : t) : option t :=
  if 0 <? transferSemaphore fc
  then Some (mk (globalLimiter fc) (perFileLimiters fc) (maxConcurrent fc)
               ({[fileID]} ∪ activeTransfers fc) (transferSemaphore fc - 1))
  else None.

(** The channel send blocks for ever when the semaphore is full: [None]. *)
Definition ReleaseTransferSlot (fileID : string) (fc : t) : option t :=
  if transferSemaphore fc <? maxConcurrent fc
  then Some (mk (globalLimiter fc) (perFileLimiters fc) (maxConcurrent fc)
               (activeTransfers fc ∖ {[fileID]}) (transferSemaphore fc + 1))
  else None.

Definition with_global (l : RateLimiter.t) (fc : t) : t :=
  mk l (perFileLimiters fc) (maxConcurrent fc) (activeTransfers fc) (transferSemaphore fc).
Definition with_perFile (ls : gmap string RateLimiter.t) (fc : t) : t :=
  mk (globalLimiter fc) ls (maxConcurrent fc) (activeTransfers fc) (transferSemaphore fc).

(** The global bucket first, then the file's own: the attempts at each. *)
Definition Wait (global_attempts file_attempts : list time) (fileID : string) (n : Z) (fc : t)
    : option (outcome unit) * t :=
  match RateLimiter.Wait global_attempts n (globalLimiter fc) with
  | (Some (Ok _), g) =>
      let fc := with_global g fc in
      match perFileLimiters fc !! fileID with
      | Some l => let '(r, l') := RateLimiter.Wait file_attempts n l in
                  (r, with_perFile (<[fileID := l']> (perFileLimiters fc)) fc)
      | None => (Some (Ok tt), fc)
      end
  | (r, g) => (r, with_global g fc)
  end.

Definition SetPerFileLimit (now : time) (fileID : string) (rate : Z) (fc : t) : t :=
  match perFileLimiters fc !! fileID with
  | Some l => with_perFile (<[fileID := RateLimiter.SetRate rate l]> (perFileLimiters fc)) fc
  | None => with_perFile (<[fileID := RateLimiter.NewRateLimiter now rate (wrap64 (rate * 2))]>
                            (perFileLimiters fc)) fc
  end.

Definition RemovePerFileLimit (fileID : string) (fc : t) : t :=
  with_perFile (delete fileID (perFileLimiters fc)) fc.

Definition SetGlobalBandwidth (bandwidth : Z) (fc : t) : t :=
  with_global (RateLimiter.SetRate bandwidth (globalLimiter fc)) fc.

Definition GetActiveTransferCount (fc : t) : Z := Z.of_nat (size (activeTransfers fc)).
Definition GetActiveTransfers (fc : t) : list string := elements (activeTransfers fc).

Definition Stop (fc : t) : t :=
  with_perFile ∅ (with_global (RateLimiter.Stop (globalLimiter fc)) fc).

Module Stats.
Record t : Type := mk {
  ActiveTransfers : Z; MaxConcurrent : Z; AvailableSlots : Z; GlobalBandwidth : Z; AvailableTokens : Z
}.
End Stats.

Definition GetStats (fc : t) : Stats.t :=
  Stats.mk (GetActiveTransferCount fc) (maxConcurrent fc) (transferSemaphore fc)
    (RateLimiter.GetRate (globalLimiter fc)) (RateLimiter.GetAvailableTokens (globalLimiter fc)).
End FlowController.

(** ** The token bucket *)
Import RateLimiter.

(** Sizes below 2^62, and no more tokens than the bucket holds. *)
Record wf (rl : RateLimiter.t) : Prop := {
  wf_burst : 0 ≤ burst rl < 4611686018427387904;
  wf_tokens : 0 ≤ tokens rl ≤ burst rl
}.

(** Refills that do not overflow: below 2^62 tokens at once. *)
Definition modest (now : time) (rl : RateLimiter.t) : Prop :=
  tokens_for (time_sub now (lastRefill rl)) (rate rl) < 4611686018427387904.

(** The tokens a refill at [now] adds, before the bucket overflows. *)
Definition earned (now : time) (rl : RateLimiter.t) : Z :=
  Z.max 0 (tokens_for (time_sub now (lastRefill rl)) (rate rl)).

Lemma refill_tokens now rl : wf rl → modest now rl →
  tokens (refill now rl) = Z.min (burst rl) (tokens rl + earned now rl) ∧
  burst (refill now rl) = burst rl ∧ rate (refill now rl) = rate rl.
Proof.
  intros [Hb Ht] Hm. unfold refill, earned, modest in *. cbv zeta.
  destruct (Z.ltb_spec 0 (tokens_for (time_sub now (lastRefill rl)) (rate rl))); simpl; [|lia].
  rewrite wrap64_id by (unfold in64, two63; lia).
  destruct (Z.ltb_spec (burst rl) (tokens rl + tokens_for (time_sub now (lastRefill rl)) (rate rl))); lia.
Qed.

Lemma refill_wf now rl : wf rl → modest now rl → wf (refill now rl).
Proof.
  intros Hw Hm. destruct (refill_tokens now rl Hw Hm) as (E & Eb & _). destruct Hw.
  split; rewrite ?E, ?Eb; unfold earned; lia.
Qed.

(** One attempt: exactly when the refilled bucket holds [n] tokens, which are
    taken out. *)
Lemma tryConsume_spec now n rl : wf rl → modest now rl → 0 ≤ n →
  let available := Z.min (burst rl) (tokens rl + earned now rl) in
  (tryConsume now n rl).1 = (n <=? available) ∧
  tokens (tryConsume now n rl).2 = (if n <=? available then available - n else available) ∧
  burst (tryConsume now n rl).2 = burst rl ∧ wf (tryConsume now n rl).2.
Proof.
  intros Hw Hm Hn available. pose proof (refill_wf now rl Hw Hm) as Hw'.
  destruct (refill_tokens now rl Hw Hm) as (E & Eb & _). unfold tryConsume. rewrite E. fold available in E |- *.
  destruct (Z.leb_spec n available); simpl; [|done]. destruct Hw' as [Hb' Ht'].
  rewrite wrap64_id by (unfold in64, two63; lia). split_and!; [done|lia|done|].
  split; simpl; lia.
Qed.

(** A run of attempts, each of a size: what was granted, and the bucket. *)
Fixpoint consume_all (attempts : list (time * Z)) (rl : RateLimiter.t) : Z * RateLimiter.t :=
  match attempts with
  | [] => (0, rl)
  | (now, n) :: rest =>
      let '(ok, rl') := tryConsume now n rl in
      let '(granted, rl'') := consume_all rest rl' in
      ((if ok then n else 0) + granted, rl'')
  end.

(** The tokens earned during such a run, and its refills being modest. *)
Fixpoint earned_all (attempts : list (time * Z)) (rl : RateLimiter.t) : Z :=
  match attempts with
  | [] => 0
  | (now, n) :: rest => earned now rl + earned_all rest (tryConsume now n rl).2
  end.

Fixpoint modest_all (attempts : list (time * Z)) (rl : RateLimiter.t) : Prop :=
  match attempts with
  | [] => True
  | (now, n) :: rest => 0 ≤ n ∧ modest now rl ∧ modest_all rest (tryConsume now n rl).2
  end.



(** A request for more bytes than the burst is never granted: [Wait] tries
    for ever, unless the limiter is stopped, whatever time passes. *)
Theorem oversized_request_waits_forever attempts n rl :
  burst rl < n → wf rl → modest_all ((λ now, (now, n)) <$> attempts) rl →
  (Wait attempts n rl).1 ≠ Some (Ok tt) ∧
  (cancelled rl = false → (Wait attempts n rl).1 = None).
Proof.
  revert rl. induction attempts as [|now rest IH]; intros rl Hn Hw Hm; [done|].
  destruct Hm as (Hpos & Hm & Hr). destruct (tryConsume_spec now n rl Hw Hm Hpos) as (E1 & E2 & E3 & Hw').
  simpl. assert (cancelled (tryConsume now n rl).2 = cancelled rl) as Ec.
  { unfold tryConsume, refill. by repeat case_match; simplify_eq/=. }
  destruct (tryConsume now n rl) as [ok rl']. simpl in *. subst ok.
  destruct (Z.leb_spec n (Z.min (burst rl) (tokens rl + earned now rl))); [lia|].
  rewrite Ec. specialize (IH rl' ltac:(lia) Hw' Hr). rewrite Ec in IH.
  destruct (cancelled rl); [done|]. exact IH.
Qed.

Lemma oversized_request_waits_forever_witness :
  (Wait [0; second; 100 * second] 2001 (NewRateLimiter 0 1000 2000)).1 = None.
Proof.
  apply oversized_request_waits_forever; [reflexivity| | |reflexivity].
  - split; vm_compute; split; congruence.
  - vm_compute. repeat split; congruence.
Defined.

(** ** The transfer slots *)
Import FlowController.

Inductive slot_op : Type := Acquire (fileID : string) | Release (fileID : string).

Definition slot_step (op : slot_op) (fc : FlowController.t) : option FlowController.t :=
  match op with
  | Acquire f => AcquireTransferSlot f fc
  | Release f => ReleaseTransferSlot f fc
  end.

(** The calls that have returned, in order; a call that blocks is not in the
    list. *)
Fixpoint slot_run (ops : list slot_op) (fc : FlowController.t) : option FlowController.t :=
  match ops with
  | [] => Some fc
  | op :: rest => fc' ← slot_step op fc; slot_run rest fc'
  end.

Definition held (ops : list slot_op) : Z :=
  foldr (λ op n, match op with Acquire _ => n + 1 | Release _ => n - 1 end) 0 ops.

Definition slots_ok (held : Z) (fc : FlowController.t) : Prop :=
  transferSemaphore fc = maxConcurrent fc - held ∧ 0 ≤ held ≤ maxConcurrent fc.

Lemma slot_run_ok ops fc fc' h :
  slots_ok h fc → slot_run ops fc = Some fc' →
  maxConcurrent fc' = maxConcurrent fc ∧ slots_ok (h + held ops) fc'.
Proof.
  revert fc h. induction ops as [|op ops IH]; intros fc h Hok Hr; simpl in *.
  { simplify_eq. by rewrite Z.add_0_r. }
  destruct (slot_step op fc) as [fc1|] eqn:E; [|done]. simpl in Hr. destruct Hok as [Hs Hh].
  assert (maxConcurrent fc1 = maxConcurrent fc ∧
    slots_ok (h + match op with Acquire _ => 1 | Release _ => -1 end) fc1) as [Hm Hok1].
  { destruct op; simpl in E; unfold AcquireTransferSlot, ReleaseTransferSlot in E; zcases; simplify_eq;
      unfold slots_ok; simpl; split; lia. }
  destruct (IH _ _ Hok1 Hr) as [Hm' Hok']. rewrite Hm in Hm'. split; [done|].
  destruct op; unfold slots_ok in *; lia.
Qed.

(** The semaphore bounds the transfers: after any sequence of completed
    [AcquireTransferSlot] and [ReleaseTransferSlot] calls, the acquired and not
    yet released slots number between 0 and [maxConcurrent], the free ones are the
    rest, and a further acquire goes through exactly when one is free. *)
Theorem transfer_slots_bounded now bandwidth limit ops fc fc' f :
  NewFlowController now bandwidth limit = Ok fc → slot_run ops fc = Some fc' →
  0 ≤ held ops ≤ limit ∧ transferSemaphore fc' = limit - held ops ∧
  (is_Some (AcquireTransferSlot f fc') ↔ held ops < limit).
Proof.
  intros Hn Hr. unfold NewFlowController in Hn. destruct (Z.ltb_spec limit 0); [done|]. injection Hn as <-.
  apply (slot_run_ok ops _ fc' 0) in Hr as [Hm [Hs Hh]]; [|unfold slots_ok; simpl; lia]. simpl in Hm.
  rewrite Hm in *. split; [lia|]. split; [lia|]. unfold AcquireTransferSlot.
  destruct (Z.ltb_spec 0 (transferSemaphore fc')); split; intros Hx; try done; try lia.
Qed.

Definition demo_fc : FlowController.t :=
  FlowController.mk (NewRateLimiter 0 1000 2000) ∅ 1 ∅ 1.

Lemma transfer_slots_bounded_witness :
  held [Acquire "a"] = 1 ∧ ¬ is_Some (AcquireTransferSlot "b" (default demo_fc (slot_run [Acquire "a"] demo_fc))).
Proof.
  destruct (transfer_slots_bounded 0 1000 1 [Acquire "a"%string] demo_fc
    (default demo_fc (slot_run [Acquire "a"%string] demo_fc)) "b" eq_refl eq_refl) as (_ & _ & Hx).
  split; [reflexivity|]. rewrite Hx. vm_compute. congruence.
Defined.
