(* ===== verification/Discovery.v ===== *)
(** * Peer discovery (internal/network/discovery)

    The registry of known peers, the UDP protocol that fills it, the mDNS entries
    and what the program does about a peer it discovers (cmd/p2p-sync/main.go).
    Sockets are arguments and lists: what arrives is the tree a datagram of at
    most 4096 bytes denotes, what is sent is kept.  A callback is started as a
    goroutine of its own; [started] lists them. *)

From Stdlib Require Import Strings.Byte Strings.Ascii Strings.String.
From S2P Require Import Prelude GoStrings Json Messages Connection.

(** ** registry.go *)
Module PeerInfo.
Record t : Type := mk {
  PeerID : string; Address : string; Port : Z; Capabilities : option (gmap string json); Version : string; LastSeen : time
}.
End PeerInfo.

(** What a [PeerDiscoveryCallback] is called with. *)
Record notification : Type := Notification {
  peerID : string; address : string; port : Z; capabilities : option (gmap string json); version : string
}.

Module Registry.

(** [callbacks] names the functions registered; [started] the calls made. *)
Record t : Type := mk {
  peers : gmap string PeerInfo.t; callbacks : list nat; started : list (nat * notification)
}.

Definition NewRegistry : t := mk ∅ [] [].

Definition notifyCallbacks (n : notification) (r : t) : t :=
  mk (peers r) (callbacks r) (started r ++ ((λ callback, (callback, n)) <$> callbacks r)).

Definition AddOrUpdatePeer (now : time) (n : notification) (r : t) : t :=
  let isNew := bool_decide (peers r !! peerID n = None) in
  let r := mk (<[peerID n := PeerInfo.mk (peerID n) (address n) (port n) (capabilities n) (version n) now]> (peers r))
              (callbacks r) (started r) in
  if isNew then notifyCallbacks n r else r.

Definition GetPeer (peerID : string) (r : t) : outcome PeerInfo.t :=
  match peers r !! peerID with Some peer => Ok peer | None => Err "peer not found" end.

Definition GetAllPeers (r : t) : list PeerInfo.t := (map_to_list (peers r)).*2.

Definition RemovePeer (peerID : string) (r : t) : t := mk (delete peerID (peers r)) (callbacks r) (started r).

Definition CleanupStalePeers (now : time) (maxAge : duration) (r : t) : t :=
  mk (filter (λ ip, ¬ maxAge < time_sub now (PeerInfo.LastSeen ip.2)) (peers r)) (callbacks r) (started r).

Definition AddDiscoveryCallback (callback : nat) (r : t) : t :=
  mk (peers r) (callbacks r ++ [callback]) (started r).

End Registry.

(** ** udp.go *)
Module UDPDiscovery.

Record datagram : Type := Datagram { to_ip : string; to_port : Z; data : json }.

Record t : Type := mk {
  port : Z; syncPort : Z; peerID : string; capabilities : option (gmap string json); version : string;
  registry : option Registry.t; sent : list datagram
}.

Definition NewUDPDiscovery (port syncPort : Z) (peerID : string) (capabilities : option (gmap string json)) (version : string) : t :=
  mk port syncPort peerID capabilities version None [].

Definition NewUDPDiscoveryWithRegistry (port syncPort : Z) (peerID : string) (capabilities : option (gmap string json))
    (version : string) (registry : Registry.t) : t :=
  mk port syncPort peerID capabilities version (Some registry) [].

Definition with_registry (r : option Registry.t) (u : t) : t :=
  mk (port u) (syncPort u) (peerID u) (capabilities u) (version u) r (sent u).
Definition send (d : datagram) (u : t) : t :=
  mk (port u) (syncPort u) (peerID u) (capabilities u) (version u) (registry u) (sent u ++ [d]).

Definition response_message (now : time) (u : t) : Message.t :=
  NewMessage now TypeDiscoveryResponse (peerID u)
    (PValue (BDiscoveryResponse (DiscoveryResponseMessage.mk (peerID u) (port u) (syncPort u) (version u)))).

(** To the discovery port the sender names, at the address it sent from. *)
Definition respondToDiscovery (now : time) (payload : DiscoveryMessage.t) (source : string) (u : t) : t :=
  if decide (DiscoveryMessage.PeerID payload = peerID u) then u
  else match Encode (response_message now u) with
       | Ok data => send (Datagram source (DiscoveryMessage.Port payload) data) u
       | _ => u
       end.

Definition handleDiscoveryResponse (now : time) (payload : DiscoveryResponseMessage.t) (source : string) (u : t) : t :=
  if decide (DiscoveryResponseMessage.PeerID payload = peerID u) then u
  else with_registry (Registry.AddOrUpdatePeer now
         (Notification (DiscoveryResponseMessage.PeerID payload) source (DiscoveryResponseMessage.SyncPort payload)
            (Some ∅) (DiscoveryResponseMessage.Version payload)) <$> registry u) u.

(** The envelope: the type, and the text of the payload should there be one. *)
Definition rawMsg (v : json) : outcome (string * option json) :=
  match v with
  | JNull => Ok (""%string, None)
  | JObject ms => ty ← field "type" c_string ms; Ok (ty, last (members_of "payload" ms))
  | _ => Err mismatch
  end.

Definition payload_of {A} (c : codec A) (raw : option json) : outcome A :=
  match raw with Some j => dec c (zero c) j | None => Err "unexpected end of JSON input" end.

(** One round of [listen]: a datagram, [None] when it is no JSON text, from [source]. *)
Definition listen (now : time) (received : option json) (source : string) (u : t) : t :=
  match received with
  | None => u
  | Some v =>
      match rawMsg v with
      | Ok (ty, raw) =>
          if decide (ty = TypeDiscovery) then
            match payload_of DiscoveryMessage.codec raw with
            | Ok payload => respondToDiscovery now payload source u
            | _ => u
            end
          else if decide (ty = TypeDiscoveryResponse) then
            match payload_of DiscoveryResponseMessage.codec raw with
            | Ok payload => handleDiscoveryResponse now payload source u
            | _ => u
            end
          else u
      | _ => u
      end
  end.

Definition discovery_message (now : time) (u : t) : Message.t :=
  NewMessage now TypeDiscovery (peerID u)
    (PValue (BDiscovery (DiscoveryMessage.mk (peerID u) (port u) (syncPort u) (capabilities u) (version u)))).

Definition broadcastAddrs : list string := ["255.255.255.255"; "172.20.255.255"].

(** [usable] says for which addresses a socket could be opened. *)
Definition sendDiscovery (now : time) (usable : string → bool) (u : t) : t :=
  match Encode (discovery_message now u) with
  | Ok data => foldl (λ u ip, if usable ip then send (Datagram ip (port u) data) u else u) u broadcastAddrs
  | _ => u
  end.

(** [broadcast]: at once, and at every tick until it is stopped. *)
Definition broadcast (ticks : list time) (usable : string → bool) (u : t) : t :=
  foldl (λ u now, sendDiscovery now usable u) u ticks.

End UDPDiscovery.

(** ** mdns.go *)
Module MDNSDiscovery.

(** A service as the mDNS library reports it. *)
Record ServiceEntry : Type := Entry { Instance_ : string; Text : list string; EntryPort : Z; AddrIPv4 : list string }.

Record t : Type := mk { port : Z; peerID : string; version : string; foundPeers : list PeerInfo.t }.

Definition foundPeers_capacity : nat := 10.

Definition NewMDNSDiscovery (port : Z) (peerID version : string) : t := mk port peerID version [].

(** [len(txt) > len(prefix)] and the rest when [txt] starts with [prefix]. *)
Definition after (prefix txt : string) : option string :=
  if (String.length prefix <? String.length txt)%nat && HasPrefix txt prefix
  then Some (string_drop (String.length prefix) txt) else None.

(** One TXT record: capabilities, version, port. *)
Definition parse_txt (acc : gmap string json * string * Z) (txt : string) : gmap string json * string * Z :=
  let '(caps, version, port) := acc in
  let flag name v := (<[name := JBool (bool_decide (v = "true"%string))]> caps, version, port) in
  match after "peer_id=" txt with Some _ => acc | None =>
  match after "port=" txt with Some v => (caps, version, default port (Atoi v)) | None =>
  match after "encryption=" txt with Some v => flag "encryption"%string v | None =>
  match after "compression=" txt with Some v => flag "compression"%string v | None =>
  match after "chunking=" txt with Some v => flag "chunking"%string v | None =>
  match after "version=" txt with Some v => (caps, v, port) | None => acc
  end end end end end end.

(** The first IPv4 address is taken without a look whether there is one. *)
Definition handleServiceEntry (now : time) (entry : ServiceEntry) (m : t) : outcome t :=
  if decide (Instance_ entry = peerID m) then Ok m
  else
    let '(caps, version', port') := foldl parse_txt (∅, ""%string, 0) (Text entry) in
    let port' := if port' =? 0 then EntryPort entry else port' in
    match AddrIPv4 entry with
    | [] => Panic "index out of range"
    | ip :: _ =>
        let peerInfo := PeerInfo.mk (Instance_ entry) ip port' (Some caps) version' now in
        Ok (if (length (foundPeers m) <? foundPeers_capacity)%nat
            then mk (port m) (peerID m) (version m) (foundPeers m ++ [peerInfo]) else m)
    end.

(** The TXT records [Start] announces: the capabilities are asserted booleans. *)
Definition flag_of (name : string) (capabilities : gmap string json) : outcome string :=
  match capabilities !! name with
  | Some (JBool b) => Ok (name +:+ "=" +:+ (if b then "true" else "false"))%string
  | _ => Panic "interface conversion"
  end.

Definition txtRecords (capabilities : gmap string json) (m : t) : outcome (list string) :=
  e ← flag_of "encryption" capabilities; c ← flag_of "compression" capabilities; k ← flag_of "chunking" capabilities;
  Ok [("peer_id=" +:+ peerID m)%string; ("port=" +:+ sprint_d (port m))%string; e; c; k; ("version=" +:+ version m)%string].

End MDNSDiscovery.

(** ** main.go: what a discovery leads to

    Whether [ConnectToPeer] is started for the peer: not for the own id, not for
    a peer in the connection table. *)
Definition connects (localPeerID : string) (n : notification) (cm : ConnectionManager.t) : bool :=
  if decide (peerID n = localPeerID) then false
  else match ConnectionManager.GetConnection (peerID n) cm with
       | Ok _ => negb (is_ok (ConnectionManager.GetSessionKey (peerID n) cm))
       | _ => true
       end.

(** ** Properties *)

Import UDPDiscovery.

Lemma payload_found {A} (c : codec A) a : valid c a → payload_of c (Some (enc c a)) = Ok a.
Proof. apply dec_enc. Qed.

(** The envelope of an encoded message. *)
Lemma rawMsg_Encode now ty sender b :
  ∃ data, Encode (NewMessage now ty sender (PValue b)) = Ok data ∧ rawMsg data = Ok (ty, Some (enc_body b)).
Proof.
  eexists. split; [reflexivity|]. cbn [rawMsg]. unfold NewMessage. cbn [Message.ID Message.Type_ Message.Timestamp Message.SenderID Message.CorrelationID].
  rewrite (field_found "type" c_string _ ty); [|done|find_member]. cbn [mbind outcome_bind].
  rewrite !members_of_app, !members_of_member, members_of_omitempty. reflexivity.
Qed.

Lemma listen_discovery now now' source a u :
  in64 (port a) → in64 (syncPort a) → peerID a ≠ peerID u →
  ∃ data reply, Encode (discovery_message now a) = Ok data ∧ Encode (response_message now' u) = Ok reply ∧
    listen now' (Some data) source u = send (Datagram source (port a) reply) u.
Proof.
  intros Hp Hs Hne. destruct (rawMsg_Encode now TypeDiscovery (peerID a) (BDiscovery (DiscoveryMessage.mk (peerID a) (port a)
    (syncPort a) (capabilities a) (version a)))) as (data & Hd & Hr).
  exists data. eexists. split; [exact Hd|]. split; [reflexivity|]. unfold listen. rewrite Hr. rewrite decide_True by done.
  cbn [enc_body]. rewrite payload_found by done. unfold respondToDiscovery. rewrite decide_False by done. reflexivity.
Qed.

Lemma listen_response now now' source b u :
  in64 (port b) → in64 (syncPort b) → peerID b ≠ peerID u →
  ∃ data, Encode (response_message now b) = Ok data ∧
    listen now' (Some data) source u =
      with_registry (Registry.AddOrUpdatePeer now' (Notification (peerID b) source (syncPort b) (Some ∅) (version b)) <$> registry u) u.
Proof.
  intros Hp Hs Hne. destruct (rawMsg_Encode now TypeDiscoveryResponse (peerID b) (BDiscoveryResponse
    (DiscoveryResponseMessage.mk (peerID b) (port b) (syncPort b) (version b)))) as (data & Hd & Hr).
  exists data. split; [exact Hd|]. unfold listen. rewrite Hr. rewrite decide_False by done. rewrite decide_True by done.
  cbn [enc_body]. rewrite payload_found by done. unfold handleDiscoveryResponse. by rewrite decide_False.
Qed.

(** One broadcast makes the sender know the receiver, and not the reverse.
    When a node's discovery message reaches another node, that one answers to the
    discovery port named in it, at the address it came from; when the answer
    arrives, the first node has the second in its registry under the address the
    answer came from and the port for synchronisation, seen now, and calls its
    callbacks exactly when the peer is new.  The second has not registered the
    first; a node never answers or registers itself. *)
Theorem discovery_registers now now' now'' ipA ipB a b r :
  in64 (port a) → in64 (syncPort a) → in64 (port b) → in64 (syncPort b) → peerID a ≠ peerID b → registry a = Some r →
  ∃ broadcast reply,
    Encode (discovery_message now a) = Ok broadcast ∧
    listen now' (Some broadcast) ipA b = send (Datagram ipA (port a) reply) b ∧
    registry (listen now' (Some broadcast) ipA b) = registry b ∧
    (∃ r', registry (listen now'' (Some reply) ipB a) = Some r' ∧
      Registry.GetPeer (peerID b) r' = Ok (PeerInfo.mk (peerID b) ipB (syncPort b) (Some ∅) (version b) now'') ∧
      Registry.started r' = Registry.started r ++
        (if decide (is_Some (Registry.peers r !! peerID b)) then []
         else (λ c, (c, Notification (peerID b) ipB (syncPort b) (Some ∅) (version b))) <$> Registry.callbacks r)) ∧
    (∀ ip t, listen t (Some broadcast) ip a = a ∧ listen t (Some reply) ip b = b).
Proof.
  intros Hpa Hsa Hpb Hsb Hne Hr.
  destruct (listen_discovery now now' ipA a b Hpa Hsa Hne) as (d & reply & Hd & Hreply & Hl).
  destruct (listen_response now' now'' ipB b a Hpb Hsb ltac:(congruence)) as (reply' & Hreply' & Hl').
  rewrite Hreply in Hreply'. injection Hreply' as <-. exists d, reply.
  split; [done|]. split; [done|]. split; [by rewrite Hl|]. split.
  - rewrite Hl', Hr. eexists. split; [reflexivity|]. unfold Registry.AddOrUpdatePeer, Registry.GetPeer. cbn [Discovery.peerID].
    destruct (decide (is_Some (Registry.peers r !! peerID b))) as [[p Hp]|Hn].
    + rewrite Hp. rewrite bool_decide_eq_false_2 by done. cbn. rewrite lookup_insert_eq, app_nil_r. done.
    + apply eq_None_not_Some in Hn. rewrite Hn, bool_decide_eq_true_2 by done. cbn. by rewrite lookup_insert_eq.
  - intros ip t.
    destruct (rawMsg_Encode now TypeDiscovery (peerID a) (BDiscovery (DiscoveryMessage.mk (peerID a) (port a)
      (syncPort a) (capabilities a) (version a)))) as (d' & Hd' & Hraw).
    assert (d' = d) as -> by (unfold discovery_message in Hd; congruence).
    destruct (rawMsg_Encode now' TypeDiscoveryResponse (peerID b) (BDiscoveryResponse
      (DiscoveryResponseMessage.mk (peerID b) (port b) (syncPort b) (version b)))) as (e & He & Hraw').
    assert (e = reply) as -> by (unfold response_message in Hreply; congruence).
    unfold listen. rewrite Hraw, Hraw'. cbn [enc_body]. split.
    + rewrite decide_True by done. rewrite payload_found by done. unfold respondToDiscovery. by rewrite decide_True.
    + rewrite decide_False, decide_True by done. rewrite payload_found by done. unfold handleDiscoveryResponse. by rewrite decide_True.
Qed.

Definition demo_udp (port syncPort : Z) (id : string) : t :=
  NewUDPDiscoveryWithRegistry port syncPort id (Some {[ "chunking"%string := JBool true ]}) "0.1.0"
    (Registry.AddDiscoveryCallback 0 Registry.NewRegistry).

Lemma discovery_registers_witness :
  let a := demo_udp 8081 8080 "A" in let b := demo_udp 9081 9080 "B" in
  ∃ broadcast reply, Encode (discovery_message 5 a) = Ok broadcast ∧
    listen 6 (Some broadcast) "10.0.0.1" b = send (Datagram "10.0.0.1" 8081 reply) b ∧
    (length ∘ Registry.started <$> registry (listen 7 (Some reply) "10.0.0.2" a)) = Some 1%nat.
Proof.
  cbv zeta. destruct (discovery_registers 5 6 7 "10.0.0.1" "10.0.0.2" (demo_udp 8081 8080 "A") (demo_udp 9081 9080 "B") _
    ltac:(by vm_compute) ltac:(by vm_compute) ltac:(by vm_compute) ltac:(by vm_compute) ltac:(done) eq_refl)
    as (d & reply & H1 & H2 & _ & (r' & H3 & _ & H4) & _).
  exists d, reply. split; [exact H1|]. split; [exact H2|]. rewrite H3. cbn. by rewrite H4.
Defined.

(** *** Each peer is notified once *)

(** Which callback was called for which peer. *)
Definition calls (r : Registry.t) : list (nat * string) := (λ cn, (cn.1, Discovery.peerID cn.2)) <$> Registry.started r.

(** The callbacks are as at the start; a call was made once for each of them and
    each registered peer, none of which is the node itself. *)
Definition notified_once (own : string) (cs : list nat) (r : Registry.t) : Prop :=
  Registry.callbacks r = cs ∧ NoDup (calls r) ∧ Registry.peers r !! own = None ∧
  ∀ c id, (c, id) ∈ calls r ↔ c ∈ cs ∧ is_Some (Registry.peers r !! id).

Lemma AddOrUpdatePeer_notified_once now own cs n r :
  NoDup cs → Discovery.peerID n ≠ own → notified_once own cs r → notified_once own cs (Registry.AddOrUpdatePeer now n r).
Proof.
  intros Hcs Hown (Hc & Hnd & Ho & Hiff). unfold Registry.AddOrUpdatePeer, notified_once.
  destruct (decide (Registry.peers r !! Discovery.peerID n = None)) as [Hn|Hs].
  - rewrite bool_decide_eq_true_2 by done. cbn [Registry.notifyCallbacks Registry.peers Registry.callbacks Registry.started].
    assert (calls (Registry.notifyCallbacks n (Registry.mk (<[Discovery.peerID n := PeerInfo.mk (Discovery.peerID n) (address n)
      (Discovery.port n) (Discovery.capabilities n) (Discovery.version n) now]> (Registry.peers r)) (Registry.callbacks r) (Registry.started r)))
      = calls r ++ ((λ c, (c, Discovery.peerID n)) <$> cs)) as Hcalls.
    { unfold calls, Registry.notifyCallbacks. cbn. by rewrite Hc, fmap_app, <- list_fmap_compose. }
    split; [done|]. split_and!.
    + rewrite Hcalls. apply NoDup_app. split; [done|]. split.
      * intros [c id] Hin. rewrite list_elem_of_fmap. intros (c' & [= -> ->] & _). apply Hiff in Hin as [_ [? ?]]. congruence.
      * apply NoDup_fmap; [|done]. by intros c c' [= ].
    + by rewrite lookup_insert_ne.
    + intros c id. rewrite Hcalls, elem_of_app, Hiff, list_elem_of_fmap. destruct (decide (id = Discovery.peerID n)) as [->|Hne].
      * rewrite lookup_insert_eq. split; [intros [[? [? ?]]|(c' & [= ->] & ?)]; [congruence|by eauto]|]. intros [Hin _]. right. eauto.
      * rewrite lookup_insert_ne by done. split; [intros [?|(c' & [= -> ->] & ?)]; done|]. by left.
  - rewrite bool_decide_eq_false_2 by done. cbn. split_and!; [done|done|by rewrite lookup_insert_ne|].
    intros c id. change (calls _) with (calls r). rewrite Hiff. destruct (decide (id = Discovery.peerID n)) as [->|Hne].
    + rewrite lookup_insert_eq. apply not_eq_None_Some in Hs. naive_solver.
    + by rewrite lookup_insert_ne by done.
Qed.

Lemma listen_registry (I : Registry.t → Prop) now received source u :
  (∀ now n r, Discovery.peerID n ≠ peerID u → I r → I (Registry.AddOrUpdatePeer now n r)) →
  (∀ r, registry u = Some r → I r) →
  peerID (listen now received source u) = peerID u ∧ ∀ r, registry (listen now received source u) = Some r → I r.
Proof.
  intros Hadd HI. unfold listen. destruct received as [v|]; [|done]. destruct (rawMsg v) as [[ty raw]|?|?]; [|done..].
  case_decide; [|case_decide; [|done]].
  - destruct (payload_of _ raw) as [p|?|?]; [|done..]. unfold respondToDiscovery. case_decide; [done|]. by destruct (Encode _).
  - destruct (payload_of _ raw) as [p|?|?]; [|done..]. unfold handleDiscoveryResponse. case_decide as Hp; [done|].
    split; [done|]. cbn. intros r' Hr'. destruct (registry u) as [r|] eqn:E; [|done]. injection Hr' as <-.
    by apply Hadd; [|apply HI].
Qed.



(** *** What the other operations of the registry do *)

Lemma CleanupStalePeers_spec now maxAge id r :
  Registry.GetPeer id (Registry.CleanupStalePeers now maxAge r) =
  match Registry.peers r !! id with
  | Some p => if maxAge <? time_sub now (PeerInfo.LastSeen p) then Err "peer not found" else Ok p
  | None => Err "peer not found"
  end.
Proof.
  unfold Registry.GetPeer, Registry.CleanupStalePeers. cbn. rewrite map_lookup_filter.
  destruct (Registry.peers r !! id) as [p|]; [|done]. cbn. destruct (Z.ltb_spec maxAge (time_sub now (PeerInfo.LastSeen p))).
  - by rewrite option_guard_False by (intros []; done).
  - rewrite option_guard_True by lia. done.
Qed.

(** The program never dials a peer again that is in the connection table, with
    or without a session key: [GetSessionKey] fails for unknown peers only. *)
Lemma connects_spec localPeerID n cm :
  connects localPeerID n cm =
  bool_decide (Discovery.peerID n ≠ localPeerID) && negb (is_ok (ConnectionManager.GetConnection (Discovery.peerID n) cm)).
Proof.
  unfold connects, ConnectionManager.GetSessionKey. case_decide; [by rewrite bool_decide_eq_false_2 by auto|].
  rewrite bool_decide_eq_true_2 by done. by destruct (ConnectionManager.GetConnection _ cm).
Qed.

(** A service without an IPv4 address ends the program. *)
Lemma service_without_IPv4_panics now id txt p m :
  id ≠ MDNSDiscovery.peerID m →
  MDNSDiscovery.handleServiceEntry now (MDNSDiscovery.Entry id txt p []) m = Panic "index out of range".
Proof. intros H. unfold MDNSDiscovery.handleServiceEntry. cbn. rewrite decide_False by done. by destruct (foldl _ _ _) as [[? ?] ?]. Qed.
