(* ===== verification/Operation.v ===== *)
(** * Sync operations and their queues (internal/sync/operation.go, queue.go) *)

From Stdlib Require Import Strings.String.
From S2P Require Import Prelude GoStrings Clock.

(** [OperationType] is a string type; remote peers may send any string. *)
Definition OpCreate : string := "create".
Definition OpUpdate : string := "update".
Definition OpDelete : string := "delete".
Definition OpRename : string := "rename".
Definition OpMkdir : string := "mkdir".
Definition OpRmdir : string := "rmdir".

Module SyncOperation.
Record t : Type := mk {
  ID : string; Type_ : string; Path : string; FromPath : option string; FileID : string;
  Checksum : string; Size : Z; Timestamp : Z; VectorClock : option Clock.VectorClock.t;
  PeerID : string; Source : string; Mtime : Z; Mode : option Z; Data : bytes;
  ChunkID : option Z; IsLast : option bool; Compressed : option bool; OriginalSize : option Z;
  CompressionAlgorithm : option string; CompressionLevel : option Z
}.

Definition with_Source (s : string) (o : t) : t :=
  mk (ID o) (Type_ o) (Path o) (FromPath o) (FileID o) (Checksum o) (Size o) (Timestamp o)
    (VectorClock o) (PeerID o) s (Mtime o) (Mode o) (Data o) (ChunkID o) (IsLast o) (Compressed o)
    (OriginalSize o) (CompressionAlgorithm o) (CompressionLevel o).
Definition with_VectorClock (vc : option Clock.VectorClock.t) (o : t) : t :=
  mk (ID o) (Type_ o) (Path o) (FromPath o) (FileID o) (Checksum o) (Size o) (Timestamp o)
    vc (PeerID o) (Source o) (Mtime o) (Mode o) (Data o) (ChunkID o) (IsLast o) (Compressed o)
    (OriginalSize o) (CompressionAlgorithm o) (CompressionLevel o).
Definition with_content (fromPath : option string) (checksum : string) (size : Z) (o : t) : t :=
  mk (ID o) (Type_ o) (Path o) fromPath (FileID o) checksum size (Timestamp o)
    (VectorClock o) (PeerID o) (Source o) (Mtime o) (Mode o) (Data o) (ChunkID o) (IsLast o) (Compressed o)
    (OriginalSize o) (CompressionAlgorithm o) (CompressionLevel o).
Definition with_data (data : bytes) (checksum : string) (size : Z) (o : t) : t :=
  mk (ID o) (Type_ o) (Path o) (FromPath o) (FileID o) checksum size (Timestamp o)
    (VectorClock o) (PeerID o) (Source o) (Mtime o) (Mode o) data (ChunkID o) (IsLast o) (Compressed o)
    (OriginalSize o) (CompressionAlgorithm o) (CompressionLevel o).
Definition with_compression (compressed : option bool) (originalSize : option Z) (algorithm : option string)
    (level : option Z) (o : t) : t :=
  mk (ID o) (Type_ o) (Path o) (FromPath o) (FileID o) (Checksum o) (Size o) (Timestamp o)
    (VectorClock o) (PeerID o) (Source o) (Mtime o) (Mode o) (Data o) (ChunkID o) (IsLast o) compressed
    originalSize algorithm level.
End SyncOperation.

Definition generateOperationID (now : time) : string := ("op-" +:+ sprint_d now)%string.

Definition NewSyncOperation (now : time) (opType path fileID peerID : string) : SyncOperation.t :=
  SyncOperation.mk (generateOperationID now) opType path None fileID "" 0 (unix_milli now)
    (Some Clock.VectorClock.NewVectorClock) peerID "local" 0 None [] None None None None None None.

(** ** Queues per file *)
Module OperationQueue.

Abbreviation queue := (gmap string (list SyncOperation.t)).

Definition NewOperationQueue : queue := ∅.

(** A missing key reads as the nil slice. *)
Definition ops (fileID : string) (q : queue) : list SyncOperation.t := default [] (q !! fileID).

Definition Enqueue (fileID : string) (op : SyncOperation.t) (q : queue) : queue :=
  <[fileID := ops fileID q ++ [op]]> q.

Definition Dequeue (fileID : string) (q : queue) : option SyncOperation.t * queue :=
  match q !! fileID with
  | None | Some [] => (None, q)
  | Some (op :: rest) => (Some op, if decide (rest = []) then delete fileID q else <[fileID := rest]> q)
  end.

Definition Peek (fileID : string) (q : queue) : option SyncOperation.t :=
  match q !! fileID with
  | None | Some [] => None
  | Some (op :: _) => Some op
  end.

Definition IsEmpty (fileID : string) (q : queue) : bool :=
  match q !! fileID with
  | None | Some [] => true
  | Some _ => false
  end.

Definition Size (fileID : string) (q : queue) : Z := zlen (ops fileID q).

End OperationQueue.
Import OperationQueue.

#[export] Instance nil_dec {A} (l : list A) : Decision (l = []).
Proof. destruct l; [by left|by right]. Defined.

(** No queue is stored empty. *)
Definition tidy (q : queue) : Prop := map_Forall (λ _ l, l ≠ []) q.

(** The operation queue is a first-in first-out queue for each file:
    [Enqueue] adds at the end of its file's queue, [Dequeue] removes and returns
    the head, [Peek], [IsEmpty] and [Size] read it, no other file is affected,
    and no empty queue stays in the map. *)
Theorem queue_refines_fifo fileID op q :
  tidy q →
  (ops fileID (Enqueue fileID op q) = ops fileID q ++ [op] ∧ tidy (Enqueue fileID op q) ∧
   ∀ f, f ≠ fileID → ops f (Enqueue fileID op q) = ops f q) ∧
  ((Dequeue fileID q).1 = head (ops fileID q) ∧ ops fileID (Dequeue fileID q).2 = tail (ops fileID q) ∧
   tidy (Dequeue fileID q).2 ∧ ∀ f, f ≠ fileID → ops f (Dequeue fileID q).2 = ops f q) ∧
  Peek fileID q = head (ops fileID q) ∧
  (IsEmpty fileID q = true ↔ ops fileID q = []) ∧ Size fileID q = zlen (ops fileID q).
Proof.
  intros Ht. split_and!.
  - unfold Enqueue, ops at 1. by rewrite lookup_insert_eq.
  - apply map_Forall_insert_2; [by destruct (ops fileID q)|done].
  - intros f Hf. unfold Enqueue, ops. by rewrite lookup_insert_ne.
  - unfold Dequeue, ops. by destruct (q !! fileID) as [[|o l]|].
  - unfold Dequeue, ops. destruct (q !! fileID) as [[|o l]|] eqn:E; simpl; rewrite ?E; try done.
    case_decide; [by subst; rewrite lookup_delete_eq|by rewrite lookup_insert_eq].
  - unfold Dequeue. destruct (q !! fileID) as [[|o l]|] eqn:E; simpl; try done.
    case_decide; [by apply map_Forall_delete|by apply map_Forall_insert_2].
  - intros f Hf. unfold Dequeue, ops. destruct (q !! fileID) as [[|o l]|] eqn:E; simpl; try done.
    case_decide; [by rewrite lookup_delete_ne|by rewrite lookup_insert_ne].
  - unfold Peek, ops. by destruct (q !! fileID) as [[|o l]|].
  - unfold IsEmpty, ops. by destruct (q !! fileID) as [[|o l]|].
  - done.
Qed.

Lemma queue_refines_fifo_witness :
  let q := Enqueue "f" (NewSyncOperation 1 OpCreate "a" "f" "p") ∅ in
  (Dequeue "f" q).1 = Some (NewSyncOperation 1 OpCreate "a" "f" "p").
Proof.
  cbv zeta.
  assert (tidy (Enqueue "f" (NewSyncOperation 1 OpCreate "a" "f" "p") ∅)) as Ht.
  { apply map_Forall_insert_2; [by simpl|apply map_Forall_empty]. }
  destruct (queue_refines_fifo "f" (NewSyncOperation 2 OpUpdate "a" "f" "p") _ Ht) as (_ & (Hd & _) & _).
  rewrite Hd. reflexivity.
Defined.
