(* ===== verification/Engine.v ===== *)
(** * The sync engine (internal/sync/engine.go)

    The engine's state holds its own fields and the components it owns: the
    database, the watcher, the rename detector, the conflict resolver, and the
    disk it works on.  A handler of a file event and the processing of one
    incoming operation are functions on that state; each runs at one instant
    [now], with [rand] for the random part of temporary names.  What the engine
    sends is recorded in [outbox] (calls of [BroadcastOperation], oldest first);
    goroutines that process incoming operations wait in [tasks] and are run in
    any order ([run_task]).  BLAKE3 is the parameter [blake3]. *)

From Stdlib Require Import Strings.Byte Strings.String.
From S2P Require Import Prelude GoStrings GoPath Clock Conflict Hashing Database Filesystem Operation Messages.

Module Engine.

Record t : Type := mk {
  FolderPath : string; peerID : string; conflictResolver : Resolver.t; has_messenger : bool;
  db : DB.t; fs : OS.t; watcher : Watcher.t; renameDetector : RenameDetector.detector;
  operationQueue : OperationQueue.queue; vectorClock : VectorClock.t;
  recentWrites : gmap string time;
  outbox : list SyncOperation.t; tasks : list (bytes * SyncOperation.t)
}.

Definition with_db (x : DB.t) (e : t) : t :=
  mk (FolderPath e) (peerID e) (conflictResolver e) (has_messenger e) x (fs e) (watcher e)
    (renameDetector e) (operationQueue e) (vectorClock e) (recentWrites e) (outbox e) (tasks e).
Definition with_fs (x : OS.t) (e : t) : t :=
  mk (FolderPath e) (peerID e) (conflictResolver e) (has_messenger e) (db e) x (watcher e)
    (renameDetector e) (operationQueue e) (vectorClock e) (recentWrites e) (outbox e) (tasks e).
Definition with_watcher (x : Watcher.t) (e : t) : t :=
  mk (FolderPath e) (peerID e) (conflictResolver e) (has_messenger e) (db e) (fs e) x
    (renameDetector e) (operationQueue e) (vectorClock e) (recentWrites e) (outbox e) (tasks e).
Definition with_renameDetector (x : RenameDetector.detector) (e : t) : t :=
  mk (FolderPath e) (peerID e) (conflictResolver e) (has_messenger e) (db e) (fs e) (watcher e)
    x (operationQueue e) (vectorClock e) (recentWrites e) (outbox e) (tasks e).
Definition with_operationQueue (x : OperationQueue.queue) (e : t) : t :=
  mk (FolderPath e) (peerID e) (conflictResolver e) (has_messenger e) (db e) (fs e) (watcher e)
    (renameDetector e) x (vectorClock e) (recentWrites e) (outbox e) (tasks e).
Definition with_vectorClock (x : VectorClock.t) (e : t) : t :=
  mk (FolderPath e) (peerID e) (conflictResolver e) (has_messenger e) (db e) (fs e) (watcher e)
    (renameDetector e) (operationQueue e) x (recentWrites e) (outbox e) (tasks e).
Definition with_recentWrites (x : gmap string time) (e : t) : t :=
  mk (FolderPath e) (peerID e) (conflictResolver e) (has_messenger e) (db e) (fs e) (watcher e)
    (renameDetector e) (operationQueue e) (vectorClock e) x (outbox e) (tasks e).
Definition with_outbox (x : list SyncOperation.t) (e : t) : t :=
  mk (FolderPath e) (peerID e) (conflictResolver e) (has_messenger e) (db e) (fs e) (watcher e)
    (renameDetector e) (operationQueue e) (vectorClock e) (recentWrites e) x (tasks e).
Definition with_tasks (x : list (bytes * SyncOperation.t)) (e : t) : t :=
  mk (FolderPath e) (peerID e) (conflictResolver e) (has_messenger e) (db e) (fs e) (watcher e)
    (renameDetector e) (operationQueue e) (vectorClock e) (recentWrites e) (outbox e) x.

(** [NewEngineWithMessenger]. *)
Definition NewEngine (folder strategy peerID : string) (has_messenger : bool) (db : DB.t) (fs : OS.t) : t :=
  mk folder peerID (Resolver.NewResolver strategy) has_messenger db fs Watcher.NewWatcher
    RenameDetector.NewRenameDetector OperationQueue.NewOperationQueue VectorClock.NewVectorClock ∅ [] [].

(** ** Actions on the parts *)
Definition on_fs {A} (m : GoM OS.t A) : GoM t A := λ e, let '(r, f) := m (fs e) in (r, with_fs f e).
Definition on_db {A} (m : GoM DB.t A) : GoM t A := λ e, let '(r, d) := m (db e) in (r, with_db d e).
Definition query {A} (q : DB.t → outcome A) : GoM t A := λ e, (q (db e), e).

(** [x, err := m; if err != nil { return }; k(x)]. *)
Definition or_return {A} (m : GoM t A) (k : A → GoM t unit) : GoM t unit :=
  r ← gtry m; match r with inl a => k a | inr _ => mret tt end.

(** [_ = m]. *)
Definition ignoring {A} (m : GoM t A) : GoM t unit := or_return m (λ _, mret tt).

(** [defer d]: also after an early return; not when the process dies. *)
Definition deferring {A} (d : t → t) (m : GoM t A) : GoM t A := λ e,
  match m e with
  | (Panic w, e') => (Panic w, e')
  | (r, e') => (r, d e')
  end.

(** ** Recent writes *)

(** 5 seconds. *)
Definition recentWritesTTL : duration := 5 * second.

Definition addRecentWrite (now : time) (path : string) (e : t) : t :=
  with_recentWrites (<[path := now]> (recentWrites e)) e.

Definition isRecentWrite (now : time) (checksum : string) (e : t) : bool :=
  match recentWrites e !! checksum with
  | None => false
  | Some writeTime => negb (recentWritesTTL <? time_sub now writeTime)
  end.

Definition cleanupRecentWrites (now : time) (e : t) : t :=
  with_recentWrites (filter (λ '(_, w), time_sub now w ≤ recentWritesTTL) (recentWrites e)) e.

Definition GetAllFiles (e : t) : outcome (list FileMetadata.t) := DB.GetAllFiles (db e).

Section Handlers.
Context (blake3 : bytes → bytes).

(** ** Local changes *)

(** [BroadcastOperation] in a goroutine. *)
Definition broadcast (op : SyncOperation.t) (e : t) : t :=
  if has_messenger e then with_outbox (outbox e ++ [op]) e else e.

Definition log_entry (op : SyncOperation.t) : LogEntry.t :=
  LogEntry.mk 0 (SyncOperation.ID op) (of_unix_milli (SyncOperation.Timestamp op)) (SyncOperation.Type_ op)
    (SyncOperation.PeerID op) (SyncOperation.VectorClock op) false false (Some (SyncOperation.FileID op))
    (SyncOperation.Path op) (SyncOperation.FromPath op) (Some (SyncOperation.Checksum op))
    (Some (SyncOperation.Size op))
    (Some (if SyncOperation.Mtime op =? 0 then zero_time else of_unix_milli (SyncOperation.Mtime op)))
    None 0 (SyncOperation.Data op) false None None.

Definition queueOperation (op : SyncOperation.t) : GoM t unit :=
  op ← (λ e, if bool_decide (SyncOperation.Source op = "local"%string) then
               let vc := VectorClock.Increment (vectorClock e) (peerID e) in
               (Ok (SyncOperation.with_VectorClock (Some vc) op), with_vectorClock vc e)
             else (Ok op, e));
  gmodify (λ e, with_operationQueue
    (OperationQueue.Enqueue (SyncOperation.FileID op) op (operationQueue e)) e);;
  ignoring (on_db (DB.AppendOperation (log_entry op)));;
  gmodify (broadcast op).

(** The stored file id, or a new one, which is then stored. *)
Definition hash_file (path peerID : string) : GoM OS.t string :=
  st ← OS.Stat path;
  content ← OS.ReadFile path;
  glift (Hashing.GenerateFileID blake3 (Some (content, st.1.1.2)) peerID).

Definition file_id (path : string) : GoM t string := λ e,
  (r ← gtry (on_fs (GetFileID path));
   match r with
   | inl existing => if negb (is_empty existing) then mret existing
                     else fileID ← on_fs (hash_file path (peerID e)); on_fs (SetFileID path fileID);; mret fileID
   | inr _ => fileID ← on_fs (hash_file path (peerID e)); on_fs (SetFileID path fileID);; mret fileID
   end) e.

Definition getFileChecksum (path : string) : GoM t string :=
  data ← on_fs (OS.ReadFile path); mret (Hashing.HashString blake3 data).

(** The record of a file changed on this machine: no clock, no mode. *)
Definition local_metadata (now : time) (fileID relPath checksum : string) (size : Z) (peer : string)
    : FileMetadata.t :=
  FileMetadata.mk fileID relPath checksum size now None peer None false None None zero_time zero_time.

(** [isRename, ..., err := e.renameDetector.CheckRename(...)] declares a new
    variable: its answer is lost when the block ends. *)
Definition handleCreate (now : time) (path : string) : GoM t unit := λ e0,
  or_return (file_id path) (λ fileID,
  or_return (getFileChecksum path) (λ checksum,
  or_return (on_fs (GetFileMetadata path)) (λ '(size, _, _),
  or_return (glift (Rel (FolderPath e0) path)) (λ relPath,
    existing ← gtry (query (DB.GetFileByID fileID));
    let oldPath :=
      if negb (is_empty fileID) then
        match existing with
        | inl f => if bool_decide (FileMetadata.Path f ≠ relPath) then Some (FileMetadata.Path f) else None
        | inr _ => None
        end
      else None in
    match oldPath with
    | Some oldPath =>
        queueOperation (SyncOperation.with_content (Some oldPath) checksum size
          (NewSyncOperation now OpRename relPath fileID (peerID e0)))
    | None =>
        gmodify (λ e, with_renameDetector
          (RenameDetector.CheckRename fileID checksum size (renameDetector e)).2 e);;
        or_return (on_db (DB.InsertFile now (local_metadata now fileID relPath checksum size (peerID e0)))) (λ _,
          queueOperation (SyncOperation.with_content None checksum size
            (NewSyncOperation now OpCreate relPath fileID (peerID e0))))
    end)))) e0.

Definition handleUpdate (now : time) (path : string) : GoM t unit := λ e0,
  or_return (file_id path) (λ fileID,
  or_return (getFileChecksum path) (λ checksum,
  or_return (on_fs (GetFileMetadata path)) (λ '(size, _, _),
  or_return (glift (Rel (FolderPath e0) path)) (λ relPath,
  or_return (on_db (DB.InsertFile now (local_metadata now fileID relPath checksum size (peerID e0)))) (λ _,
    queueOperation (SyncOperation.with_content None checksum size
      (NewSyncOperation now OpUpdate relPath fileID (peerID e0)))))))) e0.

(** The record of the deleted file stays in the database. *)
Definition handleDelete (now : time) (path : string) : GoM t unit := λ e0,
  or_return (glift (Rel (FolderPath e0) path)) (λ relPath,
    file ← gtry (query (DB.GetFileByPath relPath));
    match file with
    | inl f =>
        gmodify (λ e, with_renameDetector
          (RenameDetector.RecordDelete now (FileMetadata.FileID f) (FileMetadata.Checksum f) path
             (FileMetadata.Size f) (FileMetadata.Mtime f) (renameDetector e)) e);;
        queueOperation (NewSyncOperation now OpDelete relPath (FileMetadata.FileID f) (peerID e0))
    | inr _ =>
        or_return (on_fs (hash_file path (peerID e0))) (λ fileID,
          queueOperation (NewSyncOperation now OpDelete relPath fileID (peerID e0)))
    end) e0.

Definition handleRename (now : time) (path : string) : GoM t unit := handleCreate now path.

Definition handleFileEvent (now : time) (event : Watcher.FileEvent.t) : GoM t unit :=
  let path := Watcher.FileEvent.Path event in
  let op := Watcher.FileEvent.Operation event in
  if decide (op = "create"%string) then handleCreate now path
  else if decide (op = "update"%string) then handleUpdate now path
  else if decide (op = "delete"%string) then handleDelete now path
  else if decide (op = "rename"%string) then handleRename now path
  else mret tt.

(** ** Operations received from peers *)

Definition atomicWriteFile (now : time) (rand filePath : string) (data : bytes) : GoM OS.t unit :=
  tempPath ← or_else (OS.CreateTemp now (Dir filePath) tmp_pattern rand) no_cleanup "failed to create temp file";
  let remove := ignore_err (OS.Remove tempPath) in
  or_else (OS.Write now tempPath data) (ignore_err OS.Close;; remove) "failed to write to temp file";;
  or_else OS.Close remove "failed to close temp file";;
  or_else (OS.Rename tempPath filePath) remove "failed to rename temp file".

(** The two sides of a conflict as the resolver sees them. *)
Definition local_op (f : FileMetadata.t) (data : bytes) : ConflictOp.t :=
  ConflictOp.mk "" "" (FileMetadata.Path f) None (FileMetadata.FileID f) (FileMetadata.Checksum f)
    (FileMetadata.Size f) (unix_milli (FileMetadata.Mtime f)) (FileMetadata.PeerID f) data.

Definition remote_op (m : SyncOperation.t) (data : bytes) : ConflictOp.t :=
  ConflictOp.mk "" "" (SyncOperation.Path m) None (SyncOperation.FileID m) (SyncOperation.Checksum m)
    (SyncOperation.Size m) (SyncOperation.Mtime m) (SyncOperation.PeerID m) data.

(** What to do with an incoming create or update. *)
Inductive decision : Type :=
  | KeepLocal (f : FileMetadata.t)
  | ApplyRemote
  | ApplyMerge (winner : ConflictOp.t)
  | Abandon.

Definition resolve (m : SyncOperation.t) (fileData : bytes) (absPath : string) : GoM t decision := λ e,
  match DB.GetFileByID (SyncOperation.FileID m) (db e) with
  | Err _ => (Ok ApplyRemote, e)
  | Panic w => (Panic w, e)
  | Ok localFile =>
      if bool_decide (FileMetadata.Checksum localFile = SyncOperation.Checksum m) then (Ok ApplyRemote, e)
      else
        (r ← gtry (on_fs (OS.ReadFile absPath));
         let localData := match r with inl d => d | inr _ => [] end in
         let lop := local_op localFile localData in
         let rop := remote_op m fileData in
         match Resolver.ResolveConflict (conflictResolver e) lop rop
                 (default ∅ (FileMetadata.VectorClock localFile)) (default ∅ (SyncOperation.VectorClock m)) with
         | Ok winner =>
             if bool_decide (ConflictOp.FileID winner = ConflictOp.FileID lop) &&
                bool_decide (ConflictOp.Checksum winner = ConflictOp.Checksum lop) then mret (KeepLocal localFile)
             else if bool_decide (ConflictOp.FileID winner = ConflictOp.FileID rop) &&
                     bool_decide (ConflictOp.Checksum winner = ConflictOp.Checksum rop) then mret ApplyRemote
             else mret (ApplyMerge winner)
         | Err _ => mret Abandon
         | Panic w => gpanic w
         end) e
  end.

(** An update broadcast on behalf of this peer. *)
Definition broadcast_op (now : time) (path fileID checksum : string) (size mtime : Z) (self : string)
    (data : bytes) (vc : option VectorClock.t) : SyncOperation.t :=
  SyncOperation.mk (generateOperationID now) OpUpdate path None fileID checksum size 0 vc self "local"
    mtime None data None None None None None None.

(** The record of a file received from a peer. *)
Definition remote_metadata (m : SyncOperation.t) : FileMetadata.t :=
  FileMetadata.mk (SyncOperation.FileID m) (SyncOperation.Path m) (SyncOperation.Checksum m)
    (SyncOperation.Size m) (of_unix_milli (SyncOperation.Mtime m)) (SyncOperation.Mode m)
    (SyncOperation.PeerID m) (SyncOperation.VectorClock m) (default false (SyncOperation.Compressed m))
    (SyncOperation.OriginalSize m) (SyncOperation.CompressionAlgorithm m) zero_time zero_time.

(** Writes the file and its record. *)
Definition apply_file (now : time) (rand absPath : string) (fileData : bytes) (m : SyncOperation.t) : GoM t unit :=
  or_return (on_fs (atomicWriteFile now rand absPath fileData)) (λ _,
    on_fs (SetFileID absPath (SyncOperation.FileID m));;
    ignoring (on_db (DB.InsertFile now (remote_metadata m)))).

Definition ignoring_path {A} (absPath : string) (m : GoM t A) : GoM t A :=
  gmodify (λ e, with_watcher (Watcher.IgnorePath absPath (watcher e)) e);;
  deferring (λ e, with_watcher (Watcher.WatchPath absPath (watcher e)) e) m.

(** The local version wins: it is broadcast, the incoming one dropped. *)
Definition keep_local (now : time) (m : SyncOperation.t) (absPath : string) (localFile : FileMetadata.t)
    : GoM t unit := λ e,
  or_return (on_fs (OS.ReadFile absPath)) (λ localData,
    gmodify (broadcast (broadcast_op now (SyncOperation.Path m) (FileMetadata.FileID localFile)
      (FileMetadata.Checksum localFile) (FileMetadata.Size localFile)
      (unix_milli (FileMetadata.Mtime localFile)) (peerID e) localData
      (Some (default ∅ (FileMetadata.VectorClock localFile)))))) e.

(** The merged text is applied, and broadcast whether or not that succeeds. *)
Definition apply_merge (now : time) (rand : string) (m : SyncOperation.t) (absPath : string)
    (winner : ConflictOp.t) : GoM t unit := λ e,
  let m' := SyncOperation.with_data (ConflictOp.Data winner) (ConflictOp.Checksum winner)
              (ConflictOp.Size winner) m in
  deferring (broadcast (broadcast_op now (SyncOperation.Path m') (SyncOperation.FileID m')
      (SyncOperation.Checksum m') (SyncOperation.Size m') (unix_milli now) (peerID e)
      (ConflictOp.Data winner) (SyncOperation.VectorClock m')))
    (apply_file now rand absPath (ConflictOp.Data winner) m') e.

Definition process_write (now : time) (rand : string) (fileData : bytes) (m : SyncOperation.t)
    (absPath : string) : GoM t unit :=
  d ← resolve m fileData absPath;
  match d with
  | Abandon => mret tt
  | KeepLocal localFile => keep_local now m absPath localFile
  | ApplyMerge winner => apply_merge now rand m absPath winner
  | ApplyRemote => apply_file now rand absPath fileData m
  end.

(** A file that is not there is deleted from the database all the same. *)
Definition process_delete (m : SyncOperation.t) (absPath : string) : GoM t unit :=
  r ← gtry (on_fs (OS.Remove absPath));
  match r with
  | inr err => if bool_decide (err ≠ OS.NotExist) then mret tt
               else ignoring (on_db (DB.DeleteFile (SyncOperation.FileID m)))
  | inl _ => ignoring (on_db (DB.DeleteFile (SyncOperation.FileID m)))
  end.

Definition processIncomingFileAsync (now : time) (rand : string) (fileData : bytes) (metadata : SyncOperation.t)
    : GoM t unit := λ e0,
  (gmodify (λ e, match SyncOperation.VectorClock metadata with
                 | Some vc => with_vectorClock (VectorClock.Merge (vectorClock e) vc) e
                 | None => e
                 end);;
   let absPath := Join2 (FolderPath e0) (SyncOperation.Path metadata) in
   let ty := SyncOperation.Type_ metadata in
   if decide (ty = OpCreate ∨ ty = OpUpdate) then
     ignoring_path absPath (process_write now rand fileData metadata absPath)
   else if decide (ty = OpDelete) then
     ignoring_path absPath (process_delete metadata absPath)
   else mret tt) e0.

(** Returns at once; the work is a goroutine. *)
Definition HandleIncomingFile (now : time) (fileData : bytes) (metadata : SyncOperation.t) : GoM t unit :=
  let metadata := SyncOperation.with_Source "remote" metadata in
  gmodify (λ e,
    let e := if negb (is_empty (SyncOperation.Checksum metadata))
             then addRecentWrite now (SyncOperation.Checksum metadata) e else e in
    with_tasks (tasks e ++ [(fileData, metadata)]) e).

(** The goroutine at position [i] runs. *)
Definition run_task (now : time) (rand : string) (i : nat) : GoM t unit := λ e,
  match tasks e !! i with
  | None => (Ok tt, e)
  | Some (fileData, metadata) =>
      processIncomingFileAsync now rand fileData metadata (with_tasks (delete i (tasks e)) e)
  end.

Definition HandleIncomingRename (now : time) (metadata : SyncOperation.t) : GoM t unit := λ e0,
  match SyncOperation.FromPath metadata with
  | None => (Err "rename operation missing FromPath", e0)
  | Some from =>
      let fromPath := Join2 (FolderPath e0) from in
      let toPath := Join2 (FolderPath e0) (SyncOperation.Path metadata) in
      ignoring_path fromPath (ignoring_path toPath (
        gwrap "failed to rename file" (on_fs (OS.Rename fromPath toPath));;
        on_fs (SetFileID toPath (SyncOperation.FileID metadata));;
        gwrap "failed to update database" (on_db (DB.InsertFile now
          (FileMetadata.mk (SyncOperation.FileID metadata) (SyncOperation.Path metadata)
             (SyncOperation.Checksum metadata) (SyncOperation.Size metadata)
             (of_unix_milli (SyncOperation.Mtime metadata)) None (SyncOperation.PeerID metadata) None
             (default false (SyncOperation.Compressed metadata)) (SyncOperation.OriginalSize metadata)
             (SyncOperation.CompressionAlgorithm metadata) zero_time zero_time))))) e0
  end.

(** ** Replay after a restart *)

(** Seconds where operations carry milliseconds. *)
Definition logEntryToSyncOperation (entry : LogEntry.t) : SyncOperation.t :=
  SyncOperation.mk (LogEntry.OperationID entry) (LogEntry.OperationType entry) (LogEntry.Path entry)
    (LogEntry.FromPath entry) (default ""%string (LogEntry.FileID entry))
    (default ""%string (LogEntry.Checksum entry)) (default 0 (LogEntry.Size entry))
    (unix_sec (LogEntry.Timestamp entry)) (LogEntry.VectorClock entry) (LogEntry.PeerID entry) "local"
    (match LogEntry.Mtime entry with Some t => unix_sec t | None => 0 end) (LogEntry.Mode entry)
    (LogEntry.Data entry) None None (Some (LogEntry.Compressed entry)) (LogEntry.OriginalSize entry)
    (LogEntry.CompressionAlgorithm entry) None.

(** Own operations are broadcast again; the successes and failures are only
    logged. *)
Definition ReplayUnacknowledgedOperations : GoM t unit := λ e,
  match DB.GetUnacknowledgedOperations (db e) with
  | Err err => (Err (wrap "failed to get unacknowledged operations" err), e)
  | Panic w => (Panic w, e)
  | Ok operations =>
      (Ok tt, foldl (λ e entry,
         let syncOp := logEntryToSyncOperation entry in
         if bool_decide (SyncOperation.PeerID syncOp = peerID e) then broadcast syncOp e else e) e operations)
  end.

(** ** Periodic work *)

Definition maxLogEntries : Z := 10000.
Definition periodicLogCompaction : GoM t unit := ignoring (on_db (DB.CompactLog maxLogEntries)).

Definition manifest_entry (f : FileMetadata.t) : FileManifestEntry.t :=
  FileManifestEntry.mk (FileMetadata.FileID f) (FileMetadata.Path f) (FileMetadata.Checksum f)
    (FileMetadata.Size f) (unix_sec (FileMetadata.Mtime f)) (FileMetadata.PeerID f).

(** The manifest is built and dropped: nothing is sent. *)
Definition syncStateWithPeers : GoM t unit := λ e,
  if negb (has_messenger e) then (Ok tt, e)
  else match GetAllFiles e with
       | Err err => (Err (wrap "failed to get file manifest" err), e)
       | Panic w => (Panic w, e)
       | Ok files => let fileManifest := manifest_entry <$> files in (Ok tt, e)
       end.

(** ** The test hook [HandleMessage] *)

Definition op_of_payload (p : LogEntryPayload.t) : SyncOperation.t :=
  SyncOperation.mk (LogEntryPayload.OperationID p) (LogEntryPayload.Type_ p) (LogEntryPayload.Path p)
    (LogEntryPayload.FromPath p) (default ""%string (LogEntryPayload.FileID p))
    (default ""%string (LogEntryPayload.Checksum p)) (default 0 (LogEntryPayload.Size p))
    (LogEntryPayload.Timestamp p) None (LogEntryPayload.PeerID p) "remote"
    (default 0 (LogEntryPayload.Mtime p)) (LogEntryPayload.Mode p) [] None None
    (LogEntryPayload.Compressed p) (LogEntryPayload.OriginalSize p)
    (LogEntryPayload.CompressionAlgorithm p) None.

Definition HandleMessage (now : time) (msg : Message.t) : GoM t unit :=
  if decide (Message.Type_ msg = TypeSyncOperation) then
    match Message.Payload msg with
    | PPointer (BLogEntry p) =>
        let syncOp := op_of_payload p in
        let ty := SyncOperation.Type_ syncOp in
        if decide (ty = OpCreate ∨ ty = OpUpdate) then HandleIncomingFile now (LogEntryPayload.Data p) syncOp
        else if decide (ty = OpDelete) then HandleIncomingFile now [] syncOp
        else if decide (ty = OpRename) then HandleIncomingRename now syncOp
        else gfail "unsupported operation type"
    | _ => gfail "invalid sync operation payload"
    end
  else mret tt.

(** ** The engine as a system

    What [Start] sets going: the event loop, the tickers, the goroutines of
    incoming operations, and the calls of the network layer; [Restarted] is the
    next run of the program on the same disk and database. *)
Inductive event : Type :=
  | Changed (now : time) (ev : Watcher.FileEvent.t)
  | Received (now : time) (fileData : bytes) (metadata : SyncOperation.t)
  | Scheduled (now : time) (rand : string) (i : nat)
  | RenameReceived (now : time) (metadata : SyncOperation.t)
  | CompactionTick
  | StateSyncTick
  | CacheTick (now : time)
  | Restarted.

(** Errors of the replay are only logged. *)
Definition Start : GoM t unit := ignoring ReplayUnacknowledgedOperations.

Definition restart (e : t) : t :=
  NewEngine (FolderPath e) (Resolver.strategy (conflictResolver e)) (peerID e) (has_messenger e) (db e) (fs e).

Definition handle (ev : event) : GoM t unit :=
  match ev with
  | Changed now ev => handleFileEvent now ev
  | Received now fileData metadata => HandleIncomingFile now fileData metadata
  | Scheduled now rand i => run_task now rand i
  | RenameReceived now metadata => HandleIncomingRename now metadata
  | CompactionTick => periodicLogCompaction
  | StateSyncTick => ignoring syncStateWithPeers
  | CacheTick now => gmodify (cleanupRecentWrites now)
  | Restarted => gmodify restart;; Start
  end.

(** Any number of events, each against any fate of its system calls. *)
Inductive step : t → t → Prop :=
  | step_handle ev e : step e (handle ev e).2
  | step_faults faults e : step e (with_fs (OS.mk (OS.nodes (fs e)) faults) e).

End Handlers.
End Engine.
