(* ===== verification/EngineProps.v ===== *)
(** * Properties of the sync engine *)

From Stdlib Require Import Strings.Byte Strings.String.
From S2P Require Import Prelude GoStrings GoPath Clock Conflict ConflictProps Hashing Database DatabaseProps Filesystem FilesystemProps Operation Engine.
Import Engine.

(** ** Invariants: a predicate kept by every handler, whatever fails *)

(** [m] keeps [I] on every outcome. *)
Abbreviation keeps I m := (triple I m (λ _, I) I I).

Section Keeping.
Context (I : Engine.t → Prop).

Lemma keeps_bind {A B} (m : GoM Engine.t A) (k : A → GoM Engine.t B) :
  keeps I m → (∀ a, keeps I (k a)) → keeps I (m ≫= k).
Proof. intros Hm Hk. eapply triple_bind; [exact Hm|]. intros a. apply Hk. Qed.

Lemma keeps_ret {A} (a : A) : keeps I (mret a : GoM Engine.t A).
Proof. by intros e He. Qed.

Lemma keeps_gtry {A} (m : GoM Engine.t A) : keeps I m → keeps I (gtry m).
Proof. intros Hm e He. specialize (Hm e He). unfold gtry. by destruct (m e) as [[?|?|?] ?]. Qed.

Lemma keeps_or_return {A} (m : GoM Engine.t A) k :
  keeps I m → (∀ a, keeps I (k a)) → keeps I (or_return m k).
Proof.
  intros Hm Hk. unfold or_return. apply keeps_bind; [by apply keeps_gtry|].
  intros [a|err]; [apply Hk|apply keeps_ret].
Qed.

Lemma keeps_ignoring {A} (m : GoM Engine.t A) : keeps I m → keeps I (ignoring m).
Proof. intros Hm. apply keeps_or_return; [done|]. intros _. apply keeps_ret. Qed.

Lemma keeps_query {A} (q : DB.t → outcome A) : keeps I (query q).
Proof. intros e He. unfold query. by destruct (q (db e)). Qed.

Lemma keeps_glift {A} (o : outcome A) : keeps I (glift o).
Proof. intros e He. unfold glift. by destruct o. Qed.

Lemma keeps_gpanic {A} w : keeps I (gpanic w : GoM Engine.t A).
Proof. by intros e He. Qed.

Lemma keeps_modify f : (∀ e, I e → I (f e)) → keeps I (gmodify f).
Proof. intros H e He. by apply H. Qed.

Lemma keeps_deferring {A} f (m : GoM Engine.t A) :
  (∀ e, I e → I (f e)) → keeps I m → keeps I (deferring f m).
Proof.
  intros Hf Hm e He. specialize (Hm e He). unfold deferring.
  destruct (m e) as [[?|?|?] ?]; auto.
Qed.

(** A function that reads the state it starts in. *)
Lemma keeps_reader {A} (m : GoM Engine.t A) :
  (∀ e, ∃ m', m e = m' e ∧ keeps I m') → keeps I m.
Proof. intros H e He. destruct (H e) as (m' & -> & Hm). by apply Hm. Qed.

Lemma keeps_gwrap {A} ctx (m : GoM Engine.t A) : keeps I m → keeps I (gwrap ctx m).
Proof. intros Hm e He. specialize (Hm e He). unfold gwrap. by destruct (m e) as [[?|?|?] ?]. Qed.
End Keeping.

(** An invariant of the database and the clock of the peer [self]. *)
Section Parts.
Context (D : DB.t → Prop) (C : VectorClock.t → Prop) (self : string).

Definition inv (e : Engine.t) : Prop := D (db e) ∧ C (vectorClock e) ∧ peerID e = self.

(** Two states an invariant cannot tell apart. *)
Definition alike (e e' : Engine.t) : Prop :=
  db e = db e' ∧ vectorClock e = vectorClock e' ∧ peerID e = peerID e'.

Lemma inv_alike e e' : alike e' e → inv e → inv e'.
Proof. unfold inv. by intros (-> & -> & ->). Qed.

Lemma inv_on_fs {A} (m : GoM OS.t A) : keeps inv (on_fs m).
Proof. intros e He. unfold on_fs. by destruct (m (fs e)) as [[?|?|?] ?]. Qed.

Lemma inv_on_db {A} (m : GoM DB.t A) :
  (∀ d, D d → D (m d).2) → keeps inv (on_db m).
Proof.
  intros Hm e (Hd & Hc & Hs). unfold on_db. specialize (Hm _ Hd).
  by destruct (m (db e)) as [[?|?|?] d].
Qed.

Lemma inv_modify f : (∀ e, alike (f e) e) → keeps inv (gmodify f).
Proof. intros Hf. apply keeps_modify. intros e. by apply inv_alike. Qed.

Lemma broadcast_alike op e : alike (broadcast op e) e.
Proof. unfold broadcast. by destruct (has_messenger e). Qed.

Lemma broadcast_inv op e : inv e → inv (broadcast op e).
Proof. apply inv_alike, broadcast_alike. Qed.
End Parts.

(** Keeps the clock as it is; the hypotheses on the statements executed are in the context. *)
Ltac keep :=
  repeat lazymatch goal with
  | |- triple _ (mret _) _ _ _ => apply keeps_ret
  | |- triple _ (glift _) _ _ _ => apply keeps_glift
  | |- triple _ (query _) _ _ _ => apply keeps_query
  | |- triple _ (gpanic _) _ _ _ => apply keeps_gpanic
  | |- triple _ (on_fs _) _ _ _ => apply inv_on_fs
  | |- triple _ (on_db _) _ _ _ => apply inv_on_db; solve [auto]
  | |- triple _ (gmodify (broadcast _)) _ _ _ => apply inv_modify, broadcast_alike
  | |- triple _ (gmodify _) _ _ _ => apply inv_modify; intros ?; done
  | |- triple _ (ignoring _) _ _ _ => apply keeps_ignoring
  | |- triple _ (gtry _) _ _ _ => apply keeps_gtry
  | |- triple _ (gwrap _ _) _ _ _ => apply keeps_gwrap
  | |- triple _ (or_return _ _) _ _ _ => apply keeps_or_return
  | |- triple _ (mbind _ _) _ _ _ => apply keeps_bind
  | |- triple _ _ _ _ _ => fail
  | |- ∀ _, _ => intros ?
  end.

(** [λ e0, m e0], where [e0] is the state the function starts in. *)
Ltac reader e0 :=
  apply keeps_reader; intros e0; cbv beta;
  match goal with |- ∃ m', ?m e0 = m' e0 ∧ _ => exists m; split; [reflexivity|] end.

(** ** What the handlers do to the database and the clock *)
Section Handlers.
Context (blake3 : bytes → bytes).
Context (D : DB.t → Prop) (C : VectorClock.t → Prop).
(** The statements the handlers execute keep [D]; a local operation's clock step
    and a merge keep [C]. *)
Hypothesis D_InsertFile : ∀ now fm d, D d → D (DB.InsertFile now fm d).2.
Hypothesis D_DeleteFile : ∀ f d, D d → D (DB.DeleteFile f d).2.
Hypothesis D_Append : ∀ op d, D d → D (DB.AppendOperation (log_entry op) d).2.
Hypothesis C_Merge : ∀ vc other, C vc → C (VectorClock.Merge vc other).

Context (self : string).
Abbreviation J := (inv D C self).

Lemma file_id_keeps path : keeps J (file_id blake3 path).
Proof.
  unfold file_id. reader e0. apply keeps_bind; [by keep|].
  intros [existing|err]; [destruct (negb _)|]; keep.
Qed.

Lemma getFileChecksum_keeps path : keeps J (getFileChecksum blake3 path).
Proof. unfold getFileChecksum. keep. Qed.

Lemma ignoring_path_keeps {A} absPath (m : GoM Engine.t A) : keeps J m → keeps J (ignoring_path absPath m).
Proof.
  intros Hm. unfold ignoring_path. apply keeps_bind; [by apply inv_modify|]. intros _.
  by apply keeps_deferring.
Qed.

Lemma apply_file_keeps now rand absPath data m : keeps J (apply_file now rand absPath data m).
Proof. unfold apply_file. keep. Qed.

Lemma resolve_keeps m data absPath : keeps J (resolve m data absPath).
Proof.
  apply keeps_reader. intros e0. unfold resolve.
  destruct (DB.GetFileByID _ _) as [f|err|w]; [|by exists (mret ApplyRemote : GoM Engine.t decision); split; [|apply keeps_ret]|
    by exists (gpanic w); split; [|apply keeps_gpanic]].
  case_bool_decide; [by exists (mret ApplyRemote : GoM Engine.t decision); split; [|apply keeps_ret]|].
  eexists. split; [reflexivity|]. apply keeps_bind; [by keep|]. intros r.
  destruct (Resolver.ResolveConflict _ _ _ _ _); [|apply keeps_ret|apply keeps_gpanic].
  repeat case_match; apply keeps_ret.
Qed.

Lemma process_write_keeps now rand data m absPath : keeps J (process_write now rand data m absPath).
Proof.
  unfold process_write. apply keeps_bind; [apply resolve_keeps|]. intros [f| |w|].
  - unfold keep_local. reader e0. keep.
  - apply apply_file_keeps.
  - unfold apply_merge. reader e0. apply keeps_deferring; [|apply apply_file_keeps].
    intros e. apply broadcast_inv.
  - apply keeps_ret.
Qed.

Lemma processIncomingFileAsync_keeps now rand data m :
  keeps J (processIncomingFileAsync now rand data m).
Proof.
  unfold processIncomingFileAsync. reader e0. apply keeps_bind.
  { apply keeps_modify. intros e (Hd & Hc & Hs). destruct (SyncOperation.VectorClock m); [|done].
    split_and!; [done| |done]. by apply C_Merge. }
  intros _. cbv zeta. case_decide; [apply ignoring_path_keeps, process_write_keeps|].
  case_decide; [|apply keeps_ret]. apply ignoring_path_keeps, keeps_bind; [by keep|].
  intros [[]|err]; [by keep|]. case_bool_decide; keep.
Qed.

Lemma HandleIncomingFile_keeps now data m : keeps J (HandleIncomingFile now data m).
Proof. unfold HandleIncomingFile. apply inv_modify. intros e. by destruct (negb _). Qed.

Lemma run_task_keeps now rand i : keeps J (run_task now rand i).
Proof.
  intros e He. unfold run_task. destruct (tasks e !! i) as [[data m]|]; [|done].
  by apply processIncomingFileAsync_keeps.
Qed.

Lemma HandleIncomingRename_keeps now m : keeps J (HandleIncomingRename now m).
Proof.
  apply keeps_reader. intros e0. unfold HandleIncomingRename.
  destruct (SyncOperation.FromPath m) as [from|];
    [|by exists (gfail "rename operation missing FromPath"); split; [|by intros e He]].
  eexists. split; [reflexivity|]. apply ignoring_path_keeps, ignoring_path_keeps. keep.
Qed.

End Handlers.

(** The handlers of local changes: the clock is stepped at most once. *)
Section LocalHandlers.
Context (blake3 : bytes → bytes) (D : DB.t → Prop) (C C' : VectorClock.t → Prop) (self : string).
Hypothesis D_InsertFile : ∀ now fm d, D d → D (DB.InsertFile now fm d).2.
Hypothesis D_Append : ∀ op d, D d → D (DB.AppendOperation (log_entry op) d).2.
(** From [C] to the weaker [C'] of the clock one step later. *)
Hypothesis C_Increment : ∀ vc, C vc → C' (VectorClock.Increment vc self).
Hypothesis C_weaken : ∀ vc, C vc → C' vc.

Abbreviation steps m := (triple (inv D C self) m (λ _, inv D C' self) (inv D C' self) (inv D C' self)).

Lemma inv_weaken e : inv D C self e → inv D C' self e.
Proof. intros (? & ? & ?). repeat split; auto. Qed.

Lemma keeps_steps {A} (m : GoM Engine.t A) : keeps (inv D C self) m → steps m.
Proof. intros H. eapply triple_weaken; [exact H|done|..]; intros; by apply inv_weaken. Qed.

Lemma steps_seq {A B} (m : GoM Engine.t A) (k : A → GoM Engine.t B) :
  keeps (inv D C self) m → (∀ a, steps (k a)) → steps (m ≫= k).
Proof.
  intros Hm Hk e He. specialize (Hm e He). unfold mbind, gom_bind.
  destruct (m e) as [[a|err|w] e']; [by apply Hk|by apply inv_weaken..].
Qed.

Lemma steps_or_return {A} (m : GoM Engine.t A) k :
  keeps (inv D C self) m → (∀ a, steps (k a)) → steps (or_return m k).
Proof.
  intros Hm Hk. unfold or_return. apply steps_seq; [by apply keeps_gtry|].
  intros [a|err]; [apply Hk|]. apply keeps_steps, keeps_ret.
Qed.

Lemma queueOperation_steps op : steps (queueOperation op).
Proof.
  unfold queueOperation. eapply triple_bind.
  - intros e He. instantiate (1 := λ _, inv D C' self). case_bool_decide; [|by apply inv_weaken].
    destruct He as (Hd & Hc & Hs). split_and!; [done| |done]. simpl. rewrite Hs. by apply C_Increment.
  - intros op'. keep.
Qed.

Lemma steps_reader {A} (m : GoM Engine.t A) : (∀ e, ∃ m', m e = m' e ∧ steps m') → steps m.
Proof. intros H e He. destruct (H e) as (m' & -> & Hm). by apply Hm. Qed.

Ltac reads e0 :=
  apply steps_reader; intros e0; cbv beta;
  match goal with |- ∃ m', ?m e0 = m' e0 ∧ _ => exists m; split; [reflexivity|] end.

Ltac step_through := repeat (apply steps_or_return; [first [apply file_id_keeps | apply getFileChecksum_keeps | keep]|intros ?]).

Lemma handleCreate_steps now path : steps (handleCreate blake3 now path).
Proof.
  unfold handleCreate. reads e0. step_through. destruct a1 as [[size ?] ?]. step_through.
  apply steps_seq; [keep|]. intros existing. cbv zeta.
  destruct (if negb _ then _ else _) as [old|]; [apply queueOperation_steps|].
  apply steps_seq; [keep|]. intros _. step_through. apply queueOperation_steps.
Qed.

Lemma handleUpdate_steps now path : steps (handleUpdate blake3 now path).
Proof.
  unfold handleUpdate. reads e0. step_through. destruct a1 as [[size ?] ?]. step_through.
  apply queueOperation_steps.
Qed.

Lemma handleDelete_steps now path : steps (handleDelete blake3 now path).
Proof.
  unfold handleDelete. reads e0. step_through. apply steps_seq; [keep|]. intros [f|err].
  - apply steps_seq; [keep|]. intros _. apply queueOperation_steps.
  - step_through. apply queueOperation_steps.
Qed.

Lemma handleFileEvent_steps now event : steps (handleFileEvent blake3 now event).
Proof.
  unfold handleFileEvent, handleRename. cbv zeta.
  destruct (decide (_ = "create"%string)); [apply handleCreate_steps|].
  destruct (decide (_ = "update"%string)); [apply handleUpdate_steps|].
  destruct (decide (_ = "delete"%string)); [apply handleDelete_steps|].
  destruct (decide (_ = "rename"%string)); [apply handleCreate_steps|apply keeps_steps, keeps_ret].
Qed.

End LocalHandlers.


(** ** Every event of the system *)

Section System.
Context (blake3 : bytes → bytes) (D : DB.t → Prop).
Hypothesis D_InsertFile : ∀ now fm d, D d → D (DB.InsertFile now fm d).2.
Hypothesis D_DeleteFile : ∀ f d, D d → D (DB.DeleteFile f d).2.
Hypothesis D_Append : ∀ op d, D d → D (DB.AppendOperation (log_entry op) d).2.
Hypothesis D_Compact : ∀ d, D d → D (DB.CompactLog maxLogEntries d).2.

Lemma Replay_quiet e : alike (ReplayUnacknowledgedOperations e).2 e.
Proof.
  unfold ReplayUnacknowledgedOperations. destruct (DB.GetUnacknowledgedOperations _) as [ops| |]; [|done..].
  simpl. revert e. induction ops as [|op ops IH]; intros e; simpl; [done|].
  match goal with |- alike (foldl _ ?e1 _) _ => 
    assert (alike e1 e) as Ha; [|destruct (IH e1) as (? & ? & ?), Ha as (? & ? & ?); repeat split; congruence] end.
  case_bool_decide; [apply broadcast_alike|done].
Qed.

Lemma StateSync_quiet e : (syncStateWithPeers e).2 = e.
Proof. unfold syncStateWithPeers. destruct (negb _); [done|]. by destruct (GetAllFiles e). Qed.

(** What an event does to the clock: nothing, a merge, one step of the peer's
    own counter, or a fresh start. *)
Lemma handle_inv (C C' : VectorClock.t → Prop) self ev :
  (∀ now rand i, ev = Scheduled now rand i → ∀ vc other, C vc → C (VectorClock.Merge vc other)) →
  (∀ vc, C vc → C' vc) →
  (∀ now ev', ev = Changed now ev' → ∀ vc, C vc → C' (VectorClock.Increment vc self)) →
  (ev = Restarted → C' ∅) →
  ∀ e, inv D C self e → inv D C' self (handle blake3 ev e).2.
Proof.
  intros HM HW HI HR e He.
  assert (∀ A (m : GoM Engine.t A), keeps (inv D C self) m → inv D C' self (m e).2) as Hkeep.
  { intros A m Hm. specialize (Hm e He). apply (inv_weaken _ _ _ _ HW). by destruct (m e) as [[?|?|?] e']. }
  destruct ev as [now ev'|now data m|now rand i|now m| | |now|]; cbv [handle].
  - pose proof (handleFileEvent_steps blake3 D C C' self D_InsertFile D_Append (HI now ev' eq_refl) HW now ev' e He).
    by destruct (handleFileEvent _ _ _ _) as [[?|?|?] e'].
  - by apply Hkeep, HandleIncomingFile_keeps.
  - apply Hkeep, run_task_keeps; eauto.
  - by apply Hkeep, HandleIncomingRename_keeps.
  - apply Hkeep, keeps_ignoring, inv_on_db, D_Compact.
  - apply Hkeep, keeps_ignoring. intros e' He'. unfold inv in *.
    pose proof (StateSync_quiet e') as Hq. by destruct (syncStateWithPeers e') as [[?|?|?] e'']; simpl in Hq; subst.
  - apply (inv_weaken _ _ _ _ HW), He.
  - destruct He as (Hd & Hc & Hs). unfold Start, ignoring, or_return, mbind, gom_bind, gtry. simpl.
    pose proof (Replay_quiet (restart e)) as Hq.
    assert (inv D C' self (restart e)) as Hr by (repeat split; auto).
    destruct (ReplayUnacknowledgedOperations (restart e)) as [[?|?|?] e']; by apply (inv_alike _ _ _ _ _ Hq).
Qed.

Lemma step_db e e' : step blake3 e e' → D (db e) → D (db e') ∧ peerID e' = peerID e.
Proof.
  intros [ev e1|fs e1] Hd; [|done].
  destruct (handle_inv (λ _, True) (λ _, True) (peerID e1) ev) with e1 as (? & _ & ?); done.
Qed.

Lemma steps_db e e' : rtc (step blake3) e e' → D (db e) → D (db e') ∧ peerID e' = peerID e.
Proof.
  induction 1 as [|e1 e2 e3 H12 _ IH]; [done|]. intros Hd.
  destruct (step_db _ _ H12 Hd) as [Hd2 Hp2]. destruct (IH Hd2) as [? Hp3]. split; [done|by rewrite Hp3].
Qed.
End System.

(** ** The operation log survives *)

Definition unacknowledged (r : OpRow.t) : Prop := OpRow.acknowledged r = false.

(** A good database whose log extends [ops0]; nothing in it is acknowledged. *)
Definition durable (ops0 : list OpRow.t) (d : DB.t) : Prop :=
  wf d ∧ Forall unacknowledged (DB.operations d) ∧ ops0 `prefix_of` DB.operations d.

Lemma durable_same_log ops0 d d' :
  wf d' → DB.operations d' = DB.operations d → durable ops0 d → durable ops0 d'.
Proof. intros Hwf He (_ & Hu & Hp). split_and!; [done|by rewrite He..]. Qed.

Lemma InsertFile_durable ops0 now fm d : durable ops0 d → durable ops0 (DB.InsertFile now fm d).2.
Proof.
  intros Hd. eapply durable_same_log; [by apply InsertFile_wf, Hd| |done].
  unfold DB.InsertFile. by destruct (FileMetadata.VectorClock fm).
Qed.

Lemma DeleteFile_durable ops0 f d : durable ops0 d → durable ops0 (DB.DeleteFile f d).2.
Proof.
  intros Hd. eapply durable_same_log; [by apply DeleteFile_wf, Hd| |done].
  unfold DB.DeleteFile. by destruct (_ && _).
Qed.

Lemma Append_durable ops0 op d : durable ops0 d → durable ops0 (DB.AppendOperation (log_entry op) d).2.
Proof.
  intros (Hwf & Hu & Hp). split; [by apply AppendOperation_wf|]. unfold DB.AppendOperation.
  destruct (Clock.VectorClock.MarshalJSON _); [|done..]. destruct (existsb _ _); [done|]. simpl. split.
  - apply Forall_app. split; [done|]. by apply Forall_singleton.
  - by apply prefix_app_r.
Qed.

Lemma CompactLog_durable ops0 n d : durable ops0 d → durable ops0 (DB.CompactLog n d).2.
Proof.
  intros (Hwf & Hu & Hp). eapply durable_same_log; [by apply CompactLog_wf| |by split_and!].
  unfold DB.CompactLog. destruct (_ <=? _); [done|]. simpl.
  assert (List.filter OpRow.acknowledged (DB.operations d) = []) as ->.
  { apply filter_none. rewrite Forall_forall in Hu. exact Hu. }
  unfold order_by. assert (merge_sort DB.seq_le [] = []) as -> by done. rewrite take_nil.
  apply filter_all. intros r _. by destruct (_ <? _).
Qed.

(** C4: Whatever the engine does, whatever system call fails or kills the
    process, and however often it is restarted, every operation in its log stays
    there, in the same place and unacknowledged, and the database keeps its
    integrity: the log only ever grows at its end.  (Nothing acknowledges an
    operation, so compaction never removes one.) *)
Theorem log_never_loses blake3 e e' :
  rtc (step blake3) e e' → wf (db e) → Forall unacknowledged (DB.operations (db e)) →
  wf (db e') ∧ Forall unacknowledged (DB.operations (db e')) ∧
  DB.operations (db e) `prefix_of` DB.operations (db e').
Proof.
  intros Hr Hwf Hu.
  destruct (steps_db blake3 (durable (DB.operations (db e)))) with e e' as [H _]; [..|exact H].
  - intros; by apply InsertFile_durable.
  - intros; by apply DeleteFile_durable.
  - intros; by apply Append_durable.
  - intros; by apply CompactLog_durable.
  - done.
  - by split_and!.
Qed.

(** ** The clock only grows *)

(** One event of a run without restarts, while the peer's own counter has room. *)
Inductive running (blake3 : bytes → bytes) : Engine.t → Engine.t → Prop :=
  | running_handle ev e :
      ev ≠ Restarted →
      (∀ now f, ev = Changed now f → VectorClock.Get (vectorClock e) (peerID e) < two63 - 1) →
      running blake3 e (handle blake3 ev e).2.

Lemma running_clock blake3 e e' :
  running blake3 e e' → VectorClock.wf (vectorClock e) →
  VectorClock.wf (vectorClock e') ∧ vectorClock e ≤ᵥ vectorClock e'.
Proof.
  intros [ev e1 Hne Hroom] Hwf. set (self := peerID e1).
  set (C := λ vc, (VectorClock.wf vc ∧ vectorClock e1 ≤ᵥ vc) ∧
    ((∃ now f, ev = Changed now f) → VectorClock.Get vc self < two63 - 1)).
  destruct (handle_inv blake3 (λ _, True)) with C (λ vc, VectorClock.wf vc ∧ vectorClock e1 ≤ᵥ vc) self ev e1
    as (_ & H & _); try done.
  - intros now rand i -> vc other [[Hw Hle] _]. split; [|by intros (? & ? & ?)]. split; [by auto with go|].
    etrans; [exact Hle|by auto with go].
  - by intros vc [? _].
  - intros now f Hev vc [[Hw Hle] Hr]. specialize (Hr (ex_intro _ now (ex_intro _ f Hev))).
    split; [by auto with go|]. etrans; [exact Hle|]. by apply Clock.Increment_le.
  - split_and!; try done. split; [done|]. intros (now & f & Hev). by apply (Hroom now f).
Qed.

(** C20: Between restarts the engine's vector clock never goes back, whichever
    events it handles and whatever fails in them, as long as its own counter
    has not reached the largest [int64] when a local change comes. *)
Theorem clock_monotone blake3 e e' :
  rtc (running blake3) e e' → VectorClock.wf (vectorClock e) →
  VectorClock.wf (vectorClock e') ∧ vectorClock e ≤ᵥ vectorClock e'.
Proof.
  induction 1 as [|e1 e2 e3 H12 _ IH]; intros Hwf; [done|].
  destruct (running_clock _ _ _ H12 Hwf) as [Hw2 H2]. destruct (IH Hw2) as [Hw3 H3].
  split; [done|by etrans].
Qed.

(** ** At a concrete run *)

Definition run (blake3 : bytes → bytes) (evs : list event) (e : Engine.t) : Engine.t :=
  foldl (λ e ev, (handle blake3 ev e).2) e evs.

Lemma run_steps blake3 evs e : rtc (step blake3) e (run blake3 evs e).
Proof.
  revert e. induction evs as [|ev evs IH]; intros e; [apply rtc_refl|].
  eapply rtc_l; [apply (step_handle _ ev)|apply IH].
Qed.

Definition demo_file (data : string) : OS.file := OS.mkFile (to_bytes data) 420 0 {[XattrKey := "f1"%string]}.

(** Peer [self] with one tracked file. *)
Definition demo_engine (self data : string) (d : DB.t) : Engine.t :=
  NewEngine "/sync" "last_write_wins" self true d
    (OS.mk {["/sync"%string := OS.Directory; "/sync/a.txt"%string := OS.File (demo_file data)]} []).

(** An edit is handled, its system calls fail from then on, the process dies in
    one while a received version is written, and the program is restarted. *)
Definition demo_events : list event :=
  [Changed 7 (Watcher.FileEvent.mk "/sync/a.txt" 2 "update");
   Received 8 (to_bytes "new") (NewSyncOperation 8 OpUpdate "a.txt" "f1" "B")].

Definition demo_run : Engine.t :=
  let e1 := run blake3_demo demo_events (demo_engine "A" "edited" DB.initSchema) in
  let e2 := with_fs (OS.mk (OS.nodes (fs e1)) [OS.Fine; OS.Fine; OS.Dies 1]) e1 in
  run blake3_demo [Scheduled 9 "x" 0; Restarted] e2.

Lemma log_never_loses_witness :
  length (DB.operations (db demo_run)) = 1%nat ∧ Forall unacknowledged (DB.operations (db demo_run)).
Proof.
  split; [vm_compute; reflexivity|].
  assert (rtc (step blake3_demo) (demo_engine "A" "edited" DB.initSchema) demo_run) as Hr.
  { unfold demo_run. etrans; [apply run_steps|]. eapply rtc_l; [apply (step_faults _ [OS.Fine; OS.Fine; OS.Dies 1])|].
    apply (run_steps blake3_demo [Scheduled 9 "x" 0; Restarted]). }
  destruct (log_never_loses blake3_demo _ _ Hr initSchema_wf) as (_ & H & _); [constructor|exact H].
Defined.

Lemma clock_monotone_witness :
  let e := demo_engine "A" "edited" DB.initSchema in
  let e' := run blake3_demo demo_events e in
  vectorClock e ≤ᵥ vectorClock e' ∧ vectorClock e' = {["A"%string := 1]}.
Proof.
  cbv zeta. split; [|vm_compute; reflexivity].
  eapply (clock_monotone blake3_demo); [|by apply map_Forall_empty].
  unfold run, demo_events. cbn [foldl].
  eapply rtc_l; [apply (running_handle _ (Changed 7 (Watcher.FileEvent.mk "/sync/a.txt" 2 "update"))); [discriminate|intros ???; reflexivity]|].
  eapply rtc_l; [apply (running_handle _ (Received 8 (to_bytes "new") (NewSyncOperation 8 OpUpdate "a.txt" "f1" "B"))); [discriminate|intros ???; discriminate]|].
  apply rtc_refl.
Defined.
