(* ===== verification/EngineBehaviour.v ===== *)
(** * What the engine's handlers do

    Local changes, operations received from peers, replay: the results of the
    handlers of Engine.v, without faults and with them. *)

From Stdlib Require Import Strings.Byte Strings.String.
From S2P Require Import Prelude GoStrings GoPath Clock Conflict ConflictProps Hashing Database DatabaseProps Filesystem FilesystemProps Operation Engine EngineProps.
Import Engine.

(** ** System calls without faults *)

Lemma sys_fine {A} name partial (call : GoM OS.t A) s : OS.faults s = [] → OS.sys name partial call s = call s.
Proof. destruct s as [n f]. simpl. by intros ->. Qed.

Section Calls.
Context (s : OS.t) (p : string) (x : OS.file).
Hypothesis fine : OS.faults s = [].
Hypothesis is_file : OS.look (Clean p) s = Some (OS.File x).

Lemma ReadFile_fine : OS.ReadFile p s = (Ok (OS.content x), s).
Proof. unfold OS.ReadFile. rewrite sys_fine by done. by rewrite is_file. Qed.

Lemma Stat_fine : OS.Stat p s = (Ok (zlen (OS.content x), OS.mtime x, OS.mode x, false), s).
Proof. unfold OS.Stat. rewrite sys_fine by done. by rewrite is_file. Qed.

Lemma GetFileMetadata_fine :
  GetFileMetadata p s = (Ok (zlen (OS.content x), unix_sec (OS.mtime x), OS.mode x), s).
Proof. unfold GetFileMetadata. by rewrite Stat_fine. Qed.

Lemma GetFileID_fine v :
  OS.xattrs x !! XattrKey = Some v → (String.length v ≤ 256)%nat → GetFileID p s = (Ok v, s).
Proof.
  intros Hx Hl. unfold GetFileID, getXattr, or_else, OS.Getxattr. rewrite sys_fine by done.
  rewrite is_file, Hx. by rewrite (proj2 (Nat.ltb_ge _ _) Hl).
Qed.

Definition with_id (id : string) : OS.file :=
  OS.mkFile (OS.content x) (OS.mode x) (OS.mtime x) (<[XattrKey := id]> (OS.xattrs x)).

Lemma SetFileID_fine id : SetFileID p id s = (Ok tt, OS.put (Clean p) (OS.File (with_id id)) s).
Proof.
  unfold SetFileID, ignore_err, setXattr, or_else, OS.Setxattr. rewrite sys_fine by done.
  rewrite is_file. unfold OS.alter_file. by rewrite is_file.
Qed.
End Calls.

(** The engine's writer on a free disk. *)
Lemma atomicWriteFile_fine now rand p data s :
  let tmp := Join2 (Dir p) (tmp_pattern +:+ rand) in
  OS.faults s = [] → Clean p = p → OS.look (Dir p) s = Some OS.Directory →
  OS.is_dir p s = false → OS.look tmp s = None → tmp ≠ p →
  atomicWriteFile now rand p data s = (Ok tt, OS.put p (OS.File (OS.mkFile data 384 now ∅)) s).
Proof.
  intros t Hf Hp Hd Hn Ht Htp. destruct s as [nodes faults]. simpl in Hf. subst faults.
  assert (Clean t = t) as Htc by by apply Join2_clean.
  assert (Dir p ≠ t) as Hdt by congruence.
  assert (Clean (Dir p) = Dir p) as Hdc by apply Clean_Clean.
  unfold OS.look in Hd, Ht. simpl in Hd, Ht.
  unfold atomicWriteFile, mbind, gom_bind, or_else.
  unfold OS.CreateTemp. rewrite sys_fine by done. cbv beta zeta. fold t.
  unfold OS.is_dir at 1. rewrite Hdc. unfold OS.look. cbn [OS.nodes]. rewrite Hd, Ht. cbn [negb].
  unfold OS.Write. rewrite sys_fine by done. cbv beta. unfold OS.alter_file, OS.put, OS.set_nodes, OS.look.
  cbn [OS.nodes]. rewrite lookup_insert_eq. cbn [OS.content OS.mode OS.xattrs OS.append_data app].
  unfold OS.Close. rewrite sys_fine by done. cbv beta.
  unfold OS.Rename. rewrite sys_fine by done. rewrite Htc, Hp. unfold OS.look, OS.is_dir, OS.look in *.
  cbn [OS.nodes OS.faults] in *. rewrite lookup_insert_eq, !lookup_insert_ne by done.
  rewrite Hd. cbn [negb]. rewrite Hn. f_equal. f_equal. rewrite insert_insert_eq.
  unfold OS.set_nodes. cbn [OS.nodes OS.faults]. by rewrite delete_insert_id.
Qed.

(** ** Queueing a local operation *)

(** The operation as it leaves: with the clock one step later. *)
Definition stamped (e : Engine.t) (op : SyncOperation.t) : SyncOperation.t :=
  SyncOperation.with_VectorClock (Some (VectorClock.Increment (vectorClock e) (peerID e))) op.

Definition queued (op : SyncOperation.t) (e : Engine.t) : Engine.t :=
  let op' := stamped e op in
  broadcast op' (with_db (DB.AppendOperation (log_entry op') (db e)).2
    (with_operationQueue (OperationQueue.Enqueue (SyncOperation.FileID op') op' (operationQueue e))
      (with_vectorClock (VectorClock.Increment (vectorClock e) (peerID e)) e))).

Lemma queueOperation_eq op e :
  SyncOperation.Source op = "local"%string → queueOperation op e = (Ok tt, queued op e).
Proof.
  intros Hs. unfold queueOperation, mbind, gom_bind. rewrite (bool_decide_eq_true_2 _ Hs).
  unfold gmodify, ignoring, or_return, gtry, on_db, mbind, gom_bind, queued. cbv zeta. cbn [db with_operationQueue with_vectorClock].
  destruct (DB.AppendOperation _ _) as [[?|?|w] d] eqn:E; [done|done|].
  unfold DB.AppendOperation in E. cbn in E. by destruct (existsb _ _).
Qed.

Lemma broadcast_parts op e :
  db (broadcast op e) = db e ∧ fs (broadcast op e) = fs e ∧ vectorClock (broadcast op e) = vectorClock e ∧
  peerID (broadcast op e) = peerID e ∧ FolderPath (broadcast op e) = FolderPath e ∧
  operationQueue (broadcast op e) = operationQueue e ∧ conflictResolver (broadcast op e) = conflictResolver e ∧
  outbox (broadcast op e) = (if has_messenger e then outbox e ++ [op] else outbox e).
Proof. unfold broadcast. by destruct (has_messenger e). Qed.

Lemma broadcast_tasks op e : tasks (broadcast op e) = tasks e.
Proof. unfold broadcast. by destruct (has_messenger e). Qed.

(** The log after an operation with a fresh id. *)
Lemma Append_log op d vc :
  SyncOperation.VectorClock op = Some vc → SyncOperation.ID op ∉ OpRow.operation_id <$> DB.operations d →
  (DB.AppendOperation (log_entry op) d).2 =
  DB.mk (DB.files d) (DB.operations d ++ [DB.op_row (DB.last_sequence d + 1) (log_entry op) (VectorClock.JObject vc)])
    (DB.peers d) (DB.chunks d) (DB.last_sequence d + 1).
Proof.
  intros Hvc Hf. unfold DB.AppendOperation, log_entry. cbn. rewrite Hvc. cbn.
  destruct (existsb _ _) eqn:E; [|done]. apply (existsb_same OpRow.operation_id (SyncOperation.ID op)) in E; [done|].
  intros r. apply is_operation_key.
Qed.

Lemma Append_files op d : DB.files (DB.AppendOperation (log_entry op) d).2 = DB.files d.
Proof. unfold DB.AppendOperation. destruct (Clock.VectorClock.MarshalJSON _); [|done..]. by destruct (existsb _ _). Qed.

Lemma GetFileByID_files k d d' : DB.files d = DB.files d' → DB.GetFileByID k d = DB.GetFileByID k d'.
Proof. unfold DB.GetFileByID. by intros ->. Qed.

(** ** Local changes *)

Lemma on_fs_read {A} (m : GoM OS.t A) a e : m (fs e) = (Ok a, fs e) → on_fs m e = (Ok a, e).
Proof. unfold on_fs. intros ->. by destruct e. Qed.

Lemma or_return_ok {A} (m : GoM Engine.t A) k a e e' : m e = (Ok a, e') → or_return m k e = k a e'.
Proof. unfold or_return, gtry, mbind, gom_bind. by intros ->. Qed.

(** The update operation of a local change and the record that goes with it. *)
Definition update_op (now : time) (rel id checksum : string) (size : Z) (self : string) : SyncOperation.t :=
  SyncOperation.with_content None checksum size (NewSyncOperation now OpUpdate rel id self).

Section LocalChange.
Context (blake3 : bytes → bytes) (now : time) (path rel id : string) (x : OS.file) (e : Engine.t).
Hypothesis fine : OS.faults (fs e) = [].
Hypothesis is_file : OS.look (Clean path) (fs e) = Some (OS.File x).
Hypothesis has_id : OS.xattrs x !! XattrKey = Some id.
Hypothesis id_size : (0 < String.length id ≤ 256)%nat.
Hypothesis inside : Rel (FolderPath e) path = Ok rel.

Let checksum := Hashing.HashString blake3 (OS.content x).
Let size := zlen (OS.content x).
Let row := local_metadata now id rel checksum size (peerID e).

Lemma file_id_fine : file_id blake3 path e = (Ok id, e).
Proof.
  unfold file_id, gtry, mbind, gom_bind.
  rewrite (on_fs_read _ id) by (eapply GetFileID_fine; [done|done|done|lia]).
  by destruct id; simpl in *; [lia|].
Qed.

Lemma getFileChecksum_fine : getFileChecksum blake3 path e = (Ok checksum, e).
Proof. unfold getFileChecksum, mbind, gom_bind. by rewrite (on_fs_read _ (OS.content x)) by by apply ReadFile_fine. Qed.

Lemma handleUpdate_eq :
  handleUpdate blake3 now path e =
  (Ok tt, queued (update_op now rel id checksum size (peerID e)) (with_db (DB.InsertFile now row (db e)).2 e)).
Proof.
  unfold handleUpdate. rewrite (or_return_ok _ _ _ _ _ file_id_fine).
  rewrite (or_return_ok _ _ _ _ _ getFileChecksum_fine).
  rewrite (or_return_ok _ _ _ e e (on_fs_read _ _ _ (GetFileMetadata_fine _ _ _ fine is_file))).
  rewrite (or_return_ok _ _ rel e e) by (unfold glift; by rewrite inside).
  destruct (InsertFile_state now row (db e)) as (vc & HI & _).
  rewrite (or_return_ok _ _ tt e (with_db (DB.InsertFile now row (db e)).2 e)).
  - by apply queueOperation_eq.
  - unfold on_db. change (local_metadata _ _ _ _ _ _) with row. by rewrite HI.
Qed.
End LocalChange.

(** ** Operations received from peers *)

Lemma ReadFile_pure p s : OS.faults s = [] →
  ∃ r, OS.ReadFile p s = (r, s) ∧ ∀ w, r ≠ Panic w.
Proof.
  intros Hf. unfold OS.ReadFile. rewrite sys_fine by done.
  destruct (OS.look (Clean p) s) as [[y|]|]; [eexists; by split|..];
    destruct (OS.is_dir _ _); eexists; by split.
Qed.

(** The incoming version replaces what is here: nothing is recorded, it is the
    same content, or the record's clock is causally before the operation's. *)
Definition remote_wins (m : SyncOperation.t) (e : Engine.t) : Prop :=
  match DB.GetFileByID (SyncOperation.FileID m) (db e) with
  | Err _ => True
  | Panic _ => False
  | Ok f => FileMetadata.Checksum f = SyncOperation.Checksum m ∨
            default ∅ (FileMetadata.VectorClock f) <ᵥ default ∅ (SyncOperation.VectorClock m)
  end.

Lemma resolve_remote m data p e :
  OS.faults (fs e) = [] → remote_wins m e → resolve m data p e = (Ok ApplyRemote, e).
Proof.
  intros Hf Hw. unfold remote_wins in Hw. unfold resolve.
  destruct (DB.GetFileByID _ _) as [f|err|w]; [|done..].
  case_bool_decide as Hc; [done|]. destruct Hw as [|Hw]; [done|].
  unfold gtry, on_fs, mbind, gom_bind. destruct (ReadFile_pure p (fs e) Hf) as (r & -> & Hr).
  apply Compare_lt_iff in Hw.
  destruct r as [d|err|w]; [| |by destruct (Hr w)]; rewrite ResolveConflict_eq, Hw; cbn [Z.eqb Z.ltb Z.compare];
    cbn [ConflictOp.FileID ConflictOp.Checksum local_op remote_op];
    rewrite (bool_decide_eq_false_2 (SyncOperation.Checksum m = _)) by congruence;
    rewrite andb_false_r, !bool_decide_eq_true_2 by done; by destruct e.
Qed.

(** The writer can place a file at [p]: no faults, an existing directory, no
    directory in the way, an unused temporary name. *)
Record writable (rand p : string) (s : OS.t) : Prop := {
  w_fine : OS.faults s = [];
  w_dir : OS.look (Dir p) s = Some OS.Directory;
  w_file : OS.is_dir p s = false;
  w_free : OS.look (Join2 (Dir p) (tmp_pattern +:+ rand)) s = None;
  w_temp : Join2 (Dir p) (tmp_pattern +:+ rand) ≠ p
}.

(** A file as it comes from a peer: mode 0600, the identifier attached. *)
Definition received (now : time) (data : bytes) (m : SyncOperation.t) : OS.node :=
  OS.File (OS.mkFile data 384 now {[XattrKey := SyncOperation.FileID m]}).

Lemma apply_file_fine now rand p data m e :
  Clean p = p → writable rand p (fs e) →
  apply_file now rand p data m e =
  (Ok tt, with_db (DB.InsertFile now (remote_metadata m) (db e)).2 (with_fs (OS.put p (received now data m) (fs e)) e)).
Proof.
  intros Hp [Hf Hd Hn Ht Htp]. unfold apply_file.
  rewrite (or_return_ok _ _ tt e (with_fs (OS.put p (OS.File (OS.mkFile data 384 now ∅)) (fs e)) e)).
  2: { unfold on_fs. by rewrite atomicWriteFile_fine. }
  unfold mbind, gom_bind, on_fs at 1.
  rewrite (SetFileID_fine _ _ (OS.mkFile data 384 now ∅)).
  - unfold ignoring, or_return, gtry, on_db, mbind, gom_bind. cbn.
    destruct (InsertFile_state now (remote_metadata m) (db e)) as (vc & -> & _). cbn.
    rewrite Hp. unfold OS.put, OS.set_nodes, with_id, received. cbn. by rewrite insert_insert_eq.
  - by destruct (fs e).
  - rewrite Hp. unfold OS.look, OS.put, OS.set_nodes. cbn. by rewrite lookup_insert_eq.
Qed.

(** The state after an incoming version was put in place. *)
Definition applied (now : time) (p : string) (data : bytes) (m : SyncOperation.t) (e : Engine.t) : Engine.t :=
  with_watcher (Watcher.WatchPath p (Watcher.IgnorePath p (watcher e)))
    (with_db (DB.InsertFile now (remote_metadata m) (db e)).2
      (with_fs (OS.put p (received now data m) (fs e))
        (with_vectorClock (VectorClock.Merge (vectorClock e) (default ∅ (SyncOperation.VectorClock m))) e))).

Lemma Merge_empty vc : VectorClock.Merge vc ∅ = vc.
Proof. unfold VectorClock.Merge. by rewrite map_to_list_empty. Qed.

Lemma processIncoming_remote now rand data m e :
  let p := Join2 (FolderPath e) (SyncOperation.Path m) in
  SyncOperation.Type_ m = OpCreate ∨ SyncOperation.Type_ m = OpUpdate →
  is_empty (SyncOperation.Path m) = false → writable rand p (fs e) → remote_wins m e →
  processIncomingFileAsync now rand data m e = (Ok tt, applied now p data m e).
Proof.
  intros p Hty Hpath Hw Hr.
  unfold processIncomingFileAsync, mbind, gom_bind. cbn [gmodify]. cbv zeta. fold p.
  rewrite decide_True by done. unfold ignoring_path, mbind, gom_bind. cbn [gmodify].
  match goal with |- deferring _ _ ?s = _ => set (e1 := s) end.
  assert (fs e1 = fs e ∧ db e1 = db e) as [Hfs Hdb] by (subst e1; by destruct (SyncOperation.VectorClock m)).
  unfold deferring, process_write, mbind, gom_bind.
  rewrite resolve_remote; [|rewrite Hfs; apply Hw|unfold remote_wins in *; by rewrite Hdb].
  rewrite apply_file_fine; [|by apply Join2_clean|by rewrite Hfs].
  f_equal. rewrite Hfs, Hdb. subst e1. unfold applied.
  destruct (SyncOperation.VectorClock m); [done|]. cbn [default]. rewrite Merge_empty. by destruct e.
Qed.

(** ** Properties *)

(** C11: When a tracked file (one that carries its identifier) is updated on this
    machine and nothing fails, the handler records the new checksum and size in
    the database without a clock, advances the peer's counter by one, and puts
    one update operation with that clock and checksum at the end of the file's
    queue, of the log, and of what is sent; the disk is not touched. *)
Theorem local_update_recorded blake3 now path rel id x e :
  OS.faults (fs e) = [] → OS.look (Clean path) (fs e) = Some (OS.File x) →
  OS.xattrs x !! XattrKey = Some id → (0 < String.length id ≤ 256)%nat →
  Rel (FolderPath e) path = Ok rel →
  wf (db e) → stored_time now → has_messenger e = true →
  generateOperationID now ∉ OpRow.operation_id <$> DB.operations (db e) →
  let checksum := Hashing.HashString blake3 (OS.content x) in
  let row := local_metadata now id rel checksum (zlen (OS.content x)) (peerID e) in
  let op := stamped e (update_op now rel id checksum (zlen (OS.content x)) (peerID e)) in
  let '(r, e') := handleUpdate blake3 now path e in
  r = Ok tt ∧ fs e' = fs e ∧ vectorClock e' = VectorClock.Increment (vectorClock e) (peerID e) ∧
  (∃ created, DB.GetFileByID id (db e') = Ok (stored now created row)) ∧
  FileMetadata.VectorClock row = None ∧
  outbox e' = outbox e ++ [op] ∧
  OperationQueue.ops id (operationQueue e') = OperationQueue.ops id (operationQueue e) ++ [op] ∧
  ∃ logged, DB.operations (db e') = DB.operations (db e) ++ [logged] ∧
    OpRow.operation_id logged = SyncOperation.ID op ∧ OpRow.checksum logged = Some checksum ∧
    OpRow.vector_clock logged = VectorClock.JObject (vectorClock e').
Proof.
  intros Hf Hl Hx Hid Hrel Hwf Hnow Hmsg Hfresh checksum row op.
  rewrite (handleUpdate_eq blake3 now path rel id x e Hf Hl Hx Hid Hrel). fold checksum. fold row.
  set (e1 := with_db (DB.InsertFile now row (db e)).2 e).
  destruct (InsertFile_state now row (db e)) as (vc & HI & _).
  assert (DB.operations (db e1) = DB.operations (db e)) as Hops by (subst e1; cbn [db with_db]; by rewrite HI).
  set (u := update_op now rel id checksum (zlen (OS.content x)) (peerID e)).
  unfold queued. change (stamped e1 u) with op.
  match goal with |- context [broadcast op ?s] => set (e2 := s); destruct (broadcast_parts op e2) as (Hdb & Hfs & Hvc & _ & _ & Hq & _ & Hout) end.
  rewrite Hdb, Hfs, Hvc, Hq, Hout.
  assert ((DB.AppendOperation (log_entry op) (db e1)).2 = db e2) as Hdb2 by done.
  assert (outbox e2 = outbox e ∧ has_messenger e2 = true) as [-> ->] by done.
  split_and!; try done.
  - destruct (InsertFile_GetFileByID now row (db e) Hwf Hnow Hnow) as [c Hc]. exists c.
    rewrite <- Hdb2. rewrite <- Hc. apply GetFileByID_files. by rewrite Append_files.
  - subst e2. cbn [operationQueue with_db with_operationQueue]. unfold OperationQueue.ops at 1, OperationQueue.Enqueue.
    by rewrite lookup_insert_eq.
  - rewrite <- Hdb2. rewrite (Append_log op _ (VectorClock.Increment (vectorClock e) (peerID e))); [|done|by rewrite Hops].
    eexists. split; [by cbn [DB.operations]; rewrite Hops|]. by split_and!.
Qed.

(** C10: A create or update received from a peer that wins here, with a place to
    write it, ends as the file with exactly the received bytes, mode 0600 and the
    identifier attached, every other file unchanged; the record read back is the
    one of the operation, clock included; the operation's clock is merged; and
    nothing is logged or sent on. *)
Theorem remote_version_applied now rand data m e :
  let p := Join2 (FolderPath e) (SyncOperation.Path m) in
  SyncOperation.Type_ m = OpCreate ∨ SyncOperation.Type_ m = OpUpdate →
  is_empty (SyncOperation.Path m) = false → writable rand p (fs e) → remote_wins m e →
  wf (db e) → stored_time now → stored_time (FileMetadata.Mtime (remote_metadata m)) →
  let '(r, e') := processIncomingFileAsync now rand data m e in
  r = Ok tt ∧
  OS.look p (fs e') = Some (received now data m) ∧ (∀ q, q ≠ p → OS.look q (fs e') = OS.look q (fs e)) ∧
  (∃ created, DB.GetFileByID (SyncOperation.FileID m) (db e') = Ok (stored now created (remote_metadata m))) ∧
  vectorClock e' = VectorClock.Merge (vectorClock e) (default ∅ (SyncOperation.VectorClock m)) ∧
  DB.operations (db e') = DB.operations (db e) ∧ outbox e' = outbox e ∧
  p ∉ Watcher.ignoreMap (watcher e').
Proof.
  intros p Hty Hpath Hw Hr Hwf Hnow Hm. rewrite processIncoming_remote by done. fold p.
  destruct (InsertFile_state now (remote_metadata m) (db e)) as (vc & HI & _).
  unfold applied. split_and!; try done; cbn [fs db with_watcher with_db with_fs with_vectorClock watcher].
  - unfold OS.look, OS.put, OS.set_nodes. cbn. by rewrite lookup_insert_eq.
  - intros q Hq. unfold OS.look, OS.put, OS.set_nodes. cbn. by rewrite lookup_insert_ne.
  - by apply (InsertFile_GetFileByID now (remote_metadata m)).
  - by rewrite HI.
  - cbn. set_solver.
Qed.

(** A local edit is lost to any later-delivered version of the file: after
    [handleUpdate] has recorded an edit, whatever create or update of that file
    arrives with a clock that is not all zero replaces the edited content, under
    every conflict strategy, even when its clock is one this peer had already
    merged before the edit; the edited version is not sent again. *)
Theorem local_edit_overwritten blake3 now now' rand rel id x data m vc e :
  let path := Join2 (FolderPath e) rel in
  OS.look path (fs e) = Some (OS.File x) → OS.xattrs x !! XattrKey = Some id →
  (0 < String.length id ≤ 256)%nat → Rel (FolderPath e) path = Ok rel → is_empty rel = false →
  wf (db e) → stored_time now → writable rand path (fs e) →
  SyncOperation.Type_ m = OpCreate ∨ SyncOperation.Type_ m = OpUpdate →
  SyncOperation.FileID m = id → SyncOperation.Path m = rel →
  SyncOperation.VectorClock m = Some vc → VectorClock.wf vc → (∃ q, 0 < VectorClock.Get vc q) →
  let e1 := (handleUpdate blake3 now path e).2 in
  let e2 := (processIncomingFileAsync now' rand data m e1).2 in
  OS.look path (fs e1) = Some (OS.File x) ∧
  OS.look path (fs e2) = Some (received now' data m) ∧ outbox e2 = outbox e1.
Proof.
  intros path Hl Hx Hid Hrel Hne Hwf Hnow Hw Hty Hmid Hmp Hvc Hvwf [q Hq].
  assert (Clean path = path) as Hcl by by apply Join2_clean.
  assert (OS.look (Clean path) (fs e) = Some (OS.File x)) as Hl' by by rewrite Hcl.
  rewrite (handleUpdate_eq blake3 now path rel id x e) by (done || apply Hw). cbv zeta. cbn [snd].
  set (row := local_metadata _ _ _ _ _ _). set (e0 := with_db _ _). set (u := update_op _ _ _ _ _ _).
  assert (fs (queued u e0) = fs e ∧ FolderPath (queued u e0) = FolderPath e ∧
    DB.files (db (queued u e0)) = DB.files (DB.InsertFile now row (db e)).2) as (Hfs & Hfo & Hdb).
  { unfold queued. match goal with |- context [broadcast ?o ?s] => destruct (broadcast_parts o s) as (-> & -> & _ & _ & -> & _) end.
    split_and!; try done. cbn [db with_db]. by rewrite Append_files. }
  rewrite Hfs. split; [done|].
  rewrite processIncoming_remote; rewrite ?Hfo, ?Hmp, ?Hfs; try done.
  - fold path. split; [|done]. unfold applied. cbn. unfold OS.look, OS.put, OS.set_nodes. cbn. by rewrite lookup_insert_eq.
  - unfold remote_wins. rewrite (GetFileByID_files _ _ _ Hdb), Hmid.
    destruct (InsertFile_GetFileByID now row (db e) Hwf Hnow Hnow) as [c Hc].
    change (FileMetadata.FileID row) with id in Hc. rewrite Hc. right. rewrite Hvc. cbn [default FileMetadata.VectorClock stored].
    split; [intros p; cbn; by apply wf_Get|by exists q].
Qed.

(** The recorded version is causally later: it is kept and sent back. *)
Lemma processIncoming_local now rand data m f x e :
  let p := Join2 (FolderPath e) (SyncOperation.Path m) in
  SyncOperation.Type_ m = OpCreate ∨ SyncOperation.Type_ m = OpUpdate →
  is_empty (SyncOperation.Path m) = false →
  OS.faults (fs e) = [] → OS.look p (fs e) = Some (OS.File x) →
  DB.GetFileByID (SyncOperation.FileID m) (db e) = Ok f → FileMetadata.Checksum f ≠ SyncOperation.Checksum m →
  default ∅ (SyncOperation.VectorClock m) <ᵥ default ∅ (FileMetadata.VectorClock f) →
  let '(r, e') := processIncomingFileAsync now rand data m e in
  r = Ok tt ∧ fs e' = fs e ∧ db e' = db e ∧
  outbox e' = (if has_messenger e then outbox e ++
    [broadcast_op now (SyncOperation.Path m) (FileMetadata.FileID f) (FileMetadata.Checksum f) (FileMetadata.Size f)
       (unix_milli (FileMetadata.Mtime f)) (peerID e) (OS.content x) (Some (default ∅ (FileMetadata.VectorClock f)))]
    else outbox e) ∧
  FolderPath e' = FolderPath e ∧ tasks e' = tasks e.
Proof.
  intros p Hty Hpath Hf Hl Hg Hc Hlt.
  unfold processIncomingFileAsync, mbind, gom_bind. cbn [gmodify]. cbv zeta. fold p.
  rewrite decide_True by done. unfold ignoring_path, mbind, gom_bind. cbn [gmodify].
  match goal with |- context [deferring _ _ ?s] => set (e1 := s) end.
  assert (fs e1 = fs e ∧ db e1 = db e ∧ conflictResolver e1 = conflictResolver e ∧ outbox e1 = outbox e ∧
    has_messenger e1 = has_messenger e ∧ peerID e1 = peerID e ∧ FolderPath e1 = FolderPath e ∧ tasks e1 = tasks e)
    as (Hfs & Hdb & Hcr & Ho & Hm & Hp & HF & Ht) by (subst e1; by destruct (SyncOperation.VectorClock m)).
  assert (OS.ReadFile p (fs e1) = (Ok (OS.content x), fs e1)) as Hread.
  { rewrite Hfs. apply ReadFile_fine; [done|]. by unfold p; rewrite Join2_clean. }
  assert (resolve m data p e1 = (Ok (KeepLocal f), e1)) as Hres.
  { unfold resolve. rewrite Hdb, Hg, bool_decide_eq_false_2 by done.
    unfold gtry, on_fs, mbind, gom_bind. rewrite Hread. apply Compare_lt_iff in Hlt.
    rewrite ResolveConflict_eq, Compare_swap, Hlt. change (- -1) with 1. cbn [Z.eqb Z.ltb Z.compare Pos.eqb].
    rewrite (bool_decide_eq_true_2 (_ = ConflictOp.FileID (local_op _ _))) by done.
    rewrite (bool_decide_eq_true_2 (_ = ConflictOp.Checksum (local_op _ _))) by done. cbn [andb]. by destruct e1. }
  unfold deferring, process_write, mbind, gom_bind. rewrite Hres. unfold keep_local.
  rewrite (or_return_ok _ _ _ _ _ (on_fs_read _ _ _ Hread)). cbn [gmodify].
  match goal with |- context [broadcast ?o e1] => destruct (broadcast_parts o e1) as (B1 & B2 & _ & _ & B5 & _ & _ & B3); pose proof (broadcast_tasks o e1) as B4 end.
  cbn [fs db outbox FolderPath tasks with_watcher]. rewrite B1, B2, B3, B4, B5, Ho, Hm, Hp. by split_and!.
Qed.

(** The vector clock does not survive a restart.  The first edit after a
    restart carries the clock [{self: 1}]; a peer that holds a version in whose
    clock this peer already counts more than one takes that edit for the older
    one: it keeps its file and its record, and sends its own version back as the
    winner. *)
Theorem first_edit_after_restart_loses now now' rand rel id checksum size data f x vc a b :
  let op := stamped (restart a) (update_op now rel id checksum size (peerID a)) in
  let p := Join2 (FolderPath b) rel in
  is_empty rel = false → OS.faults (fs b) = [] → OS.look p (fs b) = Some (OS.File x) →
  DB.GetFileByID id (db b) = Ok f → FileMetadata.Checksum f ≠ checksum → has_messenger b = true →
  FileMetadata.VectorClock f = Some vc → VectorClock.wf vc → 1 < VectorClock.Get vc (peerID a) →
  let '(r, b') := processIncomingFileAsync now' rand data op b in
  r = Ok tt ∧ fs b' = fs b ∧ db b' = db b ∧
  ∃ back, outbox b' = outbox b ++ [back] ∧ SyncOperation.Type_ back = OpUpdate ∧
    SyncOperation.Checksum back = FileMetadata.Checksum f ∧ SyncOperation.Data back = OS.content x ∧
    SyncOperation.VectorClock back = Some vc.
Proof.
  intros op p Hrel Hf Hl Hg Hc Hm Hvc Hwf Hgt.
  pose proof (processIncoming_local now' rand data op f x b) as H.
  change (SyncOperation.Path op) with rel in H. change (SyncOperation.FileID op) with id in H.
  change (SyncOperation.VectorClock op) with (Some (VectorClock.Increment ∅ (peerID a))) in H.
  rewrite Hvc, Hm in H. cbn [default] in H. fold p in H. cbv zeta in H.
  specialize (H ltac:(by right) Hrel Hf Hl Hg Hc).
  destruct (processIncomingFileAsync _ _ _ _ _) as [r b'].
  destruct H as (-> & -> & -> & -> & _).
  - assert (∀ q, VectorClock.Get (VectorClock.Increment ∅ (peerID a)) q = if decide (peerID a = q) then 1 else 0) as Hg1.
    { intros q. unfold VectorClock.Increment. rewrite Get_insert. by case_decide. }
    change (VectorClock.Increment ∅ (peerID a) <ᵥ vc).
    split; [intros q; rewrite Hg1|exists (peerID a); rewrite Hg1, decide_True by done; done].
    case_decide; [subst; lia|by apply wf_Get].
  - split_and!; try done. eexists. split; [done|]. by split_and!.
Qed.

(** ** Faults while a received version is put in place *)

Section Faults.
Context (now : time) (rand p : string) (data : bytes) (s0 : OS.t).
Hypothesis tmp_p : tmp rand p ≠ target p.
Hypothesis p_made : target p ∉ made p.
Abbreviation before := (untouched rand p s0).
Abbreviation after := (installed now rand p data 384 s0).

Lemma atomicWriteFile_triple : triple before (atomicWriteFile now rand p data) (λ _, after) before before.
Proof using tmp_p p_made.
  unfold atomicWriteFile.
  eapply triple_bind; [eapply or_else_triple; [apply (CreateTemp_written now rand p data 384 s0 tmp_p p_made)|apply (no_cleanup_triple now rand p data 384 s0 tmp_p p_made)]|intros t].
  intros s [-> Hs]. revert s Hs. change (triple (written now rand p s0 [] 384)
    (or_else (OS.Write now (tmp rand p) data) (ignore_err OS.Close;; ignore_err (OS.Remove (tmp rand p)))
       "failed to write to temp file";;
     or_else OS.Close (ignore_err (OS.Remove (tmp rand p))) "failed to close temp file";;
     or_else (OS.Rename (tmp rand p) p) (ignore_err (OS.Remove (tmp rand p))) "failed to rename temp file")
    (λ _, after) before before).
  eapply triple_seq; [eapply or_else_triple; [apply (Write_written now rand p data 384 s0 tmp_p p_made)|apply (close_remove_cleanup now rand p data 384 s0 tmp_p p_made)]|].
  eapply triple_seq; [eapply or_else_triple; [apply (Close_written now rand p data 384 s0 tmp_p p_made)|apply (remove_cleanup now rand p data 384 s0 tmp_p p_made)]|].
  eapply or_else_triple; [apply (Rename_installed now rand p data 384 s0 tmp_p p_made)|apply (remove_cleanup now rand p data 384 s0 tmp_p p_made)].
Qed.

(** What is true of the disk once the file is in place, identifier or not. *)
Definition in_place (s : OS.t) : Prop :=
  (∃ x, OS.look (target p) s = Some (OS.File x) ∧ OS.content x = data ∧ OS.mode x = 384) ∧
  ∀ q, q ≠ tmp rand p → q ≠ target p → q ∉ made p → OS.look q s = OS.look q s0.

Lemma SetFileID_in_place id s :
  in_place s → let '(r, s') := SetFileID p id s in in_place s' ∧ (r = Ok tt ∨ r = Panic OS.dead).
Proof using.
  intros [(x & Hx & Hc & Hm) Ho]. unfold SetFileID, ignore_err, setXattr, or_else, OS.Setxattr, OS.sys, no_cleanup.
  assert (∀ f, in_place (OS.mk (OS.nodes s) f)) as Hsame by (split; eauto).
  destruct (OS.faults s) as [|[|n|n] fs]; simpl; [| |by split; [apply Hsame|left]|by split; [apply Hsame|right]].
  all: change (OS.look (Clean p) (OS.mk (OS.nodes s) _)) with (OS.look (target p) s); rewrite Hx; simpl;
    (split; [|by left]); unfold OS.alter_file;
    change (OS.look (Clean p) (OS.mk (OS.nodes s) _)) with (OS.look (target p) s); rewrite Hx;
    (split; [eexists; split_and!; [apply lookup_insert_eq|done..]|]);
    intros q ???; unfold OS.look; simpl; rewrite lookup_insert_ne by done; by apply Ho.
Qed.
End Faults.


(** ** Replay after a restart *)

Lemma mapM_ok {A B} (f : A → outcome B) l :
  is_ok (mapM f l) = true ↔ ∀ x, x ∈ l → is_ok (f x) = true.
Proof.
  induction l as [|x l IH]; [split; [by intros _ ? ?%elem_of_nil|done]|]. simpl.
  unfold mbind, outcome_bind, mret, outcome_ret. split.
  - intros H y Hy%elem_of_cons. destruct (f x) eqn:E; [|done..].
    destruct Hy as [->|Hy]; [by rewrite E|]. apply IH; [|done]. by destruct (mapM f l).
  - intros H. pose proof (H x ltac:(by left)) as Hx. destruct (f x); [|done..].
    assert (is_ok (mapM f l) = true) as Hl by (apply IH; intros; apply H; by right). by destruct (mapM f l).
Qed.

Lemma mapM_elem {A B} (f : A → outcome B) l l' x y :
  mapM f l = Ok l' → x ∈ l → f x = Ok y → y ∈ l'.
Proof.
  revert l'. induction l as [|z l IH]; intros l'; [by intros _ ?%elem_of_nil|]. simpl.
  unfold mbind, outcome_bind, mret, outcome_ret. destruct (f z) as [b| |] eqn:Ez; [|done..].
  destruct (mapM f l) as [bs| |]; [|done..]. intros [= <-] [->|Hx]%elem_of_cons Hy.
  - rewrite Ez in Hy. injection Hy as <-. by left.
  - right. by eapply IH.
Qed.

(** The rebroadcast operations, in the order of the log. *)
Definition replayed (self : string) (entries : list LogEntry.t) : list SyncOperation.t :=
  logEntryToSyncOperation <$> List.filter (λ en, bool_decide (LogEntry.PeerID en = self)) entries.

Lemma Replay_outbox e entries :
  has_messenger e = true → DB.GetUnacknowledgedOperations (db e) = Ok entries →
  outbox (ReplayUnacknowledgedOperations e).2 = outbox e ++ replayed (peerID e) entries.
Proof.
  intros Hm Hq. unfold ReplayUnacknowledgedOperations. rewrite Hq. cbn [snd]. clear Hq. unfold replayed.
  revert e Hm. induction entries as [|en es IH]; intros e Hm; [by rewrite app_nil_r|].
  cbn [foldl List.filter]. change (SyncOperation.PeerID (logEntryToSyncOperation en)) with (LogEntry.PeerID en).
  case_bool_decide; [|by apply IH]. unfold broadcast. rewrite Hm. rewrite IH by done. cbn.
  by rewrite <- app_assoc.
Qed.

#[local] Existing Instance DB.seq_le_dec.

(** The row of a queued operation, read back and turned into an operation. *)
Lemma logged_row seq op vc :
  stored_time (of_unix_milli (SyncOperation.Timestamp op)) → exact_f64 (SyncOperation.Size op) →
  let op' := SyncOperation.with_VectorClock (Some vc) op in
  ∃ en, DB.scan_entry (DB.op_row seq (log_entry op') (VectorClock.JObject vc)) = Ok en ∧
    LogEntry.PeerID en = SyncOperation.PeerID op ∧
    let sent := logEntryToSyncOperation en in
    SyncOperation.ID sent = SyncOperation.ID op ∧
    SyncOperation.Type_ sent = SyncOperation.Type_ op ∧ SyncOperation.Path sent = SyncOperation.Path op ∧
    SyncOperation.FromPath sent = SyncOperation.FromPath op ∧ SyncOperation.FileID sent = SyncOperation.FileID op ∧
    SyncOperation.Checksum sent = SyncOperation.Checksum op ∧ SyncOperation.Size sent = SyncOperation.Size op ∧
    SyncOperation.VectorClock sent = Some vc ∧
    SyncOperation.Data sent = SyncOperation.Data op ∧
    SyncOperation.Timestamp sent = SyncOperation.Timestamp op / 1000.
Proof.
  intros Ht Hz op'. unfold DB.scan_entry. cbn. eexists. split; [reflexivity|]. split; [done|].
  split_and!; try done; [by apply f64_roundtrip|].
  cbn. unfold of_real_time, to_real_time. rewrite f64_roundtrip by done.
  unfold unix_sec, of_unix, of_unix_milli, nano_per_sec. rewrite Z.div_mul by done.
  by rewrite <- (Z.div_mul_cancel_r (SyncOperation.Timestamp op) 1000 1000000) by done.
Qed.

(** C35: A local operation that was logged is sent again when the engine starts
    after a crash, with its identity, content, peer and vector clock, as long
    as the log can be read; but its time, which travels in milliseconds, is sent
    again in seconds. *)
Theorem unacknowledged_replayed blake3 op e :
  SyncOperation.Source op = "local"%string → SyncOperation.PeerID op = peerID e → has_messenger e = true →
  SyncOperation.ID op ∉ OpRow.operation_id <$> DB.operations (db e) →
  is_ok (DB.GetUnacknowledgedOperations (db e)) = true →
  stored_time (of_unix_milli (SyncOperation.Timestamp op)) → exact_f64 (SyncOperation.Size op) →
  let e1 := (queueOperation op e).2 in
  let e2 := (handle blake3 Restarted e1).2 in
  ∃ sent, sent ∈ outbox e2 ∧ SyncOperation.ID sent = SyncOperation.ID op ∧
    SyncOperation.Type_ sent = SyncOperation.Type_ op ∧ SyncOperation.Path sent = SyncOperation.Path op ∧
    SyncOperation.FromPath sent = SyncOperation.FromPath op ∧ SyncOperation.FileID sent = SyncOperation.FileID op ∧
    SyncOperation.Checksum sent = SyncOperation.Checksum op ∧ SyncOperation.Size sent = SyncOperation.Size op ∧
    SyncOperation.VectorClock sent = Some (VectorClock.Increment (vectorClock e) (peerID e)) ∧
    SyncOperation.Data sent = SyncOperation.Data op ∧
    SyncOperation.Timestamp sent = SyncOperation.Timestamp op / 1000.
Proof.
  intros Hs Hp Hm Hf Hok Ht Hz. rewrite queueOperation_eq by done. cbn [snd]. cbv zeta.
  set (e1 := queued op e). set (vc := VectorClock.Increment (vectorClock e) (peerID e)).
  assert (has_messenger e1 = true ∧ peerID e1 = peerID e) as [Hm1 Hp1].
  { subst e1. unfold queued, broadcast. cbn. rewrite Hm. by cbn. }
  set (row := DB.op_row (DB.last_sequence (db e) + 1) (log_entry (stamped e op)) (VectorClock.JObject vc)).
  assert (DB.operations (db e1) = DB.operations (db e) ++ [row]) as Hops.
  { subst e1. unfold queued. match goal with |- context [broadcast ?o ?s] => destruct (broadcast_parts o s) as (-> & _) end.
    cbn [db with_db]. by rewrite (Append_log (stamped e op) (db e) vc). }
  destruct (logged_row (DB.last_sequence (db e) + 1) op vc Ht Hz) as (en & Hen & Hself & Hback).
  change (DB.scan_entry row = Ok en) in Hen. rewrite Hp in Hself.
  assert (∀ r, r ∈ order_by DB.seq_le (List.filter (λ r, negb (OpRow.acknowledged r)) (DB.operations (db e1))) ↔
    (r ∈ DB.operations (db e) ∨ r = row) ∧ negb (OpRow.acknowledged r) = true) as Hrows.
  { intros r. unfold order_by. rewrite merge_sort_Permutation, in_filter, Hops, elem_of_app, list_elem_of_singleton. done. }
  assert (is_ok (DB.GetUnacknowledgedOperations (db (restart e1))) = true) as Hq.
  { apply mapM_ok. intros r [[Hr| ->] Hun]%Hrows; [|by rewrite Hen].
    unfold DB.GetUnacknowledgedOperations, DB.scanLogEntries in Hok. rewrite mapM_ok in Hok. apply Hok.
    unfold order_by. rewrite merge_sort_Permutation. by apply in_filter. }
  destruct (DB.GetUnacknowledgedOperations (db (restart e1))) as [entries| |] eqn:E; [|done..].
  exists (logEntryToSyncOperation en). split.
  - cbv [handle]. unfold Start, ignoring, or_return, gtry, mbind, gom_bind. cbn [gmodify].
    pose proof (Replay_outbox (restart e1) entries Hm1 E) as Ho. change (outbox (restart e1)) with (@nil SyncOperation.t) in Ho.
    change (peerID (restart e1)) with (peerID e1) in Ho. rewrite Hp1 in Ho.
    assert (logEntryToSyncOperation en ∈ replayed (peerID e) entries) as Hin.
    { unfold replayed. apply list_elem_of_fmap. exists en. split; [done|]. apply in_filter.
      split; [|by apply bool_decide_eq_true]. eapply mapM_elem; [exact E| |exact Hen]. apply Hrows. auto. }
    destruct (ReplayUnacknowledgedOperations (restart e1)) as [[?|?|?] e2]; cbn in *; by rewrite Ho.
  - exact Hback.
Qed.

(** ** The properties at concrete engines *)

Definition clock_of (peer : string) (n : Z) : VectorClock.t := {[peer := n]}.

Definition demo_remote (peer checksum : string) (vc : VectorClock.t) : SyncOperation.t :=
  SyncOperation.with_VectorClock (Some vc)
    (SyncOperation.with_content None checksum 3 (NewSyncOperation 9 OpUpdate "a.txt" "f1" peer)).

(** The remote peer's version of the file, as recorded from an operation of [A]. *)
Definition demo_db : DB.t :=
  (DB.InsertFile 5 (remote_metadata (demo_remote "A" "c5" (clock_of "A" 5))) DB.initSchema).2.

Lemma demo_writable : writable "x" "/sync/a.txt" (fs (demo_engine "A" "edited" DB.initSchema)).
Proof. by split. Qed.

Lemma local_update_recorded_witness :
  let e := demo_engine "A" "edited" DB.initSchema in
  let '(r, e') := handleUpdate blake3_demo 7 "/sync/a.txt" e in
  r = Ok tt ∧ length (outbox e') = 1%nat ∧ length (DB.operations (db e')) = 1%nat.
Proof.
  pose proof (local_update_recorded blake3_demo 7 "/sync/a.txt" "a.txt" "f1" (demo_file "edited")
    (demo_engine "A" "edited" DB.initSchema) eq_refl eq_refl eq_refl ltac:(simpl; lia) eq_refl initSchema_wf
    ltac:(vm_compute; done) eq_refl ltac:(simpl; apply not_elem_of_nil)) as H.
  cbv zeta. destruct (handleUpdate _ _ _ _) as [r e'].
  destruct H as (-> & _ & _ & _ & _ & -> & _ & ? & -> & _). by split_and!.
Defined.

Lemma remote_version_applied_witness :
  let e := demo_engine "B" "old" DB.initSchema in
  let '(r, e') := processIncomingFileAsync 7 "x" (to_bytes "new") (demo_remote "A" "c6" (clock_of "A" 6)) e in
  r = Ok tt ∧ OS.look "/sync/a.txt" (fs e') = Some (received 7 (to_bytes "new") (demo_remote "A" "c6" (clock_of "A" 6))).
Proof.
  pose proof (remote_version_applied 7 "x" (to_bytes "new") (demo_remote "A" "c6" (clock_of "A" 6))
    (demo_engine "B" "old" DB.initSchema) ltac:(by right) eq_refl ltac:(by split) I initSchema_wf
    ltac:(vm_compute; done) ltac:(vm_compute; done)) as H.
  cbv zeta. destruct (processIncomingFileAsync _ _ _ _ _) as [r e'].
  destruct H as (-> & H & _). by split.
Defined.

(** The operation of [B] was made before [A]'s edit and [A] had merged it. *)
Lemma local_edit_overwritten_witness :
  let e := with_vectorClock (clock_of "B" 1) (demo_engine "A" "edited" DB.initSchema) in
  let e1 := (handleUpdate blake3_demo 7 "/sync/a.txt" e).2 in
  let m := demo_remote "B" "c1" (clock_of "B" 1) in
  let e2 := (processIncomingFileAsync 8 "x" (to_bytes "old") m e1).2 in
  OS.look "/sync/a.txt" (fs e1) = Some (OS.File (demo_file "edited")) ∧
  OS.look "/sync/a.txt" (fs e2) = Some (received 8 (to_bytes "old") m) ∧ outbox e2 = outbox e1.
Proof.
  apply (local_edit_overwritten blake3_demo 7 8 "x" "a.txt" "f1" (demo_file "edited") (to_bytes "old")
    (demo_remote "B" "c1" (clock_of "B" 1)) (clock_of "B" 1)
    (with_vectorClock (clock_of "B" 1) (demo_engine "A" "edited" DB.initSchema)));
    try reflexivity; [simpl; lia|exact initSchema_wf|by split|by right|by apply (bool_decide_unpack _)|].
  by exists "B"%string.
Defined.

Lemma first_edit_after_restart_loses_witness :
  let a := with_vectorClock (clock_of "A" 5) (demo_engine "A" "edited" DB.initSchema) in
  let b := demo_engine "B" "v5" demo_db in
  let op := stamped (restart a) (update_op 7 "a.txt" "f1" "c6" 6 "A") in
  let '(r, b') := processIncomingFileAsync 8 "x" (to_bytes "edited") op b in
  r = Ok tt ∧ fs b' = fs b.
Proof.
  cbv zeta.
  pose proof (first_edit_after_restart_loses 7 8 "x" "a.txt" "f1" "c6" 6 (to_bytes "edited")
    (stored 5 0 (remote_metadata (demo_remote "A" "c5" (clock_of "A" 5)))) (demo_file "v5") (clock_of "A" 5)
    (with_vectorClock (clock_of "A" 5) (demo_engine "A" "edited" DB.initSchema))
    (demo_engine "B" "v5" demo_db) eq_refl eq_refl eq_refl ltac:(vm_compute; reflexivity) ltac:(discriminate)
    eq_refl eq_refl ltac:(by apply (bool_decide_unpack _)) ltac:(vm_compute; done)) as H.
  cbv zeta in H. change (peerID (with_vectorClock (clock_of "A" 5) (demo_engine "A" "edited" DB.initSchema))) with "A"%string in H.
  destruct (processIncomingFileAsync _ _ _ _ _) as [r b']. destruct H as (-> & -> & _). by split.
Defined.


Lemma unacknowledged_replayed_witness :
  let op := SyncOperation.with_content None "c" 6 (NewSyncOperation 1700000000000000000 OpUpdate "a.txt" "f1" "A") in
  let e2 := (handle blake3_demo Restarted (queueOperation op (demo_engine "A" "edited" DB.initSchema)).2).2 in
  ∃ sent, sent ∈ outbox e2 ∧ SyncOperation.Timestamp sent = 1700000000.
Proof.
  cbv zeta.
  destruct (unacknowledged_replayed blake3_demo
    (SyncOperation.with_content None "c" 6 (NewSyncOperation 1700000000000000000 OpUpdate "a.txt" "f1" "A"))
    (demo_engine "A" "edited" DB.initSchema) eq_refl eq_refl eq_refl ltac:(simpl; apply not_elem_of_nil) eq_refl
    ltac:(vm_compute; done) ltac:(vm_compute; done)) as (sent & Hin & H).
  exists sent. split; [exact Hin|]. by apply H.
Defined.
