(* ===== verification/EngineTasks.v ===== *)
(** * The goroutines of incoming operations come to an end

    Each waiting goroutine is run once, in any order, whatever fails in it; none
    starts another, none adds to the log, each sends at most one operation. *)

From Stdlib Require Import Strings.Byte Strings.String.
From S2P Require Import Prelude GoStrings GoPath Clock Conflict Hashing Database DatabaseProps Filesystem Operation Engine EngineProps.
Import Engine.

(** The parts that count here: goroutines, sent operations, the log. *)
Definition load (e : Engine.t) : list (bytes * SyncOperation.t) * list SyncOperation.t * list OpRow.t :=
  (tasks e, outbox e, DB.operations (db e)).

Section Load.
Context (T : list (bytes * SyncOperation.t)) (O : list SyncOperation.t) (L : list OpRow.t).

(** Nothing sent yet, at most one operation sent. *)
Definition idle (e : Engine.t) : Prop := load e = (T, O, L).
Definition sent_one (e : Engine.t) : Prop := ∃ l, load e = (T, O ++ l, L) ∧ (length l ≤ 1)%nat.

Lemma idle_sent_one e : idle e → sent_one e.
Proof. intros H. exists []. rewrite app_nil_r. split; [done|cbn; lia]. Qed.

Lemma idle_load e e' : load e' = load e → idle e → idle e'.
Proof. unfold idle. congruence. Qed.

Lemma idle_on_fs {A} (m : GoM OS.t A) : keeps idle (on_fs m).
Proof. intros e He. unfold on_fs. by destruct (m (fs e)) as [[?|?|?] ?]. Qed.

Lemma idle_on_db {A} (m : GoM DB.t A) : (∀ d, DB.operations (m d).2 = DB.operations d) → keeps idle (on_db m).
Proof.
  intros Hm e He. unfold on_db. specialize (Hm (db e)). unfold idle, load in *.
  destruct (m (db e)) as [[?|?|?] d]; cbn in *; by rewrite Hm.
Qed.

Lemma InsertFile_operations now fm d : DB.operations (DB.InsertFile now fm d).2 = DB.operations d.
Proof. destruct (InsertFile_state now fm d) as (vc & -> & _). done. Qed.

Lemma DeleteFile_operations f d : DB.operations (DB.DeleteFile f d).2 = DB.operations d.
Proof. unfold DB.DeleteFile. by repeat case_match. Qed.

Lemma idle_modify f : (∀ e, load (f e) = load e) → keeps idle (gmodify f).
Proof. intros Hf. apply keeps_modify. intros e. by apply idle_load. Qed.

Lemma broadcast_sends op e : idle e → sent_one (broadcast op e).
Proof.
  intros He. unfold broadcast. destruct (has_messenger e); [|by apply idle_sent_one].
  exists [op]. split; [|done]. unfold idle, load in *. cbn. congruence.
Qed.

Lemma sends_weaken {A} (m : GoM Engine.t A) : keeps idle m → triple idle m (λ _, sent_one) sent_one sent_one.
Proof. intros Hm. eapply triple_weaken; [exact Hm|done|..]; intros; by apply idle_sent_one. Qed.
End Load.

(** Keeps the load; the statements leave the log alone. *)
Ltac idling :=
  repeat lazymatch goal with
  | |- triple _ (mret _) _ _ _ => apply keeps_ret
  | |- triple _ (gpanic _) _ _ _ => apply keeps_gpanic
  | |- triple _ (on_fs _) _ _ _ => apply idle_on_fs
  | |- triple _ (on_db _) _ _ _ => apply idle_on_db; intros ?; first [apply InsertFile_operations|apply DeleteFile_operations]
  | |- triple _ (ignoring _) _ _ _ => apply keeps_ignoring
  | |- triple _ (gtry _) _ _ _ => apply keeps_gtry
  | |- triple _ (or_return _ _) _ _ _ => apply keeps_or_return
  | |- triple _ (mbind _ _) _ _ _ => apply keeps_bind
  | |- triple _ _ _ _ _ => fail
  | |- ∀ _, _ => intros ?
  end.

Section Processing.
Context (T : list (bytes * SyncOperation.t)) (O : list SyncOperation.t) (L : list OpRow.t).
Abbreviation I := (idle T O L).
Abbreviation S1 := (sent_one T O L).
Abbreviation sends m := (triple I m (λ _, S1) S1 S1).

Lemma apply_file_idle now rand absPath data m : keeps I (apply_file now rand absPath data m).
Proof. unfold apply_file. idling. Qed.

Lemma resolve_idle m data absPath : keeps I (resolve m data absPath).
Proof.
  apply keeps_reader. intros e0. unfold resolve.
  destruct (DB.GetFileByID _ _) as [f|err|w]; [|by exists (mret ApplyRemote : GoM Engine.t decision); split; [|apply keeps_ret]|
    by exists (gpanic w); split; [|apply keeps_gpanic]].
  case_bool_decide; [by exists (mret ApplyRemote : GoM Engine.t decision); split; [|apply keeps_ret]|].
  eexists. split; [reflexivity|]. apply keeps_bind; [by idling|]. intros r.
  destruct (Resolver.ResolveConflict _ _ _ _ _); [|apply keeps_ret|apply keeps_gpanic].
  repeat case_match; apply keeps_ret.
Qed.

Lemma sends_bind {A B} (m : GoM Engine.t A) (k : A → GoM Engine.t B) : keeps I m → (∀ a, sends (k a)) → sends (m ≫= k).
Proof.
  intros Hm Hk. eapply triple_bind; [|intros a; apply Hk].
  eapply triple_weaken; [exact Hm|done|done|..]; intros; by apply idle_sent_one.
Qed.

Lemma sends_deferring {A} f (m : GoM Engine.t A) : (∀ e, load (f e) = load e) → sends m → sends (deferring f m).
Proof.
  intros Hf Hm e He. specialize (Hm e He). unfold deferring, sent_one in *. destruct (m e) as [[?|?|?] e']; [by rewrite Hf..|done].
Qed.

Lemma sends_after {A} f (m : GoM Engine.t A) : (∀ e, I e → S1 (f e)) → keeps I m → sends (deferring f m).
Proof.
  intros Hf Hm e He. specialize (Hm e He). unfold deferring. destruct (m e) as [[?|?|?] e']; [by apply Hf..|by apply idle_sent_one].
Qed.

Lemma process_write_sends now rand data m absPath : sends (process_write now rand data m absPath).
Proof.
  unfold process_write. apply sends_bind; [apply resolve_idle|]. intros [f| |w|].
  - intros e He. unfold keep_local, or_return, gtry, mbind, gom_bind.
    pose proof (idle_on_fs T O L (OS.ReadFile absPath) e He) as H.
    destruct (on_fs (OS.ReadFile absPath) e) as [[d|err|w] e']; [by apply broadcast_sends|by apply idle_sent_one..].
  - apply sends_weaken, apply_file_idle.
  - intros e. unfold apply_merge. apply (sends_after _ (apply_file _ _ _ _ _)); [|apply apply_file_idle].
    intros e'. apply broadcast_sends.
  - apply sends_weaken, keeps_ret.
Qed.

Lemma ignoring_path_sends {A} absPath (m : GoM Engine.t A) : sends m → sends (ignoring_path absPath m).
Proof. intros Hm. unfold ignoring_path. apply sends_bind; [by apply idle_modify|]. intros _. by apply sends_deferring. Qed.

Lemma processIncoming_sends now rand data m : sends (processIncomingFileAsync now rand data m).
Proof.
  intros e. unfold processIncomingFileAsync.
  apply (sends_bind (gmodify (λ e, match SyncOperation.VectorClock m with
    | Some vc => with_vectorClock (VectorClock.Merge (vectorClock e) vc) e | None => e end))).
  { apply idle_modify. intros e'. by destruct (SyncOperation.VectorClock m). }
  intros _. cbv zeta. case_decide; [apply ignoring_path_sends, process_write_sends|].
  case_decide; [|apply sends_weaken, keeps_ret]. apply ignoring_path_sends, sends_weaken, keeps_bind; [by idling|].
  intros [[]|err]; [by idling|]. case_bool_decide; idling.
Qed.
End Processing.

(** A schedule: when each goroutine runs, with which random text, and its place
    among those that still wait. *)
Definition schedule : Type := list (time * string * nat).

Definition run_all (sched : schedule) (e : Engine.t) : Engine.t :=
  foldl (λ e s, (run_task s.1.1 s.1.2 s.2 e).2) e sched.

(** Every place exists: [n] goroutines wait at first, one less after each. *)
Fixpoint fits (n : nat) (sched : schedule) {struct sched} : Prop :=
  match sched with
  | [] => n = 0%nat
  | s :: rest => match n with O => False | S k => (s.2 ≤ k)%nat ∧ fits k rest end
  end.

Lemma run_task_load now rand i e data m :
  tasks e !! i = Some (data, m) →
  ∃ l, load (run_task now rand i e).2 = (delete i (tasks e), outbox e ++ l, DB.operations (db e)) ∧ (length l ≤ 1)%nat.
Proof.
  intros Hi. unfold run_task. rewrite Hi.
  pose proof (processIncoming_sends (delete i (tasks e)) (outbox e) (DB.operations (db e)) now rand data m
    (with_tasks (delete i (tasks e)) e) eq_refl) as H.
  by destruct (processIncomingFileAsync _ _ _ _ _) as [[?|?|?] e'].
Qed.

(** C25: The work that incoming operations cause comes to an end.  Whatever
    goroutines wait, in whatever order they are scheduled, and whatever fails in
    them, as many runs as there are goroutines leave none: a run never starts
    another.  On the way the log is not touched, and at most one operation is
    sent for each, so that two engines cannot keep each other busy without the
    network delivering something new. *)
Theorem goroutines_drain sched e :
  fits (length (tasks e)) sched →
  tasks (run_all sched e) = [] ∧ DB.operations (db (run_all sched e)) = DB.operations (db e) ∧
  ∃ l, outbox (run_all sched e) = outbox e ++ l ∧ (length l ≤ length (tasks e))%nat.
Proof.
  revert e. induction sched as [|s sched IH]; intros e Hf.
  - cbn in Hf. apply nil_length_inv in Hf as Ht. split; [done|]. split; [done|]. exists []. rewrite app_nil_r. split; [done|cbn; lia].
  - cbn in Hf. destruct (length (tasks e)) as [|k] eqn:Hn; [done|]. destruct Hf as [Hs Hf].
    destruct (tasks e !! s.2) as [[data m]|] eqn:Hi; [|apply lookup_ge_None in Hi; lia].
    destruct (run_task_load s.1.1 s.1.2 s.2 e data m Hi) as (l & Hl & Hle). unfold load in Hl. injection Hl as Ht Ho Hd.
    cbn [run_all foldl]. fold (run_all sched (run_task s.1.1 s.1.2 s.2 e).2).
    assert (length (tasks (run_task s.1.1 s.1.2 s.2 e).2) = k) as Hk.
    { rewrite Ht. pose proof (length_delete (tasks e) s.2 ltac:(by rewrite Hi)). lia. }
    destruct (IH (run_task s.1.1 s.1.2 s.2 e).2) as (H1 & H2 & l' & H3 & H4); [by rewrite Hk|].
    split; [done|]. split; [by rewrite H2|]. exists (l ++ l'). rewrite H3, Ho, app_assoc. split; [done|].
    rewrite length_app. lia.
Qed.

Lemma goroutines_drain_witness :
  let op := NewSyncOperation 8 OpUpdate "a.txt" "f1" "B" in
  let e := run blake3_demo [Received 8 (to_bytes "one") op; Received 9 (to_bytes "two") op] (demo_engine "A" "old" DB.initSchema) in
  tasks (run_all [(10, "x"%string, 1%nat); (11, "y"%string, 0%nat)] e) = [].
Proof.
  cbv zeta. apply (goroutines_drain [(10, "x"%string, 1%nat); (11, "y"%string, 0%nat)]). vm_compute. by repeat split; repeat constructor.
Defined.
