(* ===== verification/Lifecycle.v ===== *)
(** * Starting and stopping the engine

    What [Start] sets going and [Stop] ends (internal/sync/engine.go): the event
    loop and the three tickers, each a loop around a [select], and the goroutines
    of the watcher's debounce timers (internal/filesystem/watcher.go), which send
    on the channel that [Close] closes. *)

From Stdlib Require Import Strings.Byte Strings.String.
From S2P Require Import Prelude GoStrings GoPath Clock Conflict Hashing Database Filesystem Operation Engine EngineProps.

Module Lifecycle.

(** The goroutines of [Start]. *)
Inductive loop : Type := EventLoop | CompactionLoop | StateSyncLoop | CacheLoop.
#[export] Instance loop_eq_dec : EqDecision loop.
Proof. solve_decision. Defined.

Record t : Type := mk {
  engine : Engine.t;
  (** [stopped], and [stopCh] closed. *)
  stopped : bool;
  detector_closed : bool;
  loops : list loop;
  (** Timer goroutines that found the watcher open and have not sent yet. *)
  senders : list Watcher.FileEvent.t
}.

Definition watcher (s : t) : Watcher.t := Engine.watcher (engine s).
Definition with_engine (e : Engine.t) (s : t) : t := mk e (stopped s) (detector_closed s) (loops s) (senders s).
Definition with_watcher (w : Watcher.t) (s : t) : t := with_engine (Engine.with_watcher w (engine s)) s.
Definition with_senders (x : list Watcher.FileEvent.t) (s : t) : t := mk (engine s) (stopped s) (detector_closed s) (loops s) x.
Definition without (l : loop) (s : t) : t :=
  mk (engine s) (stopped s) (detector_closed s) (filter (λ l', l' ≠ l) (loops s)) (senders s).

(** The first half of [sendDebouncedEvent]: the pending event, if the watcher is open. *)
Definition take_pending (path : string) (w : Watcher.t) : option Watcher.FileEvent.t * Watcher.t :=
  match Watcher.pendingEvents w !! path with
  | None => (None, w)
  | Some (event, _) =>
      (if Watcher.closed w then None else Some event,
       Watcher.mk (Watcher.events w) (Watcher.ignoreMap w) (Watcher.closed w) (delete path (Watcher.pendingEvents w)))
  end.

Definition closed_channel : string := "send on closed channel".

(** The second: [select] with a default does not keep a send on a closed channel from panicking. *)
Definition send_event (event : Watcher.FileEvent.t) (w : Watcher.t) : outcome Watcher.t :=
  if Watcher.closed w then Panic closed_channel
  else Ok (if zlen (Watcher.events w) <? Watcher.capacity
           then Watcher.mk (Watcher.events w ++ [event]) (Watcher.ignoreMap w) (Watcher.closed w) (Watcher.pendingEvents w) else w).

(** [e.watcher.Close()] is returned, so that the detector is closed only without a watcher. *)
Definition Stop (s : t) : t :=
  if stopped s then s
  else mk (Engine.with_watcher (Watcher.Close (watcher s)) (engine s)) true (detector_closed s) (loops s) (senders s).

(** What a closed channel gives. *)
Definition zero_event : Watcher.FileEvent.t := Watcher.FileEvent.mk "" 0 "".

Section Running.
Context (blake3 : bytes → bytes).

(** One turn of a loop: its [select] takes the stop channel, or its work. *)
Inductive choice : Type := Quit | Work (now : time).

Definition turn (l : loop) (c : choice) (s : t) : t :=
  if negb (bool_decide (l ∈ loops s)) then s
  else match c with
       | Quit => if stopped s then without l s else s
       | Work now =>
           match l with
           | EventLoop =>
               match Watcher.receive (watcher s) with
               | Some (event, w) => with_engine (Engine.handle blake3 (Engine.Changed now event) (Engine.with_watcher w (engine s))).2 s
               | None => if Watcher.closed (watcher s) then with_engine (Engine.handle blake3 (Engine.Changed now zero_event) (engine s)).2 s else s
               end
           | CompactionLoop => with_engine (Engine.handle blake3 Engine.CompactionTick (engine s)).2 s
           | StateSyncLoop => with_engine (Engine.handle blake3 Engine.StateSyncTick (engine s)).2 s
           | CacheLoop => with_engine (Engine.handle blake3 (Engine.CacheTick now) (engine s)).2 s
           end
       end.

Inductive event : Type :=
  | Noticed (now : time) (name : string) (op : Z)   (* fsnotify reports *)
  | Timer (path : string)                           (* a debounce timer fires *)
  | Send (i : nat)                                  (* the goroutine of a timer goes on *)
  | Turn (l : loop) (c : choice)
  | Stopped.

Definition act (ev : event) (s : t) : outcome t :=
  match ev with
  | Noticed now name op => Ok (with_watcher (Watcher.processEvent now name op (watcher s)) s)
  | Timer path =>
      let '(event, w) := take_pending path (watcher s) in
      Ok (with_senders (senders s ++ option_list event) (with_watcher w s))
  | Send i =>
      match senders s !! i with
      | None => Ok s
      | Some event => w ← send_event event (watcher s); Ok (with_senders (delete i (senders s)) (with_watcher w s))
      end
  | Turn l c => Ok (turn l c s)
  | Stopped => Ok (Stop s)
  end.

Fixpoint act_all (evs : list event) (s : t) : outcome t :=
  match evs with
  | [] => Ok s
  | ev :: rest => s' ← act ev s; act_all rest s'
  end.

(** [Start], the folder being watched. *)
Definition Start (e : Engine.t) : t :=
  mk (Engine.Start e).2 false false [EventLoop; CompactionLoop; StateSyncLoop; CacheLoop] [].

End Running.
End Lifecycle.

Import Lifecycle.

(** The two halves are the call. *)
Lemma sendDebouncedEvent_halves path w :
  Watcher.sendDebouncedEvent path w =
  match take_pending path w with
  | (Some event, w') => match send_event event w' with Ok w'' => w'' | _ => w' end
  | (None, w') => w'
  end.
Proof.
  unfold Watcher.sendDebouncedEvent, take_pending, send_event. destruct (Watcher.pendingEvents w !! path) as [[event at_]|]; [|done].
  destruct (Watcher.closed w) eqn:Ec; [done|]. cbn. by destruct (_ <? _).
Qed.

(** ** The handlers of the loops leave the watcher alone *)
Section Watching.
Context (blake3 : bytes → bytes) (w : Watcher.t).

Definition watches (e : Engine.t) : Prop := Engine.watcher e = w.

Lemma watches_on_fs {A} (m : GoM OS.t A) : keeps watches (Engine.on_fs m).
Proof. intros e He. unfold Engine.on_fs. by destruct (m (Engine.fs e)) as [[?|?|?] ?]. Qed.
Lemma watches_on_db {A} (m : GoM DB.t A) : keeps watches (Engine.on_db m).
Proof. intros e He. unfold Engine.on_db. by destruct (m (Engine.db e)) as [[?|?|?] ?]. Qed.
Lemma watches_modify f : (∀ e, Engine.watcher (f e) = Engine.watcher e) → keeps watches (gmodify f).
Proof. intros Hf. apply keeps_modify. intros e. unfold watches. by rewrite Hf. Qed.

End Watching.

(** One step of a handler that does not mention the watcher. *)
Ltac watching :=
  repeat lazymatch goal with
  | |- triple _ (mret _) _ _ _ => apply keeps_ret
  | |- triple _ (glift _) _ _ _ => apply keeps_glift
  | |- triple _ (Engine.query _) _ _ _ => apply keeps_query
  | |- triple _ (Engine.on_fs _) _ _ _ => apply watches_on_fs
  | |- triple _ (Engine.on_db _) _ _ _ => apply watches_on_db
  | |- triple _ (gmodify _) _ _ _ => apply watches_modify; intros ?
  | |- triple _ (Engine.ignoring _) _ _ _ => apply keeps_ignoring
  | |- triple _ (gtry _) _ _ _ => apply keeps_gtry
  | |- triple _ (Engine.or_return _ _) _ _ _ => apply keeps_or_return
  | |- triple _ (mbind _ _) _ _ _ => apply keeps_bind
  | |- triple _ (if _ then _ else _) _ _ _ => case_match
  | |- triple _ (match _ with _ => _ end) _ _ _ => case_match
  | |- triple _ _ _ _ _ => fail
  | |- ∀ _, _ => intros ?
  end.

Section Handlers.
Context (blake3 : bytes → bytes) (w : Watcher.t).
Abbreviation W := (watches w).

Lemma queueOperation_watches op : keeps W (Engine.queueOperation op).
Proof.
  unfold Engine.queueOperation. apply keeps_bind.
  - intros e He. by destruct (bool_decide _).
  - intros op'. watching; [done|]. unfold Engine.broadcast. by case_match.
Qed.

Lemma file_id_watches path : keeps W (Engine.file_id blake3 path).
Proof. unfold Engine.file_id. reader e0. watching. Qed.

Ltac handler := unfold Engine.getFileChecksum; let e0 := fresh "e" in reader e0; watching; first [done|apply queueOperation_watches|apply file_id_watches].

Lemma handleFileEvent_watches now ev : keeps W (Engine.handleFileEvent blake3 now ev).
Proof.
  assert (∀ path, keeps W (Engine.handleCreate blake3 now path)) as Hc by (intros path; unfold Engine.handleCreate; handler).
  unfold Engine.handleFileEvent, Engine.handleRename. watching; [apply Hc|unfold Engine.handleUpdate; handler|unfold Engine.handleDelete; handler|apply Hc].
Qed.

(** What the loops do. *)
Lemma work_watches ev e :
  match ev with
  | Engine.Changed _ _ | Engine.CompactionTick | Engine.StateSyncTick | Engine.CacheTick _ => True
  | _ => False
  end → Engine.watcher e = w → Engine.watcher (Engine.handle blake3 ev e).2 = w.
Proof.
  intros Hev He.
  assert (keeps W (Engine.handle blake3 ev)) as Hk.
  { destruct ev; try done; cbv [Engine.handle]; [apply handleFileEvent_watches|unfold Engine.periodicLogCompaction; watching| |watching; done].
    apply keeps_ignoring. intros e' He'. pose proof (StateSync_quiet e') as Hq. by destruct (Engine.syncStateWithPeers e') as [[?|?|?] ?]; cbn in Hq; subst. }
  specialize (Hk e He). by destruct (Engine.handle blake3 ev e) as [[?|?|?] e'].
Qed.
End Handlers.

Lemma Start_watcher e : Engine.watcher (Engine.Start e).2 = Engine.watcher e.
Proof.
  assert (Engine.watcher (Engine.ReplayUnacknowledgedOperations e).2 = Engine.watcher e) as H.
  { unfold Engine.ReplayUnacknowledgedOperations. destruct (DB.GetUnacknowledgedOperations _) as [ops|?|?]; [|done..]. cbn.
    generalize e. induction ops as [|op ops IH]; intros e'; [done|]. cbn. rewrite IH. case_bool_decide; [|done].
    unfold Engine.broadcast. by destruct (Engine.has_messenger e'). }
  unfold Engine.Start, Engine.ignoring, Engine.or_return, gtry, mbind, gom_bind.
  by destruct (Engine.ReplayUnacknowledgedOperations e) as [[?|?|?] ?].
Qed.

(** ** Stopping *)
Section Stopping.
Context (blake3 : bytes → bytes).

(** The watcher is closed exactly when the engine is stopped. *)
Definition closes (s : t) : Prop := Watcher.closed (watcher s) = stopped s.

Lemma turn_closed l c s : Watcher.closed (watcher (turn blake3 l c s)) = Watcher.closed (watcher s) ∧
  stopped (turn blake3 l c s) = stopped s ∧ senders (turn blake3 l c s) = senders s.
Proof.
  unfold turn. destruct (negb _); [done|]. destruct c as [|now]; [by destruct (stopped s) eqn:E|].
  assert (∀ ev e, match ev with Engine.Changed _ _ | Engine.CompactionTick | Engine.StateSyncTick | Engine.CacheTick _ => True | _ => False end →
    Watcher.closed (Engine.watcher e) = Watcher.closed (watcher s) →
    let s' := with_engine (Engine.handle blake3 ev e).2 s in
    Watcher.closed (watcher s') = Watcher.closed (watcher s) ∧ stopped s' = stopped s ∧ senders s' = senders s) as H.
  { intros ev e Hev He. split; [|done]. unfold watcher at 1. cbn. by rewrite (work_watches blake3 (Engine.watcher e) ev e Hev eq_refl). }
  destruct l; try by apply H. unfold Watcher.receive. destruct (Watcher.events _); [|by apply H].
  destruct (Watcher.closed (watcher s)) eqn:Ec; [apply H; [done|exact Ec]|done].
Qed.

(** Once stopped, with no timer goroutine under way, no send is left to come. *)
Lemma act_stopped ev s :
  Watcher.closed (watcher s) = true → senders s = [] →
  ∃ s', act blake3 ev s = Ok s' ∧ Watcher.closed (watcher s') = true ∧ senders s' = [].
Proof.
  intros Hc Hs. destruct ev as [now name op|path|i|l c|]; cbn [act].
  - eexists. split; [done|]. split; [|done]. unfold watcher, with_watcher, Watcher.processEvent. cbn.
    destruct (_ || _); [done|]. destruct (Watcher.is_temporary _); [done|]. by fold (watcher s); rewrite Hc.
  - unfold take_pending. destruct (Watcher.pendingEvents _ !! path) as [[ev at_]|]; [rewrite Hc|]; eexists; (split; [done|]); rewrite Hs; by split.
  - rewrite Hs. by eexists.
  - eexists. split; [done|]. by rewrite (proj1 (turn_closed l c s)), (proj2 (proj2 (turn_closed l c s))).
  - eexists. split; [done|]. unfold Stop. destruct (stopped s); [done|]. unfold watcher, Watcher.Close in *. cbn. by rewrite Hc.
Qed.

Lemma act_all_stopped evs s :
  Watcher.closed (watcher s) = true → senders s = [] → ∃ s', act_all blake3 evs s = Ok s'.
Proof.
  revert s. induction evs as [|ev evs IH]; intros s Hc Hs; [by eexists|].
  destruct (act_stopped ev s Hc Hs) as (s1 & E & Hc1 & Hs1). destruct (IH s1 Hc1 Hs1) as (s' & ?). exists s'. cbn. by rewrite E.
Qed.

Lemma Stop_closes s : closes s → Watcher.closed (watcher (Stop s)) = true.
Proof.
  unfold closes, Stop, watcher. destruct (stopped s) eqn:E; [done|]. intros Hc. cbn. unfold Watcher.Close. unfold watcher. by rewrite Hc.
Qed.

Lemma act_closes ev s s' : act blake3 ev s = Ok s' → closes s → closes s'.
Proof.
  unfold closes. destruct ev as [now name op|path|i|l c|]; cbn [act]; intros H Hc.
  - injection H as <-. unfold watcher, with_watcher, Watcher.processEvent. cbn. fold (watcher s).
    destruct (_ || _); [done|]. destruct (Watcher.is_temporary _); [done|]. destruct (Watcher.closed (watcher s)) eqn:E; [by rewrite <- Hc|exact (eq_trans E Hc)].
  - unfold take_pending in H. destruct (Watcher.pendingEvents _ !! path) as [[ev at_]|]; by injection H as <-.
  - destruct (senders s !! i) as [ev|]; [|by injection H as <-]. unfold send_event in H. destruct (Watcher.closed (watcher s)) eqn:E; [done|].
    injection H as <-. unfold watcher, with_watcher. cbn. destruct (_ <? _); [done|exact (eq_trans E Hc)].
  - injection H as <-. by rewrite (proj1 (turn_closed l c s)), (proj1 (proj2 (turn_closed l c s))).
  - injection H as <-. rewrite Stop_closes by done. unfold Stop. by destruct (stopped s) eqn:E.
Qed.

Lemma act_all_closes evs s s' : act_all blake3 evs s = Ok s' → closes s → closes s'.
Proof.
  revert s. induction evs as [|ev evs IH]; intros s H Hc; [by injection H as <-|]. cbn in H.
  destruct (act blake3 ev s) as [s1|?|?] eqn:E; [|done..]. eapply IH; [exact H|]. by eapply act_closes.
Qed.

(** A loop ends as soon as its [select] takes the stop channel. *)
Lemma turn_quit l s :
  stopped s = true → let s' := turn blake3 l Quit s in
  engine s' = engine s ∧ stopped s' = true ∧ ∀ l', l' ∈ loops s' → l' ∈ loops s ∧ l' ≠ l.
Proof.
  intros Hs. unfold turn. case_bool_decide as Hl; cbn [negb].
  - rewrite Hs. split_and!; [done|done|]. intros l' Hl'. cbn in Hl'. apply list_elem_of_filter in Hl'. tauto.
  - split_and!; [done|done|]. intros l' Hl'. split; [done|]. by intros ->.
Qed.

Lemma all_quit s :
  stopped s = true →
  ∃ s', act_all blake3 [Turn EventLoop Quit; Turn CompactionLoop Quit; Turn StateSyncLoop Quit; Turn CacheLoop Quit] s = Ok s' ∧
    loops s' = [] ∧ engine s' = engine s.
Proof.
  intros Hs. eexists. split; [reflexivity|]. destruct (turn_quit EventLoop s Hs) as (E1 & S1 & L1). set (s1 := turn _ EventLoop _ _) in *.
  destruct (turn_quit CompactionLoop s1 S1) as (E2 & S2 & L2). set (s2 := turn _ CompactionLoop _ _) in *.
  destruct (turn_quit StateSyncLoop s2 S2) as (E3 & S3 & L3). set (s3 := turn _ StateSyncLoop _ _) in *.
  destruct (turn_quit CacheLoop s3 S3) as (E4 & S4 & L4). set (s4 := turn _ CacheLoop _ _) in *.
  split; [|by rewrite E4, E3, E2, E1]. destruct (loops s4) as [|l ls]; [done|]. exfalso.
  destruct (L4 l) as [H4 ?]; [by left|]. apply L3 in H4 as [H3 ?]. apply L2 in H3 as [H2 ?]. apply L1 in H2 as [_ ?]. by destruct l.
Qed.
End Stopping.


