(* ===== verification/Convergence.v ===== *)
(** * Receivers converge

    Versions of one file that are causally ordered and differ in content may
    arrive at an engine in any order, any number of times each, and their
    goroutines may run in any order, one after the other: when none waits any
    more the newest version that arrived is on the disk and in the database. *)

From Stdlib Require Import Strings.Byte Strings.String.
From S2P Require Import Prelude GoStrings GoPath Clock Conflict ConflictProps Hashing Database DatabaseProps Filesystem FilesystemProps Operation Engine EngineProps EngineBehaviour EngineTasks.
Import Engine.

(** What a peer sends: the bytes of the file and the operation. *)
Abbreviation version := (bytes * SyncOperation.t)%type.

Definition clock (x : version) : VectorClock.t := default ∅ (SyncOperation.VectorClock x.2).

(** A version as [HandleIncomingFile] hands it to its goroutine. *)
Definition arrival (ev : event) : option version :=
  match ev with
  | Received _ data m => Some (data, SyncOperation.with_Source "remote" m)
  | _ => None
  end.
Definition arrivals (evs : list event) : list version := omap arrival evs.

(** [x] is among [P], and every other version of [P] is causally before it. *)
Definition newest (x : version) (P : list version) : Prop := x ∈ P ∧ ∀ y, y ∈ P → y = x ∨ clock y <ᵥ clock x.

(** Versions of the file [id] at [rel]: ordered by their clocks, and told apart
    by their checksums. *)
Record causal_history (id rel : string) (h : list version) : Prop := {
  h_type x : x ∈ h → SyncOperation.Type_ x.2 = OpCreate ∨ SyncOperation.Type_ x.2 = OpUpdate;
  h_id x : x ∈ h → SyncOperation.FileID x.2 = id;
  h_path x : x ∈ h → SyncOperation.Path x.2 = rel;
  h_time x : x ∈ h → stored_time (FileMetadata.Mtime (remote_metadata x.2));
  h_chain x y : x ∈ h → y ∈ h → x = y ∨ clock x <ᵥ clock y ∨ clock y <ᵥ clock x;
  h_content x y : x ∈ h → y ∈ h → SyncOperation.Checksum x.2 = SyncOperation.Checksum y.2 → x = y
}.

#[export] Instance vlt_trans : Transitive VectorClock.vlt.
Proof.
  intros a b c [Hab [q Hq]] [Hbc _]. split; [by etrans|]. exists q. specialize (Hbc q). lia.
Qed.

Lemma vlt_irreflexive a : ¬ a <ᵥ a.
Proof. intros [_ [q Hq]]. lia. Qed.

Lemma newest_unique x y P : newest x P → newest y P → x = y.
Proof.
  intros [Hx Hlx] [Hy Hly]. destruct (Hlx y Hy) as [->|H1]; [done|]. destruct (Hly x Hx) as [->|H2]; [done|].
  by destruct (vlt_irreflexive (clock x)); etrans.
Qed.

Section Receiver.
Context (blake3 : bytes → bytes) (F id rel : string) (h : list version).
Let p := Join2 F rel.

(** The version [x] is on the disk under [p] and in the database. *)
Definition shows (x : version) (e : Engine.t) : Prop :=
  (∃ f, OS.look p (fs e) = Some (OS.File f) ∧ OS.content f = x.1 ∧ OS.xattrs f !! XattrKey = Some id) ∧
  (∃ row, DB.GetFileByID id (db e) = Ok row ∧ FileMetadata.FileID row = id ∧
     FileMetadata.Checksum row = SyncOperation.Checksum x.2 ∧ FileMetadata.VectorClock row = SyncOperation.VectorClock x.2).

(** A place to write, before any version arrived. *)
Record unknown (e : Engine.t) : Prop := {
  u_folder : FolderPath e = F; u_tasks : tasks e = []; u_wf : wf (db e); u_fine : OS.faults (fs e) = [];
  u_dir : OS.look (Dir p) (fs e) = Some OS.Directory; u_file : OS.is_dir p (fs e) = false;
  u_row : is_ok (DB.GetFileByID id (db e)) = false ∧ ∀ w, DB.GetFileByID id (db e) ≠ Panic w
}.

(** What may happen at the receiver: a version arrives, a goroutine runs with an
    unused temporary name, one of the tickers. *)
Definition allowed (s : OS.t) (ev : event) : Prop :=
  match ev with
  | Received _ data m => (data, SyncOperation.with_Source "remote" m) ∈ h
  | Scheduled now rand _ => stored_time now ∧ OS.look (Join2 (Dir p) (tmp_pattern +:+ rand)) s = None ∧
                            Join2 (Dir p) (tmp_pattern +:+ rand) ≠ p
  | CompactionTick | StateSyncTick | CacheTick _ => True
  | Changed _ _ | RenameReceived _ _ | Restarted => False
  end.

Section Run.
Hypothesis history : causal_history id rel h.
Hypothesis rel_name : is_empty rel = false.
Hypothesis not_dir : Dir p ≠ p.
Context (s0 : OS.t).
Hypothesis dir0 : OS.look (Dir p) s0 = Some OS.Directory.

(** After the goroutines of [P] have run, [s0] being the first disk. *)
Record after (P : list version) (e : Engine.t) : Prop := {
  a_folder : FolderPath e = F; a_wf : wf (db e); a_fine : OS.faults (fs e) = [];
  a_file : OS.is_dir p (fs e) = false;
  a_other q : q ≠ p → OS.look q (fs e) = OS.look q s0;
  a_waiting x : x ∈ tasks e → x ∈ h;
  a_run x : x ∈ P → x ∈ h;
  a_shows : match P with
            | [] => is_ok (DB.GetFileByID id (db e)) = false ∧ ∀ w, DB.GetFileByID id (db e) ≠ Panic w
            | _ => ∃ x, newest x P ∧ shows x e
            end
}.

Lemma p_clean : Clean p = p.
Proof. by apply Join2_clean. Qed.

Lemma newest_cons_old x y P : newest y P → x = y ∨ clock x <ᵥ clock y → newest y (x :: P).
Proof. intros [Hy Hl] Hx. split; [by right|]. intros z [->|Hz]%elem_of_cons; auto. Qed.

Lemma newest_cons_new x y P : newest y P → clock y <ᵥ clock x → newest x (x :: P).
Proof.
  intros [Hy Hl] Hx. split; [by left|]. intros z [->|Hz]%elem_of_cons; [by left|].
  destruct (Hl z Hz) as [->|Hz']; right; [done|by etrans].
Qed.

(** The version that is put in place. *)
Lemma applied_after now x P e :
  after P e → x ∈ h → stored_time now → newest x (x :: P) → after (x :: P) (applied now p x.1 x.2 e).
Proof using history not_dir.
  intros Ha Hx Hnow Hn. destruct (InsertFile_state now (remote_metadata x.2) (db e)) as (vc & HI & _).
  assert (∀ q, OS.look q (fs (applied now p x.1 x.2 e)) = if decide (q = p) then Some (received now x.1 x.2) else OS.look q (fs e)) as Hlook.
  { intros q. unfold applied, OS.look, OS.put, OS.set_nodes. cbn. case_decide; [subst; apply lookup_insert_eq|by apply lookup_insert_ne]. }
  split.
  - apply Ha.
  - change (wf (DB.InsertFile now (remote_metadata x.2) (db e)).2). apply InsertFile_wf, Ha.
  - apply Ha.
  - unfold OS.is_dir. by rewrite Hlook, decide_True.
  - intros q Hq. rewrite Hlook, decide_False by done. by apply Ha.
  - apply Ha.
  - intros y [->|Hy]%elem_of_cons; [done|by eapply a_run].
  - exists x. split; [done|]. split.
    + eexists. rewrite Hlook, decide_True by done. split; [done|]. split; [done|]. cbn. rewrite <- (h_id _ _ _ history x Hx). apply lookup_insert_eq.
    + destruct (InsertFile_GetFileByID now (remote_metadata x.2) (db e)) as [c Hc]; [apply Ha|by eapply h_time|done|].
      change (FileMetadata.FileID (remote_metadata x.2)) with (SyncOperation.FileID x.2) in Hc. rewrite (h_id _ _ _ history x Hx) in Hc.
      eexists. split; [exact Hc|]. split; [apply (h_id _ _ _ history x Hx)|]. by split.
Qed.

(** One goroutine. *)
Lemma goroutine_after now rand x P e :
  after P e → x ∈ h → stored_time now →
  OS.look (Join2 (Dir p) (tmp_pattern +:+ rand)) s0 = None → Join2 (Dir p) (tmp_pattern +:+ rand) ≠ p →
  after (x :: P) (processIncomingFileAsync now rand x.1 x.2 e).2.
Proof using history rel_name not_dir dir0.
  intros Ha Hx Hnow Ht Htp.
  assert (Join2 (FolderPath e) (SyncOperation.Path x.2) = p) as Hp.
  { unfold p. by rewrite (a_folder _ _ Ha), (h_path _ _ _ history x Hx). }
  assert (writable rand p (fs e)) as Hw.
  { split; [apply Ha| |apply Ha| |done]; rewrite (a_other _ _ Ha); done. }
  assert (is_empty (SyncOperation.Path x.2) = false) as Hpath by by rewrite (h_path _ _ _ history x Hx).
  pose proof (h_type _ _ _ history x Hx) as Hty.
  assert (remote_wins x.2 e → newest x (x :: P) → after (x :: P) (processIncomingFileAsync now rand x.1 x.2 e).2) as Hwin.
  { intros Hr Hn. rewrite processIncoming_remote by (done || by rewrite Hp). rewrite Hp. by apply applied_after. }
  pose proof (a_shows _ _ Ha) as Hs. unfold remote_wins in Hwin. rewrite (h_id _ _ _ history x Hx) in Hwin. destruct P as [|y0 P0].
  { destruct Hs as [Hs Hs']. apply Hwin.
    - destruct (DB.GetFileByID id (db e)) as [r|err|w]; [done|done|by destruct (Hs' w)].
    - split; [by left|]. intros y [->|[]%elem_of_nil]%elem_of_cons. by left. }
  set (P := y0 :: P0) in *. destruct Hs as (y & Hy & Hfile & row & Hrow & Hrid & Hsum & Hvc). pose proof (a_run _ _ Ha y (proj1 Hy)) as Hyh.
  rewrite Hrow in Hwin. destruct (h_chain _ _ _ history x y Hx Hyh) as [->|[Hlt|Hgt]].
  - apply Hwin; [by left|]. apply newest_cons_old; auto.
  - (* the older version is dropped *)
    destruct Hfile as (f & Hl & Hcont & Hxa).
    assert (FileMetadata.Checksum row ≠ SyncOperation.Checksum x.2) as Hne.
    { rewrite Hsum. intros E. pose proof (h_content _ _ _ history y x Hyh Hx E) as ->. by apply vlt_irreflexive in Hlt. }
    pose proof (processIncoming_local now rand x.1 x.2 row f e Hty Hpath (a_fine _ _ Ha)) as H. cbv zeta in H.
    rewrite Hp, (h_id _ _ _ history x Hx) in H. specialize (H Hl Hrow Hne). rewrite Hvc in H. specialize (H Hlt).
    destruct (processIncomingFileAsync _ _ _ _ _) as [r e']. cbn [snd] in *. destruct H as (-> & Hfs & Hdb & _ & HF & Htk).
    split; rewrite ?Hfs, ?Hdb, ?HF, ?Htk; try apply Ha.
    + intros z [->|Hz]%elem_of_cons; [done|]. by eapply a_run.
    + exists y. split; [apply newest_cons_old; auto|]. unfold shows. rewrite Hfs, Hdb. split; [by eexists|]. by exists row.
  - apply Hwin; [right; by rewrite Hvc|]. by eapply newest_cons_new.
Qed.

(** The parts of the state [after] looks at. *)
Lemma after_alike P e e' :
  after P e → FolderPath e' = FolderPath e → fs e' = fs e → (∀ x, x ∈ tasks e' → x ∈ h) →
  wf (db e') → DB.files (db e') = DB.files (db e) → after P e'.
Proof using.
  intros Ha HF Hfs Ht Hwf Hdb. pose proof (GetFileByID_files id _ _ Hdb) as Hg.
  split; rewrite ?HF, ?Hfs, ?Hg; try done; try apply Ha. pose proof (a_shows _ _ Ha) as Hs.
  destruct P; rewrite ?Hg; [done|]. destruct Hs as (x & Hx & Hs). exists x. split; [done|]. unfold shows in *. by rewrite Hfs, Hg.
Qed.

Lemma CompactLog_files n d : DB.files (DB.CompactLog n d).2 = DB.files d.
Proof using. unfold DB.CompactLog. by destruct (_ <=? _). Qed.

(** Any allowed event, [P'] being the goroutines that have run then. *)
Lemma event_after ev P e :
  after P e → allowed s0 ev →
  ∃ P', after P' (handle blake3 ev e).2 ∧ P' ++ tasks (handle blake3 ev e).2 ≡ₚ P ++ tasks e ++ option_list (arrival ev).
Proof using history rel_name not_dir dir0.
  intros Ha Hev. destruct ev as [| now data m|now rand i| | | |now|]; try done; cbv [handle]; cbn [arrival option_list].
  - set (x := (data, SyncOperation.with_Source "remote" m)) in *.
    assert (∃ e', (HandleIncomingFile now data m e).2 = with_tasks (tasks e ++ [x]) e' ∧ FolderPath e' = FolderPath e ∧
      fs e' = fs e ∧ db e' = db e) as (e' & -> & HF & Hfs & Hdb).
    { unfold HandleIncomingFile, gmodify. cbn. destruct (negb _); by eexists. }
    exists P. split; [|done]. apply (after_alike P e); [done..| | |by cbn; rewrite Hdb].
    + intros y. cbn. rewrite elem_of_app, list_elem_of_singleton. intros [Hy| ->]; [by eapply a_waiting|done].
    + cbn. rewrite Hdb. apply Ha.
  - destruct Hev as (Hnow & Ht & Htp). unfold run_task. rewrite app_nil_r. destruct (tasks e !! i) as [[data m]|] eqn:Hi.
    2: { by exists P. }
    exists ((data, m) :: P). destruct (run_task_load now rand i e data m Hi) as (l & Hload & _).
    unfold run_task in Hload. rewrite Hi in Hload. unfold load in Hload. injection Hload as Htasks _ _.
    split; [|rewrite Htasks; etrans; [apply Permutation_middle|]; f_equiv; symmetry; by apply delete_Permutation].
    apply (goroutine_after now rand (data, m)); try done.
    + apply (after_alike P e); try done; try apply Ha. intros y Hy. cbn in Hy. eapply a_waiting; [exact Ha|].
      rewrite (delete_Permutation (tasks e) i (data, m)) by done. by right.
    + eapply a_waiting; [exact Ha|]. by eapply list_elem_of_lookup_2.
  - exists P. rewrite app_nil_r. unfold periodicLogCompaction, ignoring, or_return, gtry, on_db, mbind, gom_bind.
    pose proof (CompactLog_files maxLogEntries (db e)) as Hf. pose proof (CompactLog_wf maxLogEntries (db e) (a_wf _ _ Ha)) as Hw.
    destruct (DB.CompactLog maxLogEntries (db e)) as [[?|?|?] d]; cbn in *; (split; [|done]);
      (apply (after_alike P e); [done..|apply Ha|done|done]).
  - exists P. rewrite app_nil_r. unfold ignoring, or_return, gtry, mbind, gom_bind. pose proof (StateSync_quiet e) as Hq.
    destruct (syncStateWithPeers e) as [[?|?|?] e']; cbn in *; by subst.
  - exists P. rewrite app_nil_r. split; [|done]. apply (after_alike P e); try done; apply Ha.
Qed.

Lemma run_after evs P e :
  after P e → Forall (allowed s0) evs →
  ∃ P', after P' (run blake3 evs e) ∧ P' ++ tasks (run blake3 evs e) ≡ₚ P ++ tasks e ++ arrivals evs.
Proof using history rel_name not_dir dir0.
  revert P e. induction evs as [|ev evs IH]; intros P e Ha Hall; [exists P; by rewrite app_nil_r|].
  apply Forall_cons in Hall as [Hev Hall]. destruct (event_after ev P e Ha Hev) as (P1 & Ha1 & Hp1).
  destruct (IH P1 _ Ha1 Hall) as (P2 & Ha2 & Hp2). exists P2. split; [exact Ha2|]. cbn [run foldl]. unfold run in Hp2. rewrite Hp2.
  rewrite app_assoc, Hp1, <- !app_assoc. unfold arrivals. cbn [omap list_omap]. by destruct (arrival ev).
Qed.
End Run.

(** What has arrived, in whatever order, is on the disk in its newest version
    once no goroutine waits. *)
Lemma versions_converge evs e :
  causal_history id rel h → is_empty rel = false → Dir p ≠ p →
  unknown e → Forall (allowed (fs e)) evs → tasks (run blake3 evs e) = [] → arrivals evs ≠ [] →
  (∃ x, newest x (arrivals evs) ∧ shows x (run blake3 evs e)) ∧
  ∀ q, q ≠ p → OS.look q (fs (run blake3 evs e)) = OS.look q (fs e).
Proof.
  intros Hh Hrel Hp Hu Hall Ht Hne.
  assert (after (fs e) [] e) as Ha.
  { split; try done; try apply Hu; [intros x; rewrite (u_tasks _ Hu)|intros x]; by intros ?%elem_of_nil. }
  destruct (run_after Hh Hrel Hp (fs e) (u_dir _ Hu) evs [] e Ha Hall) as (P & HaP & HP).
  rewrite Ht, (u_tasks _ Hu), app_nil_r in HP. cbn in HP. split; [|apply HaP]. pose proof (a_shows _ _ _ HaP) as Hs.
  destruct P as [|y P]; [by apply Permutation_nil_l in HP; rewrite HP in Hne|]. destruct Hs as (x & [Hx Hl] & Hs).
  exists x. split; [|done]. split; [by rewrite <- HP|]. intros z Hz. apply Hl. by rewrite HP.
Qed.
End Receiver.

(** C3: Receivers converge.  Two engines that know nothing of a file are sent
    causally ordered versions of it, each version any number of times, in any
    order, and run the goroutines of what arrives in any order, while their
    tickers fire.  As soon as the same versions have arrived at both and no
    goroutine waits at either, both have the newest of these versions, and
    nothing else, on the disk and in the database, and no other file changed. *)
Theorem receivers_converge blake3 id rel h F1 F2 evs1 evs2 e1 e2 :
  causal_history id rel h → is_empty rel = false →
  Dir (Join2 F1 rel) ≠ Join2 F1 rel → Dir (Join2 F2 rel) ≠ Join2 F2 rel →
  unknown F1 id rel e1 → unknown F2 id rel e2 →
  Forall (allowed F1 rel h (fs e1)) evs1 → Forall (allowed F2 rel h (fs e2)) evs2 →
  let e1' := run blake3 evs1 e1 in let e2' := run blake3 evs2 e2 in
  tasks e1' = [] → tasks e2' = [] →
  arrivals evs1 ≠ [] → (∀ x, x ∈ arrivals evs1 ↔ x ∈ arrivals evs2) →
  (∃ x, newest x (arrivals evs1) ∧ shows F1 id rel x e1' ∧ shows F2 id rel x e2') ∧
  (∀ q, q ≠ Join2 F1 rel → OS.look q (fs e1') = OS.look q (fs e1)) ∧
  (∀ q, q ≠ Join2 F2 rel → OS.look q (fs e2') = OS.look q (fs e2)).
Proof.
  intros Hh Hrel Hd1 Hd2 Hu1 Hu2 Ha1 Ha2 e1' e2' Ht1 Ht2 Hne Hsame.
  assert (arrivals evs2 ≠ []) as Hne2.
  { intros E. destruct (arrivals evs1) as [|x l]; [done|]. apply (not_elem_of_nil x). rewrite <- E. apply Hsame. by left. }
  destruct (versions_converge blake3 F1 id rel h evs1 e1) as [(x & Hx & Hs1) Ho1]; [done..|].
  destruct (versions_converge blake3 F2 id rel h evs2 e2) as [(y & [Hy Hly] & Hs2) Ho2]; [done..|].
  assert (newest y (arrivals evs1)) as Hy' by (split; [by apply Hsame|]; intros z Hz; by apply Hly, Hsame).
  split; [|done]. exists x. by rewrite (newest_unique x y _ Hx Hy') at 3.
Qed.

(** Two versions of "A"; the first receiver gets the newer one first, the second
    gets both twice and runs the goroutines backwards. *)
Definition demo_version (data checksum : string) (n : Z) : version :=
  (to_bytes data, SyncOperation.with_Source "remote" (demo_remote "A" checksum (clock_of "A" n))).
Definition demo_arrives (x : version) : event := Received 8 x.1 x.2.

Lemma demo_history : causal_history "f1" "a.txt" [demo_version "one" "c1" 1; demo_version "two" "c2" 2].
Proof.
  assert (clock_of "A" 1 <ᵥ clock_of "A" 2) as H by (apply Compare_lt_iff; by vm_compute).
  split; repeat setoid_rewrite elem_of_cons; setoid_rewrite elem_of_nil; unfold clock; naive_solver.
Qed.

Lemma demo_unknown self data : unknown "/sync" "f1" "a.txt" (demo_engine self data DB.initSchema).
Proof. split; try done. apply initSchema_wf. Qed.

Lemma receivers_converge_witness :
  let v1 := demo_version "one" "c1" 1 in let v2 := demo_version "two" "c2" 2 in
  let evs1 := [demo_arrives v2; Scheduled 9 "x" 0; demo_arrives v1; CompactionTick; Scheduled 10 "y" 0] in
  let evs2 := [demo_arrives v1; demo_arrives v2; demo_arrives v2; demo_arrives v1;
               Scheduled 9 "x" 3; Scheduled 9 "y" 2; Scheduled 9 "z" 1; Scheduled 9 "u" 0] in
  let e1 := run blake3_demo evs1 (demo_engine "B" "old" DB.initSchema) in
  let e2 := run blake3_demo evs2 (demo_engine "C" "other" DB.initSchema) in
  ∃ f1 f2, OS.look "/sync/a.txt" (fs e1) = Some (OS.File f1) ∧ OS.look "/sync/a.txt" (fs e2) = Some (OS.File f2) ∧
    OS.content f1 = OS.content f2.
Proof.
  cbv zeta. pose proof (receivers_converge blake3_demo "f1" "a.txt" _ "/sync" "/sync"
    [demo_arrives (demo_version "two" "c2" 2); Scheduled 9 "x" 0; demo_arrives (demo_version "one" "c1" 1); CompactionTick; Scheduled 10 "y" 0]
    [demo_arrives (demo_version "one" "c1" 1); demo_arrives (demo_version "two" "c2" 2); demo_arrives (demo_version "two" "c2" 2);
     demo_arrives (demo_version "one" "c1" 1); Scheduled 9 "x" 3; Scheduled 9 "y" 2; Scheduled 9 "z" 1; Scheduled 9 "u" 0]
    (demo_engine "B" "old" DB.initSchema) (demo_engine "C" "other" DB.initSchema) demo_history eq_refl) as H.
  destruct H as [(x & _ & [(f1 & H1 & C1 & _) _] & [(f2 & H2 & C2 & _) _]) _].
  1-2: by vm_compute. 1-2: apply demo_unknown.
  1-2: repeat (apply Forall_cons; split; [cbn [allowed demo_arrives]; first [done|by left|by right; left|by vm_compute]|]); apply Forall_nil_2.
  1-3: by vm_compute.
  - cbn. intros x. rewrite !elem_of_cons. naive_solver.
  - exists f1, f2. split; [exact H1|]. split; [exact H2|]. by rewrite C1, C2.
Defined.

(** *** What the hypotheses exclude *)

(** A version with the content of the recorded one replaces the record whatever
    its clock, so that an old edit, delivered late, makes room for an older one. *)
Lemma repeated_content_goes_back :
  let first := demo_version "a" "ca" 1 in let middle := demo_version "b" "cb" 2 in let last := demo_version "a" "ca" 3 in
  let evs := [demo_arrives last; Scheduled 9 "x" 0; demo_arrives first; Scheduled 9 "y" 0; demo_arrives middle; Scheduled 9 "z" 0] in
  let e := run blake3_demo evs (demo_engine "B" "old" DB.initSchema) in
  newest last (arrivals evs) ∧ tasks e = [] ∧ shows "/sync" "f1" "a.txt" middle e.
Proof.
  cbv zeta. assert (∀ m n, m < n → clock_of "A" m <ᵥ clock_of "A" n) as H.
  { intros m n Hmn. split; [intros q|exists "A"%string]; unfold VectorClock.Get, map_get, clock_of.
    - destruct (decide ("A"%string = q)) as [<-|]; [rewrite !lookup_singleton_eq; cbn; lia|by rewrite !lookup_singleton_ne].
    - rewrite !lookup_singleton_eq. cbn. lia. }
  split; [|split; [by vm_compute|]].
  - split; [by left|]. intros y Hy. cbn in Hy. rewrite !elem_of_cons in Hy.
    destruct Hy as [->|[->|[->|[]%elem_of_nil]]]; [by left|right; apply (H 1 3); lia|right; apply (H 2 3); lia].
  - split; eexists; (split; [vm_compute; reflexivity|]); by vm_compute.
Qed.

(** A deletion looks at no clock: it removes a version made after it. *)
Lemma stale_deletion_removes now rand data m x e :
  let p := Join2 (FolderPath e) (SyncOperation.Path m) in
  SyncOperation.Type_ m = OpDelete → is_empty (SyncOperation.Path m) = false →
  OS.faults (fs e) = [] → OS.look p (fs e) = Some (OS.File x) →
  OS.look p (fs (processIncomingFileAsync now rand data m e).2) = None.
Proof.
  intros p Hty Hpath Hf Hl. unfold processIncomingFileAsync, mbind, gom_bind. cbn [gmodify]. cbv zeta. fold p. rewrite Hty.
  rewrite decide_False by (by intros [|]). rewrite decide_True by done. unfold ignoring_path, mbind, gom_bind. cbn [gmodify].
  match goal with |- context [deferring _ _ ?s] => set (e1 := s) end.
  assert (fs e1 = fs e) as Hfs by (subst e1; by destruct (SyncOperation.VectorClock m)).
  assert (OS.Remove p (fs e1) = (Ok tt, OS.mk (delete p (OS.nodes (fs e))) [])) as Hr.
  { rewrite Hfs. unfold OS.Remove. rewrite sys_fine by done. assert (Clean p = p) as -> by by apply Join2_clean. rewrite Hl.
    destruct (fs e) as [n f]. cbn in Hf. by subst. }
  unfold deferring, process_delete, gtry, on_fs, mbind, gom_bind. rewrite Hr. unfold ignoring, or_return, gtry, on_db, mbind, gom_bind.
  set (e2 := with_fs _ e1). destruct (DB.DeleteFile _ (db e2)) as [[?|?|?] d]; cbn; unfold OS.look; cbn; apply lookup_delete_eq.
Qed.
