(* ===== verification/Goroutines.v ===== *)
(** * The goroutines of incoming operations, step by step

    [HandleIncomingFile] starts one goroutine per operation, and nothing but the
    mutexes of the clock, of the watcher and of the database orders their steps
    (internal/sync/engine.go: [dbMu] is held for one write at a time, [asyncSem] is
    never used).  A goroutine is its local variables and the point it has
    reached; [advance] runs it up to the next call that another goroutine can
    observe. *)

From Stdlib Require Import Strings.Byte Strings.String.
From S2P Require Import Prelude GoStrings GoPath Clock Conflict ConflictProps Hashing Database DatabaseProps Filesystem FilesystemProps Operation Engine EngineProps EngineBehaviour EngineTasks Convergence.
Import Engine.

Module Goroutine.

(** What comes next. *)
Inductive point : Type :=
  | Merging                               (* e.vectorClock.Merge *)
  | Ignoring                              (* e.watcher.IgnorePath *)
  | Looking                               (* e.db.GetFileByID *)
  | Resolving (localFile : FileMetadata.t)  (* os.ReadFile for the resolver *)
  | Keeping (localFile : FileMetadata.t)    (* os.ReadFile, BroadcastOperation *)
  | Writing                               (* CreateTemp, Write, Close *)
  | Renaming (tempPath : string)          (* os.Rename *)
  | Marking                               (* filesystem.SetFileID *)
  | Recording                             (* e.db.InsertFile *)
  | Removing                              (* os.Remove *)
  | Unrecording                           (* e.db.DeleteFile *)
  | Announcing                            (* the deferred broadcast of a merge *)
  | Watching                              (* the deferred e.watcher.WatchPath *)
  | Finished.

(** [merged]: the broadcast of a merge has been deferred. *)
Record t : Type := mk {
  fileData : bytes; metadata : SyncOperation.t; absPath : string; merged : bool; next : point
}.

Definition at_point (p : point) (g : t) : t := mk (fileData g) (metadata g) (absPath g) (merged g) p.

(** [go e.processIncomingFileAsync(fileData, metadata)]. *)
Definition start (fileData : bytes) (metadata : SyncOperation.t) : t := mk fileData metadata "" false Merging.

(** [return]: the deferred calls, the last one first. *)
Definition return_ (g : t) : t := at_point (if merged g then Announcing else Watching) g.

(** The two halves of [atomicWriteFile]. *)
Definition write_temp (now : time) (rand filePath : string) (data : bytes) : GoM OS.t string :=
  tempPath ← or_else (OS.CreateTemp now (Dir filePath) tmp_pattern rand) no_cleanup "failed to create temp file";
  let remove := ignore_err (OS.Remove tempPath) in
  or_else (OS.Write now tempPath data) (ignore_err OS.Close;; remove) "failed to write to temp file";;
  or_else OS.Close remove "failed to close temp file";;
  mret tempPath.
Definition rename_temp (tempPath filePath : string) : GoM OS.t unit :=
  or_else (OS.Rename tempPath filePath) (ignore_err (OS.Remove tempPath)) "failed to rename temp file".

(** [if err != nil { return }], and where it goes on otherwise. *)
Definition or_return_to {A} (m : GoM Engine.t A) (g : t) (k : A → t) : GoM Engine.t t :=
  r ← gtry m; mret (match r with inl a => k a | inr _ => return_ g end).

(** The winner, when the contents of the record and of the operation differ. *)
Definition decide_winner (g : t) (localFile : FileMetadata.t) (localData : bytes) (e : Engine.t) : outcome t :=
  let m := metadata g in
  let lop := local_op localFile localData in
  let rop := remote_op m (fileData g) in
  match Resolver.ResolveConflict (conflictResolver e) lop rop
          (default ∅ (FileMetadata.VectorClock localFile)) (default ∅ (SyncOperation.VectorClock m)) with
  | Ok winner =>
      if bool_decide (ConflictOp.FileID winner = ConflictOp.FileID lop) &&
         bool_decide (ConflictOp.Checksum winner = ConflictOp.Checksum lop) then Ok (at_point (Keeping localFile) g)
      else if bool_decide (ConflictOp.FileID winner = ConflictOp.FileID rop) &&
              bool_decide (ConflictOp.Checksum winner = ConflictOp.Checksum rop) then Ok (at_point Writing g)
      else Ok (mk (ConflictOp.Data winner)
                 (SyncOperation.with_data (ConflictOp.Data winner) (ConflictOp.Checksum winner) (ConflictOp.Size winner) m)
                 (absPath g) true Writing)
  | Err _ => Ok (return_ g)
  | Panic w => Panic w
  end.

Definition advance (now : time) (rand : string) (g : t) : GoM Engine.t t := λ e,
  let m := metadata g in
  let ty := SyncOperation.Type_ m in
  match next g with
  | Merging =>
      (Ok (mk (fileData g) m (Join2 (FolderPath e) (SyncOperation.Path m)) (merged g)
             (if decide (ty = OpCreate ∨ ty = OpUpdate ∨ ty = OpDelete) then Ignoring else Finished)),
       match SyncOperation.VectorClock m with
       | Some vc => with_vectorClock (VectorClock.Merge (vectorClock e) vc) e
       | None => e
       end)
  | Ignoring =>
      (Ok (at_point (if decide (ty = OpDelete) then Removing else Looking) g),
       with_watcher (Watcher.IgnorePath (absPath g) (watcher e)) e)
  | Looking =>
      (match DB.GetFileByID (SyncOperation.FileID m) (db e) with
       | Ok localFile =>
           Ok (at_point (if bool_decide (FileMetadata.Checksum localFile = SyncOperation.Checksum m) then Writing
                         else Resolving localFile) g)
       | Err _ => Ok (at_point Writing g)
       | Panic w => Panic w
       end, e)
  | Resolving localFile =>
      (r ← gtry (on_fs (OS.ReadFile (absPath g)));
       glift (decide_winner g localFile (match r with inl d => d | inr _ => [] end) e)) e
  | Keeping localFile => (keep_local now m (absPath g) localFile;; mret (return_ g)) e
  | Writing => or_return_to (on_fs (write_temp now rand (absPath g) (fileData g))) g (λ tmp, at_point (Renaming tmp) g) e
  | Renaming tmp => or_return_to (on_fs (rename_temp tmp (absPath g))) g (λ _, at_point Marking g) e
  | Marking => (on_fs (SetFileID (absPath g) (SyncOperation.FileID m));; mret (at_point Recording g)) e
  | Recording => or_return_to (on_db (DB.InsertFile now (remote_metadata m))) g (λ _, return_ g) e
  | Removing =>
      (r ← gtry (on_fs (OS.Remove (absPath g)));
       mret (match r with
             | inr err => if bool_decide (err ≠ OS.NotExist) then return_ g else at_point Unrecording g
             | inl _ => at_point Unrecording g
             end)) e
  | Unrecording => or_return_to (on_db (DB.DeleteFile (SyncOperation.FileID m))) g (λ _, return_ g) e
  | Announcing =>
      (gmodify (broadcast (broadcast_op now (SyncOperation.Path m) (SyncOperation.FileID m) (SyncOperation.Checksum m)
         (SyncOperation.Size m) (unix_milli now) (peerID e) (fileData g) (SyncOperation.VectorClock m)));;
       mret (at_point Watching g)) e
  | Watching => (Ok (at_point Finished g), with_watcher (Watcher.WatchPath (absPath g) (watcher e)) e)
  | Finished => (Ok g, e)
  end.

(** The calls that are left, at most. *)
Definition remaining (g : t) : nat :=
  match next g with
  | Merging => 11 | Ignoring => 10 | Looking => 9 | Resolving _ => 8 | Writing => 6
  | Renaming _ => 5 | Marking => 4 | Recording | Keeping _ | Unrecording => 3 | Removing => 4
  | Announcing => 2 | Watching => 1 | Finished => 0
  end.

(** The goroutine alone, for [n] steps. *)
Fixpoint alone (n : nat) (now : time) (rand : string) (g : t) : GoM Engine.t unit :=
  match n with
  | O => mret tt
  | S n => match next g with
           | Finished => mret tt
           | _ => g' ← advance now rand g; alone n now rand g'
           end
  end.

End Goroutine.

(** ** The goroutines of one engine *)

Module Goroutines.

Record t : Type := mk { engine : Engine.t; running : list Goroutine.t }.

(** One waiting goroutine is started, or one that runs makes its next call. *)
Inductive turn : t → t → Prop :=
  | turn_start i data m e gs :
      tasks e !! i = Some (data, m) →
      turn (mk e gs) (mk (with_tasks (delete i (tasks e)) e) (gs ++ [Goroutine.start data m]))
  | turn_advance i now rand g g' e e' gs :
      gs !! i = Some g → Goroutine.advance now rand g e = (Ok g', e') →
      turn (mk e gs) (mk e' (<[i := g']> gs)).

End Goroutines.

(** ** One goroutine alone *)

Import Goroutine.

Lemma advance_remaining now rand g g' e e' :
  advance now rand g e = (Ok g', e') → next g ≠ Finished → (remaining g' < remaining g)%nat.
Proof.
  unfold advance, or_return_to, decide_winner, remaining, return_. intros H Hn.
  destruct (next g) eqn:En; try done;
    unfold mbind, gom_bind, gtry, glift, mret, gom_ret in H; repeat case_match; simplify_eq; cbn; try lia;
    repeat case_match; lia.
Qed.

Section Alone.
Context (now : time) (rand : string).

(** Until it has finished. *)
Definition run_alone (g : Goroutine.t) : GoM Engine.t unit := alone (remaining g) now rand g.

Lemma alone_enough n g e : (remaining g ≤ n)%nat → alone n now rand g e = run_alone g e.
Proof.
  unfold run_alone. revert g e. induction n as [n IH] using lt_wf_ind. intros g e Hn.
  destruct n as [|n]; [by replace (remaining g) with 0%nat by lia|]. destruct (remaining g) as [|r] eqn:Er.
  { unfold remaining in Er. cbn [alone]. by destruct (next g). }
  assert (next g ≠ Finished) as Hf by (unfold remaining in Er; by intros E; rewrite E in Er).
  assert (∀ k, alone (S k) now rand g e = (g' ← advance now rand g; alone k now rand g') e) as Hk by (intros k; cbn [alone]; by destruct (next g)).
  rewrite !Hk. unfold mbind, gom_bind. destruct (advance now rand g e) as [[g'|?|?] e'] eqn:Ea; [|done..].
  pose proof (advance_remaining _ _ _ _ _ _ Ea Hf). rewrite (IH n) by lia. symmetry. apply IH; lia.
Qed.

Lemma run_alone_eq g e : next g ≠ Finished → run_alone g e = (g' ← advance now rand g; run_alone g') e.
Proof.
  intros Hf. assert (∃ k, remaining g = S k) as [k Hk] by (unfold remaining; destruct (next g); try done; by eexists).
  rewrite <- (alone_enough (S k)) by lia.
  assert (alone (S k) now rand g e = (g' ← advance now rand g; alone k now rand g') e) as -> by (cbn [alone]; by destruct (next g)).
  unfold mbind, gom_bind. destruct (advance now rand g e) as [[g'|?|?] e'] eqn:Ea; [|done..].
  pose proof (advance_remaining _ _ _ _ _ _ Ea Hf). apply alone_enough. lia.
Qed.

(** The deferred calls. *)
Definition finish (g : Goroutine.t) (e : Engine.t) : Engine.t :=
  let e := if merged g then broadcast (broadcast_op now (SyncOperation.Path (metadata g)) (SyncOperation.FileID (metadata g))
             (SyncOperation.Checksum (metadata g)) (SyncOperation.Size (metadata g)) (unix_milli now) (peerID e)
             (fileData g) (SyncOperation.VectorClock (metadata g))) e else e in
  with_watcher (Watcher.WatchPath (absPath g) (watcher e)) e.

#[local] Arguments run_alone : simpl never.

Lemma run_watching g e : run_alone (at_point Watching g) e = (Ok tt, with_watcher (Watcher.WatchPath (absPath g) (watcher e)) e).
Proof. by rewrite run_alone_eq. Qed.

Lemma run_return g e : run_alone (return_ g) e = (Ok tt, finish g e).
Proof.
  unfold return_, finish. destruct (merged g); [|exact (run_watching g e)].
  rewrite run_alone_eq by done. exact (run_watching g _).
Qed.

(** A call whose error ends the goroutine. *)
Lemma run_or_return {A} (m : GoM Engine.t A) (k : A → Goroutine.t) (K : A → GoM Engine.t unit) g e :
  (∀ a e, run_alone (k a) e = deferring (finish g) (K a) e) →
  (g' ← or_return_to m g k; run_alone g') e = deferring (finish g) (or_return m K) e.
Proof.
  intros HK. unfold or_return_to, deferring, or_return, mbind, gom_bind, gtry.
  destruct (m e) as [[a|?|?] e']; cbn; [exact (HK a e')|exact (run_return g e')|done].
Qed.

Lemma run_recording g e :
  run_alone (at_point Recording g) e = deferring (finish g) (ignoring (on_db (DB.InsertFile now (remote_metadata (metadata g))))) e.
Proof. rewrite run_alone_eq by done. apply (run_or_return _ (λ _, return_ g) (λ _, mret tt) (at_point Recording g)). intros _. apply run_return. Qed.

Lemma run_unrecording g e :
  run_alone (at_point Unrecording g) e = deferring (finish g) (ignoring (on_db (DB.DeleteFile (SyncOperation.FileID (metadata g))))) e.
Proof. rewrite run_alone_eq by done. apply (run_or_return _ (λ _, return_ g) (λ _, mret tt) (at_point Unrecording g)). intros _. apply run_return. Qed.

Lemma run_marking g e :
  run_alone (at_point Marking g) e =
  deferring (finish g) (on_fs (SetFileID (absPath g) (SyncOperation.FileID (metadata g)));;
                        ignoring (on_db (DB.InsertFile now (remote_metadata (metadata g))))) e.
Proof.
  rewrite run_alone_eq by done. unfold advance. cbn [next at_point metadata absPath].
  unfold deferring, on_fs at 1 2, SetFileID, ignore_err, mbind, gom_bind.
  destruct (setXattr _ _ _ _) as [[?|?|?] f]; cbn; [exact (run_recording g _)|exact (run_recording g _)|done].
Qed.

Lemma atomicWriteFile_halves filePath data s :
  atomicWriteFile now rand filePath data s = (tmp ← write_temp now rand filePath data; rename_temp tmp filePath) s.
Proof.
  unfold atomicWriteFile, write_temp, rename_temp, mbind, gom_bind.
  destruct (or_else (OS.CreateTemp _ _ _ _) _ _ s) as [[tmp|?|?] s1]; [|done..].
  destruct (or_else (OS.Write _ _ _) _ _ s1) as [[[]|?|?] s2]; [|done..]. by destruct (or_else OS.Close _ _ s2) as [[[]|?|?] s3].
Qed.

Lemma or_return_halves filePath data (k : unit → GoM Engine.t unit) e :
  or_return (on_fs (write_temp now rand filePath data)) (λ tmp, or_return (on_fs (rename_temp tmp filePath)) k) e =
  or_return (on_fs (atomicWriteFile now rand filePath data)) k e.
Proof.
  unfold or_return, gtry, on_fs, mbind, gom_bind. rewrite atomicWriteFile_halves. unfold mbind, gom_bind.
  destruct (write_temp _ _ _ _ _) as [[tmp|?|?] s1]; [|done..]. cbn [fs with_fs].
  by destruct (rename_temp tmp _ s1) as [[[]|?|?] s2].
Qed.

Lemma run_writing g e :
  run_alone (at_point Writing g) e = deferring (finish g) (apply_file now rand (absPath g) (fileData g) (metadata g)) e.
Proof.
  rewrite run_alone_eq by done. unfold advance. cbn [next at_point metadata absPath].
  etrans; [apply (run_or_return _ (λ tmp, at_point (Renaming tmp) g) (λ tmp, or_return (on_fs (rename_temp tmp (absPath g))) (λ _,
    on_fs (SetFileID (absPath g) (SyncOperation.FileID (metadata g)));;
    ignoring (on_db (DB.InsertFile now (remote_metadata (metadata g)))))) (at_point Writing g)); intros tmp e'|].
  - rewrite run_alone_eq by done. apply (run_or_return _ (λ _, at_point Marking g) (λ _, _) (at_point (Renaming tmp) g)). intros _ e2. exact (run_marking g e2).
  - unfold apply_file, deferring. by rewrite or_return_halves.
Qed.

Lemma apply_file_peerID rand' p data m e : peerID (apply_file now rand' p data m e).2 = peerID e.
Proof. unfold apply_file, ignoring, or_return, gtry, on_fs, on_db, mbind, gom_bind. repeat (case_match; simplify_eq/=; try done). Qed.

Section Process.
Context (data : bytes) (m : SyncOperation.t) (p : string).
Let g : point → Goroutine.t := mk data m p false.
Let watch (e : Engine.t) : Engine.t := with_watcher (Watcher.WatchPath p (watcher e)) e.

Lemma run_keeping f e : run_alone (g (Keeping f)) e = deferring watch (keep_local now m p f) e.
Proof using.
  rewrite run_alone_eq by done. unfold advance, deferring, keep_local, or_return, gtry, mbind, gom_bind. cbn [next g metadata absPath].
  destruct (on_fs _ e) as [[d|?|?] e']; [exact (run_return (g (Keeping f)) _)|exact (run_return (g (Keeping f)) _)|done].
Qed.

(** What follows the reading of the local file. *)
Definition decided (f : FileMetadata.t) (d : bytes) (e0 : Engine.t) : GoM Engine.t unit :=
  match Resolver.ResolveConflict (conflictResolver e0) (local_op f d) (remote_op m data)
          (default ∅ (FileMetadata.VectorClock f)) (default ∅ (SyncOperation.VectorClock m)) with
  | Ok winner =>
      if bool_decide (ConflictOp.FileID winner = FileMetadata.FileID f) &&
         bool_decide (ConflictOp.Checksum winner = FileMetadata.Checksum f) then keep_local now m p f
      else if bool_decide (ConflictOp.FileID winner = SyncOperation.FileID m) &&
              bool_decide (ConflictOp.Checksum winner = SyncOperation.Checksum m) then apply_file now rand p data m
      else apply_merge now rand m p winner
  | Err _ => mret tt
  | Panic w => gpanic w
  end.

Lemma run_decided f d e0 e :
  (g' ← glift (decide_winner (g (Resolving f)) f d e0); run_alone g') e = deferring watch (decided f d e0) e.
Proof using.
  unfold decide_winner, decided. cbn [metadata fileData g]. destruct (Resolver.ResolveConflict _ _ _ _ _) as [w|?|?]; [|exact (run_return (g (Resolving f)) e)|done].
  unfold mbind, gom_bind, glift. cbn [ConflictOp.FileID ConflictOp.Checksum local_op remote_op].
  destruct (bool_decide _ && _); [exact (run_keeping f e)|]. destruct (bool_decide _ && _); [exact (run_writing (g Writing) e)|].
  etrans; [exact (run_writing (at_point Writing (mk (ConflictOp.Data w) _ p true Writing)) e)|]. unfold apply_merge, deferring. cbn [fileData metadata absPath at_point].
  set (m' := SyncOperation.with_data _ _ _ m). pose proof (apply_file_peerID rand p (ConflictOp.Data w) m' e) as Hp.
  destruct (apply_file _ _ _ _ _ e) as [[?|?|?] e']; cbn [snd] in Hp; unfold finish; cbn [merged metadata fileData absPath]; by rewrite ?Hp.
Qed.

Lemma process_write_eq e :
  process_write now rand data m p e =
  match DB.GetFileByID (SyncOperation.FileID m) (db e) with
  | Ok f => if bool_decide (FileMetadata.Checksum f = SyncOperation.Checksum m) then apply_file now rand p data m e
            else (r ← gtry (on_fs (OS.ReadFile p)); decided f (match r with inl d => d | inr _ => [] end) e) e
  | Err _ => apply_file now rand p data m e
  | Panic w => (Panic w, e)
  end.
Proof using.
  unfold process_write, resolve, mbind, gom_bind. destruct (DB.GetFileByID _ (db e)) as [f|err|w]; [|done..]. case_bool_decide; [done|].
  destruct (gtry _ e) as [[r|?|?] e1]; [|done..]. unfold decided. destruct (Resolver.ResolveConflict _ _ _ _ _) as [w|?|?]; [|done..].
  cbn [ConflictOp.FileID ConflictOp.Checksum local_op remote_op]. by repeat destruct (bool_decide _ && _).
Qed.

(** From the look-up on. *)
Lemma run_looking e : run_alone (g Looking) e = deferring watch (process_write now rand data m p) e.
Proof using.
  rewrite run_alone_eq by done. unfold deferring. rewrite process_write_eq. unfold advance, mbind at 1, gom_bind at 1. cbn [next metadata g].
  destruct (DB.GetFileByID _ (db e)) as [f|err|w]; [|exact (run_writing (g Writing) e)|done].
  case_bool_decide; [exact (run_writing (g Writing) e)|]. etrans; [apply (run_alone_eq (g (Resolving f))); done|].
  unfold advance. cbn [next metadata absPath g]. unfold mbind at 2 3, gom_bind at 2 3. unfold mbind at 1, gom_bind at 1.
  unfold gtry. destruct (on_fs _ e) as [[d|?|?] e1]; [exact (run_decided f d e e1)|exact (run_decided f [] e e1)|done].
Qed.

(** From the removal on. *)
Lemma run_removing e :
  run_alone (g Removing) e = deferring watch (process_delete m p) e.
Proof using.
  rewrite run_alone_eq by done. unfold advance, deferring, process_delete. cbn [next metadata absPath g]. unfold mbind, gom_bind, gtry.
  destruct (on_fs _ e) as [[?|err|?] e1]; [exact (run_unrecording (g Removing) e1)| |done].
  cbn [mret gom_ret]. case_bool_decide; [exact (run_return (g Removing) e1)|exact (run_unrecording (g Removing) e1)].
Qed.
End Process.

End Alone.

(** ** Two goroutines of one file *)

Section Race.
Context (id rel : string) (now : time) (rand : string).
Import Goroutines.

(** A version of the file [id] at [rel] that an engine would apply. *)
Record applicable (e : Engine.t) (x : version) : Prop := {
  v_type : SyncOperation.Type_ x.2 = OpCreate ∨ SyncOperation.Type_ x.2 = OpUpdate;
  v_id : SyncOperation.FileID x.2 = id;
  v_path : SyncOperation.Path x.2 = rel;
  v_time : stored_time (FileMetadata.Mtime (remote_metadata x.2));
  v_wins : remote_wins x.2 e
}.

Lemma turns i g g' e e' gs :
  gs !! i = Some g → advance now rand g e = (Ok g', e') → rtc turn (mk e gs) (mk e' (<[i := g']> gs)).
Proof. intros. by eapply rtc_once, turn_advance. Qed.

Lemma turns_more i g g' e e' s gs :
  gs !! i = Some g → advance now rand g e = (Ok g', e') → rtc turn (mk e' (<[i := g']> gs)) s → rtc turn (mk e gs) s.
Proof. intros. eapply rtc_l; [by eapply turn_advance|done]. Qed.

(** What the goroutines read and write of the engine, and those that wait. *)
Definition files_of (e : Engine.t) : string * OS.t * DB.t * list version := (FolderPath e, fs e, db e, tasks e).

Let ready (p : string) (x : version) : Goroutine.t := Goroutine.mk x.1 x.2 p false Writing.

Lemma decide_remote g f d e :
  FileMetadata.Checksum f ≠ SyncOperation.Checksum (metadata g) →
  default ∅ (FileMetadata.VectorClock f) <ᵥ default ∅ (SyncOperation.VectorClock (metadata g)) →
  decide_winner g f d e = Ok (at_point Writing g).
Proof.
  intros Hc Hw. apply Compare_lt_iff in Hw. unfold decide_winner. rewrite ResolveConflict_eq, Hw. cbn [Z.eqb Z.ltb Z.compare].
  cbn [ConflictOp.FileID ConflictOp.Checksum local_op remote_op]. rewrite (bool_decide_eq_false_2 (SyncOperation.Checksum _ = _)) by congruence.
  by rewrite andb_false_r, !bool_decide_eq_true_2.
Qed.

(** Up to the point of writing: nothing on disk or in the database changes. *)
Lemma reach_writing i x e gs :
  applicable e x → OS.faults (fs e) = [] → gs !! i = Some (start x.1 x.2) →
  ∃ e', rtc turn (mk e gs) (mk e' (<[i := ready (Join2 (FolderPath e) rel) x]> gs)) ∧ files_of e' = files_of e.
Proof.
  intros [Hty Hid Hp _ Hw] Hf Hi. set (p := Join2 (FolderPath e) rel).
  set (e1 := match SyncOperation.VectorClock x.2 with Some vc => with_vectorClock (VectorClock.Merge (vectorClock e) vc) e | None => e end).
  set (e2 := with_watcher (Watcher.IgnorePath p (watcher e1)) e1).
  assert (files_of e1 = files_of e ∧ conflictResolver e1 = conflictResolver e) as [He1 Hc1] by (unfold e1; by destruct (SyncOperation.VectorClock x.2)).
  assert (files_of e2 = files_of e) as He2 by exact He1.
  set (g1 := Goroutine.mk x.1 x.2 p false). change (ready p x) with (g1 Writing).
  assert (i < length gs)%nat as Hlen by (by eapply lookup_lt_Some).
  assert (∀ q, <[i := g1 q]> gs !! i = Some (g1 q)) as Hat by (intros q; by apply list_lookup_insert_eq).
  assert (∀ q q', <[i := g1 q]> (<[i := g1 q']> gs) = <[i := g1 q]> gs) as Hins by (intros; by rewrite list_insert_insert_eq).
  exists e2. split; [|done].
  eapply (turns_more i _ (g1 Ignoring) e e1); [done| |].
  { unfold advance, g1. cbn [next start metadata]. rewrite decide_True by (destruct Hty; auto). by rewrite Hp. }
  eapply (turns_more i _ (g1 Looking) e1 e2); [done| |rewrite Hins].
  { unfold advance. cbn [next metadata g1]. rewrite decide_False by (by destruct Hty as [->| ->]). done. }
  assert (fs e2 = fs e ∧ db e2 = db e) as [Hfs Hdb] by (by injection He2). unfold remote_wins in Hw. rewrite <- Hdb in Hw.
  assert (advance now rand (g1 Looking) e2 = (match DB.GetFileByID (SyncOperation.FileID x.2) (db e2) with
    | Ok f => Ok (g1 (if bool_decide (FileMetadata.Checksum f = SyncOperation.Checksum x.2) then Writing else Resolving f))
    | Err _ => Ok (g1 Writing) | Panic w => Panic w end, e2)) as Hl by done.
  destruct (DB.GetFileByID _ (db e2)) as [f|err|w]; [|by rewrite <- (Hins Writing Looking); apply (turns i (g1 Looking))|done].
  case_bool_decide as Hc; [by rewrite <- (Hins Writing Looking); apply (turns i (g1 Looking))|]. destruct Hw as [|Hw]; [done|].
  eapply (turns_more i _ (g1 (Resolving f)) e2 e2); [done..|]. rewrite Hins, <- (Hins Writing (Resolving f)). apply (turns i (g1 (Resolving f))); [done|].
  unfold advance. cbn [next g1 absPath]. unfold gtry, on_fs, mbind, gom_bind.
  destruct (ReadFile_pure p (fs e2)) as (r & -> & Hr); [by rewrite Hfs|]. assert (with_fs (fs e2) e2 = e2) as -> by by destruct e2.
  destruct r as [d|err|w]; [| |by destruct (Hr w)]; cbn; by rewrite decide_remote.
Qed.

(** The file is put in place, its record not yet. *)
Lemma reach_recording p i x e gs :
  Clean p = p → writable rand p (fs e) → gs !! i = Some (ready p x) →
  ∃ e', rtc turn (mk e gs) (mk e' (<[i := at_point Recording (ready p x)]> gs)) ∧
        files_of e' = (FolderPath e, OS.put p (received now x.1 x.2) (fs e), db e, tasks e).
Proof.
  intros Hp Hw Hi. set (g := ready p x) in *. assert (i < length gs)%nat as Hlen by (by eapply lookup_lt_Some).
  pose proof (atomicWriteFile_halves now rand p x.1 (fs e)) as Ha.
  rewrite atomicWriteFile_fine in Ha by (done || apply Hw). unfold mbind, gom_bind in Ha.
  destruct (write_temp now rand p x.1 (fs e)) as [[tmp|?|?] s1] eqn:E1; [|done..].
  destruct (rename_temp tmp p s1) as [r s2] eqn:E2. injection Ha as <- <-.
  set (s2 := OS.put p (OS.File (OS.mkFile x.1 384 now ∅)) (fs e)) in *.
  eexists (with_fs (OS.put p (received now x.1 x.2) (fs e)) e). split; [|done].
  assert (∀ q, <[i := at_point q g]> gs !! i = Some (at_point q g)) as Hat by (intros q; by apply list_lookup_insert_eq).
  assert (∀ q q', <[i := at_point q g]> (<[i := at_point q' g]> gs) = <[i := at_point q g]> gs) as Hins by (intros; by rewrite list_insert_insert_eq).
  eapply (turns_more i g (at_point (Renaming tmp) g) e (with_fs s1 e)); [done| |].
  { unfold advance, or_return_to, gtry, on_fs, mbind, gom_bind. cbn [next g ready absPath fileData]. by rewrite E1. }
  eapply (turns_more i _ (at_point Marking g) _ (with_fs s2 (with_fs s1 e))); [done| |rewrite Hins].
  { unfold advance, or_return_to, gtry, on_fs, mbind, gom_bind. cbn [next at_point absPath g ready fs with_fs]. by rewrite E2. }
  rewrite <- (Hins Recording Marking). eapply turns; [done|]. unfold advance, on_fs, mbind, gom_bind. cbn [next at_point absPath g ready metadata fs with_fs].
  rewrite (SetFileID_fine _ _ (OS.mkFile x.1 384 now ∅)); [|apply Hw|rewrite Hp; apply lookup_insert_eq].
  rewrite Hp. unfold s2, OS.put, OS.set_nodes, with_id, received. cbn. by rewrite insert_insert_eq.
Qed.

(** Its record is written, and the path watched again. *)
Lemma reach_finished p i x e gs :
  gs !! i = Some (at_point Recording (ready p x)) →
  ∃ e', rtc turn (mk e gs) (mk e' (<[i := at_point Finished (ready p x)]> gs)) ∧
        files_of e' = (FolderPath e, fs e, (DB.InsertFile now (remote_metadata x.2) (db e)).2, tasks e).
Proof.
  intros Hi. set (g := ready p x) in *. assert (i < length gs)%nat as Hlen by (by eapply lookup_lt_Some).
  destruct (InsertFile_state now (remote_metadata x.2) (db e)) as (vc & HI & _).
  destruct (DB.InsertFile now (remote_metadata x.2) (db e)) as [r d] eqn:E. cbn [snd]. injection HI as -> Hd.
  eexists (with_watcher (Watcher.WatchPath p (watcher e)) (with_db d e)). split; [|done].
  eapply (turns_more i _ (at_point Watching g) e (with_db d e)); [done| |].
  { unfold advance, or_return_to, gtry, on_db, mbind, gom_bind. cbn [next at_point metadata g ready]. by rewrite E. }
  rewrite <- (list_insert_insert_eq gs i (at_point Finished g) (at_point Watching g)). eapply turns; [by apply list_lookup_insert_eq|done].
Qed.

Lemma writable_put p x s : Dir p ≠ p → writable rand p s → writable rand p (OS.put p (received now x.1 x.2) s).
Proof.
  intros Hd [H1 H2 H3 H4 H5]. split; [done|by etrans; [apply lookup_insert_ne|]| |by etrans; [apply lookup_insert_ne|]|done].
  unfold OS.is_dir, OS.look, OS.put, OS.set_nodes. cbn. by rewrite lookup_insert_eq.
Qed.

(** Two files put in place one after the other, and two records. *)
Lemma reach_recordings p (last_x : bool) x y e :
  Clean p = p → Dir p ≠ p → writable rand p (fs e) →
  ∃ e', rtc turn (mk e [ready p x; ready p y]) (mk e' [at_point Recording (ready p x); at_point Recording (ready p y)]) ∧
        OS.look p (fs e') = Some (received now (if last_x then x else y).1 (if last_x then x else y).2) ∧
        db e' = db e ∧ tasks e' = tasks e.
Proof.
  intros Hp Hd Hw. set (gs := [ready p x; ready p y]). assert (∀ q a s, OS.look q (OS.put q (received now a.1 a.2) s) = Some (received now a.1 a.2)) as Hput
    by (intros; apply lookup_insert_eq).
  destruct last_x; [destruct (reach_recording p 1 y e gs) as (e1 & H1 & E1)|destruct (reach_recording p 0 x e gs) as (e1 & H1 & E1)]; try done;
    injection E1 as EF Efs Edb Et; assert (writable rand p (fs e1)) as Hw1 by (rewrite Efs; by apply writable_put).
  - destruct (reach_recording p 0 x e1 [ready p x; at_point Recording (ready p y)]) as (e2 & H2 & E2); [done..|]. injection E2 as _ E2 E3 E4.
    exists e2. split; [by etrans|]. by rewrite E2, E3, E4, Edb, Et, Hput.
  - destruct (reach_recording p 1 y e1 [at_point Recording (ready p x); ready p y]) as (e2 & H2 & E2); [done..|]. injection E2 as _ E2 E3 E4.
    exists e2. split; [by etrans|]. by rewrite E2, E3, E4, Edb, Et, Hput.
Qed.

Lemma reach_end p (last_x : bool) x y e :
  applicable e x → applicable e y → wf (db e) → stored_time now →
  ∃ e' row, rtc turn (mk e [at_point Recording (ready p x); at_point Recording (ready p y)])
                 (mk e' [at_point Finished (ready p x); at_point Finished (ready p y)]) ∧ fs e' = fs e ∧ tasks e' = tasks e ∧
        DB.GetFileByID id (db e') = Ok row ∧
        FileMetadata.Checksum row = SyncOperation.Checksum (if last_x then x else y).2 ∧
        FileMetadata.VectorClock row = SyncOperation.VectorClock (if last_x then x else y).2.
Proof.
  intros Hx Hy Hwf Hnow. set (gs := [at_point Recording (ready p x); at_point Recording (ready p y)]).
  assert (∀ a d, wf d → applicable e a → ∃ row, DB.GetFileByID id (DB.InsertFile now (remote_metadata a.2) d).2 = Ok row ∧
    FileMetadata.Checksum row = SyncOperation.Checksum a.2 ∧ FileMetadata.VectorClock row = SyncOperation.VectorClock a.2) as Hrow.
  { intros a d Hd Ha. destruct (InsertFile_GetFileByID now (remote_metadata a.2) d) as [c Hc]; [done|apply Ha|done|].
    change (FileMetadata.FileID (remote_metadata a.2)) with (SyncOperation.FileID a.2) in Hc. rewrite (v_id _ _ Ha) in Hc. by eexists. }
  destruct last_x; [destruct (reach_finished p 1 y e gs) as (e1 & H1 & E1)|destruct (reach_finished p 0 x e gs) as (e1 & H1 & E1)]; try done;
    injection E1 as EF Efs Edb Et; assert (wf (db e1)) as Hw1 by (rewrite Edb; by apply InsertFile_wf).
  - destruct (reach_finished p 0 x e1 [at_point Recording (ready p x); at_point Finished (ready p y)]) as (e2 & H2 & E2); [done|]. injection E2 as _ E2 E3 E4.
    destruct (Hrow x (db e1) Hw1 Hx) as (row & Hr & ?). exists e2, row. split; [by etrans|]. by rewrite E2, E3, E4, Efs, Et.
  - destruct (reach_finished p 1 y e1 [at_point Finished (ready p x); at_point Recording (ready p y)]) as (e2 & H2 & E2); [done|]. injection E2 as _ E2 E3 E4.
    destruct (Hrow y (db e1) Hw1 Hy) as (row & Hr & ?). exists e2, row. split; [by etrans|]. by rewrite E2, E3, E4, Efs, Et.
Qed.
End Race.

(** C7: Goroutines of one file are not serialised.  Two versions of a file that
    an engine would apply have arrived, and both goroutines look the record up
    before either writes: nothing prevents it, since the lock around the database
    is held for single writes only.  Then every combination is possible: whichever
    of the two is the newer one, the file left on the disk may be either, and the
    record may be of either - also the record of one with the content of the
    other - with no goroutine left to put it right. *)
Theorem goroutines_race id rel now rand x y (disk_x record_x : bool) e :
  let p := Join2 (FolderPath e) rel in
  tasks e = [x; y] → applicable id rel e x → applicable id rel e y →
  is_empty rel = false → Dir p ≠ p → writable rand p (fs e) → wf (db e) → stored_time now →
  ∃ e' gs f row, rtc Goroutines.turn (Goroutines.mk e []) (Goroutines.mk e' gs) ∧
    tasks e' = [] ∧ length gs = 2%nat ∧ Forall (λ g, next g = Finished) gs ∧
    OS.look p (fs e') = Some (OS.File f) ∧ OS.content f = (if disk_x then x else y).1 ∧
    DB.GetFileByID id (db e') = Ok row ∧ FileMetadata.Checksum row = SyncOperation.Checksum (if record_x then x else y).2 ∧
    FileMetadata.VectorClock row = SyncOperation.VectorClock (if record_x then x else y).2.
Proof.
  intros p Ht Hx Hy Hrel Hd Hw Hwf Hnow. assert (Clean p = p) as Hp by by apply Join2_clean.
  set (e0 := with_tasks [] e).
  assert (rtc Goroutines.turn (Goroutines.mk e []) (Goroutines.mk e0 [start x.1 x.2; start y.1 y.2])) as H0.
  { eapply rtc_l; [apply (Goroutines.turn_start 0 x.1 x.2); rewrite Ht; by destruct x|].
    eapply rtc_l; [apply (Goroutines.turn_start 0 y.1 y.2); rewrite Ht; by destruct y|]. rewrite Ht. apply rtc_refl. }
  destruct (reach_writing id rel now rand 0 x e0 [start x.1 x.2; start y.1 y.2]) as (e1 & H1 & E1); [by destruct Hx|apply Hw|done|].
  injection E1 as EF1 Efs1 Edb1 Et1. change (FolderPath e0) with (FolderPath e) in *. fold p in H1. change (fs e0) with (fs e) in *. change (db e0) with (db e) in *.
  assert (applicable id rel e1 x ∧ applicable id rel e1 y) as [Hx1 Hy1].
  { destruct Hx, Hy. split; split; try done; unfold remote_wins in *; by rewrite Edb1. }
  set (W := λ z : version, Goroutine.mk z.1 z.2 p false Writing).
  destruct (reach_writing id rel now rand 1 y e1 [W x; start y.1 y.2]) as (e2 & H2 & E2); [done|rewrite Efs1; apply Hw|done|].
  injection E2 as EF2 Efs2 Edb2 Et2. rewrite EF1 in H2. fold p in H2. change (<[1%nat:=_]> [W x; _]) with [W x; W y] in H2.
  destruct (reach_recordings now rand p disk_x x y e2) as (e3 & H3 & E3 & Edb3 & Et3); [done..|by rewrite Efs2, Efs1|].
  destruct (reach_end id rel now rand p record_x x y e3) as (e4 & row & H4 & E4 & Et4 & Hrow & Hsum & Hvc).
  1-2: destruct Hx, Hy; split; try done; unfold remote_wins in *; by rewrite Edb3, Edb2, Edb1.
  1-2: by rewrite ?Edb3, ?Edb2, ?Edb1.
  eexists e4, _, _, row. split; [by etrans; [exact H0|]; etrans; [exact H1|]; etrans; [exact H2|]; etrans; [exact H3|exact H4]|].
  split; [by rewrite Et4, Et3, Et2, Et1|]. split; [done|]. split; [by repeat constructor|]. split; [by rewrite E4|]. by split.
Qed.

(** "B" ends with the older content on its disk under the newer record. *)
Lemma goroutines_race_witness :
  let x := demo_version "one" "c1" 1 in let y := demo_version "two" "c2" 2 in
  ∃ e' gs f row, rtc Goroutines.turn (Goroutines.mk (with_tasks [x; y] (demo_engine "B" "old" DB.initSchema)) []) (Goroutines.mk e' gs) ∧
    OS.look "/sync/a.txt" (fs e') = Some (OS.File f) ∧ OS.content f = to_bytes "one" ∧
    DB.GetFileByID "f1" (db e') = Ok row ∧ FileMetadata.Checksum row = "c2"%string ∧ FileMetadata.VectorClock row = Some (clock_of "A" 2).
Proof.
  cbv zeta. destruct (goroutines_race "f1" "a.txt" 9 "x" (demo_version "one" "c1" 1) (demo_version "two" "c2" 2) true false
    (with_tasks [demo_version "one" "c1" 1; demo_version "two" "c2" 2] (demo_engine "B" "old" DB.initSchema)))
    as (e' & gs & f & row & H1 & _ & _ & _ & H2 & H3 & H4 & H5 & H6).
  1: done.
  1-2: by split; [right|..].
  1-2: by vm_compute.
  1: by split.
  1: apply initSchema_wf.
  1: by vm_compute.
  exists e', gs, f, row. split; [exact H1|]. split; [exact H2|]. split; [exact H3|]. split; [exact H4|]. split; [exact H5|exact H6].
Defined.

(** ** Any interleaving *)

Section Interleaving.
Context (D : DB.t → Prop) (C : VectorClock.t → Prop) (self : string).
Hypothesis D_InsertFile : ∀ now fm d, D d → D (DB.InsertFile now fm d).2.
Hypothesis D_DeleteFile : ∀ f d, D d → D (DB.DeleteFile f d).2.
Hypothesis C_Merge : ∀ vc other, C vc → C (VectorClock.Merge vc other).

Lemma advance_keeps now rand g : keeps (inv D C self) (advance now rand g).
Proof using D_InsertFile D_DeleteFile C_Merge.
  assert (∀ f, advance now rand g = (λ e, (f e, e)) → keeps (inv D C self) (advance now rand g)) as Hread.
  { intros f E e He. rewrite E. by destruct (f e). }
  destruct (next g) as [| | |f|f| |tmp| | | | | | |] eqn:En; unfold advance in *; rewrite ?En in *.
  1,2,13: intros e (Hd & Hc & Hs).
  - destruct (SyncOperation.VectorClock _); [|done]. split; [done|]. split; [by apply C_Merge|done].
  - by split_and!.
  - by split_and!.
  - by eapply Hread.
  - reader e0. apply keeps_bind; [by keep|]. intros r. by destruct (decide_winner _ _ _ _); keep.
  - reader e0. apply keeps_bind; [|keep]. unfold keep_local. reader e1. keep.
  - reader e0. unfold or_return_to. keep.
  - reader e0. unfold or_return_to. keep.
  - reader e0. keep.
  - reader e0. unfold or_return_to. keep.
  - reader e0. keep.
  - reader e0. unfold or_return_to. keep.
  - reader e0. keep.
  - by eapply Hread.
Qed.
End Interleaving.

Lemma advance_metadata now rand g g' e e' :
  advance now rand g e = (Ok g', e') → SyncOperation.VectorClock (metadata g') = SyncOperation.VectorClock (metadata g).
Proof.
  unfold advance, or_return_to, decide_winner, return_, at_point, mbind, gom_bind, gtry, glift, mret, gom_ret. intros H.
  repeat case_match; simplify_eq; done.
Qed.

(** The goroutines past their first step are covered by the clock. *)
Definition covered (e : Engine.t) (g : Goroutine.t) : Prop :=
  next g = Merging ∨ default ∅ (SyncOperation.VectorClock (metadata g)) ≤ᵥ vectorClock e.

Definition intact (ops0 : list OpRow.t) (vc0 : VectorClock.t) (s : Goroutines.t) : Prop :=
  let e := Goroutines.engine s in
  (wf (db e) ∧ DB.operations (db e) = ops0) ∧ (VectorClock.wf (vectorClock e) ∧ vc0 ≤ᵥ vectorClock e) ∧
  Forall (covered e) (Goroutines.running s).

Lemma turn_intact ops0 vc0 s s' : Goroutines.turn s s' → intact ops0 vc0 s → intact ops0 vc0 s'.
Proof.
  destruct 1 as [i data m e gs Hi|i now rand g g' e e' gs Hi Ha]; intros (Hd & Hc & Hgs); cbn in *.
  { split; [done|]. split; [done|]. apply Forall_app. split; [done|]. constructor; [by left|done]. }
  assert (vectorClock e ≤ᵥ vectorClock e) as Hrefl by by intros q.
  pose proof (advance_keeps (λ d, wf d ∧ DB.operations d = ops0) (λ vc, VectorClock.wf vc ∧ vectorClock e ≤ᵥ vc) (peerID e)) as Hk.
  specialize (Hk ltac:(intros ? ? ? []; split; [by apply InsertFile_wf|by rewrite InsertFile_operations])
    ltac:(intros ? ? []; split; [by apply DeleteFile_wf|by rewrite DeleteFile_operations])
    ltac:(intros vc other []; split; [by auto with go|]; etrans; [done|by auto with go])
    now rand g e (conj Hd (conj (conj (proj1 Hc) Hrefl) eq_refl))).
  rewrite Ha in Hk. destruct Hk as (Hd' & [Hwf' Hle] & _).
  split; [done|]. split; [split; [done|by etrans; [apply Hc|]]|].
  apply Forall_insert; [eapply Forall_impl; [exact Hgs|]; intros g0 [?|?]; [by left|right; by etrans]|].
  right. rewrite (advance_metadata _ _ _ _ _ _ Ha). assert (next g = Merging ∨ next g ≠ Merging) as [En|En] by (destruct (next g); auto).
  2: { rewrite Forall_forall in Hgs. destruct (Hgs g) as [?|Hcov]; [by eapply list_elem_of_lookup_2|done|by etrans]. }
  unfold advance in Ha. rewrite En in Ha. injection Ha as _ <-. destruct (SyncOperation.VectorClock (metadata g)); cbn.
  - apply Merge_le_r, Hc.
  - intros q. pose proof (wf_Get _ q (proj1 Hc)). unfold VectorClock.Get at 1, map_get. rewrite lookup_empty. cbn. lia.
Qed.

(** C8: Whatever the interleaving, nothing is lost.  However the goroutines of an
    engine take turns, and whatever fails in them, the database stays well
    formed, its operation log is untouched, the vector clock never goes back, and
    it covers the clock of every operation whose goroutine has finished. *)
Theorem interleaving_keeps e e' gs' :
  rtc Goroutines.turn (Goroutines.mk e []) (Goroutines.mk e' gs') → wf (db e) → VectorClock.wf (vectorClock e) →
  wf (db e') ∧ DB.operations (db e') = DB.operations (db e) ∧ VectorClock.wf (vectorClock e') ∧ vectorClock e ≤ᵥ vectorClock e' ∧
  ∀ g, g ∈ gs' → next g = Finished → default ∅ (SyncOperation.VectorClock (metadata g)) ≤ᵥ vectorClock e'.
Proof.
  intros Hr Hd Hc. assert (intact (DB.operations (db e)) (vectorClock e) (Goroutines.mk e' gs')) as H.
  { assert (intact (DB.operations (db e)) (vectorClock e) (Goroutines.mk e [])) as H by (split_and!; done || constructor).
    revert H. induction Hr as [|? ? ? Ht _ IH]; [done|]. intros H. by eapply IH, turn_intact. }
  destruct H as ([? ?] & [? ?] & Hg). split_and!; [done..|]. intros g Hin Hn. rewrite Forall_forall in Hg.
  destruct (Hg g Hin) as [E|]; [by rewrite Hn in E|done].
Qed.

(** A deletion of an unknown file, five calls. *)
Lemma interleaving_keeps_witness :
  let m := SyncOperation.with_VectorClock (Some (clock_of "A" 3)) (NewSyncOperation 9 OpDelete "gone.txt" "f9" "A") in
  ∃ e', rtc Goroutines.turn (Goroutines.mk (with_tasks [([], m)] (demo_engine "B" "old" DB.initSchema)) [])
          (Goroutines.mk e' [Goroutine.mk [] m "/sync/gone.txt" false Finished]) ∧
    wf (db e') ∧ clock_of "A" 3 ≤ᵥ vectorClock e'.
Proof.
  cbv zeta. set (m := SyncOperation.with_VectorClock _ _). set (e := with_tasks _ _). eexists.
  match goal with |- ?R ∧ _ => assert R as H end.
  { eapply rtc_l; [by apply (Goroutines.turn_start 0 [] m)|]. do 4 (eapply rtc_l; [by eapply (Goroutines.turn_advance 0 9 "x"); [done|vm_compute; reflexivity]|]).
    eapply rtc_l; [eapply (Goroutines.turn_advance 0 9 "x"); [done|vm_compute; reflexivity]|]. vm_compute. apply rtc_refl. }
  split; [exact H|]. destruct (interleaving_keeps e _ _ H initSchema_wf) as (Hd & _ & _ & _ & Hg); [by vm_compute|].
  split; [exact Hd|]. exact (Hg _ ltac:(by left) eq_refl).
Defined.
