(* ===== verification/InMemory.v ===== *)
(** * The in-memory messenger of the tests (internal/sync/messenger.go)

    Engines registered with one messenger deliver their operations to each other
    by calls, without a transport.  The goroutines of a broadcast are run one
    after the other; every engine works on its own disk, the source file is read
    from the one of its engine.  [peerMapping] maps every registered id to
    itself and is never read. *)

From Stdlib Require Import Strings.Byte Strings.String.
From S2P Require Import Prelude GoStrings GoPath Clock Hashing Database DatabaseProps Filesystem Operation Messages Engine EngineProps EngineBehaviour.

Module InMemoryMessenger.

Record t : Type := mk { engines : gmap string Engine.t; peerMapping : gmap string string }.

Definition NewInMemoryMessenger : t := mk ∅ ∅.

Definition with_engines (x : gmap string Engine.t) (m : t) : t := mk x (peerMapping m).

Definition RegisterEngine (peerID : string) (engine : Engine.t) (m : t) : t :=
  mk (<[peerID := engine]> (engines m)) (<[peerID := peerID]> (peerMapping m)).

Definition RequestStateSync (peerID : string) : GoM t unit := mret tt.
Definition ConnectToPeer (peerID address : string) (port : Z) : GoM t unit := mret tt.

(** A goroutine at one engine: its error is dropped. *)
Definition deliver (act : GoM Engine.t unit) (e : Engine.t) : Engine.t := (act e).2.

(** The caller's operation is shared: the engine marks it as remote. *)
Definition SendFile (now : time) (peerID : string) (fileData : bytes) (metadata : SyncOperation.t) : GoM t SyncOperation.t := λ m,
  match engines m !! peerID with
  | None => (Ok metadata, m)
  | Some engine =>
      (Ok (SyncOperation.with_Source "remote" metadata),
       with_engines (<[peerID := deliver (Engine.HandleIncomingFile now fileData metadata) engine]> (engines m)) m)
  end.

(** A goroutine for every engine but the source's. *)
Definition to_others (source : string) (act : GoM Engine.t unit) (m : t) : t :=
  with_engines (map_imap (λ peerID e, Some (if decide (peerID = source) then e else deliver act e)) (engines m)) m.

(** The copies that are sent: none has the vector clock, the mode or the data. *)
Definition file_op (op : SyncOperation.t) : SyncOperation.t :=
  SyncOperation.mk (SyncOperation.ID op) (SyncOperation.Type_ op) (SyncOperation.Path op) None (SyncOperation.FileID op)
    (SyncOperation.Checksum op) (SyncOperation.Size op) (SyncOperation.Timestamp op) None (SyncOperation.PeerID op) "remote"
    (SyncOperation.Mtime op) None [] None None None None None None.
Definition delete_op (op : SyncOperation.t) : SyncOperation.t :=
  SyncOperation.mk (SyncOperation.ID op) (SyncOperation.Type_ op) (SyncOperation.Path op) None (SyncOperation.FileID op)
    "" 0 (SyncOperation.Timestamp op) None (SyncOperation.PeerID op) "remote" 0 None [] None None None None None None.
Definition rename_op (op : SyncOperation.t) : SyncOperation.t :=
  SyncOperation.mk (SyncOperation.ID op) (SyncOperation.Type_ op) (SyncOperation.Path op) (SyncOperation.FromPath op)
    (SyncOperation.FileID op) (SyncOperation.Checksum op) (SyncOperation.Size op) (SyncOperation.Timestamp op) None
    (SyncOperation.PeerID op) "remote" (SyncOperation.Mtime op) None [] None None None None None None.

(** The file is read through the disk of the source's engine. *)
Definition BroadcastOperation (now : time) (op : SyncOperation.t) : GoM t unit := λ m,
  let source := SyncOperation.PeerID op in
  let ty := SyncOperation.Type_ op in
  if decide (ty = OpCreate ∨ ty = OpUpdate) then
    match engines m !! source with
    | None => (Ok tt, m)
    | Some sourceEngine =>
        let '(r, sourceEngine) := Engine.on_fs (OS.ReadFile (Join2 (Engine.FolderPath sourceEngine) (SyncOperation.Path op))) sourceEngine in
        let m := with_engines (<[source := sourceEngine]> (engines m)) m in
        match r with
        | Ok fileData => (Ok tt, to_others source (Engine.HandleIncomingFile now fileData (file_op op)) m)
        | Err e => (Err e, m)
        | Panic w => (Panic w, m)
        end
    end
  else if decide (ty = OpDelete) then (Ok tt, to_others source (Engine.HandleIncomingFile now [] (delete_op op)) m)
  else if decide (ty = OpRename) then (Ok tt, to_others source (Engine.HandleIncomingRename now (rename_op op)) m)
  else (Ok tt, m).

End InMemoryMessenger.

Import InMemoryMessenger.

(** ** Properties *)

Lemma to_others_lookup source act m p :
  engines (to_others source act m) !! p = (λ e, if decide (p = source) then e else deliver act e) <$> engines m !! p.
Proof. cbn. rewrite map_lookup_imap. by destruct (engines m !! p). Qed.

(** In the test harness every registered engine but the source's gets every
    operation once, and the source's none: a created or updated file as it is on
    the source's disk when the broadcast runs, a deletion without data, a rename
    with both paths.  None carries the vector clock that the real messenger
    sends, so that the tests exercise the conflict resolution on empty clocks. *)
Theorem in_memory_delivers now op m src x :
  engines m !! SyncOperation.PeerID op = Some src → OS.faults (Engine.fs src) = [] →
  OS.look (Clean (Join2 (Engine.FolderPath src) (SyncOperation.Path op))) (Engine.fs src) = Some (OS.File x) →
  let '(r, m') := BroadcastOperation now op m in
  r = Ok tt ∧ engines m' !! SyncOperation.PeerID op = Some src ∧
  ∀ p e, p ≠ SyncOperation.PeerID op → engines m !! p = Some e →
    ∃ e', engines m' !! p = Some e' ∧
      (SyncOperation.Type_ op = OpCreate ∨ SyncOperation.Type_ op = OpUpdate →
        Engine.tasks e' = Engine.tasks e ++ [(OS.content x, file_op op)]) ∧
      (SyncOperation.Type_ op = OpDelete → Engine.tasks e' = Engine.tasks e ++ [([], delete_op op)]) ∧
      (SyncOperation.Type_ op = OpRename → e' = (Engine.HandleIncomingRename now (rename_op op) e).2) ∧
      SyncOperation.VectorClock (file_op op) = None.
Proof.
  intros Hsrc Hf Hx. unfold BroadcastOperation. rewrite Hsrc.
  assert (∀ data o e, Engine.tasks (deliver (Engine.HandleIncomingFile now data o) e) =
    Engine.tasks e ++ [(data, SyncOperation.with_Source "remote" o)]) as Htasks.
  { intros data o e. unfold deliver, Engine.HandleIncomingFile, gmodify. cbn. by destruct (negb _). }
  assert (∀ act, engines (to_others (SyncOperation.PeerID op) act m) !! SyncOperation.PeerID op = Some src) as Hself.
  { intros act. rewrite to_others_lookup, Hsrc. cbn. by rewrite decide_True. }
  assert (∀ act p e, p ≠ SyncOperation.PeerID op → engines m !! p = Some e →
    engines (to_others (SyncOperation.PeerID op) act m) !! p = Some (deliver act e)) as Hothers.
  { intros act p e Hp He. rewrite to_others_lookup, He. cbn. by rewrite decide_False. }
  destruct (decide (SyncOperation.Type_ op = OpCreate ∨ SyncOperation.Type_ op = OpUpdate)) as [Hty|Hty].
  - unfold Engine.on_fs. rewrite (ReadFile_fine _ _ x Hf Hx).
    assert (with_engines (<[SyncOperation.PeerID op := Engine.with_fs (Engine.fs src) src]> (engines m)) m = m) as ->.
    { destruct m as [es pm]. unfold with_engines. cbn in *. f_equal. apply insert_id. rewrite Hsrc. by destruct src. }
    split; [done|]. split; [apply Hself|]. intros p e Hp He. eexists. split; [by apply Hothers|].
    split_and!; [intros _; apply Htasks|..]; [| |done]; intros E; rewrite E in Hty; by destruct Hty.
  - destruct (decide (SyncOperation.Type_ op = OpDelete)) as [Hd|Hd]; [|destruct (decide (SyncOperation.Type_ op = OpRename)) as [Hr|Hr]].
    + split; [done|]. split; [apply Hself|]. intros p e Hp He. eexists. split; [by apply Hothers|].
      split_and!; [done|intros _; apply Htasks| |done]. by rewrite Hd.
    + split; [done|]. split; [apply Hself|]. intros p e Hp He. eexists. split; [by apply Hothers|].
      split_and!; [done|by rewrite Hr|done|done].
    + split; [done|]. split; [done|]. intros p e Hp He. by exists e.
Qed.

Lemma in_memory_delivers_witness :
  let m := RegisterEngine "B" (demo_engine "B" "old" DB.initSchema)
             (RegisterEngine "A" (demo_engine "A" "new" DB.initSchema) NewInMemoryMessenger) in
  let op := SyncOperation.with_VectorClock (Some (clock_of "A" 3)) (update_op 7 "a.txt" "f1" "c" 3 "A") in
  ∃ e', engines (BroadcastOperation 9 op m).2 !! "B"%string = Some e' ∧ Engine.tasks e' = [(to_bytes "new", file_op op)].
Proof.
  cbv zeta.
  pose proof (in_memory_delivers 9 (SyncOperation.with_VectorClock (Some (clock_of "A" 3)) (update_op 7 "a.txt" "f1" "c" 3 "A"))
    (RegisterEngine "B" (demo_engine "B" "old" DB.initSchema) (RegisterEngine "A" (demo_engine "A" "new" DB.initSchema) NewInMemoryMessenger))
    (demo_engine "A" "new" DB.initSchema) (demo_file "new") eq_refl eq_refl eq_refl) as H.
  destruct (BroadcastOperation _ _ _) as [r m']. destruct H as (_ & _ & H).
  destruct (H "B"%string _ ltac:(done) eq_refl) as (e' & He & Ht & _). exists e'. split; [exact He|]. apply Ht. by right.
Defined.
