(* ===== verification/Handler.v ===== *)
(** * The message handler (internal/network/handler.go)

    [NetworkMessageHandler] receives decoded messages and drives the engine:
    whole files, chunks to be reassembled, deletes and renames.  Its nil-able
    collaborators are options.  The engine's queue of goroutines is inside the
    engine's state (Engine.v); the transport answers through [Net]. *)

From Stdlib Require Import Strings.Byte Strings.String.
From S2P Require Import Prelude GoStrings Clock Hashing Chunking Database Operation Messages Compression Connection Transport Engine.

Module Handler.

Record t : Type := mk {
  connManager : option ConnectionManager.t; transport : option Net.t; syncEngine : option Engine.t;
  heartbeatManager : bool; assembledChunks : gmap string (list Chunk.t);
  chunkMetadata : gmap string SyncOperation.t; peerID : string
}.

Definition with_connManager (x : option ConnectionManager.t) (h : t) : t :=
  mk x (transport h) (syncEngine h) (heartbeatManager h) (assembledChunks h) (chunkMetadata h) (peerID h).
Definition with_transport (x : option Net.t) (h : t) : t :=
  mk (connManager h) x (syncEngine h) (heartbeatManager h) (assembledChunks h) (chunkMetadata h) (peerID h).
Definition with_syncEngine (x : option Engine.t) (h : t) : t :=
  mk (connManager h) (transport h) x (heartbeatManager h) (assembledChunks h) (chunkMetadata h) (peerID h).
Definition with_chunks (x : gmap string (list Chunk.t)) (h : t) : t :=
  mk (connManager h) (transport h) (syncEngine h) (heartbeatManager h) x (chunkMetadata h) (peerID h).
Definition with_metadata (x : gmap string SyncOperation.t) (h : t) : t :=
  mk (connManager h) (transport h) (syncEngine h) (heartbeatManager h) (assembledChunks h) x (peerID h).

Definition NewNetworkMessageHandler (engine : option Engine.t) (heartbeatManager : bool) (peerID : string) : t :=
  mk None None engine heartbeatManager ∅ ∅ peerID.

Definition nil_pointer : string := "nil pointer dereference".

(** A call of the engine; on a nil engine it dereferences nil. *)
Definition on_engine {A} (m : GoM Engine.t A) : GoM t A := λ h,
  match syncEngine h with
  | None => (Panic nil_pointer, h)
  | Some e => let '(r, e') := m e in (r, with_syncEngine (Some e') h)
  end.

Definition on_transport {A} (m : GoM Net.t A) : GoM t A := λ h,
  match transport h with
  | None => (Panic nil_pointer, h)
  | Some n => let '(r, n') := m n in (r, with_transport (Some n') h)
  end.

Section Handler.
Context (blake3 : bytes → bytes) (L : libraries).
Abbreviation HashString := (Hashing.HashString blake3).

(** The acknowledgment names the message it answers only in [CorrelationID]. *)
Definition ack_message (now : time) (self : string) (original : Message.t) (success : bool) (errorMsg : string)
    : Message.t :=
  WithCorrelationID (Message.ID original)
    (if decide (Message.Type_ original = TypeChunk)
     then NewMessage now TypeChunkAck self (PPointer (BChunkAck (ChunkAckMessage.mk "" 0 success errorMsg)))
     else NewMessage now TypeOperationAck self (PPointer (BOperationAck (OperationAckMessage.mk "" success errorMsg)))).

Definition sendAcknowledgment (now : time) (original : Message.t) (success : bool) (errorMsg : string) : GoM t unit := λ h,
  match transport h, connManager h with
  | Some _, Some cm =>
      match ConnectionManager.GetConnection (Message.SenderID original) cm with
      | Ok conn =>
          gwrap "failed to send acknowledgment"
            (on_transport (Net.SendMessage (Message.SenderID original) (Connection.Address conn) (Connection.Port conn)
               (ack_message now (peerID h) original success errorMsg))) h
      | Err e => (Err (wrap "no connection for sender" e), h)
      | Panic w => (Panic w, h)
      end
  | _, _ => (Ok tt, h)
  end.

(** [if x, err := m; err != nil { return sendAcknowledgment(msg, false, ctx: err) }]. *)
Definition or_reject {A} (now : time) (msg : Message.t) (ctx : string) (m : GoM t A) (k : A → GoM t unit) : GoM t unit :=
  r ← gtry m;
  match r with
  | inl a => k a
  | inr err => sendAcknowledgment now msg false (wrap ctx err)
  end.

Definition decompressFileData (data : bytes) (algorithm : option string) (level : option Z) : outcome bytes :=
  match algorithm with
  | None => Ok data
  | Some algorithm =>
      let compressionLevel := match level with Some l => if 0 <? l then l else 3 | None => 3 end in
      c ← wrapping "failed to create decompressor" (NewCompressor L algorithm compressionLevel);
      Compressor.Decompress c data
  end.

(** Decompressed when the operation says so. *)
Definition file_data (op : SyncOperation.t) (data : bytes) : outcome bytes :=
  if bool_decide (SyncOperation.Compressed op = Some true)
  then decompressFileData data (SyncOperation.CompressionAlgorithm op) (SyncOperation.CompressionLevel op)
  else Ok data.

(** The four pointers every operation must carry are dereferenced unchecked. *)
Definition op_of_payload (p : LogEntryPayload.t) : outcome SyncOperation.t :=
  match LogEntryPayload.FileID p, LogEntryPayload.Checksum p, LogEntryPayload.Size p, LogEntryPayload.Mtime p with
  | Some fileID, Some checksum, Some size, Some mtime =>
      Ok (SyncOperation.mk (LogEntryPayload.OperationID p) (LogEntryPayload.Type_ p) (LogEntryPayload.Path p)
            (LogEntryPayload.FromPath p) fileID checksum size (LogEntryPayload.Timestamp p)
            (LogEntryPayload.VectorClock p) (LogEntryPayload.PeerID p) "remote" mtime (LogEntryPayload.Mode p) []
            None None (LogEntryPayload.Compressed p) (LogEntryPayload.OriginalSize p)
            (LogEntryPayload.CompressionAlgorithm p) None)
  | _, _, _, _ => Panic nil_pointer
  end.

(** No data: the chunks of a large file will follow. *)
Definition expect_chunks (op : SyncOperation.t) (h : t) : t :=
  with_metadata (<[SyncOperation.FileID op := op]> (chunkMetadata h))
    (with_chunks (delete (SyncOperation.FileID op) (assembledChunks h)) h).

Definition handleSyncOperation (now : time) (msg : Message.t) : GoM t unit :=
  match Message.Payload msg with
  | PPointer (BLogEntry p) =>
      op ← glift (op_of_payload p);
      let ty := SyncOperation.Type_ op in
      if decide (ty = OpCreate ∨ ty = OpUpdate) then
        match LogEntryPayload.Data p with
        | [] => gmodify (expect_chunks op);; sendAcknowledgment now msg true ""
        | data =>
            or_reject now msg "decompression failed" (glift (file_data op data)) (λ fileData h,
              match syncEngine h with
              | None => sendAcknowledgment now msg false "sync engine not available" h
              | Some _ =>
                  or_reject now msg "file handling failed" (on_engine (Engine.HandleIncomingFile now fileData op))
                    (λ _, sendAcknowledgment now msg true "") h
              end)
        end
      else if decide (ty = OpDelete) then
        or_reject now msg "delete handling failed" (on_engine (Engine.HandleIncomingFile now [] op))
          (λ _, sendAcknowledgment now msg true "")
      else if decide (ty = OpRename) then
        or_reject now msg "rename handling failed"
          (λ h, match syncEngine h, SyncOperation.FromPath op with
                (** The missing path is noticed before the engine is used. *)
                | None, None => (Err "rename operation missing FromPath", h)
                | _, _ => on_engine (Engine.HandleIncomingRename now op) h
                end)
          (λ _, sendAcknowledgment now msg true "")
      else sendAcknowledgment now msg true ""
  | _ => gfail "invalid sync operation payload"
  end.

Definition chunk_of_payload (p : ChunkMessage.t) : Chunk.t :=
  Chunk.mk (ChunkMessage.FileID p) (ChunkMessage.ChunkID p) (ChunkMessage.Offset p) (ChunkMessage.Length p)
    (ChunkMessage.Data p) (ChunkMessage.ChunkHash p) "" (ChunkMessage.IsLast p) (ChunkMessage.TotalChunks p).

Definition received_chunks (fileID : string) (h : t) : list Chunk.t := default [] (assembledChunks h !! fileID).

Definition add_chunk (c : Chunk.t) (h : t) : t :=
  with_chunks (<[Chunk.FileID c := received_chunks (Chunk.FileID c) h ++ [c]]> (assembledChunks h)) h.

Definition forget_file (fileID : string) (h : t) : t :=
  with_metadata (delete fileID (chunkMetadata h)) (with_chunks (delete fileID (assembledChunks h)) h).

(** The stored operation, with the size of the data, or one made up. *)
Definition assembled_op (p : ChunkMessage.t) (sender : string) (assembled : bytes) (stored : option SyncOperation.t)
    : SyncOperation.t :=
  match stored with
  | Some op => SyncOperation.with_content (SyncOperation.FromPath op) (SyncOperation.Checksum op) (zlen assembled) op
  | None =>
      SyncOperation.mk "" OpCreate "" None (ChunkMessage.FileID p) (ChunkMessage.FileHash p) (zlen assembled) 0 None
        sender "remote" 0 None [] None None None None None None
  end.

Definition handleChunk (now : time) (msg : Message.t) : GoM t unit :=
  match Message.Payload msg with
  | PPointer (BChunk p) =>
      let chunk := chunk_of_payload p in
      or_reject now msg "chunk hash verification failed" (glift (VerifyChunkHash HashString chunk)) (λ _ h,
        (gmodify (add_chunk chunk);;
         let chunks := received_chunks (ChunkMessage.FileID p) (add_chunk chunk h) in
         if zlen chunks =? ChunkMessage.TotalChunks p then
           or_reject now msg "file assembly failed" (glift (AssembleChunks HashString chunks (ChunkMessage.FileHash p)))
             (λ assembledData h,
               (let op := assembled_op p (Message.SenderID msg) assembledData (chunkMetadata h !! ChunkMessage.FileID p) in
                gmodify (forget_file (ChunkMessage.FileID p));;
                or_reject now msg "decompression failed" (glift (file_data op assembledData)) (λ fileData,
                  or_reject now msg "assembled file handling failed"
                    (on_engine (Engine.HandleIncomingFile now fileData op))
                    (λ _, sendAcknowledgment now msg true ""))) h)
         else sendAcknowledgment now msg true "") h)
  | _ => gfail "invalid chunk payload"
  end.

(** *** State declarations *)

Definition getLocalFileManifest (e : Engine.t) : outcome (list FileManifestEntry.t) :=
  wrapping "failed to get files from database" ((λ files : list FileMetadata.t, Engine.manifest_entry <$> files) <$> Engine.GetAllFiles e).

(** The local files by id; a later one replaces an earlier one. *)
Definition local_file_map (files : list FileMetadata.t) : gmap string FileMetadata.t :=
  foldl (λ m f, <[FileMetadata.FileID f := f]> m) ∅ files.

Definition compareFileManifests (peerManifest : list FileManifestEntry.t) (e : Engine.t)
    : outcome (list FileManifestEntry.t) :=
  files ← wrapping "failed to get local files" (Engine.GetAllFiles e);
  Ok (List.filter (λ f, match local_file_map files !! FileManifestEntry.FileID f with
                        | None => true
                        | Some l => negb (bool_decide (FileMetadata.Checksum l = FileManifestEntry.Hash f))
                        end) peerManifest).

Definition file_request (now : time) (self : string) (missing : list FileManifestEntry.t) : Message.t :=
  Message.mk (GenerateMessageID now) TypeFileRequest 0 self
    (PValue (BFileRequest (FileRequestMessage.mk
      ((λ f, RequestedFile.mk (FileManifestEntry.FileID f) "normal") <$> missing) (PeerCapabilities.mk true 5)))) None.

Definition requestMissingFiles (now : time) (peer : string) (missing : list FileManifestEntry.t) : GoM t unit := λ h,
  match missing with
  | [] => (Ok tt, h)
  | _ =>
      match connManager h with
      | None => (Panic nil_pointer, h)
      | Some cm =>
          match ConnectionManager.GetConnection peer cm with
          | Ok conn => on_transport (Net.SendMessage peer (Connection.Address conn) (Connection.Port conn)
                         (file_request now (peerID h) missing)) h
          | Err e => (Err (wrap "no connection to peer" e), h)
          | Panic w => (Panic w, h)
          end
      end
  end.

(** The payload is asserted to be a [[]byte]; a decoded message's payload is a
    generic JSON value or a pointer to a struct, and never that. *)
Definition handleStateDeclaration (now : time) (msg : Message.t) : GoM t unit := λ h,
  match syncEngine h with
  | None => sendAcknowledgment now msg false "sync engine not available" h
  | Some _ => (Panic "interface conversion", h)
  end.

Definition handleHeartbeat (now : time) (msg : Message.t) : GoM t unit := λ h,
  (Ok tt, if heartbeatManager h
          then with_connManager (HeartbeatManager.HandleHeartbeatResponse now (Message.SenderID msg) <$> connManager h) h
          else h).

Definition HandleMessage (now : time) (msg : Message.t) : GoM t unit :=
  let ty := Message.Type_ msg in
  if decide (ty = TypeDiscovery ∨ ty = TypeDiscoveryResponse) then mret tt
  else if decide (ty = TypeHandshake) then gfail "handshake handling not implemented yet"
  else if decide (ty = TypeHandshakeAck) then gfail "handshake ack handling not implemented yet"
  else if decide (ty = TypeHandshakeComplete) then gfail "handshake complete handling not implemented yet"
  else if decide (ty = TypeStateDeclaration) then handleStateDeclaration now msg
  else if decide (ty = TypeFileRequest) then sendAcknowledgment now msg true ""
  else if decide (ty = TypeSyncOperation) then handleSyncOperation now msg
  else if decide (ty = TypeChunk) then handleChunk now msg
  else if decide (ty = TypeChunkRequest) then sendAcknowledgment now msg true ""
  else if decide (ty = TypeOperationAck ∨ ty = TypeChunkAck) then mret tt
  else if decide (ty = TypeHeartbeat) then handleHeartbeat now msg
  else gfail "unknown message type".

End Handler.
End Handler.
