(* ===== verification/StateProps.v ===== *)
(** * Properties of state declarations, reconciliation and load balancing *)

From stdpp Require Import fin_maps fin_sets.
From Stdlib Require Import Strings.Byte Strings.String.
From S2P Require Import Prelude GoStrings Json Clock Database DatabaseProps Messages Engine EngineProps Handler State.
Import Engine(with_db).

(** ** Reconciliation *)
Section Reconcile.
Import Reconciler.
Implicit Types m : list FileManifestEntry.t.

Abbreviation ids m := (FileManifestEntry.FileID <$> m).

#[local] Instance entry_eq_dec : EqDecision FileManifestEntry.t.
Proof. solve_decision. Defined.

Definition is_missing (local : gmap string FileManifestEntry.t) (f : FileManifestEntry.t) : bool :=
  match local !! FileManifestEntry.FileID f with None => true | Some _ => false end.
Definition is_conflicting (local : gmap string FileManifestEntry.t) (f : FileManifestEntry.t) : bool :=
  match local !! FileManifestEntry.FileID f with
  | None => false
  | Some l => bool_decide (FileManifestEntry.Hash l ≠ FileManifestEntry.Hash f)
  end.

Lemma check_files_filter local fs missing conflicting :
  foldl (check_file local) (missing, conflicting) fs =
  (missing ++ List.filter (is_missing local) fs, conflicting ++ List.filter (is_conflicting local) fs).
Proof.
  revert missing conflicting. induction fs as [|f fs IH]; intros missing conflicting; [by rewrite !app_nil_r|].
  cbn [foldl check_file List.filter]. unfold is_missing at 1, is_conflicting at 1.
  destruct (local !! _) as [l|]; [|by rewrite IH, <- app_assoc].
  case_bool_decide; rewrite IH, <- ?app_assoc; done.
Qed.

Lemma ReconcileStates_filter local remote :
  ReconcileStates local remote =
  let lf := local_files (StateDeclaration.FileManifest local) in
  ReconciliationResult.mk (List.filter (is_missing lf) (StateDeclaration.FileManifest remote))
    (List.filter (is_conflicting lf) (StateDeclaration.FileManifest remote))
    (List.filter (λ op, negb (bool_decide (LogEntryPayload.OperationID op ∈ local_ops (StateDeclaration.PendingOperations local))))
       (StateDeclaration.PendingOperations remote)).
Proof. unfold ReconcileStates. by rewrite check_files_filter. Qed.

(** The entry of an id is its last one. *)
Lemma foldl_files_lookup m (base : gmap string FileManifestEntry.t) k :
  foldl (λ acc f, <[FileManifestEntry.FileID f := f]> acc) base m !! k =
  match List.find (λ f, bool_decide (FileManifestEntry.FileID f = k)) (reverse m) with
  | Some f => Some f
  | None => base !! k
  end.
Proof.
  induction m as [|f m IH] using rev_ind; [done|]. rewrite foldl_snoc, reverse_snoc. cbn [List.find].
  case_bool_decide as E; [by subst; rewrite lookup_insert_eq|by rewrite lookup_insert_ne].
Qed.

Lemma local_files_lookup m k :
  local_files m !! k = List.find (λ f, bool_decide (FileManifestEntry.FileID f = k)) (reverse m).
Proof. unfold local_files. rewrite foldl_files_lookup. by destruct (List.find _ _). Qed.

Lemma local_files_app m m' k :
  local_files (m ++ m') !! k = match local_files m' !! k with Some f => Some f | None => local_files m !! k end.
Proof.
  unfold local_files at 1. rewrite foldl_app. fold (local_files m).
  rewrite foldl_files_lookup, (local_files_lookup m'). by destruct (List.find _ _).
Qed.

Lemma local_files_None m k : local_files m !! k = None ↔ k ∉ ids m.
Proof.
  rewrite local_files_lookup. split.
  - intros H (f & -> & Hf)%list_elem_of_fmap. pose proof (find_none _ _ H f) as Hd.
    rewrite <- list_elem_of_In, elem_of_reverse in Hd. by apply Hd, bool_decide_eq_false in Hf.
  - intros H. destruct (List.find _ _) as [f|] eqn:E; [|done]. apply find_some in E as [Hf Hk].
    apply bool_decide_eq_true in Hk as <-. destruct H. apply list_elem_of_fmap_2.
    by apply elem_of_reverse, list_elem_of_In.
Qed.

Lemma local_files_elem m f : NoDup (ids m) → f ∈ m → local_files m !! FileManifestEntry.FileID f = Some f.
Proof.
  intros Hnd Hf. rewrite local_files_lookup. destruct (List.find _ _) as [g|] eqn:E.
  - apply find_some in E as [Hg Hk]. apply bool_decide_eq_true in Hk. rewrite <- list_elem_of_In, elem_of_reverse in Hg.
    f_equal. revert Hnd Hf Hg Hk. clear. induction m as [|x m IH]; [by intros _ ?%elem_of_nil|].
    intros [Hx Hnd]%NoDup_cons. rewrite !elem_of_cons. intros [->|Hf] [->|Hg] Hk; [done| | |by apply IH].
    + destruct Hx. apply list_elem_of_fmap. by eauto.
    + destruct Hx. apply list_elem_of_fmap. by eauto.
  - rewrite <- local_files_lookup, local_files_None in E. destruct E. by apply list_elem_of_fmap_2.
Qed.

Lemma filter_disjoint_NoDup (p q : FileManifestEntry.t → bool) m :
  NoDup (ids m) → (∀ f, p f = true → q f = false) → NoDup (ids (List.filter p m ++ List.filter q m)).
Proof.
  intros Hnd Hpq. rewrite fmap_app, NoDup_app.
  assert (∀ r, NoDup (ids (List.filter r m))) as Hf.
  { intros r. eapply sublist_NoDup; [exact Hnd|]. apply fmap_sublist. clear. induction m as [|f m IH]; [done|].
    cbn. destruct (r f); by constructor. }
  split_and!; [apply Hf| |apply Hf]. intros k (f & -> & Hf1)%list_elem_of_fmap (g & Hk & Hg)%list_elem_of_fmap.
  apply list_elem_of_In, filter_In in Hf1 as [Hf1 Hp]. apply list_elem_of_In, filter_In in Hg as [Hg Hq].
  apply list_elem_of_In, (local_files_elem m) in Hf1; [|done]. apply list_elem_of_In, (local_files_elem m) in Hg; [|done].
  rewrite Hk in Hf1. assert (f = g) as -> by congruence. by rewrite (Hpq g Hp) in Hq.
Qed.

(** What a peer has after it fetched what the reconciliation lists. *)
Definition adopt (local : StateDeclaration.t) (r : ReconciliationResult.t) : StateDeclaration.t :=
  StateDeclaration.mk (StateDeclaration.PeerID local) (StateDeclaration.VectorClock local)
    (StateDeclaration.FileManifest local ++ ReconciliationResult.MissingFiles r ++ ReconciliationResult.ConflictingFiles r)
    (StateDeclaration.PendingOperations local ++ ReconciliationResult.PendingOpsToApply r).

Lemma List_filter_nil {A} (p : A → bool) l : (∀ x, x ∈ l → p x = false) → List.filter p l = [].
Proof. induction l as [|x l IH]; intros H; [done|]. cbn. rewrite (H x) by left. apply IH. intros y Hy. apply H. by right. Qed.

Lemma adopted_file local remote f :
  NoDup (ids (StateDeclaration.FileManifest remote)) → f ∈ StateDeclaration.FileManifest remote →
  ∃ l, local_files (StateDeclaration.FileManifest (adopt local (ReconcileStates local remote))) !! FileManifestEntry.FileID f = Some l ∧
    FileManifestEntry.Hash l = FileManifestEntry.Hash f.
Proof.
  intros Hnd Hf. cbn [adopt StateDeclaration.FileManifest]. rewrite local_files_app, ReconcileStates_filter.
  cbn [ReconciliationResult.MissingFiles ReconciliationResult.ConflictingFiles].
  set (lf := local_files (StateDeclaration.FileManifest local)). set (rm := StateDeclaration.FileManifest remote) in *.
  assert (∀ f, is_missing lf f = true → is_conflicting lf f = false) as Hpq.
  { intros g. unfold is_missing, is_conflicting. by destruct (lf !! _). }
  pose proof (filter_disjoint_NoDup _ _ rm Hnd Hpq) as Hl.
  destruct (decide (f ∈ List.filter (is_missing lf) rm ++ List.filter (is_conflicting lf) rm)) as [Hin|Hout].
  { rewrite (local_files_elem _ f) by done. by exists f. }
  assert (local_files (List.filter (is_missing lf) rm ++ List.filter (is_conflicting lf) rm) !! FileManifestEntry.FileID f = None) as ->.
  { apply local_files_None. intros (g & Hk & Hg)%list_elem_of_fmap. destruct Hout.
    assert (g ∈ rm) as Hgr.
    { apply elem_of_app in Hg as [Hg|Hg]; by apply list_elem_of_In, filter_In in Hg as [Hg _]; apply list_elem_of_In. }
    apply (local_files_elem rm) in Hf; [|done]. apply (local_files_elem rm) in Hgr; [|done].
    rewrite Hk, Hgr in Hf. by injection Hf as <-. }
  destruct (lf !! FileManifestEntry.FileID f) as [l|] eqn:E.
  - exists l. split; [done|]. destruct (decide (FileManifestEntry.Hash l = FileManifestEntry.Hash f)) as [|Hne]; [done|].
    destruct Hout. apply elem_of_app. right. apply list_elem_of_In, filter_In. split; [by apply list_elem_of_In|].
    unfold is_conflicting. rewrite E. by apply bool_decide_eq_true.
  - destruct Hout. apply elem_of_app. left. apply list_elem_of_In, filter_In. split; [by apply list_elem_of_In|].
    unfold is_missing. by rewrite E.
Qed.

Lemma reconcile_adopted local remote :
  NoDup (ids (StateDeclaration.FileManifest remote)) →
  ReconcileStates (adopt local (ReconcileStates local remote)) remote = ReconciliationResult.mk [] [] [].
Proof.
  intros Hnd. rewrite (ReconcileStates_filter (adopt _ _)). cbv zeta. f_equal; apply List_filter_nil.
  - intros f Hf. destruct (adopted_file local remote f Hnd Hf) as (l & Hl & _). unfold is_missing. by rewrite Hl.
  - intros f Hf. destruct (adopted_file local remote f Hnd Hf) as (l & Hl & Hh). unfold is_conflicting. rewrite Hl.
    apply bool_decide_eq_false. by intros [].
  - intros op Hop. apply negb_false_iff, bool_decide_eq_true. unfold local_ops. cbn [adopt StateDeclaration.PendingOperations].
    rewrite elem_of_list_to_set, fmap_app, elem_of_app.
    destruct (decide (LogEntryPayload.OperationID op ∈ (LogEntryPayload.OperationID <$> StateDeclaration.PendingOperations local)))
      as [|Hn]; [by left|]. right. apply list_elem_of_fmap_2. rewrite ReconcileStates_filter. cbn.
    apply list_elem_of_In, filter_In. split; [by apply list_elem_of_In|]. apply negb_true_iff, bool_decide_eq_false.
    unfold local_ops. by rewrite elem_of_list_to_set.
Qed.

(** *** Declarations built from a database *)

Lemma scan_file_id r f : DB.scan_file r = Ok f → FileMetadata.FileID f = FileRow.file_id r.
Proof. unfold DB.scan_file. destruct (Clock.VectorClock.UnmarshalJSON _); [|done..]. by intros [= <-]. Qed.

Lemma mapM_scan_ids rows fs : mapM DB.scan_file rows = Ok fs → FileMetadata.FileID <$> fs = FileRow.file_id <$> rows.
Proof.
  revert fs. induction rows as [|r rows IH]; intros fs; [by intros [= <-]|]. cbn [mapM].
  destruct (DB.scan_file r) as [f| |] eqn:E; [|done..]. cbn [mbind outcome_bind].
  destruct (mapM DB.scan_file rows) as [fs'| |]; [|done..]. cbn [mbind outcome_bind]. intros [= <-].
  rewrite !fmap_cons. f_equal; [by apply scan_file_id|by apply IH].
Qed.

Lemma BuildStateDeclaration_ids peer d s :
  wf d → StateDeclaration.BuildStateDeclaration peer d = Ok s → NoDup (ids (StateDeclaration.FileManifest s)).
Proof.
  intros Hwf. unfold StateDeclaration.BuildStateDeclaration, DB.GetAllFiles.
  destruct (mapM DB.scan_file _) as [fs| |] eqn:E; [|done..]. cbn [mbind outcome_bind].
  destruct (DB.GetUnacknowledgedOperations d); [|done..]. cbn [mbind outcome_bind]. intros [= <-].
  cbn [StateDeclaration.FileManifest]. rewrite <- list_fmap_compose.
  change (FileManifestEntry.FileID ∘ StateDeclaration.manifest_entry) with FileMetadata.FileID.
  rewrite (mapM_scan_ids _ _ E). unfold order_by. rewrite merge_sort_Permutation. apply Hwf.
Qed.
End Reconcile.

(** C22: One round of reconciliation is enough.  Between the declarations of two
    databases, [ReconcileStates] lists a remote file as missing exactly when its
    id is not known locally, as conflicting exactly when the content differs,
    and a remote pending operation exactly when it is not pending locally; a
    peer that fetched what is listed has nothing left to reconcile. *)
Theorem reconciliation_converges p q dl dr local remote :
  wf dr → StateDeclaration.BuildStateDeclaration p dl = Ok local →
  StateDeclaration.BuildStateDeclaration q dr = Ok remote →
  let r := Reconciler.ReconcileStates local remote in
  let known := Reconciler.local_files (StateDeclaration.FileManifest local) in
  (∀ f, f ∈ Reconciler.ReconciliationResult.MissingFiles r ↔
     f ∈ StateDeclaration.FileManifest remote ∧ known !! FileManifestEntry.FileID f = None) ∧
  (∀ f, f ∈ Reconciler.ReconciliationResult.ConflictingFiles r ↔
     f ∈ StateDeclaration.FileManifest remote ∧
     ∃ l, known !! FileManifestEntry.FileID f = Some l ∧ FileManifestEntry.Hash l ≠ FileManifestEntry.Hash f) ∧
  (∀ op, op ∈ Reconciler.ReconciliationResult.PendingOpsToApply r ↔
     op ∈ StateDeclaration.PendingOperations remote ∧
     LogEntryPayload.OperationID op ∉ LogEntryPayload.OperationID <$> StateDeclaration.PendingOperations local) ∧
  Reconciler.ReconcileStates (adopt local r) remote = Reconciler.ReconciliationResult.mk [] [] [].
Proof.
  intros Hwf _ Hr. cbv zeta. split_and!; [| | |by apply reconcile_adopted, (BuildStateDeclaration_ids q dr)];
    rewrite ReconcileStates_filter; cbn; intros x; rewrite list_elem_of_In, filter_In, <- list_elem_of_In.
  - unfold is_missing. destruct (_ !! _); naive_solver.
  - unfold is_conflicting. destruct (_ !! _); [rewrite bool_decide_eq_true|]; naive_solver.
  - rewrite negb_true_iff, bool_decide_eq_false. unfold Reconciler.local_ops. by rewrite elem_of_list_to_set.
Qed.

(** A database with the given files, as ids and contents. *)
Definition demo_files (files : list (string * string)) : DB.t :=
  foldl (λ d '(id, sum), (DB.InsertFile 5000000000 (FileMetadata.mk id (id +:+ ".txt") sum 3 1000000000 None "p"
    (Some ∅) false None None zero_time zero_time) d).2) DB.initSchema files.

Lemma demo_files_wf files : wf (demo_files files).
Proof.
  unfold demo_files. generalize initSchema_wf. generalize DB.initSchema.
  induction files as [|[id sum] files IH]; intros d Hd; [done|]. apply IH. by apply InsertFile_wf.
Qed.

Lemma reconciliation_converges_witness :
  ∃ local remote,
    StateDeclaration.BuildStateDeclaration "p" (demo_files [("a", "1"); ("b", "2")]%string) = Ok local ∧
    StateDeclaration.BuildStateDeclaration "q" (demo_files [("b", "3"); ("c", "4"); ("a", "1")]%string) = Ok remote ∧
    let r := Reconciler.ReconcileStates local remote in
    FileManifestEntry.FileID <$> Reconciler.ReconciliationResult.MissingFiles r = ["c"%string] ∧
    FileManifestEntry.FileID <$> Reconciler.ReconciliationResult.ConflictingFiles r = ["b"%string] ∧
    Reconciler.ReconcileStates (adopt local r) remote = Reconciler.ReconciliationResult.mk [] [] [].
Proof.
  destruct (StateDeclaration.BuildStateDeclaration "p" (demo_files [("a", "1"); ("b", "2")]%string)) as [local| |] eqn:El;
    [|vm_compute in El; discriminate..].
  destruct (StateDeclaration.BuildStateDeclaration "q" (demo_files [("b", "3"); ("c", "4"); ("a", "1")]%string)) as [remote| |] eqn:Er;
    [|vm_compute in Er; discriminate..].
  exists local, remote. split; [done|]. split; [done|]. cbv zeta. split_and!.
  - vm_compute in El, Er. injection El as <-. injection Er as <-. by vm_compute.
  - vm_compute in El, Er. injection El as <-. injection Er as <-. by vm_compute.
  - apply (reconciliation_converges "p" "q" _ _ local remote (demo_files_wf _) El Er).
Defined.

(** ** The handler's comparison is the same reconciliation *)

Lemma local_file_map_lookup files k :
  FileMetadata.Checksum <$> Handler.local_file_map files !! k =
  FileManifestEntry.Hash <$> Reconciler.local_files (StateDeclaration.manifest_entry <$> files) !! k.
Proof.
  unfold Handler.local_file_map, Reconciler.local_files. induction files as [|f files IH] using rev_ind; [done|].
  rewrite fmap_app, !foldl_app. cbn [foldl fmap list_fmap].
  change (FileManifestEntry.FileID (StateDeclaration.manifest_entry f)) with (FileMetadata.FileID f).
  destruct (decide (FileMetadata.FileID f = k)) as [<-|Hne].
  - by rewrite !lookup_insert_eq.
  - rewrite !lookup_insert_ne by done. exact IH.
Qed.

Lemma filter_split_Permutation {A} (p q r : A → bool) l :
  (∀ x, p x = q x || r x) → (∀ x, q x = true → r x = false) →
  List.filter p l ≡ₚ List.filter q l ++ List.filter r l.
Proof.
  intros Hp Hqr. induction l as [|x l IH]; [done|]. cbn. rewrite Hp.
  destruct (q x) eqn:Eq; cbn; [rewrite (Hqr x Eq); by apply Permutation_skip|]. destruct (r x); [|done]. rewrite <- Permutation_middle. by apply Permutation_skip.
Qed.

(** C23: The message handler and the state package agree: the files that
    [compareFileManifests] asks a peer for are, up to their order, the missing and
    the conflicting files that [ReconcileStates] finds in the peer's declaration. *)
Theorem compareFileManifests_ReconcileStates peer e local remote wanted :
  StateDeclaration.BuildStateDeclaration peer (Engine.db e) = Ok local →
  Handler.compareFileManifests (StateDeclaration.FileManifest remote) e = Ok wanted →
  let r := Reconciler.ReconcileStates local remote in
  wanted ≡ₚ Reconciler.ReconciliationResult.MissingFiles r ++ Reconciler.ReconciliationResult.ConflictingFiles r.
Proof.
  unfold StateDeclaration.BuildStateDeclaration, Handler.compareFileManifests, Engine.GetAllFiles.
  destruct (DB.GetAllFiles (Engine.db e)) as [files| |]; [|done..]. cbn [mbind outcome_bind wrapping].
  destruct (DB.GetUnacknowledgedOperations _) as [ops| |]; [|done..]. cbn [mbind outcome_bind].
  intros [= <-] [= <-]. cbv zeta. rewrite ReconcileStates_filter.
  cbn [Reconciler.ReconciliationResult.MissingFiles Reconciler.ReconciliationResult.ConflictingFiles StateDeclaration.FileManifest].
  apply filter_split_Permutation.
  - intros f. pose proof (local_file_map_lookup files (FileManifestEntry.FileID f)) as H.
    unfold is_missing, is_conflicting. destruct (Handler.local_file_map files !! _), (Reconciler.local_files _ !! _);
      cbn in H; try done. injection H as ->. repeat case_bool_decide; naive_solver.
  - intros f. unfold is_missing, is_conflicting. by destruct (_ !! _).
Qed.

Lemma compareFileManifests_ReconcileStates_witness :
  let e := with_db (demo_files [("a", "1"); ("b", "2")]%string) (demo_engine "A" "old" DB.initSchema) in
  ∃ local remote wanted,
    StateDeclaration.BuildStateDeclaration "p" (Engine.db e) = Ok local ∧
    Handler.compareFileManifests (StateDeclaration.FileManifest remote) e = Ok wanted ∧
    FileManifestEntry.FileID <$> wanted ≡ₚ ["c"; "b"]%string.
Proof.
  cbv zeta. set (e := with_db _ _).
  destruct (StateDeclaration.BuildStateDeclaration "p" (Engine.db e)) as [local| |] eqn:El; [|vm_compute in El; discriminate..].
  destruct (StateDeclaration.BuildStateDeclaration "q" (demo_files [("b", "3"); ("c", "4"); ("a", "1")]%string)) as [remote| |] eqn:Er;
    [|vm_compute in Er; discriminate..].
  destruct (Handler.compareFileManifests (StateDeclaration.FileManifest remote) e) as [wanted| |] eqn:Ew;
    [|vm_compute in Er; injection Er as <-; vm_compute in Ew; discriminate..].
  exists local, remote, wanted. split; [done|]. split; [done|].
  rewrite (compareFileManifests_ReconcileStates "p" e local remote wanted El Ew).
  vm_compute in El, Er. injection El as <-. injection Er as <-. by vm_compute.
Defined.

(** ** Spreading files over peers *)
Section Spreading.
Import Reconciler.

(** All the files of a distribution, peer after peer. *)
Definition all_files {A} (r : gmap string (list A)) : list A := concat (map_to_list r).*2.

Lemma all_files_insert {A} k (l : list A) r : r !! k = None → all_files (<[k := l]> r) ≡ₚ l ++ all_files r.
Proof. intros H. unfold all_files. by rewrite map_to_list_insert. Qed.

Lemma all_files_append {A} k (f : A) r : all_files (append_file k f r) ≡ₚ all_files r ++ [f].
Proof.
  unfold append_file. rewrite <- insert_delete_eq, all_files_insert by apply lookup_delete_eq.
  destruct (r !! k) as [l|] eqn:E; cbn [default].
  - rewrite <- (insert_delete_id r k l E) at 2. rewrite all_files_insert by apply lookup_delete_eq.
    rewrite <- !app_assoc. apply Permutation_app_head, Permutation_app_comm.
  - rewrite delete_id by done. apply Permutation_app_comm.
Qed.

Lemma append_file_lookup {A} k (f : A) r p :
  default [] (append_file k f r !! p) = default [] (r !! p) ++ (if decide (k = p) then [f] else []).
Proof.
  unfold append_file. case_decide as E; [by subst; rewrite lookup_insert_eq|].
  by rewrite lookup_insert_ne, app_nil_r.
Qed.

Lemma dom_append_file {A} k (f : A) r : dom (append_file k f r) = {[k]} ∪ dom r.
Proof. unfold append_file. by rewrite dom_insert_L. Qed.

(** *** Round robin *)

(** How many of [n] positions from [i] on fall to position [j] of [k]. *)
Fixpoint turns (k j i n : nat) : nat :=
  match n with
  | O => O
  | S n => (if decide (i mod k = j)%nat then 1 else 0) + turns k j (S i) n
  end%nat.


Lemma assign_loop_all peers i files r : all_files (assign_loop peers i files r) ≡ₚ all_files r ++ files.
Proof.
  revert i r. induction files as [|f files IH]; intros i r; [by rewrite app_nil_r|]. cbn [assign_loop].
  rewrite IH, all_files_append, <- app_assoc. done.
Qed.

Lemma assign_loop_count peers i files r j p :
  NoDup peers → peers !! j = Some p →
  length (default [] (assign_loop peers i files r !! p)) =
  (length (default [] (r !! p)) + turns (length peers) j i (length files))%nat.
Proof.
  intros Hnd Hj. revert i r. induction files as [|f files IH]; intros i r; [cbn; lia|].
  cbn [assign_loop length turns]. rewrite IH, append_file_lookup, length_app.
  assert ((j < length peers)%nat) by (by apply lookup_lt_Some in Hj).
  assert ((i mod length peers < length peers)%nat) as Hi by (apply Nat.mod_upper_bound; lia).
  destruct (lookup_lt_is_Some_2 peers _ Hi) as [q Hq]. rewrite (nth_lookup_Some _ _ _ _ Hq).
  assert (q = p ↔ (i mod length peers = j)%nat) as Hqp.
  { split; [intros ->; by eapply NoDup_lookup|intros E; rewrite E in Hq; congruence]. }
  repeat case_decide; cbn; try lia; tauto.
Qed.

(** The positions below [m] that fall to [j]. *)
Definition share (k j m : nat) : nat := ((m + (k - 1 - j)) / k)%nat.

Lemma share_S k j m : (j < k)%nat → share k j (S m) = ((if decide (m mod k = j)%nat then 1 else 0) + share k j m)%nat.
Proof.
  intros Hj. unfold share. rewrite (Nat.div_mod_eq m k). pose proof (Nat.mod_upper_bound m k ltac:(lia)).
  set (q := (m / k)%nat). set (s := (m mod k)%nat) in *. rewrite (Nat.mul_comm k q).
  replace (S (q * k + s) + (k - 1 - j))%nat with (s + k - j + q * k)%nat by lia.
  replace (q * k + s + (k - 1 - j))%nat with (s + (k - 1 - j) + q * k)%nat by lia.
  rewrite !Nat.div_add by lia. replace ((q * k + s) mod k)%nat with s by (rewrite Nat.add_comm, Nat.Div0.mod_add, Nat.mod_small; lia).
  assert (∀ x y, (y * k ≤ x < S y * k)%nat → (x / k)%nat = y) as Hdiv.
  { intros x y Hx. symmetry. apply (Nat.div_unique x k y (x - y * k)); lia. }
  case_decide; [rewrite (Hdiv (s + k - j)%nat 1%nat), (Hdiv _ 0%nat) by lia; lia|].
  destruct (decide (s < j)%nat); [rewrite (Hdiv (s + k - j)%nat 0%nat), (Hdiv _ 0%nat) by lia; lia|].
  rewrite (Hdiv (s + k - j)%nat 1%nat), (Hdiv _ 1%nat) by lia. lia.
Qed.

Lemma turns_share k j i n : (j < k)%nat → (turns k j i n + share k j i)%nat = share k j (i + n).
Proof.
  intros Hj. revert i. induction n as [|n IH]; intros i; [by rewrite Nat.add_0_r|].
  cbn [turns]. rewrite Nat.add_succ_r, <- Nat.add_succ_l, <- IH, share_S by done. lia.
Qed.

Lemma share_bounds k j m : (j < k)%nat → (m / k ≤ share k j m ≤ S (m / k))%nat.
Proof.
  intros Hj. unfold share. split; [apply Nat.Div0.div_le_mono; lia|].
  replace (S (m / k))%nat with ((m + 1 * k) / k)%nat by (rewrite Nat.div_add; lia).
  apply Nat.Div0.div_le_mono. lia.
Qed.

Lemma turns_0 k j n : (j < k)%nat → turns k j 0 n = share k j n.
Proof.
  intros Hj. pose proof (turns_share k j 0 n Hj) as H. cbn [Nat.add] in H.
  assert (share k j 0 = 0%nat) by (unfold share; apply Nat.div_small; lia). lia.
Qed.
End Spreading.

(** Round robin is fair.  Whatever the order in which the map of peers is
    iterated, [AssignFilesToPeers] gives every file to exactly one peer, and each
    of [k] peers gets [n / k] of the [n] files or one more. *)
Theorem AssignFilesToPeers_fair peers files :
  NoDup peers → peers ≠ [] →
  let r := Reconciler.AssignFilesToPeers peers files in
  all_files r ≡ₚ files ∧
  ∀ p, p ∈ peers → let n := length (default [] (r !! p)) in
    (length files / length peers ≤ n ≤ S (length files / length peers))%nat.
Proof.
  intros Hnd Hne. cbv zeta. unfold Reconciler.AssignFilesToPeers. destruct peers as [|p0 peers]; [done|].
  split; [apply assign_loop_all|]. intros p [j Hj]%list_elem_of_lookup.
  assert ((j < length (p0 :: peers))%nat) as Hlt by (by apply lookup_lt_Some in Hj).
  rewrite (assign_loop_count _ _ _ _ j p Hnd Hj), lookup_empty. cbn [default length Nat.add]. rewrite turns_0 by done.
  by apply share_bounds.
Qed.

Lemma AssignFilesToPeers_fair_witness :
  let r := Reconciler.AssignFilesToPeers ["a"; "b"; "c"]%string ["1"; "2"; "3"; "4"; "5"; "6"; "7"]%string in
  (2 ≤ length (default [] (r !! "b"%string)) ≤ 3)%nat.
Proof.
  apply (AssignFilesToPeers_fair ["a"; "b"; "c"]%string ["1"; "2"; "3"; "4"; "5"; "6"; "7"]%string);
    [apply (bool_decide_unpack _); by vm_compute|done|set_solver].
Defined.

(** ** Capacities *)
Section Capacities.
Import Reconciler.
Context (caps : gmap string PeerCapabilities.t) (load : gmap string Z).

(** What a peer may be given: nothing when it is loaded beyond its maximum. *)
Definition allowance (p : string) (c : PeerCapabilities.t) : Z :=
  Z.max 0 (PeerCapabilities.MaxConcurrentTransfers c -! map_get 0 load p).

Record within (s : assignment) : Prop := {
  wi_result : dom (result s) = dom caps;
  wi_remaining : dom (remainingCapacity s) = dom caps;
  wi_range : ∀ p z, remainingCapacity s !! p = Some z → in64 z;
  wi_used : ∀ p c, caps !! p = Some c →
    zlen (default [] (result s !! p)) + Z.max 0 (map_get 0 (remainingCapacity s) p) = allowance p c
}.

Lemma wrap64_in z : in64 (wrap64 z).
Proof. unfold in64, wrap64, two63, two64. pose proof (Z.mod_pos_bound (z + 9223372036854775808) 18446744073709551616). lia. Qed.

Lemma initial_within : within (initial caps load).
Proof.
  split; cbn.
  - by rewrite dom_fmap_L.
  - apply set_eq. intros p. rewrite !elem_of_dom, map_lookup_imap. unfold is_Some. destruct (caps !! p); naive_solver.
  - intros p z. rewrite map_lookup_imap. destruct (caps !! p); [|done]. intros [= <-]. apply wrap64_in.
  - intros p c Hp. unfold allowance, map_get. rewrite lookup_fmap, map_lookup_imap, Hp. cbn. lia.
Qed.

Lemma find_peer_Some order s p : find_peer order s = Some p → p ∈ order ∧ 0 < map_get 0 (remainingCapacity s) p.
Proof. intros [H1 H2]%find_some. apply Z.ltb_lt in H2. by rewrite list_elem_of_In. Qed.

Lemma find_peer_None order s p :
  order ≡ₚ elements (dom caps) → find_peer order s = None → p ∈ dom caps → map_get 0 (remainingCapacity s) p ≤ 0.
Proof.
  intros Ho H Hp. apply Z.ltb_ge. apply (find_none _ _ H p). by rewrite <- list_elem_of_In, Ho, elem_of_elements.
Qed.

Lemma assign_file_within order file s : order ≡ₚ elements (dom caps) → within s → within (assign_file order file s).
Proof.
  intros Ho Hs. unfold assign_file. destruct (find_peer order s) as [p|] eqn:E; [|done].
  apply find_peer_Some in E as [Hp Hpos]. rewrite Ho, elem_of_elements in Hp.
  destruct Hs as [H1 H2 H3 H4]. set (z := map_get 0 (remainingCapacity s) p) in *.
  assert (z -! 1 = z - 1) as Hz.
  { assert (in64 z) as Hr; [|unfold in64, wrap64, two63, two64 in *; rewrite Z.mod_small; lia].
    unfold z, map_get. destruct (remainingCapacity s !! p) eqn:E; [by eapply H3|by unfold in64, two63; simpl; lia]. }
  split; cbn.
  - rewrite dom_append_file. set_solver.
  - rewrite dom_insert_L. set_solver.
  - intros q y. destruct (decide (p = q)) as [->|Hne]; [rewrite lookup_insert_eq; intros [= <-]; apply wrap64_in|].
    rewrite lookup_insert_ne by done. apply H3.
  - intros q c Hq. rewrite append_file_lookup, length_app. specialize (H4 q c Hq). unfold map_get in *.
    destruct (decide (p = q)) as [->|Hne]; [rewrite lookup_insert_eq|rewrite lookup_insert_ne by done; cbn; lia].
    rewrite Hz. fold z in H4. clearbody z. change (default 0 (Some (z - 1))) with (z - 1); cbn [length]. lia.
Qed.

(** Once no peer has capacity left, nothing is assigned any more. *)
Lemma assign_files_full files s :
  Forall (λ x, x.1 ≡ₚ elements (dom caps)) files → (∀ p, p ∈ dom caps → map_get 0 (remainingCapacity s) p ≤ 0) →
  foldl (λ s '(order, file), assign_file order file s) s files = s.
Proof.
  intros Hf Hfull. induction Hf as [|[order file] files Ho _ IH]; [done|]. cbn [foldl fst] in *.
  assert (find_peer order s = None) as E.
  { destruct (find_peer order s) as [p|] eqn:E; [|done]. apply find_peer_Some in E as [Hp Hpos].
    rewrite Ho, elem_of_elements in Hp. specialize (Hfull p Hp). lia. }
  assert (assign_file order file s = s) as -> by (unfold assign_file; by rewrite E). exact IH.
Qed.

Lemma assign_files files s :
  Forall (λ x, x.1 ≡ₚ elements (dom caps)) files → within s →
  let s' := foldl (λ s '(order, file), assign_file order file s) s files in
  within s' ∧ ∃ k, (k ≤ length files)%nat ∧ all_files (result s') ≡ₚ all_files (result s) ++ take k files.*2 ∧
    ((k < length files)%nat → ∀ p, p ∈ dom caps → map_get 0 (remainingCapacity s') p ≤ 0).
Proof.
  intros Hf. revert s. induction Hf as [|[order file] files Ho Hf IH]; intros s Hs.
  { split; [done|]. exists 0%nat. split; [done|]. split; [by rewrite app_nil_r|]. cbn. lia. }
  cbn [foldl fst] in *. destruct (find_peer order s) as [p|] eqn:E.
  - destruct (IH (assign_file order file s)) as (Hw & k & Hk & Hp & Hfull); [by apply assign_file_within|].
    split; [done|]. exists (S k). split; [cbn; lia|]. split; [|intros; apply Hfull; [cbn in *; lia|done]].
    rewrite Hp. unfold assign_file. rewrite E. cbn [result]. by rewrite all_files_append, <- app_assoc.
  - assert (∀ p, p ∈ dom caps → map_get 0 (remainingCapacity s) p ≤ 0) as Hfull by (intros; by eapply find_peer_None).
    assert (assign_file order file s = s) as -> by (unfold assign_file; by rewrite E).
    rewrite assign_files_full by done. split; [done|]. exists 0%nat. split; [lia|]. split; [by rewrite app_nil_r|done].
Qed.
End Capacities.

(** Capacities are respected and used up.  Whatever order the map of peers
    is iterated in for each file, every peer is given at most its free transfers
    (none when it is overloaded); the files given out are the first ones, each to
    one peer; and a file is left over only when every peer has all it may have. *)
Theorem AssignFilesWithCapacity_spec caps load files :
  Forall (λ x, x.1 ≡ₚ elements (dom caps)) files →
  let r := Reconciler.AssignFilesWithCapacity caps load files in
  dom r = dom caps ∧
  ∃ k, (k ≤ length files)%nat ∧ all_files r ≡ₚ take k files.*2 ∧
    ∀ p c, caps !! p = Some c → let n := zlen (default [] (r !! p)) in
      n ≤ allowance load p c ∧ ((k < length files)%nat → n = allowance load p c).
Proof.
  intros Hf. destruct (assign_files caps load files _ Hf (initial_within caps load)) as (Hw & k & Hk & Hp & Hfull).
  cbv zeta. split; [apply (wi_result _ _ _ Hw)|]. exists k. split; [done|]. split.
  - unfold Reconciler.AssignFilesWithCapacity. rewrite Hp.
    assert (all_files (Reconciler.result (Reconciler.initial caps load)) = []) as ->; [|done].
    unfold all_files. cbn. rewrite map_to_list_fmap. rewrite <- list_fmap_compose.
    induction (map_to_list caps) as [|[? ?] l IH]; [done|exact IH].
  - intros p c Hc. pose proof (wi_used _ _ _ Hw p c Hc). split; [unfold Reconciler.AssignFilesWithCapacity; lia|].
    intros Hlt. specialize (Hfull Hlt p ltac:(apply elem_of_dom; by eexists)).
    unfold Reconciler.AssignFilesWithCapacity. lia.
Qed.

Lemma AssignFilesWithCapacity_spec_witness :
  let caps := <["a" := Reconciler.PeerCapabilities.mk true 2 0]> {["b" := Reconciler.PeerCapabilities.mk true 3 0]} in
  let order := elements (dom caps) in
  let r := Reconciler.AssignFilesWithCapacity caps {["b" := 2]} ((λ f, (order, f)) <$> ["1"; "2"; "3"; "4"; "5"]%string) in
  zlen (default [] (r !! "a")) ≤ 2 ∧ zlen (default [] (r !! "b")) ≤ 1.
Proof.
  cbv zeta. set (caps := <["a" := _]> _).
  destruct (AssignFilesWithCapacity_spec caps {["b"%string := 2]}
    ((λ f, (elements (dom caps), f)) <$> ["1"; "2"; "3"; "4"; "5"]%string)) as (_ & k & _ & _ & H).
  { apply Forall_fmap, Forall_forall. intros x _. cbn. reflexivity. }
  split; [exact (proj1 (H "a" (Reconciler.PeerCapabilities.mk true 2 0) eq_refl))|
          exact (proj1 (H "b" (Reconciler.PeerCapabilities.mk true 3 0) eq_refl))].
Defined.

(** ** The load balancer *)

Lemma selectPeer_elem fileID lb : LoadBalancer.peers lb ≠ [] → LoadBalancer.selectPeer fileID lb ∈ LoadBalancer.peers lb.
Proof.
  intros Hne. unfold LoadBalancer.selectPeer. destruct (LoadBalancer.peers lb) as [|p [|q ps]] eqn:E; [done|by left|].
  set (i := Z.to_nat _). assert ((i < length (p :: q :: ps))%nat) as Hi.
  { unfold i. pose proof (Z.mod_pos_bound (LoadBalancer.fnv32a (to_bytes fileID)) (zlen (p :: q :: ps)) ltac:(cbn; lia)). lia. }
  destruct (lookup_lt_is_Some_2 _ _ Hi) as [x Hx]. rewrite (nth_lookup_Some _ _ _ _ Hx). by apply list_elem_of_lookup_2 in Hx.
Qed.

Lemma distribute_foldl sel (files : list FileManifestEntry.t) r p :
  default [] (foldl (λ d f, Reconciler.append_file (sel f) f d) r files !! p) =
  default [] (r !! p) ++ List.filter (λ f, bool_decide (sel f = p)) files.
Proof.
  revert r. induction files as [|f files IH]; intros r; [by rewrite app_nil_r|]. cbn [foldl List.filter].
  rewrite IH, append_file_lookup. case_bool_decide; case_decide; try done; by rewrite <- app_assoc.
Qed.

(** The distribution of files does not depend on who computes it: peers
    that know the same peers, in whatever order, assign every file to the same
    one of them, and a peer's share is exactly the files [GetPeerForFile] names it
    for, in the order of the manifest. *)
Theorem DistributeFiles_agreement peers peers' files p :
  peers ≡ₚ peers' → peers ≠ [] →
  let lb := LoadBalancer.NewLoadBalancer peers in
  let lb' := LoadBalancer.NewLoadBalancer peers' in
  LoadBalancer.DistributeFiles files lb = LoadBalancer.DistributeFiles files lb' ∧
  (∀ fileID, LoadBalancer.GetPeerForFile fileID lb ∈ peers) ∧
  default [] (LoadBalancer.DistributeFiles files lb !! p) =
    List.filter (λ f, bool_decide (LoadBalancer.GetPeerForFile (FileManifestEntry.FileID f) lb' = p)) files.
Proof.
  intros Hp Hne. cbv zeta. unfold LoadBalancer.NewLoadBalancer. rewrite <- (sort_strings_Permutation _ _ Hp).
  set (lb := LoadBalancer.mk _). assert (LoadBalancer.peers lb ≡ₚ peers) as Hl by apply merge_sort_Permutation.
  assert (LoadBalancer.peers lb ≠ []) as Hlne.
  { intros E. rewrite E in Hl. by apply Permutation_nil in Hl. }
  split_and!; [done| |].
  - intros fileID. rewrite <- Hl. by apply selectPeer_elem.
  - unfold LoadBalancer.DistributeFiles. destruct (LoadBalancer.peers lb) as [|q qs] eqn:E; [done|].
    rewrite <- E. rewrite distribute_foldl.
    assert (default [] ((list_to_map ((λ p, (p, [])) <$> LoadBalancer.peers lb) : gmap string (list FileManifestEntry.t)) !! p) = []) as ->.
    { clear. induction (LoadBalancer.peers lb) as [|x l IH]; [done|]. cbn.
      destruct (decide (x = p)) as [->|]; [by rewrite lookup_insert_eq|by rewrite lookup_insert_ne]. }
    done.
Qed.

Lemma DistributeFiles_agreement_witness :
  LoadBalancer.GetPeerForFile "file-7" (LoadBalancer.NewLoadBalancer ["c"; "a"; "b"]%string) ∈ ["c"; "a"; "b"]%string.
Proof.
  apply (DistributeFiles_agreement ["c"; "a"; "b"]%string ["a"; "b"; "c"]%string [] "a");
    [apply (bool_decide_unpack _); by vm_compute|done].
Defined.
