(* ===== verification/Messenger.v ===== *)
(** * The network messenger (internal/network/messenger.go)

    [NetworkMessenger] sends operations and files: it compresses, chunks,
    encrypts, retries until an acknowledgment comes, and decrypts what arrives.
    What the surroundings do is part of its state: the answers of the transport
    ([Net]), the messages that arrive while a send waits for its acknowledgment,
    the random nonces, the fates of flow-control calls (FlowControl.v), and a
    clock that advances with every message made.  The text of a JSON value and
    the parser are parameters; the ciphers are those of Encryption.v. *)

From Stdlib Require Import Strings.Byte Strings.String.
From S2P Require Import Prelude GoStrings GoPath Json Clock Hashing Chunking Filesystem Operation Messages Compression Encryption Connection Transport.

Module Config.
(** The settings the messenger reads. *)
Record t : Type := mk {
  FolderPath : string; ChunkSizeDefault : Z; CompressionEnabled : bool; FileSizeThreshold : Z;
  Algorithm : string; Level : Z
}.
End Config.

Module Messenger.

(** What a one-place acknowledgment channel holds: nothing, success, an error. *)
Abbreviation channel := (option (option error)).

Record t : Type := mk {
  config : Config.t; connManager : ConnectionManager.t; transport : Net.t; compressor : Compressor.t;
  pendingAcks : gmap string channel; retryCount : nat; has_handler : bool; peerID : string;
  disk : OS.t; clock : time; nonces : list bytes; flow : list (outcome unit);
  (** The messages that arrive during each wait to come. *)
  arrivals : list (list Message.t)
}.

Definition with_connManager (x : ConnectionManager.t) (m : t) : t :=
  mk (config m) x (transport m) (compressor m) (pendingAcks m) (retryCount m) (has_handler m) (peerID m)
    (disk m) (clock m) (nonces m) (flow m) (arrivals m).
Definition with_transport (x : Net.t) (m : t) : t :=
  mk (config m) (connManager m) x (compressor m) (pendingAcks m) (retryCount m) (has_handler m) (peerID m)
    (disk m) (clock m) (nonces m) (flow m) (arrivals m).
Definition with_pendingAcks (x : gmap string channel) (m : t) : t :=
  mk (config m) (connManager m) (transport m) (compressor m) x (retryCount m) (has_handler m) (peerID m)
    (disk m) (clock m) (nonces m) (flow m) (arrivals m).
Definition with_disk (x : OS.t) (m : t) : t :=
  mk (config m) (connManager m) (transport m) (compressor m) (pendingAcks m) (retryCount m) (has_handler m) (peerID m)
    x (clock m) (nonces m) (flow m) (arrivals m).
Definition with_clock (x : time) (m : t) : t :=
  mk (config m) (connManager m) (transport m) (compressor m) (pendingAcks m) (retryCount m) (has_handler m) (peerID m)
    (disk m) x (nonces m) (flow m) (arrivals m).
Definition with_nonces (x : list bytes) (m : t) : t :=
  mk (config m) (connManager m) (transport m) (compressor m) (pendingAcks m) (retryCount m) (has_handler m) (peerID m)
    (disk m) (clock m) x (flow m) (arrivals m).
Definition with_flow (x : list (outcome unit)) (m : t) : t :=
  mk (config m) (connManager m) (transport m) (compressor m) (pendingAcks m) (retryCount m) (has_handler m) (peerID m)
    (disk m) (clock m) (nonces m) x (arrivals m).
Definition with_arrivals (x : list (list Message.t)) (m : t) : t :=
  mk (config m) (connManager m) (transport m) (compressor m) (pendingAcks m) (retryCount m) (has_handler m) (peerID m)
    (disk m) (clock m) (nonces m) (flow m) x.

(** The time of the next message; no two are made at the same instant. *)
Definition tick : GoM t time := λ m, (Ok (clock m), with_clock (clock m + 1) m).

(** A call of the flow controller: granted unless its fate says otherwise. *)
Definition flow_call (ctx : error) : GoM t unit := λ m,
  (wrapping ctx (default (Ok tt) (head (flow m))), with_flow (tail (flow m)) m).

Definition random_nonce : GoM t bytes := λ m,
  match nonces m with
  | [] => (Err "failed to generate IV", m)
  | iv :: rest => (Ok iv, with_nonces rest m)
  end.

Definition on_transport {A} (c : GoM Net.t A) : GoM t A := λ m,
  let '(r, n) := c (transport m) in (r, with_transport n m).
Definition on_disk {A} (c : GoM OS.t A) : GoM t A := λ m, let '(r, d) := c (disk m) in (r, with_disk d m).

Section Messenger.
Context (blake3 : bytes → bytes) (P : primitives).
(** encoding/json: the text of a value, the value of a text. *)
Context (json_text : json → bytes) (json_value : bytes → outcome json).

(** ** Acknowledgments *)

Definition trackAcknowledgment (messageID : string) (m : t) : t :=
  with_pendingAcks (<[messageID := None]> (pendingAcks m)) m.
Definition untrackAcknowledgment (messageID : string) (m : t) : t :=
  with_pendingAcks (delete messageID (pendingAcks m)) m.

(** A payload of any other type counts as success. *)
Definition ack_error (p : payload) : option error :=
  match p with
  | PPointer (BOperationAck a) =>
      if OperationAckMessage.Success a then None else Some (wrap "operation failed" (OperationAckMessage.Error a))
  | PPointer (BChunkAck a) =>
      if ChunkAckMessage.Success a then None else Some (wrap "chunk operation failed" (ChunkAckMessage.Error a))
  | _ => None
  end.

Definition handleAcknowledgment (msg : Message.t) : GoM t unit := λ m,
  match Message.CorrelationID msg with
  | None | Some ""%string => (Err "acknowledgment message missing correlation ID", m)
  | Some originalMessageID =>
      match pendingAcks m !! originalMessageID with
      | None => (Ok tt, m)
      | Some None =>
          (Ok tt, with_pendingAcks (<[originalMessageID := Some (ack_error (Message.Payload msg))]> (pendingAcks m)) m)
      | Some (Some _) => (Ok tt, m)
      end
  end.

(** ** Receiving *)

(** JSON numbers are taken as the integers they are. *)
Fixpoint number_bytes (l : list json) : option bytes :=
  match l with
  | [] => Some []
  | JNumber z :: rest => (cons (Z_byte (z mod 256))) <$> number_bytes rest
  | _ :: _ => None
  end.

Definition toByteSlice (v : json) : option bytes :=
  match v with
  | JArray l => number_bytes l
  | JString s => match DecodeString s with Ok b => Some b | _ => None end
  | _ => None
  end.

(** The value a Go map holds under [k]: of repeated members the last. *)
Definition map_value (k : string) (members : list (string * json)) : option json :=
  snd <$> List.find (λ kv, bool_decide (kv.1 = k)) (reverse members).

Definition as_encrypted (p : payload) : option EncryptedMessage.t :=
  match p with
  | PGeneric (JObject members) =>
      iv ← map_value "iv" members; ct ← map_value "ciphertext" members; tag ← map_value "tag" members;
      ivBytes ← toByteSlice iv; ctBytes ← toByteSlice ct; tagBytes ← toByteSlice tag;
      Some (EncryptedMessage.mk ivBytes ctBytes tagBytes)
  | _ => None
  end.

Definition with_payload (p : payload) (msg : Message.t) : Message.t :=
  Message.mk (Message.ID msg) (Message.Type_ msg) (Message.Timestamp msg) (Message.SenderID msg) p
    (Message.CorrelationID msg).

(** The message with its payload decrypted, if it looks encrypted. *)
Definition open_message (msg : Message.t) (sessionKey : bytes) : outcome Message.t :=
  match as_encrypted (Message.Payload msg) with
  | None => Ok msg
  | Some em =>
      if bool_decide (sessionKey = []) then Err "session key not yet established"
      else
        data ← wrapping "failed to decrypt message" (Decrypt P em sessionKey);
        p ← wrapping "failed to decode decrypted payload"
              (wrapping "failed to decode payload" (json_value data) ≫= λ j, DecodePayload j (Message.Type_ msg));
        Ok (with_payload p msg)
  end.

(** What is forwarded to the application handler, if anything. *)
Definition HandleMessage (msg : Message.t) : GoM t (option Message.t) := λ m,
  match ConnectionManager.GetConnection (Message.SenderID msg) (connManager m) with
  | Ok conn =>
      match open_message msg (Connection.SessionKey conn) with
      | Ok msg =>
          if decide (Message.Type_ msg = TypeOperationAck ∨ Message.Type_ msg = TypeChunkAck)
          then (handleAcknowledgment msg;; mret None) m
          else (Ok (if has_handler m then Some msg else None), m)
      | Err e => (Err e, m)
      | Panic w => (Panic w, m)
      end
  | Err e => (Err "unknown sender", m)
  | Panic w => (Panic w, m)
  end.

(** ** Sending *)

Definition encrypted_payload (em : EncryptedMessage.t) : payload :=
  PGeneric (JObject (member "iv" c_bytes (EncryptedMessage.IV em) ++
    member "ciphertext" c_bytes (EncryptedMessage.Ciphertext em) ++ member "tag" c_bytes (EncryptedMessage.Tag em))).

Definition encryptMessagePayload (msg : Message.t) (sessionKey : bytes) : GoM t EncryptedMessage.t :=
  if bool_decide (sessionKey = []) then gfail "no session key available"
  else
    j ← glift (wrapping "failed to encode payload" (EncodePayload (Message.Payload msg)));
    (if negb (zlen sessionKey =? KeySizeAES) then gfail "invalid key size"
     else iv ← random_nonce; glift (Encrypt P iv (json_text j) sessionKey)).

(** The messages that arrive while a send waits. *)
Definition receive_all (msgs : list Message.t) (m : t) : t := foldl (λ m msg, (HandleMessage msg m).2) m msgs.

(** [select] on the channel and the timeout; a received value leaves the channel. *)
Definition await_ack (messageID : string) : GoM t channel := λ m,
  let m := receive_all (default [] (head (arrivals m))) (with_arrivals (tail (arrivals m)) m) in
  match pendingAcks m !! messageID with
  | Some (Some r) => (Ok (Some r), with_pendingAcks (<[messageID := None]> (pendingAcks m)) m)
  | _ => (Ok None, m)
  end.

(** The attempts left; [lastErr] is the error of the one before. *)
Fixpoint send_attempts (n : nat) (peer : string) (msg : Message.t) (lastErr : error) : GoM t unit := λ m,
  match n with
  | O => (Err (wrap "failed to send message" lastErr), untrackAcknowledgment (Message.ID msg) m)
  | S n =>
      (gmodify (trackAcknowledgment (Message.ID msg));;
       conn ← λ m, (match ConnectionManager.GetConnection peer (connManager m) with
                    | Ok c => Ok c
                    | _ => Err "no connection info for peer"
                    end, m);
       sent ← gtry (on_transport (Net.SendMessage peer (Connection.Address conn) (Connection.Port conn) msg));
       match sent with
       | inr e => send_attempts n peer msg (wrap "send attempt failed" e)
       | inl _ =>
           ack ← await_ack (Message.ID msg);
           match ack with
           | Some None => gmodify (untrackAcknowledgment (Message.ID msg))
           | Some (Some e) => send_attempts n peer msg (wrap "acknowledgment error" e)
           | None => send_attempts n peer msg "acknowledgment timeout"
           end
       end) m
  end.

Definition sendMessage (peer : string) (msg : Message.t) : GoM t unit := λ m,
  match ConnectionManager.GetConnection peer (connManager m) with
  | Ok conn =>
      (em ← gwrap "failed to encrypt message" (encryptMessagePayload msg (Connection.SessionKey conn));
       send_attempts (retryCount m) peer (with_payload (encrypted_payload em) msg) "") m
  | _ => (Err "peer not connected", m)
  end.

(** Neither [FromPath] nor [Mode] is sent. *)
Definition payload_of_op (op : SyncOperation.t) (fileData : bytes) : LogEntryPayload.t :=
  LogEntryPayload.mk (SyncOperation.ID op) (SyncOperation.Timestamp op) (SyncOperation.Type_ op)
    (SyncOperation.PeerID op) (SyncOperation.VectorClock op) (Some (SyncOperation.FileID op)) (SyncOperation.Path op)
    None (Some (SyncOperation.Checksum op)) (Some (SyncOperation.Size op)) (Some (SyncOperation.Mtime op)) None
    fileData (SyncOperation.Compressed op) (SyncOperation.OriginalSize op) (SyncOperation.CompressionAlgorithm op).

Definition sendSyncOperation (peer : string) (fileData : bytes) (op : SyncOperation.t) : GoM t unit :=
  now ← tick;
  let msg := NewMessage now TypeSyncOperation (SyncOperation.PeerID op) (PValue (BLogEntry (payload_of_op op fileData))) in
  (if bool_decide (fileData = []) then mret tt else flow_call "flow control failed");;
  sendMessage peer msg.

Definition chunk_message (fileHash : string) (c : Chunk.t) : ChunkMessage.t :=
  ChunkMessage.mk (Chunk.FileID c) fileHash (Chunk.ChunkID c) (Chunk.TotalChunks c) (Chunk.Offset c) (Chunk.Length c)
    (Chunk.Hash c) (Chunk.Data c) (Chunk.IsLast c).

Fixpoint send_chunks (peer sender fileHash : string) (chunks : list Chunk.t) : GoM t unit :=
  match chunks with
  | [] => mret tt
  | c :: rest =>
      flow_call "flow control failed for chunk";;
      now ← tick;
      gwrap "failed to send chunk"
        (sendMessage peer (NewMessage now TypeChunk sender (PValue (BChunk (chunk_message fileHash c)))));;
      send_chunks peer sender fileHash rest
  end.

Definition sendChunkedFile (peer : string) (fileData : bytes) (op : SyncOperation.t) : GoM t unit := λ m,
  (chunks ← glift (wrapping "failed to chunk file"
             (ChunkFile (Hashing.HashString blake3) (Config.ChunkSizeDefault (config m)) (SyncOperation.FileID op) fileData));
   gwrap "failed to send sync operation" (sendSyncOperation peer [] op);;
   send_chunks peer (SyncOperation.PeerID op) (Hashing.HashString blake3 fileData) chunks) m.

(** What [SendFile] writes to the caller's operation, and the data it sends. *)
Definition compress_for (fileData : bytes) (op : SyncOperation.t) (m : t) : outcome (bytes * SyncOperation.t) :=
  if Config.CompressionEnabled (config m) && (Config.FileSizeThreshold (config m) <? zlen fileData) then
    data ← wrapping "compression failed" (Compressor.Compress (compressor m) fileData);
    Ok (data, SyncOperation.with_compression (Some true) (Some (zlen fileData))
                (Some (Config.Algorithm (config m))) (Some (Config.Level (config m))) op)
  else Ok (fileData, SyncOperation.with_compression (Some false) (SyncOperation.OriginalSize op)
                       (SyncOperation.CompressionAlgorithm op) (SyncOperation.CompressionLevel op) op).

(** The operation as the call leaves it is returned with the error. *)
Definition SendFile (peer : string) (fileData : bytes) (op : SyncOperation.t) : GoM t (SyncOperation.t * option error) := λ m,
  let fail e m := (Ok (op, Some e), m) in
  match flow_call "failed to acquire transfer slot" m with
  | (Ok _, m) =>
      match ConnectionManager.GetConnection peer (connManager m) with
      | Ok conn =>
          if bool_decide (Connection.SessionKey conn = []) then fail "no session key for peer"%string m
          else match compress_for fileData op m with
               | Ok (data, op') =>
                   let send := if Config.ChunkSizeDefault (config m) <? zlen fileData
                               then sendChunkedFile peer data op' else sendSyncOperation peer data op' in
                   match send m with
                   | (Ok _, m) => (Ok (op', None), m)
                   | (Err e, m) => (Ok (op', Some e), m)
                   | (Panic w, m) => (Panic w, m)
                   end
               | Err e => fail e m
               | Panic w => (Panic w, m)
               end
      | _ => fail "peer not connected"%string m
      end
  | (Err e, m) => fail e m
  | (Panic w, m) => (Panic w, m)
  end.

(** The goroutine of one peer. *)
Definition broadcast_to (peer : string) (op : SyncOperation.t) : GoM t (SyncOperation.t * option error) := λ m,
  if bool_decide (SyncOperation.Type_ op = OpCreate ∨ SyncOperation.Type_ op = OpUpdate) then
    match on_disk (OS.ReadFile (Join2 (Config.FolderPath (config m)) (SyncOperation.Path op))) m with
    | (Ok fileData, m) =>
        ('(op', err) ← SendFile peer fileData op; mret (op', wrap "failed to send to peer" <$> err)) m
    | (Err e, m) => (Ok (op, Some (wrap "failed to read file" e)), m)
    | (Panic w, m) => (Panic w, m)
    end
  else match sendSyncOperation peer [] op m with
       | (Ok _, m) => (Ok (op, None), m)
       | (Err e, m) => (Ok (op, Some (wrap "failed to send to peer" e)), m)
       | (Panic w, m) => (Panic w, m)
       end.

(** The peers' goroutines one after the other; all share the one operation. *)
Fixpoint broadcast_all (peers : list string) (op : SyncOperation.t) (lastErr : option error) : GoM t (option error) :=
  match peers with
  | [] => mret lastErr
  | peer :: rest =>
      if bool_decide (peer = SyncOperation.PeerID op) then broadcast_all rest op lastErr
      else
        '(op, err) ← broadcast_to peer op;
        broadcast_all rest op (match err with Some e => Some e | None => lastErr end)
  end.

Definition BroadcastOperation (op : SyncOperation.t) : GoM t unit := λ m,
  (err ← broadcast_all (ConnectionManager.GetConnectedPeers (connManager m)) op None;
   match err with Some e => gfail e | None => mret tt end) m.

(** The peer asked is named as the one whose state is declared; it is sent
    unencrypted, and no acknowledgment is awaited. *)
Definition RequestStateSync (peer : string) : GoM t unit := λ m,
  (now ← tick;
   match ConnectionManager.GetConnection peer (connManager m) with
   | Ok conn => on_transport (Net.SendMessage peer (Connection.Address conn) (Connection.Port conn)
       (Message.mk (GenerateMessageID now) TypeStateDeclaration 0 (peerID m)
          (PValue (BStateDeclaration (StateDeclarationMessage.mk peer None [] []))) None))
   | Err e => gfail (wrap "no connection to peer" e)
   | Panic w => gpanic w
   end) m.

(** [transport] is the answer of the transport's [ConnectToPeer]. *)
Definition ConnectToPeer (connected : outcome unit) (peer : string) : GoM t unit := λ m,
  match connected with
  | Ok _ => (match ConnectionManager.GetSessionKey peer (connManager m) with
             | Ok _ => Ok tt
             | Err e => Err (wrap "session key not established" e)
             | Panic w => Panic w
             end, m)
  | Err e => (Err (wrap "failed to connect transport" e), m)
  | Panic w => (Panic w, m)
  end.

End Messenger.
End Messenger.
