(* ===== verification/MessengerProps.v ===== *)
(** * Properties of the messenger and the handler together

    From the sender's messenger over the wire to the receiver's handler and
    engine: what is delivered, what is not, and what the acknowledgments say. *)

From Stdlib Require Import Strings.Byte Strings.String.
From S2P Require Import Prelude GoStrings GoPath Json Clock Hashing Chunking ChunkingProps Database Filesystem Operation Messages Compression Encryption Connection Transport Engine EngineProps Handler Messenger.
Import Messenger.

(** ** The wire *)

Lemma with_payload_payload p m : Message.Payload (with_payload p m) = p.
Proof. done. Qed.

Lemma wire_message m j :
  EncodePayload (Message.Payload m) = Ok j → in64 (Message.Timestamp m) →
  wire m = Ok (with_payload (PGeneric j) m).
Proof.
  intros Hp Ht. unfold wire, Encode. rewrite Hp. cbn [mbind outcome_bind]. unfold DecodeMessage, struct.
  by rewrite decode_message_enc.
Qed.

Lemma as_encrypted_payload em : as_encrypted (encrypted_payload em) = Some em.
Proof.
  destruct em as [iv ct tag]. unfold as_encrypted, encrypted_payload.
  match goal with |- context [map_value "iv" ?ms] =>
    assert (map_value "iv" ms = Some (JString (EncodeToString iv))) as -> by reflexivity;
    assert (map_value "ciphertext" ms = Some (JString (EncodeToString ct))) as -> by reflexivity;
    assert (map_value "tag" ms = Some (JString (EncodeToString tag))) as -> by reflexivity end.
  cbn [mbind option_bind]. unfold toByteSlice. by rewrite !DecodeString_EncodeToString.
Qed.

(** ** Acknowledgments *)

(** A failure the receiver reports is taken for success by the sender.  The
    acknowledgment is sent in the clear, so that it arrives as a plain JSON
    object, not as one of the acknowledgment structs; whatever [Success] it
    carries, the channel of the waiting send receives success. *)
Theorem negative_ack_is_success P jv now self original errorMsg conn m :
  in64 (unix_milli now) → Message.ID original ≠ ""%string →
  ConnectionManager.GetConnection self (connManager m) = Ok conn →
  pendingAcks m !! Message.ID original = Some None →
  ∃ ack, wire (Handler.ack_message now self original false errorMsg) = Ok ack ∧
    HandleMessage P jv ack m =
      (Ok None, with_pendingAcks (<[Message.ID original := Some None]> (pendingAcks m)) m).
Proof.
  intros Ht Hid Hc Hp.
  set (msg := Handler.ack_message now self original false errorMsg).
  assert (∃ b, Message.Payload msg = PPointer b ∧ as_encrypted (PGeneric (enc_body b)) = None ∧
    (Message.Type_ msg = TypeOperationAck ∨ Message.Type_ msg = TypeChunkAck) ∧
    Message.SenderID msg = self ∧ Message.CorrelationID msg = Some (Message.ID original) ∧
    Message.Timestamp msg = unix_milli now) as (b & Hb & He & Hty & Hs & Hcor & Hts).
  { subst msg. unfold Handler.ack_message. destruct errorMsg; case_decide; eexists; (split; [reflexivity|]); split_and!; try done; auto. }
  eexists. split; [apply wire_message; [by rewrite Hb|by rewrite Hts]|].
  unfold HandleMessage. change (Message.SenderID (with_payload _ msg)) with (Message.SenderID msg). rewrite Hs, Hc.
  unfold open_message. rewrite with_payload_payload, He.
  change (Message.Type_ (with_payload _ msg)) with (Message.Type_ msg). rewrite decide_True by done.
  unfold mbind, gom_bind, handleAcknowledgment.
  change (Message.CorrelationID (with_payload _ msg)) with (Message.CorrelationID msg). rewrite Hcor.
  destruct (Message.ID original) as [|x id]; [done|]. by rewrite Hp.
Qed.

(** ** From the sender's messenger to the receiver's *)

(** A sealed message: what [sendMessage] hands to the transport. *)
Lemma sealed_message_opens P jt jv msg b key iv em m conn :
  authentic P → zlen key = KeySizeAES → zlen iv = IVSize →
  Message.Payload msg = PValue b → type_of b = Some (Message.Type_ msg) → valid_body b →
  in64 (Message.Timestamp msg) → jv (jt (enc_body b)) = Ok (enc_body b) →
  Encrypt P iv (jt (enc_body b)) key = Ok em →
  ConnectionManager.GetConnection (Message.SenderID msg) (connManager m) = Ok conn →
  Connection.SessionKey conn = key → has_handler m = true →
  Message.Type_ msg ≠ TypeOperationAck → Message.Type_ msg ≠ TypeChunkAck →
  ∃ received, wire (with_payload (encrypted_payload em) msg) = Ok received ∧
    HandleMessage P jv received m = (Ok (Some (with_payload (PPointer b) msg)), m).
Proof.
  intros HP Hk Hi Hpay Hty Hv Ht Hj Hem Hc Hs Hh Hn1 Hn2.
  exists (with_payload (encrypted_payload em) msg). split; [by apply (wire_message (with_payload (encrypted_payload em) msg))|].
  unfold HandleMessage. cbn [with_payload Message.SenderID Message.Payload]. rewrite Hc, Hs.
  unfold open_message. rewrite with_payload_payload, as_encrypted_payload.
  rewrite bool_decide_eq_false_2 by (intros ->; unfold KeySizeAES in Hk; simpl in Hk; lia).
  rewrite (Decrypt_Encrypt P iv (jt (enc_body b)) key em) by done. cbn [mbind outcome_bind wrapping].
  rewrite Hj. cbn [mbind outcome_bind wrapping]. cbn [with_payload Message.Type_].
  rewrite (DecodePayload_enc b (Message.Type_ msg)) by done.
  cbn [mbind outcome_bind wrapping with_payload Message.Type_].
  rewrite decide_False by naive_solver. by rewrite Hh.
Qed.

(** Receiving does not change the connections. *)
Lemma HandleMessage_connManager P jv msg m :
  Messenger.connManager (Messenger.HandleMessage P jv msg m).2 = Messenger.connManager m.
Proof.
  unfold Messenger.HandleMessage. destruct (ConnectionManager.GetConnection _ _); [|done..].
  destruct (open_message _ _ _ _) as [msg'| |]; [|done..]. case_decide; [|done].
  unfold mbind, gom_bind, handleAcknowledgment. destruct (Message.CorrelationID msg') as [[|x id]|]; [done| |done].
  by destruct (pendingAcks m !! _) as [[?|]|].
Qed.

(** ** The handler *)
Import Handler.

Section HandlerFacts.
Context (blake3 : bytes → bytes) (L : libraries).

(** Acknowledging touches nothing but the transport. *)
Definition same_but_transport (h h' : Handler.t) : Prop :=
  Handler.connManager h' = Handler.connManager h ∧ syncEngine h' = syncEngine h ∧
  assembledChunks h' = assembledChunks h ∧ chunkMetadata h' = chunkMetadata h ∧ Handler.peerID h' = Handler.peerID h.

Lemma sendAcknowledgment_quiet now msg ok err h : same_but_transport h (sendAcknowledgment now msg ok err h).2.
Proof.
  unfold sendAcknowledgment. destruct (Handler.transport h) as [n|] eqn:En; [|done].
  destruct (Handler.connManager h) as [cm|]; [|done].
  destruct (ConnectionManager.GetConnection _ _); [|done..].
  unfold gwrap, on_transport. rewrite En. unfold Net.SendMessage. by destruct (Net.fates n) as [|[?|?|?] ?].
Qed.

(** The engine after a file was handed to it. *)
Definition handed (now : time) (data : bytes) (op : SyncOperation.t) (e : Engine.t) : Engine.t :=
  (Engine.HandleIncomingFile now data op e).2.

Lemma handed_tasks now data op e :
  Engine.tasks (handed now data op e) = Engine.tasks e ++ [(data, SyncOperation.with_Source "remote" op)].
Proof. unfold handed, Engine.HandleIncomingFile, gmodify. cbn. by destruct (negb _). Qed.

Lemma on_engine_file now data op h e :
  syncEngine h = Some e →
  on_engine (Engine.HandleIncomingFile now data op) h = (Ok tt, with_syncEngine (Some (handed now data op e)) h).
Proof. intros H. unfold on_engine. by rewrite H. Qed.

(** The operation the handler makes of what the messenger sends: no origin of a
    rename, no mode. *)
Definition delivered (op : SyncOperation.t) : SyncOperation.t :=
  SyncOperation.mk (SyncOperation.ID op) (SyncOperation.Type_ op) (SyncOperation.Path op) None
    (SyncOperation.FileID op) (SyncOperation.Checksum op) (SyncOperation.Size op) (SyncOperation.Timestamp op)
    (SyncOperation.VectorClock op) (SyncOperation.PeerID op) "remote" (SyncOperation.Mtime op) None [] None None
    (SyncOperation.Compressed op) (SyncOperation.OriginalSize op) (SyncOperation.CompressionAlgorithm op) None.

Lemma op_of_payload_of_op op data : op_of_payload (payload_of_op op data) = Ok (delivered op).
Proof. done. Qed.

(** A message with an operation, as it is forwarded to the handler. *)
Definition operation_message (msg : Message.t) (op : SyncOperation.t) (data : bytes) : Message.t :=
  with_payload (PPointer (BLogEntry (payload_of_op op data))) msg.

Lemma HandleMessage_operation now msg : Message.Type_ msg = TypeSyncOperation →
  Handler.HandleMessage blake3 L now msg = handleSyncOperation L now msg.
Proof. intros H. unfold Handler.HandleMessage. rewrite H. done. Qed.

(** A whole file is handed to the engine. *)
Lemma handle_whole_file now msg op data fileData h e :
  SyncOperation.Type_ op = OpCreate ∨ SyncOperation.Type_ op = OpUpdate → data ≠ [] →
  file_data L (delivered op) data = Ok fileData → syncEngine h = Some e →
  let h1 := with_syncEngine (Some (handed now fileData (delivered op) e)) h in
  handleSyncOperation L now (operation_message msg op data) h =
  sendAcknowledgment now (operation_message msg op data) true "" h1.
Proof.
  intros Hty Hd Hf He. unfold handleSyncOperation. cbn [operation_message with_payload Message.Payload].
  rewrite op_of_payload_of_op, glift_Ok. cbv beta zeta. cbn [LogEntryPayload.Data payload_of_op].
  rewrite decide_True by done. destruct data as [|x data]; [done|].
  unfold or_reject, gtry, glift, mbind, gom_bind. rewrite Hf, He. by rewrite (on_engine_file _ _ _ h e).
Qed.

(** Without data the handler waits for chunks. *)
Lemma handle_no_data now msg op h :
  SyncOperation.Type_ op = OpCreate ∨ SyncOperation.Type_ op = OpUpdate →
  handleSyncOperation L now (operation_message msg op []) h =
  sendAcknowledgment now (operation_message msg op []) true "" (expect_chunks (delivered op) h).
Proof.
  intros Hty. unfold handleSyncOperation. cbn [operation_message with_payload Message.Payload].
  rewrite op_of_payload_of_op, glift_Ok. cbv beta zeta. cbn [LogEntryPayload.Data payload_of_op].
  by rewrite decide_True.
Qed.

Lemma handle_rename now msg op data h :
  SyncOperation.Type_ op = OpRename →
  handleSyncOperation L now (operation_message msg op data) h =
  sendAcknowledgment now (operation_message msg op data) false
    (wrap "rename handling failed" "rename operation missing FromPath") h.
Proof.
  intros Hty. unfold handleSyncOperation. cbn [operation_message with_payload Message.Payload].
  rewrite op_of_payload_of_op, glift_Ok.
  cbv beta zeta. cbn [delivered SyncOperation.Type_]. rewrite Hty.
  rewrite decide_False by (by intros [?|?]). rewrite decide_False by done. rewrite decide_True by done.
  unfold or_reject, gtry, mbind, gom_bind. cbn [delivered SyncOperation.FromPath].
  unfold on_engine, Engine.HandleIncomingRename. cbn [SyncOperation.FromPath]. destruct h as [? ? [e|] ? ? ? ?]; done.
Qed.
End HandlerFacts.

Lemma HandleMessage_operation_engine blake3 L now msg op data h e :
  Message.Type_ msg = TypeSyncOperation →
  (SyncOperation.Type_ op = OpCreate ∨ SyncOperation.Type_ op = OpUpdate) → ∀ fileData, data ≠ [] →
  file_data L (delivered op) data = Ok fileData → syncEngine h = Some e →
  syncEngine (Handler.HandleMessage blake3 L now (operation_message msg op data) h).2 =
  Some (handed now fileData (delivered op) e).
Proof.
  intros Hm Hty fileData Hd Hf He. rewrite HandleMessage_operation by done.
  rewrite (handle_whole_file L now msg op data fileData h e) by done. cbv zeta.
  by destruct (sendAcknowledgment_quiet now (operation_message msg op data) true ""
    (with_syncEngine (Some (handed now fileData (delivered op) e)) h)) as (_ & -> & _).
Qed.

(** A file sent whole arrives as it was sent: the encrypted message survives
    the wire, the receiver's messenger decrypts it with the same session key and
    forwards it, and the handler hands its engine exactly one file, with the
    content (decompressed) and the identity, path, checksum, times and vector
    clock of the operation; only the origin of a rename and the mode are lost. *)
Theorem file_delivered blake3 P L jt jv now now' iv key op data fileData em m h e conn :
  let b := BLogEntry (payload_of_op op data) in
  let msg := NewMessage now TypeSyncOperation (SyncOperation.PeerID op) (PValue b) in
  authentic P → zlen key = KeySizeAES → zlen iv = IVSize → in64 (unix_milli now) → valid_body b →
  jv (jt (enc_body b)) = Ok (enc_body b) → Encrypt P iv (jt (enc_body b)) key = Ok em →
  ConnectionManager.GetConnection (SyncOperation.PeerID op) (Messenger.connManager m) = Ok conn →
  Connection.SessionKey conn = key → has_handler m = true →
  (SyncOperation.Type_ op = OpCreate ∨ SyncOperation.Type_ op = OpUpdate) → data ≠ [] →
  file_data L (delivered op) data = Ok fileData → syncEngine h = Some e →
  ∃ received forwarded, wire (with_payload (encrypted_payload em) msg) = Ok received ∧
    Messenger.HandleMessage P jv received m = (Ok (Some forwarded), m) ∧
    ∃ e', syncEngine (Handler.HandleMessage blake3 L now' forwarded h).2 = Some e' ∧
      Engine.tasks e' = Engine.tasks e ++ [(fileData, delivered op)].
Proof.
  intros b msg HP Hk Hi Ht Hv Hj Hem Hc Hs Hh Hty Hd Hf He.
  destruct (sealed_message_opens P jt jv msg b key iv em m conn) as (received & Hw & Hr); try done.
  eexists _, _. split; [exact Hw|]. split; [exact Hr|].
  exists (handed now' fileData (delivered op) e). split.
  - by apply (HandleMessage_operation_engine blake3 L now' msg op data h e eq_refl Hty).
  - apply handed_tasks.
Qed.

(** A rename is never carried out by another peer.  The messenger does not
    send the old path; the receiving handler rejects every rename for want of
    it and leaves its engine as it was. *)
Theorem rename_never_applied blake3 P L jt jv now now' iv key op em m h conn :
  let b := BLogEntry (payload_of_op op []) in
  let msg := NewMessage now TypeSyncOperation (SyncOperation.PeerID op) (PValue b) in
  authentic P → zlen key = KeySizeAES → zlen iv = IVSize → in64 (unix_milli now) → valid_body b →
  jv (jt (enc_body b)) = Ok (enc_body b) → Encrypt P iv (jt (enc_body b)) key = Ok em →
  ConnectionManager.GetConnection (SyncOperation.PeerID op) (Messenger.connManager m) = Ok conn →
  Connection.SessionKey conn = key → has_handler m = true →
  SyncOperation.Type_ op = OpRename →
  ∃ received forwarded, wire (with_payload (encrypted_payload em) msg) = Ok received ∧
    Messenger.HandleMessage P jv received m = (Ok (Some forwarded), m) ∧
    Handler.HandleMessage blake3 L now' forwarded h =
      sendAcknowledgment now' forwarded false (wrap "rename handling failed" "rename operation missing FromPath") h ∧
    syncEngine (Handler.HandleMessage blake3 L now' forwarded h).2 = syncEngine h.
Proof.
  intros b msg HP Hk Hi Ht Hv Hj Hem Hc Hs Hh Hty.
  destruct (sealed_message_opens P jt jv msg b key iv em m conn) as (received & Hw & Hr); try done.
  eexists _, _. split; [exact Hw|]. split; [exact Hr|].
  assert (Handler.HandleMessage blake3 L now' (with_payload (PPointer b) msg) h =
    sendAcknowledgment now' (with_payload (PPointer b) msg) false
      (wrap "rename handling failed" "rename operation missing FromPath") h) as E.
  { rewrite HandleMessage_operation by done. by apply (handle_rename L now' msg op []). }
  split; [exact E|]. rewrite E. by destruct (sendAcknowledgment_quiet now' (with_payload (PPointer b) msg) false
    (wrap "rename handling failed" "rename operation missing FromPath") h) as (_ & -> & _).
Qed.

Lemma flow_call_granted ctx m : flow m = [] → flow_call ctx m = (Ok tt, m).
Proof. destruct m. cbn. by intros ->. Qed.

(** An empty file is never created on another peer.  Its sender sends one
    message without data and no chunk; the receiver takes that for the
    announcement of chunks, acknowledges it, and does nothing. *)
Theorem empty_file_never_arrives blake3 P jt jv L now peer op m conn msg h :
  ConnectionManager.GetConnection peer (Messenger.connManager m) = Ok conn → Connection.SessionKey conn ≠ [] →
  0 ≤ Config.ChunkSizeDefault (config m) → 0 ≤ Config.FileSizeThreshold (config m) → flow m = [] →
  Message.Type_ msg = TypeSyncOperation →
  (SyncOperation.Type_ op = OpCreate ∨ SyncOperation.Type_ op = OpUpdate) →
  let op' := SyncOperation.with_compression (Some false) (SyncOperation.OriginalSize op)
               (SyncOperation.CompressionAlgorithm op) (SyncOperation.CompressionLevel op) op in
  (SendFile blake3 P jt jv peer [] op m).2 = (sendSyncOperation P jt jv peer [] op' m).2 ∧
  let '(r, h') := Handler.HandleMessage blake3 L now (operation_message msg op' []) h in
  (r, h') = sendAcknowledgment now (operation_message msg op' []) true "" (expect_chunks (delivered op') h) ∧
  syncEngine h' = syncEngine h.
Proof.
  intros Hc Hk Hs Ht Hf Hm Hty op'. split.
  - unfold SendFile. rewrite flow_call_granted, Hc by done.
    rewrite bool_decide_eq_false_2 by done. unfold compress_for.
    assert (Config.FileSizeThreshold (config m) <? zlen (@nil Byte.byte) = false) as -> by (apply Z.ltb_ge; simpl; lia).
    rewrite andb_false_r.
    assert (Config.ChunkSizeDefault (config m) <? zlen (@nil Byte.byte) = false) as -> by (apply Z.ltb_ge; simpl; lia).
    fold op'. by destruct (sendSyncOperation P jt jv peer [] op' m) as [[?|?|?] ?].
  - rewrite HandleMessage_operation by done. rewrite (handle_no_data L now msg op' h) by done.
    pose proof (sendAcknowledgment_quiet now (operation_message msg op' []) true "" (expect_chunks (delivered op') h)) as H.
    destruct (sendAcknowledgment _ _ _ _ _) as [r h']. destruct H as (_ & H & _). by split.
Qed.

(** Messages that any connected peer can send stop the program: a state
    declaration with whatever payload, and an operation in which one of the
    identifier, checksum, size or modification time is missing. *)
Theorem malformed_messages_panic blake3 L now msg h e :
  syncEngine h = Some e →
  (Message.Type_ msg = TypeStateDeclaration →
   Handler.HandleMessage blake3 L now msg h = (Panic "interface conversion", h)) ∧
  (∀ p, Message.Type_ msg = TypeSyncOperation → Message.Payload msg = PPointer (BLogEntry p) →
   (LogEntryPayload.FileID p = None ∨ LogEntryPayload.Checksum p = None ∨
    LogEntryPayload.Size p = None ∨ LogEntryPayload.Mtime p = None) →
   Handler.HandleMessage blake3 L now msg h = (Panic nil_pointer, h)).
Proof.
  intros He. split.
  - intros Hty. unfold Handler.HandleMessage. rewrite Hty. change (handleStateDeclaration now msg h = (Panic "interface conversion", h)).
    unfold handleStateDeclaration. by rewrite He.
  - intros p Hty Hp Hnil. rewrite HandleMessage_operation by done. unfold handleSyncOperation. rewrite Hp.
    assert (op_of_payload p = Panic nil_pointer) as ->; [|done].
    unfold op_of_payload. repeat case_match; naive_solver.
Qed.

(** ** The properties at concrete messengers *)

Definition demo_key : bytes := replicate 32 Byte.x07.
Definition demo_iv : bytes := replicate 12 Byte.x01.

Definition demo_connection (peer : string) : Connection.t :=
  Connection.mk peer "10.0.0.2" 4000 StateConnected 1 1 1 demo_key 0 0.

(** The messenger of [self], which knows one connected peer. *)
Definition demo_messenger (self peer : string) : Messenger.t :=
  Messenger.mk (Config.mk "/sync" 4 true 10 "zstd" 3) (ConnectionManager.mk {[peer := demo_connection peer]} [])
    (Net.mk [] []) (Compressor.mk Ok Ok "zstd") ∅ 3 true self (OS.mk ∅ []) 7 [demo_iv] [] [].

Definition demo_handler (self : string) (e : Engine.t) : Handler.t :=
  Handler.mk (Some ConnectionManager.NewConnectionManager) (Some (Net.mk [] [])) (Some e) false ∅ ∅ self.

(** An operation on a file of three bytes. *)
Definition demo_op (type_ : string) : SyncOperation.t :=
  SyncOperation.with_VectorClock (Some {["A"%string := 6]})
    (SyncOperation.with_content None "c6" 3 (NewSyncOperation 9 type_ "a.txt" "f1" "A")).

Lemma demo_op_valid type_ data : valid_body (BLogEntry (payload_of_op (demo_op type_) data)).
Proof.
  split_and!; [by vm_compute|apply map_Forall_singleton; by vm_compute|by vm_compute|by vm_compute|done|done].
Qed.

Lemma negative_ack_is_success_witness :
  let original := NewMessage 7 TypeChunk "B" (PGeneric JNull) in
  let m := trackAcknowledgment (Message.ID original) (demo_messenger "B" "A") in
  ∃ ack, wire (Handler.ack_message 8 "A" original false "disk full") = Ok ack ∧
    Messenger.HandleMessage demo_primitives (λ _, Err "never"%string) ack m =
      (Ok None, with_pendingAcks (<[Message.ID original := Some None]> (pendingAcks m)) m).
Proof.
  cbv zeta. apply (negative_ack_is_success demo_primitives (λ _, Err "never"%string) 8 "A" (NewMessage 7 TypeChunk "B" (PGeneric JNull))
    "disk full" (demo_connection "A")); [unfold in64, unix_milli; vm_compute; split; congruence|done|reflexivity|reflexivity].
Defined.

Lemma file_delivered_witness :
  let op := demo_op OpUpdate in
  let b := BLogEntry (payload_of_op op (to_bytes "new")) in
  let e := demo_engine "B" "old" DB.initSchema in
  ∃ em received forwarded e',
    wire (with_payload (encrypted_payload em) (NewMessage 7 TypeSyncOperation "A" (PValue b))) = Ok received ∧
    Messenger.HandleMessage demo_primitives (λ _, Ok (enc_body b)) received (demo_messenger "B" "A") =
      (Ok (Some forwarded), demo_messenger "B" "A") ∧
    syncEngine (Handler.HandleMessage blake3_demo demo_libraries 8 forwarded (demo_handler "B" e)).2 = Some e' ∧
    Engine.tasks e' = [(to_bytes "new", delivered op)].
Proof.
  cbv zeta. eexists.
  destruct (file_delivered blake3_demo demo_primitives demo_libraries (λ _, to_bytes "{}")
    (λ _, Ok (enc_body (BLogEntry (payload_of_op (demo_op OpUpdate) (to_bytes "new"))))) 7 8 demo_iv demo_key
    (demo_op OpUpdate) (to_bytes "new") (to_bytes "new") _ (demo_messenger "B" "A")
    (demo_handler "B" (demo_engine "B" "old" DB.initSchema)) (demo_engine "B" "old" DB.initSchema)
    (demo_connection "A") demo_authentic eq_refl eq_refl ltac:(vm_compute; split; congruence)
    (demo_op_valid _ _) eq_refl eq_refl eq_refl eq_refl eq_refl ltac:(by right) ltac:(discriminate) eq_refl eq_refl)
    as (received & forwarded & H1 & H2 & e' & H3 & H4).
  by exists received, forwarded, e'.
Defined.

Lemma rename_never_applied_witness :
  let op := demo_op OpRename in
  let b := BLogEntry (payload_of_op op []) in
  let h := demo_handler "B" (demo_engine "B" "old" DB.initSchema) in
  ∃ em received forwarded,
    wire (with_payload (encrypted_payload em) (NewMessage 7 TypeSyncOperation "A" (PValue b))) = Ok received ∧
    Messenger.HandleMessage demo_primitives (λ _, Ok (enc_body b)) received (demo_messenger "B" "A") =
      (Ok (Some forwarded), demo_messenger "B" "A") ∧
    syncEngine (Handler.HandleMessage blake3_demo demo_libraries 8 forwarded h).2 = syncEngine h.
Proof.
  cbv zeta. eexists.
  destruct (rename_never_applied blake3_demo demo_primitives demo_libraries (λ _, to_bytes "{}")
    (λ _, Ok (enc_body (BLogEntry (payload_of_op (demo_op OpRename) [])))) 7 8 demo_iv demo_key
    (demo_op OpRename) _ (demo_messenger "B" "A")
    (demo_handler "B" (demo_engine "B" "old" DB.initSchema))
    (demo_connection "A") demo_authentic eq_refl eq_refl ltac:(vm_compute; split; congruence)
    (demo_op_valid _ _) eq_refl eq_refl eq_refl eq_refl eq_refl eq_refl)
    as (received & forwarded & H1 & H2 & _ & H3).
  by exists received, forwarded.
Defined.

Lemma empty_file_never_arrives_witness :
  let h := demo_handler "B" (demo_engine "B" "old" DB.initSchema) in
  let op' := SyncOperation.with_compression (Some false) None None None (demo_op OpCreate) in
  let '(r, h') := Handler.HandleMessage blake3_demo demo_libraries 8
    (operation_message (NewMessage 7 TypeSyncOperation "A" (PGeneric JNull)) op' []) h in
  syncEngine h' = syncEngine h.
Proof.
  cbv zeta. pose proof (empty_file_never_arrives blake3_demo demo_primitives (λ _, to_bytes "{}") (λ _, Err "never"%string) demo_libraries 8 "B"
    (demo_op OpCreate) (demo_messenger "A" "B") (demo_connection "B")
    (NewMessage 7 TypeSyncOperation "A" (PGeneric JNull)) (demo_handler "B" (demo_engine "B" "old" DB.initSchema))
    eq_refl ltac:(discriminate) ltac:(vm_compute; congruence) ltac:(vm_compute; congruence) eq_refl eq_refl ltac:(by left)) as [_ H].
  cbv zeta in H. destruct (Handler.HandleMessage _ _ _ _ _). by destruct H as [_ H].
Defined.

Lemma malformed_messages_panic_witness :
  let h := demo_handler "B" (demo_engine "B" "old" DB.initSchema) in
  Handler.HandleMessage blake3_demo demo_libraries 8 (NewMessage 7 TypeStateDeclaration "A" (PGeneric JNull)) h
  = (Panic "interface conversion", h).
Proof.
  cbv zeta. by apply (malformed_messages_panic blake3_demo demo_libraries 8 (NewMessage 7 TypeStateDeclaration "A" (PGeneric JNull))
    (demo_handler "B" (demo_engine "B" "old" DB.initSchema)) (demo_engine "B" "old" DB.initSchema)).
Defined.
