(* ===== verification/DialingProps.v ===== *)
(** * What dialling leaves: session keys established, lost and never renewed,
    and calls that never return *)

From Stdlib Require Import Strings.Byte Strings.Ascii Strings.String.
From S2P Require Import Prelude GoStrings Json Messages Compression Encryption Connection Transport Dialing Messenger MessengerProps.

Lemma add_connected_spec now peer host port cm :
  ConnectionManager.GetConnection peer (add_connected now peer host port cm) =
    Ok (Connection.mk peer host port StateConnected now now now [] 0 zero_time) ∧
  (∀ q, q ≠ peer → ConnectionManager.GetConnection q (add_connected now peer host port cm) = ConnectionManager.GetConnection q cm).
Proof.
  unfold add_connected, ConnectionManager.AddConnection, ConnectionManager.UpdateConnectionState, ConnectionManager.GetConnection,
    ConnectionManager.set, ConnectionManager.notifyCallbacks. cbn. rewrite lookup_insert_eq. cbn.
  rewrite (decide_False (P := StateConnected ≠ StateConnected)) by auto. cbn. split; [by rewrite lookup_insert_eq|].
  intros q Hq. by rewrite !lookup_insert_ne.
Qed.

Lemma SetSessionKey_spec peer key cm conn :
  ConnectionManager.GetConnection peer cm = Ok conn →
  ∃ cm', ConnectionManager.SetSessionKey peer key cm = (Ok tt, cm') ∧
    ConnectionManager.GetConnection peer cm' = Ok (Connection.with_SessionKey key conn).
Proof.
  unfold ConnectionManager.GetConnection, ConnectionManager.SetSessionKey.
  destruct (ConnectionManager.connections cm !! peer) as [c|]; [|done]. intros [= ->]. eexists. split; [reflexivity|].
  cbn. by rewrite lookup_insert_eq.
Qed.

Lemma SetSessionKey_unknown peer key cm :
  ConnectionManager.GetConnection peer cm = Err ConnectionManager.not_found →
  ConnectionManager.SetSessionKey peer key cm = (Err ConnectionManager.not_found, cm).
Proof. unfold ConnectionManager.GetConnection, ConnectionManager.SetSessionKey. by destruct (_ !! peer). Qed.

(** A handshake message survives the wire. *)
Lemma wire_handshake now self :
  in64 (unix_sec now) → wire (QUIC.handshake_message now self) = Ok (QUIC.handshake_message now self).
Proof. intros H. by apply (wire_message (QUIC.handshake_message now self)). Qed.

(** Without a session key the messenger sends nothing. *)
Lemma sendMessage_without_key P jt jv peer msg m conn :
  ConnectionManager.GetConnection peer (Messenger.connManager m) = Ok conn → Connection.SessionKey conn = [] →
  Messenger.sendMessage P jt jv peer msg m = (Err (wrap "failed to encrypt message" "no session key available"), m).
Proof.
  intros Hc Hk. unfold Messenger.sendMessage, Messenger.encryptMessagePayload, mbind, gom_bind, gwrap. rewrite Hc, Hk.
  by rewrite bool_decide_eq_true_2.
Qed.

Section Keys.
Context (sha256 : bytes → bytes) (hkdf_sha256 : bytes → bytes → bytes → Z → outcome bytes).

Lemma quic_key_comm a b : QUIC.deriveSessionKey sha256 hkdf_sha256 a b = QUIC.deriveSessionKey sha256 hkdf_sha256 b a.
Proof.
  unfold QUIC.deriveSessionKey. destruct (decide (a = b)) as [->|Hne]; [done|].
  rewrite (string_ltb_antisym a b Hne). by destruct (b <? a)%string.
Qed.

Lemma is_empty_false s : s ≠ ""%string → is_empty s = false.
Proof. by destruct s. Qed.

(** The answering side. *)
Lemma on_handshake now msg number addr q cm key :
  Message.Type_ msg = TypeHandshake → Message.SenderID msg ≠ ""%string → QUIC.localPeerID q ≠ ""%string →
  QUIC.connManager q = Some cm → QUIC.deriveSessionKey sha256 hkdf_sha256 (QUIC.localPeerID q) (Message.SenderID msg) = Ok key →
  ∃ q', QUIC.on_stream_message sha256 hkdf_sha256 now msg number addr q =
      (QUIC.ReplyAndClose (QUIC.handshake_message now (QUIC.localPeerID q)), q') ∧
    ∃ cm' conn, QUIC.connManager q' = Some cm' ∧ ConnectionManager.GetConnection (Message.SenderID msg) cm' = Ok conn ∧
      Connection.SessionKey conn = key ∧ Connection.Port conn = QUIC.port q ∧ QUIC.connections q' !! Message.SenderID msg = 
        Some (default number (QUIC.connections q !! Message.SenderID msg)).
Proof.
  intros Hty Hs Hl Hcm Hk. unfold QUIC.on_stream_message. rewrite Hty, bool_decide_eq_true_2 by done.
  rewrite (is_empty_false _ Hs). cbn [negb andb]. unfold QUIC.register. cbn [QUIC.with_connections QUIC.connManager QUIC.port]. rewrite Hcm. cbn [fmap option_fmap option_map].
  set (cm1 := add_connected now (Message.SenderID msg) _ _ cm).
  unfold QUIC.set_key. cbn [QUIC.with_manager QUIC.with_connections QUIC.localPeerID QUIC.connManager].
  rewrite (is_empty_false _ Hl), Hk. cbn [mbind outcome_bind]. eexists. split; [reflexivity|].
  destruct (SetSessionKey_spec (Message.SenderID msg) key cm1 _ (proj1 (add_connected_spec _ _ _ _ cm))) as (cm' & -> & Hg).
  exists cm'. eexists. split; [done|]. split; [exact Hg|]. split_and!; [done..|]. cbn.
  destruct (QUIC.connections q !! Message.SenderID msg) eqn:E; [by rewrite E|by rewrite lookup_insert_eq].
Qed.

(** The dialling side, when the reply comes from [sender]. *)
Lemma getOrCreate_first now peer addr conn reply q cm key :
  QUIC.connections q !! peer = None → peer ∉ QUIC.handshakesSent q → QUIC.localPeerID q ≠ ""%string →
  QUIC.connManager q = Some cm → Message.Type_ reply = TypeHandshake → Message.SenderID reply ≠ ""%string →
  QUIC.deriveSessionKey sha256 hkdf_sha256 (QUIC.localPeerID q) (Message.SenderID reply) = Ok key →
  let w := QUIC.Network (Ok conn) (Ok tt) (Ok tt) (Ok reply) in
  let '(r, q') := QUIC.getOrCreateConnection sha256 hkdf_sha256 now peer addr w q in
  QUIC.connections q' !! peer = Some conn ∧ peer ∈ QUIC.handshakesSent q' ∧
  ∃ cm', QUIC.connManager q' = Some cm' ∧
  if decide (Message.SenderID reply = peer)
  then r = Ok conn ∧ ConnectionManager.GetSessionKey peer cm' = Ok key
  else ConnectionManager.GetConnection (Message.SenderID reply) cm = Err ConnectionManager.not_found →
       is_ok r = false ∧ ConnectionManager.GetSessionKey peer cm' = Ok [].
Proof.
  intros Hc Hh Hl Hcm Hty Hs Hk w. subst w. unfold QUIC.getOrCreateConnection. rewrite Hc. cbn [QUIC.dialled].
  destruct (host_and_port addr _) as [host port'] eqn:Ehp.
  cbn [QUIC.with_manager QUIC.with_connections QUIC.with_handshakesSent QUIC.localPeerID QUIC.connManager QUIC.handshakesSent].
  rewrite (is_empty_false _ Hl), (bool_decide_eq_false_2 _ Hh). unfold QUIC.sendAndReceiveHandshake.
  cbn [QUIC.opened QUIC.written QUIC.reply wrapping mbind outcome_bind]. rewrite Hty, bool_decide_eq_true_2 by done.
  cbn [QUIC.with_manager QUIC.with_connections QUIC.with_handshakesSent QUIC.localPeerID QUIC.connManager].
  rewrite (is_empty_false _ Hs), Hcm. cbn [negb andb fmap option_fmap option_map]. rewrite (is_empty_false _ Hl), Hk.
  set (cm1 := add_connected now peer host port' cm). destruct (add_connected_spec now peer host port' cm) as [Hpeer Hother].
  destruct (decide (Message.SenderID reply = peer)) as [E|E].
  - rewrite E. destruct (SetSessionKey_spec peer key cm1 _ Hpeer) as (cm' & -> & Hg). cbn.
    split; [apply lookup_insert_eq|]. split; [set_solver|]. exists cm'. split; [done|]. split; [done|].
    unfold ConnectionManager.GetSessionKey. by rewrite Hg.
  - destruct (ConnectionManager.GetConnection (Message.SenderID reply) cm) as [c|e|p] eqn:Eg.
    + destruct (SetSessionKey_spec (Message.SenderID reply) key cm1 c) as (cm' & -> & Hg); [by rewrite Hother|].
      cbn. split; [apply lookup_insert_eq|]. split; [set_solver|]. exists cm'. by split.
    + assert (e = ConnectionManager.not_found) as -> by (unfold ConnectionManager.GetConnection in Eg; destruct (ConnectionManager.connections cm !! Message.SenderID reply); congruence).
      rewrite SetSessionKey_unknown by (by rewrite Hother). cbn. split; [apply lookup_insert_eq|]. split; [set_solver|].
      exists cm1. split; [done|]. intros _. split; [done|]. unfold ConnectionManager.GetSessionKey. fold cm1 in Hpeer; by rewrite Hpeer.
    + unfold ConnectionManager.GetConnection in Eg. by destruct (ConnectionManager.connections cm !! Message.SenderID reply).
Qed.
End Keys.


Definition demo_quic (self : string) : QUIC.t :=
  QUIC.SetPeerID self (QUIC.SetConnectionManager ConnectionManager.NewConnectionManager (QUIC.NewQUICTransport 8080)).

Definition demo_hkdf (s salt info : bytes) (n : Z) : outcome bytes := Ok (take (Z.to_nat n) (s ++ replicate 32 Byte.x01)).


(** *** The first contact over TCP *)

Lemma tcp_locked_forever P sha256 now peer address port w written d :
  TCPDial.mutex_held d = true → (TCPDial.SendMessage P sha256 now peer address port w written d).1 = TCPDial.Blocks.
Proof. intros H. unfold TCPDial.SendMessage, TCPDial.getOrCreateConnection. by rewrite H. Qed.

(** A first dial, and the reply of the peer taken by the goroutine that reads the
    same connection, once the dial has given up after ten seconds. *)
Definition tcp_other_reader (P : primitives) (sha256 : bytes → bytes) (now now' : time) (peer address : string) (port : Z) (conn : nat) (d : TCPDial.t)
    : TCPDial.call nat * TCPDial.t :=
  let '(r, d) := TCPDial.getOrCreateConnection P sha256 now peer address port
    (TCPDial.Network (Ok tt) (Ok conn) (Ok tt) (Err "i/o timeout"%string)) d in
  (r, TCPDial.with_tcp (TCP.on_message P sha256 now' (TCP.handshake_message now' peer) (TCP.Conn conn address port "" false) (TCPDial.tcp d)).2 d).

(** C39: The first dial of a TCP node to a peer never succeeds.  Whatever the
    network answers, no connection is returned; and when the peer answers the
    handshake as it should, the call blocks for ever: it holds the mutex of the
    connection table and locks it again to file the connection under the name of
    the peer.  Every later send of that transport, to whatever peer, then blocks
    too.  Only when the goroutine that reads the same connection takes the reply
    does the call give up, with an error after ten seconds, and a session key is
    set behind its back. *)
Theorem tcp_first_dial_fails P sha256 now peer address port w d :
  TCP.localPeerID (TCPDial.tcp d) ≠ ""%string →
  TCP.connections (TCPDial.tcp d) !! peer = None → peer ∉ TCPDial.handshakesSent d →
  let '(r, d') := TCPDial.getOrCreateConnection P sha256 now peer address port w d in
  (∀ conn, r ≠ TCPDial.Returns (Ok conn)) ∧
  (∀ conn msg, TCPDial.resolved w = Ok tt → TCPDial.dialled w = Ok conn → TCPDial.written w = Ok tt → TCPDial.reply w = Ok msg →
     Message.Type_ msg = TypeHandshake → Message.SenderID msg ≠ ""%string → r = TCPDial.Blocks) ∧
  (r = TCPDial.Blocks → ∀ now' peer' address' port' w' written',
     (TCPDial.SendMessage P sha256 now' peer' address' port' w' written' d').1 = TCPDial.Blocks) ∧
  (∀ conn now' cm, TCPDial.mutex_held d = false → TCP.connManager (TCPDial.tcp d) = Some cm → peer ≠ ""%string →
     let '(r, d') := tcp_other_reader P sha256 now now' peer address port conn d in
     TCPDial.mutex_held d' = false ∧ (∃ e, r = TCPDial.Returns (Err e)) ∧ TCP.connections (TCPDial.tcp d') !! peer = Some conn ∧
     ∃ cm', TCP.connManager (TCPDial.tcp d') = Some cm' ∧
       ConnectionManager.GetSessionKey peer cm' = Ok (TCP.deriveSessionKey P sha256 (TCP.localPeerID (TCPDial.tcp d)) peer)).
Proof.
  intros Hl Hc Hh. destruct (TCPDial.getOrCreateConnection P sha256 now peer address port w d) as [r d'] eqn:E.
  unfold TCPDial.getOrCreateConnection, TCPDial.readHandshakeResponse_locked, TCP.readHandshakeResponse in E.
  cbn [TCP.localPeerID TCP.connManager TCPDial.with_tcp TCPDial.handshakesSent] in E.
  rewrite Hc, (is_empty_false _ Hl), (bool_decide_eq_false_2 _ Hh) in E. split; [|split; [|split]].
  - repeat case_match; simplify_eq; try done; intros conn ?; simplify_eq.
  - intros conn msg H1 H2 H3 H4 H5 H6. rewrite H1, H2, H3, H4 in E. cbn in E. rewrite H5, (is_empty_false _ H6), bool_decide_eq_true_2 in E by done.
    cbn in E. by destruct (TCPDial.mutex_held d); injection E as <- _.
  - intros -> now' peer' address' port' w' written'. apply tcp_locked_forever.
    repeat case_match; simplify_eq; done.
  - clear r d' E. intros conn now' cm Hm Hcm Hp. unfold tcp_other_reader, TCPDial.getOrCreateConnection. rewrite Hm, Hc.
    cbn [TCPDial.resolved TCPDial.dialled TCPDial.written TCPDial.reply wrapping mbind outcome_bind TCP.localPeerID TCPDial.with_tcp TCPDial.handshakesSent].
    rewrite (is_empty_false _ Hl), (bool_decide_eq_false_2 _ Hh). unfold TCP.on_message.
    cbn. rewrite Hcm. cbn. rewrite (is_empty_false _ Hp), bool_decide_eq_true_2 by done. cbn.
    unfold TCP.key_for. cbn. rewrite (is_empty_false _ Hl). cbn. rewrite lookup_insert_eq. split; [done|]. split; [by eexists|].
    split; [by apply lookup_insert_eq|]. eexists. split; [reflexivity|].
    destruct (SetSessionKey_spec peer (TCP.deriveSessionKey P sha256 (TCP.localPeerID (TCPDial.tcp d)) peer) _ _
      (proj1 (add_connected_spec now' peer address port (add_connected now peer address port cm)))) as (cm' & Hs & Hg).
    unfold add_connected in Hs at 1. unfold ConnectionManager.GetSessionKey. rewrite Hs. cbn [snd]. by rewrite Hg.
Qed.

Definition demo_tcp (self : string) : TCPDial.t :=
  TCPDial.SetPeerID self (TCPDial.SetConnectionManager ConnectionManager.NewConnectionManager TCPDial.NewTCPTransport).

Lemma tcp_first_dial_fails_witness :
  let w := TCPDial.Network (Ok tt) (Ok 7%nat) (Ok tt) (Ok (TCP.handshake_message 6 "B")) in
  (TCPDial.getOrCreateConnection demo_primitives (λ d, d) 5 "B" "10.0.0.2" 8080 w (demo_tcp "A")).1 = TCPDial.Blocks.
Proof.
  cbv zeta. pose proof (tcp_first_dial_fails demo_primitives (λ d, d) 5 "B" "10.0.0.2" 8080
    (TCPDial.Network (Ok tt) (Ok 7%nat) (Ok tt) (Ok (TCP.handshake_message 6 "B"))) (demo_tcp "A")
    ltac:(discriminate) eq_refl ltac:(apply not_elem_of_empty)) as H.
  destruct (TCPDial.getOrCreateConnection _ _ _ _ _ _ _ _) as [r d']. destruct H as (_ & H & _). by eapply H.
Defined.

(** *** One handshake per peer *)

Lemma quic_redial sha256 hkdf now peer addr w q cm conn :
  peer ∈ QUIC.handshakesSent q → QUIC.connections q !! peer = None → QUIC.connManager q = Some cm → QUIC.dialled w = Ok conn →
  ∃ q' cm', QUIC.getOrCreateConnection sha256 hkdf now peer addr w q = (Ok conn, q') ∧ QUIC.connManager q' = Some cm' ∧
    ∃ c, ConnectionManager.GetConnection peer cm' = Ok c ∧ Connection.State c = StateConnected ∧ Connection.SessionKey c = [].
Proof.
  intros Hh Hc Hcm Hd. unfold QUIC.getOrCreateConnection. rewrite Hc, Hd. destruct (host_and_port addr _) as [host port'].
  cbn [QUIC.with_manager QUIC.with_connections QUIC.localPeerID QUIC.connManager QUIC.handshakesSent]. rewrite Hcm.
  rewrite bool_decide_eq_true_2 by done.
  destruct (is_empty (QUIC.localPeerID q)); eexists _, _; (split; [reflexivity|]; split; [reflexivity|]);
    eexists; (split; [apply add_connected_spec|done]).
Qed.

Lemma tcp_redial P sha256 now peer address port w d cm conn :
  TCPDial.mutex_held d = false →
  peer ∈ TCPDial.handshakesSent d → TCP.connections (TCPDial.tcp d) !! peer = None → TCP.connManager (TCPDial.tcp d) = Some cm →
  TCPDial.resolved w = Ok tt → TCPDial.dialled w = Ok conn →
  ∃ d' cm', TCPDial.getOrCreateConnection P sha256 now peer address port w d = (TCPDial.Returns (Ok conn), d') ∧
    TCP.connManager (TCPDial.tcp d') = Some cm' ∧
    ∃ c, ConnectionManager.GetConnection peer cm' = Ok c ∧ Connection.State c = StateConnected ∧ Connection.SessionKey c = [].
Proof.
  intros Hm Hh Hc Hcm Hr Hd. unfold TCPDial.getOrCreateConnection. rewrite Hm, Hc, Hr, Hd. cbn [wrapping mbind outcome_bind].
  cbn [TCP.localPeerID TCP.connManager TCPDial.with_tcp TCPDial.handshakesSent]. rewrite Hcm. rewrite bool_decide_eq_true_2 by done.
  destruct (is_empty (TCP.localPeerID (TCPDial.tcp d))); eexists _, _; (split; [reflexivity|]; split; [reflexivity|]);
    eexists; (split; [apply add_connected_spec|done]).
Qed.

(** C40: A broken connection loses its session key for good, on both transports.
    Once a handshake has been sent to a peer, a message that cannot be written
    removes the connection; the next one dials again, and the new connection is
    registered as connected without a session key, whatever the peer would answer
    to a handshake, since none is sent a second time.  The message itself goes
    out; every later send of the messenger to that peer fails for want of a key. *)
Theorem redial_without_key sha256 hkdf P jt jv now now' peer address port w w' d d' q t cm cm' c c' msg m x :
  (* quic *)
  peer ∈ QUIC.handshakesSent q → QUIC.connections q !! peer = Some x → QUIC.connManager q = Some cm → QUIC.dialled w = Ok c →
  (* tcp *)
  TCPDial.mutex_held t = false →
  peer ∈ TCPDial.handshakesSent t → TCP.connections (TCPDial.tcp t) !! peer = Some x → TCP.connManager (TCPDial.tcp t) = Some cm' →
  TCPDial.resolved w' = Ok tt → TCPDial.dialled w' = Ok c' →
  let q1 := (QUIC.SendMessage sha256 hkdf now peer address port d (Err "broken"%string) (Ok tt) q).2 in
  let q2 := QUIC.SendMessage sha256 hkdf now' peer address port w (Ok tt) (Ok tt) q1 in
  let t1 := (TCPDial.SendMessage P sha256 now peer address port d' (Err "broken"%string) t).2 in
  let t2 := TCPDial.SendMessage P sha256 now' peer address port w' (Ok tt) t1 in
  q2.1 = Ok tt ∧ t2.1 = TCPDial.Returns (Ok tt) ∧
  ∀ table, (QUIC.connManager q2.2 = Some table ∨ TCP.connManager (TCPDial.tcp t2.2) = Some table) →
    ConnectionManager.GetSessionKey peer table = Ok [] ∧
    (Messenger.connManager m = table →
     Messenger.sendMessage P jt jv peer msg m = (Err (wrap "failed to encrypt message" "no session key available"), m)).
Proof.
  intros Hq1 Hq2 Hq3 Hq4 Ht0 Ht1 Ht2 Ht3 Ht4 Ht5 q1 q2 t1 t2.
  assert (q1 = QUIC.with_connections (delete peer (QUIC.connections q)) q) as Eq1.
  { unfold q1, QUIC.SendMessage, QUIC.getOrCreateConnection. by rewrite Hq2. }
  assert (t1 = TCPDial.with_tcp (TCP.mk (TCP.localPeerID (TCPDial.tcp t)) (TCP.connManager (TCPDial.tcp t))
    (delete peer (TCP.connections (TCPDial.tcp t)))) t) as Et1.
  { unfold t1, TCPDial.SendMessage, TCPDial.getOrCreateConnection. by rewrite Ht0, Ht2. }
  destruct (quic_redial sha256 hkdf now' peer (address +:+ ":" +:+ sprint_d port) w q1 cm c) as (q' & cmq & Hq & Hcq & cq & Hgq & _ & Hkq);
    [by rewrite Eq1|rewrite Eq1; apply lookup_delete_eq|by rewrite Eq1|done|].
  destruct (tcp_redial P sha256 now' peer address port w' t1 cm' c') as (t' & cmt & Ht & Hct & ct & Hgt & _ & Hkt);
    [by rewrite Et1|by rewrite Et1|rewrite Et1; apply lookup_delete_eq|by rewrite Et1|done..|].
  unfold q2, t2, QUIC.SendMessage, TCPDial.SendMessage. rewrite Hq, Ht. cbn [fst snd wrapping]. split; [done|]. split; [done|].
  assert (∀ table conn, ConnectionManager.GetConnection peer table = Ok conn → Connection.SessionKey conn = [] →
    ConnectionManager.GetSessionKey peer table = Ok [] ∧
    (Messenger.connManager m = table →
     Messenger.sendMessage P jt jv peer msg m = (Err (wrap "failed to encrypt message" "no session key available"), m))) as H.
  { intros table conn Hg Hk. split; [unfold ConnectionManager.GetSessionKey; rewrite Hg; cbn; by rewrite Hk|].
    intros Hm. apply (sendMessage_without_key P jt jv peer msg m conn); [by rewrite Hm|done]. }
  intros table [Htab|Htab]; [rewrite Hcq in Htab|rewrite Hct in Htab]; injection Htab as <-; by eapply H.
Qed.

(** A second [Stop] of the QUIC transport panics, of the TCP transport does not. *)
Lemma stop_twice q close1 close2 t :
  (QUIC.stopped q = false → (QUIC.Stop (QUIC.Stop q).2).1 = Panic "close of closed channel") ∧
  (TCPDial.Stop close2 (TCPDial.Stop close1 t).2).1 = Ok tt.
Proof.
  split; [by intros H; unfold QUIC.Stop; rewrite H|]. unfold TCPDial.Stop. destruct (TCPDial.stopped t) eqn:E; cbn; by rewrite ?E.
Qed.

(** Both transports after a first contact with "B" that set a session key. *)
Definition demo_quic_connected : QUIC.t :=
  (QUIC.getOrCreateConnection (λ d, d) demo_hkdf 5 "B" "10.0.0.2:8080"
     (QUIC.Network (Ok 7%nat) (Ok tt) (Ok tt) (Ok (QUIC.handshake_message 5 "B"))) (demo_quic "A")).2.
Definition demo_tcp_connected : TCPDial.t := (tcp_other_reader demo_primitives (λ d, d) 5 6 "B" "10.0.0.2" 8080 7 (demo_tcp "A")).2.

Lemma redial_without_key_witness :
  let w := QUIC.Network (Ok 8%nat) (Ok tt) (Ok tt) (Ok (QUIC.handshake_message 9 "B")) in
  let q1 := (QUIC.SendMessage (λ d, d) demo_hkdf 6 "B" "10.0.0.2" 8080 w (Err "broken"%string) (Ok tt) demo_quic_connected).2 in
  let q2 := QUIC.SendMessage (λ d, d) demo_hkdf 7 "B" "10.0.0.2" 8080 w (Ok tt) (Ok tt) q1 in
  (∀ cm, QUIC.connManager demo_quic_connected = Some cm → ConnectionManager.GetSessionKey "B" cm ≠ Ok []) ∧
  q2.1 = Ok tt ∧ ∀ cm, QUIC.connManager q2.2 = Some cm → ConnectionManager.GetSessionKey "B" cm = Ok [].
Proof.
  cbv zeta. split; [intros cm H; vm_compute in H; injection H as <-; by vm_compute|].
  destruct (redial_without_key (λ d, d) demo_hkdf demo_primitives (λ _, []) (λ _, Err "never"%string) 6 7 "B" "10.0.0.2" 8080
    (QUIC.Network (Ok 8%nat) (Ok tt) (Ok tt) (Ok (QUIC.handshake_message 9 "B")))
    (TCPDial.Network (Ok tt) (Ok 8%nat) (Ok tt) (Ok (TCP.handshake_message 9 "B")))
    (QUIC.Network (Ok 8%nat) (Ok tt) (Ok tt) (Ok (QUIC.handshake_message 9 "B")))
    (TCPDial.Network (Ok tt) (Ok 8%nat) (Ok tt) (Ok (TCP.handshake_message 9 "B")))
    demo_quic_connected demo_tcp_connected _ _ 8 8 (TCP.handshake_message 9 "A") (demo_messenger "A" "B") 7
    ltac:(by apply (bool_decide_unpack _)) eq_refl eq_refl eq_refl eq_refl ltac:(by apply (bool_decide_unpack _)) eq_refl eq_refl eq_refl eq_refl)
    as (H1 & _ & H2).
  split; [exact H1|]. intros cm Hcm. exact (proj1 (H2 cm (or_introl Hcm))).
Defined.
