(* ===== verification/DialingRace.v ===== *)
(** * Two nodes dial each other over QUIC

    [getOrCreateConnection] (internal/network/transport/quic.go) keeps the mutex of
    the connection table locked until the reply to its handshake has come, and the
    stream that answers a handshake needs the same mutex to store the connection.
    The call is cut where it waits, and two nodes run against each other. *)

From Stdlib Require Import Strings.Byte Strings.String.
From S2P Require Import Prelude GoStrings Json Messages Encryption Connection Transport Dialing Messenger MessengerProps DialingProps.

Module Dial.
Import QUIC.

(** What a dialling call is up to. *)
Inductive progress : Type :=
  | Returned (r : outcome nat)
  (** [connectionsMu] is locked; the handshake was sent on the new connection. *)
  | Waiting (conn : nat).

Section Dial.
Context (sha256 : bytes → bytes) (hkdf_sha256 : bytes → bytes → bytes → Z → outcome bytes).

(** Up to the [select] of [sendAndReceiveHandshake]. *)
Definition begin (now : time) (peerID addr : string) (dialled : outcome nat) (opened written : outcome unit) (q : t) : progress * t :=
  match connections q !! peerID with
  | Some conn => (Returned (Ok conn), q)
  | None =>
      match dialled with
      | Err e => (Returned (Err e), q)
      | Panic x => (Returned (Panic x), q)
      | Ok conn =>
          let q := with_connections (<[peerID := conn]> (connections q)) q in
          let '(host, port') := host_and_port addr (port q) in
          let q := with_manager (add_connected now peerID host port' <$> connManager q) q in
          if is_empty (localPeerID q) then (Returned (Ok conn), q)
          else
            let alreadySent := bool_decide (peerID ∈ handshakesSent q) in
            let q := with_handshakesSent ({[peerID]} ∪ handshakesSent q) q in
            if alreadySent then (Returned (Ok conn), q)
            else match (wrapping "failed to open stream for handshake" opened;; wrapping "failed to encode handshake" written) with
                 | Ok _ => (Waiting conn, q)
                 | Err e => (Returned (Err (wrap "failed to complete handshake" e)), q)
                 | Panic x => (Returned (Panic x), q)
                 end
      end
  end.

(** From the reply on, an error when none came. *)
Definition finish (conn : nat) (reply : outcome Message.t) (q : t) : outcome nat * t :=
  match sendAndReceiveHandshake sha256 hkdf_sha256 (Network (Ok conn) (Ok tt) (Ok tt) reply) q with
  | (Ok _, q) => (Ok conn, q)
  | (Err e, q) => (Err (wrap "failed to complete handshake" e), q)
  | (Panic x, q) => (Panic x, q)
  end.

(** The two halves are the call. *)
Lemma getOrCreateConnection_halves now peerID addr w q :
  getOrCreateConnection sha256 hkdf_sha256 now peerID addr w q =
  match begin now peerID addr (dialled w) (opened w) (written w) q with
  | (Returned r, q) => (r, q)
  | (Waiting conn, q) => finish conn (reply w) q
  end.
Proof.
  unfold getOrCreateConnection, begin. destruct (connections q !! peerID); [done|]. destruct (dialled w) as [conn|?|?]; [|done..].
  destruct (host_and_port _ _) as [host port']. cbv zeta. destruct (is_empty _); [done|]. destruct (bool_decide _); [done|].
  unfold finish, sendAndReceiveHandshake. destruct (opened w), (written w); done.
Qed.

End Dial.
End Dial.

(** ** Two nodes *)

Module TwoNodes.

Record node : Type := Node {
  transport : QUIC.t;
  (** The connection the node dials on; its [connectionsMu] is locked meanwhile. *)
  waiting : option nat;
  (** Handshakes on inbound streams whose [handleStream] has not gone on yet. *)
  inbox : list Message.t;
  (** What has come back on the stream of the node's own handshake. *)
  answered : option Message.t;
  (** The results of the dialling calls that have returned, the last one first. *)
  results : list (outcome nat)
}.

(** The two nodes: [false] and [true]. *)
Definition t : Type := bool → node.
Definition set (i : bool) (n m : node) : t := λ j, if eqb i j then n else m.

Definition timeout : error := "timeout waiting for handshake response".

Inductive label : Type := Dialled (i : bool) | Answered (i : bool) | Finished (i : bool) | TimedOut (i : bool).

Section Steps.
Context (sha256 : bytes → bytes) (hkdf_sha256 : bytes → bytes → bytes → Z → outcome bytes).
(** Where each node is reached, and by what address an inbound connection is known. *)
Context (addr remoteAddr : bool → string).

(** The peer of node [i]. *)
Definition peer_of (s : t) (i : bool) : string := QUIC.localPeerID (transport (s (negb i))).

(** The clock of each step, the number of a connection and the fate of its
    messages are free; the answer reaches the other node while that waits. *)
Inductive step : label → t → t → Prop :=
  | step_dial i now conn q m s :
      waiting (s i) = None →
      Dial.begin now (peer_of s i) (addr (negb i)) (Ok conn) (Ok tt) (Ok tt) (transport (s i)) = (Dial.Waiting conn, q) →
      wire (QUIC.handshake_message now (QUIC.localPeerID (transport (s i)))) = Ok m →
      let n := s i in let p := s (negb i) in
      step (Dialled i) s (set i (Node q (Some conn) (inbox n) None (results n))
                                (Node (transport p) (waiting p) (inbox p ++ [m]) (answered p) (results p)))
  | step_answer i now number msg rest reply reply' q s :
      waiting (s i) = None → inbox (s i) = msg :: rest →
      QUIC.on_stream_message sha256 hkdf_sha256 now msg number (remoteAddr (negb i)) (transport (s i)) = (QUIC.ReplyAndClose reply, q) →
      wire reply = Ok reply' →
      let n := s i in let p := s (negb i) in
      step (Answered i) s (set i (Node q None rest (answered n) (results n))
                                 (Node (transport p) (waiting p) (inbox p) ((λ _, reply') <$> waiting p) (results p)))
  | step_finish i conn reply r q s :
      waiting (s i) = Some conn → answered (s i) = Some reply →
      Dial.finish sha256 hkdf_sha256 conn (Ok reply) (transport (s i)) = (r, q) →
      let n := s i in
      step (Finished i) s (set i (Node q None (inbox n) None (r :: results n)) (s (negb i)))
  | step_timeout i conn r q s :
      waiting (s i) = Some conn → answered (s i) = None →
      Dial.finish sha256 hkdf_sha256 conn (Err timeout) (transport (s i)) = (r, q) →
      let n := s i in
      step (TimedOut i) s (set i (Node q None (inbox n) None (r :: results n)) (s (negb i))).

(** Any number of steps, and which. *)
Inductive steps : list label → t → t → Prop :=
  | steps_nil s : steps [] s s
  | steps_cons l ls s s' s'' : step l s s' → steps ls s' s'' → steps (l :: ls) s s''.

(** A node that has not dialled its peer, nor heard of it. *)
Record fresh (self peer : string) (n : node) : Prop := {
  f_self : QUIC.localPeerID (transport n) = self; f_nonempty : self ≠ ""%string;
  f_manager : ∃ cm, QUIC.connManager (transport n) = Some cm;
  f_unconnected : QUIC.connections (transport n) !! peer = None;
  f_unsent : peer ∉ QUIC.handshakesSent (transport n);
  f_idle : waiting n = None; f_inbox : inbox n = []; f_answered : answered n = None; f_results : results n = []
}.

(** The session key a node has for a peer. *)
Definition has_key (peer : string) (key : bytes) (n : node) : Prop :=
  ∃ cm, QUIC.connManager (transport n) = Some cm ∧ ConnectionManager.GetSessionKey peer cm = Ok key.

(** Both nodes wait, and no answer is under way. *)
Definition deadlocked (s : t) : Prop := ∀ i, waiting (s i) ≠ None ∧ answered (s i) = None.

Lemma deadlocked_steps s l s' : deadlocked s → step l s s' → ∃ i, l = TimedOut i.
Proof.
  intros Hd H. destruct H as [i ? ? ? ? ? H|i ? ? ? ? ? ? ? ? H|i ? ? ? ? ? ? H|i]; [| | |by eexists]; exfalso; destruct (Hd i); congruence.
Qed.

(** The beginning of a dialling call. *)
Lemma begin_first now peer a conn q cm :
  QUIC.connections q !! peer = None → peer ∉ QUIC.handshakesSent q → QUIC.localPeerID q ≠ ""%string → QUIC.connManager q = Some cm →
  ∃ q' cm', Dial.begin now peer a (Ok conn) (Ok tt) (Ok tt) q = (Dial.Waiting conn, q') ∧
    QUIC.localPeerID q' = QUIC.localPeerID q ∧ QUIC.connManager q' = Some cm' ∧
    ∃ c, ConnectionManager.GetConnection peer cm' = Ok c.
Proof.
  intros Hc Hh Hl Hcm. unfold Dial.begin. rewrite Hc. destruct (host_and_port a _) as [host port'].
  cbn [QUIC.with_manager QUIC.with_connections QUIC.localPeerID QUIC.connManager QUIC.handshakesSent].
  rewrite (is_empty_false _ Hl), (bool_decide_eq_false_2 _ Hh), Hcm. cbn [fmap option_fmap option_map wrapping mbind outcome_bind].
  eexists _, _. split; [done|]. split; [done|]. split; [done|]. eexists. apply add_connected_spec.
Qed.

(** Its end: by the reply of the peer, or by the timeout. *)
Lemma finish_reply conn reply peer key q cm c :
  QUIC.localPeerID q ≠ ""%string → peer ≠ ""%string → QUIC.connManager q = Some cm → ConnectionManager.GetConnection peer cm = Ok c →
  Message.Type_ reply = TypeHandshake → Message.SenderID reply = peer →
  QUIC.deriveSessionKey sha256 hkdf_sha256 (QUIC.localPeerID q) peer = Ok key →
  ∃ q' cm', Dial.finish sha256 hkdf_sha256 conn (Ok reply) q = (Ok conn, q') ∧ QUIC.connManager q' = Some cm' ∧
    ConnectionManager.GetSessionKey peer cm' = Ok key.
Proof.
  intros Hl Hp Hcm Hc Hty <- Hk. unfold Dial.finish, QUIC.sendAndReceiveHandshake. cbn [QUIC.opened QUIC.written QUIC.reply wrapping mbind outcome_bind].
  rewrite Hty, bool_decide_eq_true_2, (is_empty_false _ Hp), (is_empty_false _ Hl), Hcm, Hk by done. cbn [negb andb].
  destruct (SetSessionKey_spec (Message.SenderID reply) key cm c Hc) as (cm' & -> & Hg). cbn. eexists _, cm'. split; [done|]. split; [done|].
  unfold ConnectionManager.GetSessionKey. by rewrite Hg.
Qed.

Lemma finish_timeout conn q : Dial.finish sha256 hkdf_sha256 conn (Err timeout) q = (Err (wrap "failed to complete handshake" timeout), q).
Proof. done. Qed.

Lemma set_same i n m : set i n m i = n.
Proof. unfold set. by destruct i. Qed.
Lemma set_other i n m : set i n m (negb i) = m.
Proof. unfold set. by destruct i. Qed.

Section Meeting.
Context (ids : bool → string) (now : time).
Hypothesis nonempty : ∀ i, ids i ≠ ""%string.
Hypothesis moment : in64 (unix_sec now).

(** Node [i] waits on [conn], and its peer's handshake waits at it. *)
Record stuck (i : bool) (conn : nat) (n : node) : Prop := {
  s_self : QUIC.localPeerID (transport n) = ids i;
  s_peer : ∃ cm c, QUIC.connManager (transport n) = Some cm ∧ ConnectionManager.GetConnection (ids (negb i)) cm = Ok c;
  s_waiting : waiting n = Some conn; s_inbox : inbox n = [QUIC.handshake_message now (ids (negb i))];
  s_answered : answered n = None; s_results : results n = []
}.

Lemma both_dial s conns :
  (∀ i, fresh (ids i) (ids (negb i)) (s i)) → ∃ s', steps [Dialled false; Dialled true] s s' ∧ ∀ i, stuck i (conns i) (s' i).
Proof using nonempty moment.
  intros Hf. assert (∀ i, ∃ q' cm' c, Dial.begin now (ids (negb i)) (addr (negb i)) (Ok (conns i)) (Ok tt) (Ok tt) (transport (s i)) = (Dial.Waiting (conns i), q') ∧
    QUIC.localPeerID q' = ids i ∧ QUIC.connManager q' = Some cm' ∧ ConnectionManager.GetConnection (ids (negb i)) cm' = Ok c) as Hb.
  { intros i. destruct (Hf i) as [Hs Hn [cm Hcm] Hc Hu _ _ _ _].
    destruct (begin_first now (ids (negb i)) (addr (negb i)) (conns i) (transport (s i)) cm) as (q' & cm' & H1 & H2 & H3 & c & H4); [done..|by rewrite Hs|done|].
    exists q', cm', c. by rewrite <- Hs. }
  destruct (Hb false) as (qa & cma & ca & Ha & Hal & Hacm & Hac), (Hb true) as (qb & cmb & cb & Hb' & Hbl & Hbcm & Hbc).
  destruct (Hf false) as [Fs _ _ _ _ Fw Fi Fa Fr], (Hf true) as [Gs _ _ _ _ Gw Gi Ga Gr].
  eexists. split.
  - eapply steps_cons; [|eapply steps_cons; [|apply steps_nil]].
    + apply (step_dial false now (conns false) qa (QUIC.handshake_message now (ids false))); [done|unfold peer_of; cbn [negb]; by rewrite Gs|].
      rewrite Fs. by apply wire_handshake.
    + apply (step_dial true now (conns true) qb (QUIC.handshake_message now (ids true))); [done|unfold peer_of; cbn; by rewrite Hal|].
      cbn. rewrite Gs. by apply wire_handshake.
  - intros [|]; cbn; split; cbn; rewrite ?Gi, ?Fi; try done; by eexists _, _.
Qed.

(** Node [i] gives up, and answers; the other one has its reply. *)
Lemma one_gives_up s conns key i :
  (∀ i, stuck i (conns i) (s i)) → QUIC.deriveSessionKey sha256 hkdf_sha256 (ids false) (ids true) = Ok key →
  ∃ s' e, steps [TimedOut i; Answered i; Finished (negb i)] s s' ∧ results (s' i) = [Err e] ∧ results (s' (negb i)) = [Ok (conns (negb i))] ∧
    ∀ j, has_key (ids (negb j)) key (s' j).
Proof using nonempty moment.
  intros Hs Hkey. assert (∀ j, QUIC.deriveSessionKey sha256 hkdf_sha256 (ids j) (ids (negb j)) = Ok key) as Hk.
  { intros [|]; [by rewrite quic_key_comm|done]. }
  destruct (Hs i) as [Is (cm & c & Icm & _) Iw Ii Ia Ir], (Hs (negb i)) as [Os (cmo & co & Ocm & Oc) Ow Oi Oa Or]. rewrite negb_involutive in Oc.
  destruct (on_handshake sha256 hkdf_sha256 now (QUIC.handshake_message now (ids (negb i))) 0 (remoteAddr (negb i)) (transport (s i)) cm key)
    as (qi & Hon & cmi & ci & Hcmi & Hci & Hkeyi & _); [done|apply nonempty|by rewrite Is|done|by rewrite Is|].
  destruct (finish_reply (conns (negb i)) (QUIC.handshake_message now (ids i)) (ids i) key (transport (s (negb i))) cmo co)
    as (qo & cmo' & Hfin & Hcmo' & Hko); [by rewrite Os|apply nonempty|done..|rewrite Os; specialize (Hk (negb i)); by rewrite negb_involutive in Hk|].
  eexists _, _. split; [|split; [|split]].
  - eapply steps_cons; [by eapply (step_timeout i); [|done|apply finish_timeout]|].
    eapply steps_cons; [eapply (step_answer i now 0 (QUIC.handshake_message now (ids (negb i))) []); rewrite ?set_same; cbn;
      [done|done|exact Hon|rewrite Is; by apply wire_handshake]|].
    eapply steps_cons; [|apply steps_nil]. eapply (step_finish (negb i) (conns (negb i))); rewrite !set_other; cbn; rewrite ?Ow; [done|done|exact Hfin].
  - destruct i; cbn; by rewrite Ir.
  - rewrite set_same. cbn. rewrite !set_other. cbn. by rewrite Or.
  - intros j. destruct (decide (j = i)) as [->|Hj].
    + destruct i; cbn; exists cmi; (split; [done|]); unfold ConnectionManager.GetSessionKey; cbn in Hci; rewrite Hci; cbn; by rewrite Hkeyi.
    + assert (j = negb i) as -> by (by destruct i, j). rewrite set_same, negb_involutive. by exists cmo'.
Qed.
End Meeting.
End Steps.
End TwoNodes.


Definition demo_ids (i : bool) : string := if i then "B" else "A".
Definition demo_nodes : TwoNodes.t := λ i, TwoNodes.Node (demo_quic (demo_ids i)) None [] None [].

