(* ===== verification/Program.v ===== *)
(** * The program (cmd/p2p-sync/main.go)

    What main decides: the settings it hands to the messenger, the identifier of
    the node, the transport, the peers to dial and the order in which the parts
    are stopped.  Startup.v has the whole of main.  Logging and signals are not
    modelled. *)

From Stdlib Require Import Strings.Byte Strings.Ascii Strings.String.
From S2P Require Import Prelude GoStrings GoPath Json Messages Chunking ChunkingProps Filesystem Compression Configuration Connection Transport Dialing DialingProps Messenger.

Definition AppVersion : string := "0.1.0".

(** The part of the configuration the messenger reads. *)
Definition messenger_config (c : Configuration.Config.t) : Messenger.Config.t :=
  Messenger.Config.mk (SyncConfig.FolderPath (Configuration.Config.Sync c)) (SyncConfig.ChunkSizeDefault (Configuration.Config.Sync c))
    (CompressionConfig.Enabled (Configuration.Config.Compression c)) (CompressionConfig.FileSizeThreshold (Configuration.Config.Compression c))
    (CompressionConfig.Algorithm (Configuration.Config.Compression c)) (CompressionConfig.Level (Configuration.Config.Compression c)).

(** [NewNetworkMessenger] makes the compressor whether it is enabled or not. *)
Definition NewNetworkMessenger (L : libraries) (c : Configuration.Config.t) : outcome (Messenger.Config.t * Compressor.t) :=
  compressor ← wrapping "failed to create compressor"
    (NewCompressor L (CompressionConfig.Algorithm (Configuration.Config.Compression c)) (CompressionConfig.Level (Configuration.Config.Compression c)));
  Ok (messenger_config c, compressor).

Definition generatePeerID (hostname : outcome string) (now : time) : string :=
  (match hostname with Ok h => h | _ => "unknown" end +:+ "-" +:+ sprint_d now)%string.

Definition peer_id (getenv : string → string) (hostname : outcome string) (now : time) : string :=
  if is_empty (getenv "PEER_ID"%string) then generatePeerID hostname now else getenv "PEER_ID"%string.

Definition splitAndTrim (s : string) (delim : ascii) : list string :=
  List.filter (λ p, negb (is_empty p)) (TrimSpace <$> Split delim s).

(** "host:port" or "id:host:port"; of more parts the first, and port 8080. *)
Definition peer_address (peerAddr : string) : option (string * string * Z) :=
  match splitAndTrim peerAddr ":" with
  | [hostname; p] => Some (hostname, hostname, Sscanf_d 8080 p)
  | [peerID; hostname; p] => Some (peerID, hostname, Sscanf_d 8080 p)
  | hostname :: _ :: _ => Some (hostname, hostname, 8080)
  | _ => None
  end.

(** The peers dialled two seconds after the start: identifier, host, port. *)
Definition configured_peers (getenv : string → string) (c : Configuration.Config.t) : list (string * string * Z) :=
  omap peer_address
    (if is_empty (getenv "PEERS"%string) then NetworkConfig.Peers (Configuration.Config.Network c)
     else splitAndTrim (getenv "PEERS"%string) ",").

(** The empty protocol is QUIC. *)
Definition protocol_of (c : Configuration.Config.t) : string :=
  let p := NetworkConfig.Protocol (Configuration.Config.Network c) in if is_empty p then "quic"%string else p.

(** The transport that runs, given the answers of the two; [Err] ends the program. *)
Definition start_transport (quic tcp : outcome unit) (c : Configuration.Config.t) : outcome transport_kind :=
  match NewTransport (protocol_of c) with
  | QuicOnly =>
      match quic with
      | Ok _ => Ok QuicOnly
      | Err _ => (λ _, TcpOnly) <$> wrapping "Failed to start TCP fallback transport" tcp
      | Panic w => Panic w
      end
  | TcpOnly => (λ _, TcpOnly) <$> wrapping "Failed to start network transport" tcp
  | QuicThenTcp => Err "unreachable for a validated protocol"
  end.

(** The end: the transport is stopped, the engine is, and the transport again by
    the deferred call. *)
Definition shutdown (transport : QUIC.t + TCPDial.t) (close1 close2 : outcome unit) : outcome unit :=
  match transport with
  | inl q => let '(r, q) := QUIC.Stop q in
             match r with Panic w => Panic w | _ => match (QUIC.Stop q).1 with Panic w => Panic w | _ => Ok tt end end
  | inr t => let '(r, t) := TCPDial.Stop close1 t in
             match r with Panic w => Panic w | _ => match (TCPDial.Stop close2 t).1 with Panic w => Panic w | _ => Ok tt end end
  end.

(** ** Properties *)

(** A part of an address: printable, without the separators. *)
Record name (s : string) : Prop := {
  n_plain : plain_string s; n_colon : occurs ":" s = false; n_comma : occurs "," s = false; n_some : s ≠ ""%string
}.

Lemma name_port z : 0 ≤ z → name (sprint_d z).
Proof.
  intros Hz. destruct (sprint_plain z ":" Hz eq_refl) as (H1 & H2 & H3). destruct (sprint_plain z "," Hz eq_refl) as (_ & H4 & _). by split.
Qed.

(** Words joined by the separator come back. *)
Lemma splitAndTrim_Join sep ws :
  ws ≠ [] → Forall (λ w, plain_string w ∧ occurs sep w = false ∧ w ≠ ""%string) ws → splitAndTrim (Join sep ws) sep = ws.
Proof.
  intros Hne Hws. unfold splitAndTrim. rewrite Split_Join; [|done|eapply Forall_impl; [exact Hws|by intros w (_ & ? & _)]].
  assert (TrimSpace <$> ws = ws) as ->.
  { clear Hne. induction Hws as [|w ws (Hw & _) _ IH]; [done|]. by rewrite fmap_cons, IH, TrimSpace_plain. }
  apply filter_all. intros w (_ & _ & Hw)%(proj1 (Forall_forall _ _) Hws). by destruct w.
Qed.

Lemma peer_address_full id host port :
  name id → name host → 0 ≤ port < two63 →
  peer_address (Join ":" [id; host; sprint_d port]) = Some (id, host, port) ∧
  peer_address (Join ":" [host; sprint_d port]) = Some (host, host, port).
Proof.
  intros [] [] Hp. destruct (name_port port) as []; [lia|]. unfold peer_address.
  rewrite !splitAndTrim_Join by (done || by repeat constructor). by rewrite Sscanf_sprint.
Qed.

Lemma occurs_append sep a b : occurs sep (a +:+ b) = occurs sep a || occurs sep b.
Proof. induction a as [|c a IH]; [done|]. change (String c a +:+ b) with (String c (a +:+ b)). cbn [occurs]. by rewrite IH, orb_assoc. Qed.

Lemma full_address_word id host port :
  name id → name host → 0 ≤ port →
  let w := Join ":" [id; host; sprint_d port] in plain_string w ∧ occurs "," w = false ∧ w ≠ ""%string.
Proof.
  intros [] [] Hp. destruct (name_port port) as []; [lia|]. cbn [Join].
  assert (∀ a b, (a +:+ String ":" b)%string = (a +:+ ":" +:+ b)%string) as Hs by done.
  rewrite !Hs. split_and!.
  - rewrite !plain_app. by split_and!.
  - rewrite !occurs_append. by rewrite n_comma0, n_comma1, n_comma2.
  - by destruct id.
Qed.

(** The peers that are named are the peers that are dialled.  A list
    "id:host:port,id:host:port,..." in the environment, for printable names
    without the separators, gives exactly these identifiers, hosts and ports, in
    order; with the identifier left out the host takes its place. *)
Theorem configured_peers_roundtrip getenv c peers :
  peers ≠ [] → Forall (λ p, name p.1.1 ∧ name p.1.2 ∧ 0 ≤ p.2 < 65536) peers →
  getenv "PEERS"%string = Join "," ((λ p, Join ":" [p.1.1; p.1.2; sprint_d p.2]) <$> peers) →
  configured_peers getenv c = peers ∧
  ∀ host port, name host → 0 ≤ port < 65536 → peer_address (Join ":" [host; sprint_d port]) = Some (host, host, port).
Proof.
  intros Hne Hps He. split.
  2: { intros host port Hh Hp. apply (peer_address_full host host port); [done..|unfold two63; lia]. }
  unfold configured_peers. rewrite He.
  assert (is_empty (Join "," ((λ p, Join ":" [p.1.1; p.1.2; sprint_d p.2]) <$> peers)) = false) as ->.
  { destruct peers as [|p ps]; [done|]. apply Forall_cons_1 in Hps as [[[_ _ _ Hid] _] _]. cbn. by destruct p.1.1, ps. }
  rewrite splitAndTrim_Join; [|by destruct peers|].
  2: { apply Forall_fmap. eapply Forall_impl; [exact Hps|]. intros p (H1 & H2 & Hp). apply full_address_word; [done..|lia]. }
  clear Hne He. induction Hps as [|[[id host] port] ps (H1 & H2 & Hp) _ IH]; [done|].
  rewrite fmap_cons. cbn [omap list_omap fst snd].
  destruct (peer_address_full id host port H1 H2) as [-> _]; [cbn in Hp; unfold two63; lia|].
  by f_equal.
Qed.

Lemma demo_name s : forallb plain (list_ascii_of_string s) && negb (occurs ":" s) && negb (occurs "," s) && negb (is_empty s) = true → name s.
Proof.
  rewrite !andb_true_iff, !negb_true_iff. intros [[[H1 H2] H3] H4]. split; [done..|]. by destruct s.
Qed.

Lemma configured_peers_roundtrip_witness :
  configured_peers (λ n, if decide (n = "PEERS"%string) then "beta:10.0.0.2:9000,gamma:host-3:8080"%string else ""%string)
    Configuration.Config.DefaultConfig = [("beta", "10.0.0.2", 9000); ("gamma", "host-3", 8080)]%string.
Proof.
  refine (proj1 (configured_peers_roundtrip _ Configuration.Config.DefaultConfig [("beta", "10.0.0.2", 9000); ("gamma", "host-3", 8080)]%string _ _ _)).
  - discriminate.
  - repeat constructor; cbn; try lia; by apply demo_name.
  - reflexivity.
Defined.

(** The default configuration makes the program panic at an orderly end, the TCP
    transport does not. *)
Lemma shutdown_spec q t close1 close2 :
  QUIC.stopped q = false → (∀ w, close1 ≠ Panic w) →
  shutdown (inl q) close1 close2 = Panic "close of closed channel" ∧ (TCPDial.stopped t = false → shutdown (inr t) close1 close2 = Ok tt).
Proof.
  intros Hq Hc. unfold shutdown, QUIC.Stop, TCPDial.Stop. rewrite Hq. cbn. split; [done|]. intros ->. cbn.
  destruct close1; [done..|]. by destruct (Hc why).
Qed.

(** A protocol that validation accepts never leads to the [FallbackTransport]. *)
Lemma no_fallback_transport c :
  NetworkConfig.Protocol (Configuration.Config.Network c) ∈ ["quic"; "tcp"; ""]%string → NewTransport (protocol_of c) ≠ QuicThenTcp.
Proof.
  unfold protocol_of. rewrite !elem_of_cons, elem_of_nil. by intros [->|[->|[->|[]]]].
Qed.
