(* ===== verification/Monitoring.v ===== *)
(** * The counters (internal/monitoring/metrics.go)

    One record per struct; the collector is the record of them.  Counters are
    64-bit integers that wrap around.  A snapshot copies the structs, but the map
    of connection times in them is a reference to the collector's own map: what
    reads it later sees what is in it then. *)

From Stdlib Require Import Strings.String.
From S2P Require Import Prelude GoStrings.

Module SyncOperationMetrics.
Record t : Type := mk {
  TotalOperations : Z; CreateOperations : Z; UpdateOperations : Z; DeleteOperations : Z; RenameOperations : Z;
  FailedOperations : Z; LastOperationTime : time; BytesSynced : Z; FilesSynced : Z
}.
Definition zero : t := mk 0 0 0 0 0 0 zero_time 0 0.

(** 1 when the operation is of the type. *)
Definition counted (a b : string) : Z := if decide (a = b) then 1 else 0.

Definition record (now : time) (opType : string) (bytes : Z) (success : bool) (s : t) : t :=
  if success then
    mk (TotalOperations s +! 1) (CreateOperations s +! counted opType "create") (UpdateOperations s +! counted opType "update")
      (DeleteOperations s +! counted opType "delete") (RenameOperations s +! counted opType "rename") (FailedOperations s) now
      (BytesSynced s +! bytes) (FilesSynced s +! 1)
  else
    mk (TotalOperations s +! 1) (CreateOperations s) (UpdateOperations s) (DeleteOperations s) (RenameOperations s)
      (FailedOperations s +! 1) now (BytesSynced s) (FilesSynced s).
End SyncOperationMetrics.

Module NetworkMetrics.
Record t : Type := mk {
  BytesSent : Z; BytesReceived : Z; MessagesSent : Z; MessagesReceived : Z; ChunksSent : Z; ChunksReceived : Z;
  ConnectionAttempts : Z; FailedConnections : Z; ActiveConnections : Z
}.
Definition zero : t := mk 0 0 0 0 0 0 0 0 0.
Definition one (b : bool) : Z := if b then 1 else 0.

Definition traffic (sent received : Z) (n : t) : t :=
  mk (BytesSent n +! sent) (BytesReceived n +! received) (MessagesSent n) (MessagesReceived n) (ChunksSent n)
    (ChunksReceived n) (ConnectionAttempts n) (FailedConnections n) (ActiveConnections n).
Definition message (sent : bool) (n : t) : t :=
  mk (BytesSent n) (BytesReceived n) (MessagesSent n +! one sent) (MessagesReceived n +! one (negb sent)) (ChunksSent n)
    (ChunksReceived n) (ConnectionAttempts n) (FailedConnections n) (ActiveConnections n).
Definition chunk (sent : bool) (n : t) : t :=
  mk (BytesSent n) (BytesReceived n) (MessagesSent n) (MessagesReceived n) (ChunksSent n +! one sent)
    (ChunksReceived n +! one (negb sent)) (ConnectionAttempts n) (FailedConnections n) (ActiveConnections n).
Definition connection (success : bool) (n : t) : t :=
  mk (BytesSent n) (BytesReceived n) (MessagesSent n) (MessagesReceived n) (ChunksSent n) (ChunksReceived n)
    (ConnectionAttempts n +! 1) (FailedConnections n +! one (negb success)) (ActiveConnections n).
Definition active (count : Z) (n : t) : t :=
  mk (BytesSent n) (BytesReceived n) (MessagesSent n) (MessagesReceived n) (ChunksSent n) (ChunksReceived n)
    (ConnectionAttempts n) (FailedConnections n) count.
End NetworkMetrics.

Module FlowControlMetrics.
Record t : Type := mk {
  ActiveTransfers : Z; TotalTransfers : Z; QueuedTransfers : Z; BandwidthUsage : Z; PeakBandwidth : Z; ThrottledOperations : Z
}.
Definition zero : t := mk 0 0 0 0 0 0.
Definition update (active queued bandwidth : Z) (f : t) : t :=
  mk active (TotalTransfers f) queued bandwidth (if PeakBandwidth f <? bandwidth then bandwidth else PeakBandwidth f) (ThrottledOperations f).
Definition transfer (f : t) : t :=
  mk (ActiveTransfers f) (TotalTransfers f +! 1) (QueuedTransfers f) (BandwidthUsage f) (PeakBandwidth f) (ThrottledOperations f).
Definition throttle (f : t) : t :=
  mk (ActiveTransfers f) (TotalTransfers f) (QueuedTransfers f) (BandwidthUsage f) (PeakBandwidth f) (ThrottledOperations f +! 1).
End FlowControlMetrics.

Module PeerMetrics.
(** The counters; the map is the collector's. *)
Record t : Type := mk { ConnectedPeers : Z; TotalPeersDiscovered : Z; PeerDisconnects : Z; PeerReconnects : Z }.
Definition zero : t := mk 0 0 0 0.
Definition connect (p : t) : t := mk (ConnectedPeers p +! 1) (TotalPeersDiscovered p +! 1) (PeerDisconnects p) (PeerReconnects p).
Definition disconnect (p : t) : t := mk (ConnectedPeers p -! 1) (TotalPeersDiscovered p) (PeerDisconnects p +! 1) (PeerReconnects p).
End PeerMetrics.

Module ConflictMetrics.
Record t : Type := mk {
  TotalConflicts : Z; ResolvedConflicts : Z; PendingConflicts : Z; LWWResolutions : Z; ThreeWayMerges : Z; ManualResolutions : Z
}.
Definition zero : t := mk 0 0 0 0 0 0.
Definition conflict (resolutionType : string) (c : t) : t :=
  mk (TotalConflicts c +! 1) (ResolvedConflicts c) (PendingConflicts c +! 1) (LWWResolutions c +! SyncOperationMetrics.counted resolutionType "lww")
    (ThreeWayMerges c +! SyncOperationMetrics.counted resolutionType "3way") (ManualResolutions c +! SyncOperationMetrics.counted resolutionType "manual").
Definition resolution (c : t) : t :=
  mk (TotalConflicts c) (ResolvedConflicts c +! 1) (PendingConflicts c -! 1) (LWWResolutions c) (ThreeWayMerges c) (ManualResolutions c).
End ConflictMetrics.

Module ErrorMetrics.
Record t : Type := mk {
  TotalErrors : Z; NetworkErrors : Z; FileSystemErrors : Z; SyncErrors : Z; EncryptionErrors : Z; LastError : string; LastErrorTime : time
}.
Definition zero : t := mk 0 0 0 0 0 "" zero_time.
Definition record (now : time) (errorType errorMsg : string) (e : t) : t :=
  let counted := SyncOperationMetrics.counted errorType in
  mk (TotalErrors e +! 1) (NetworkErrors e +! counted "network"%string) (FileSystemErrors e +! counted "filesystem"%string)
    (SyncErrors e +! counted "sync"%string) (EncryptionErrors e +! counted "encryption"%string) errorMsg now.
End ErrorMetrics.

Module Metrics.

Record t : Type := mk {
  syncOps : SyncOperationMetrics.t; network : NetworkMetrics.t; flowControl : FlowControlMetrics.t; peers : PeerMetrics.t;
  PeerConnectTime : gmap string time; conflicts : ConflictMetrics.t; errors : ErrorMetrics.t; startTime : time
}.

Definition NewMetrics (now : time) : t :=
  mk SyncOperationMetrics.zero NetworkMetrics.zero FlowControlMetrics.zero PeerMetrics.zero ∅ ConflictMetrics.zero ErrorMetrics.zero now.

Definition with_network (f : NetworkMetrics.t → NetworkMetrics.t) (m : t) : t :=
  mk (syncOps m) (f (network m)) (flowControl m) (peers m) (PeerConnectTime m) (conflicts m) (errors m) (startTime m).
Definition with_flowControl (f : FlowControlMetrics.t → FlowControlMetrics.t) (m : t) : t :=
  mk (syncOps m) (network m) (f (flowControl m)) (peers m) (PeerConnectTime m) (conflicts m) (errors m) (startTime m).
Definition with_peers (f : PeerMetrics.t → PeerMetrics.t) (times : gmap string time → gmap string time) (m : t) : t :=
  mk (syncOps m) (network m) (flowControl m) (f (peers m)) (times (PeerConnectTime m)) (conflicts m) (errors m) (startTime m).
Definition with_conflicts (f : ConflictMetrics.t → ConflictMetrics.t) (m : t) : t :=
  mk (syncOps m) (network m) (flowControl m) (peers m) (PeerConnectTime m) (f (conflicts m)) (errors m) (startTime m).

Definition RecordSyncOperation (now : time) (opType : string) (bytes : Z) (success : bool) (m : t) : t :=
  mk (SyncOperationMetrics.record now opType bytes success (syncOps m)) (network m) (flowControl m) (peers m) (PeerConnectTime m)
    (conflicts m) (errors m) (startTime m).
Definition RecordNetworkTraffic (sent received : Z) : t → t := with_network (NetworkMetrics.traffic sent received).
Definition RecordMessage (sent : bool) : t → t := with_network (NetworkMetrics.message sent).
Definition RecordChunk (sent : bool) : t → t := with_network (NetworkMetrics.chunk sent).
Definition RecordConnection (success : bool) : t → t := with_network (NetworkMetrics.connection success).
Definition SetActiveConnections (count : Z) : t → t := with_network (NetworkMetrics.active count).
Definition UpdateFlowControl (active queued bandwidth : Z) : t → t := with_flowControl (FlowControlMetrics.update active queued bandwidth).
Definition RecordTransfer : t → t := with_flowControl FlowControlMetrics.transfer.
Definition RecordThrottle : t → t := with_flowControl FlowControlMetrics.throttle.
Definition RecordPeerConnect (now : time) (peerID : string) : t → t := with_peers PeerMetrics.connect (<[peerID := now]>).
Definition RecordPeerDisconnect (peerID : string) : t → t := with_peers PeerMetrics.disconnect (delete peerID).
Definition RecordConflict (resolutionType : string) : t → t := with_conflicts (ConflictMetrics.conflict resolutionType).
Definition RecordConflictResolution : t → t := with_conflicts ConflictMetrics.resolution.
Definition RecordError (now : time) (errorType errorMsg : string) (m : t) : t :=
  mk (syncOps m) (network m) (flowControl m) (peers m) (PeerConnectTime m) (conflicts m)
    (ErrorMetrics.record now errorType errorMsg (errors m)) (startTime m).

(** The copied part of a snapshot; its map of connection times is not copied. *)
Record snapshot : Type := Snapshot {
  SyncOperations : SyncOperationMetrics.t; Network : NetworkMetrics.t; FlowControl : FlowControlMetrics.t; Peers : PeerMetrics.t;
  Conflicts : ConflictMetrics.t; Errors : ErrorMetrics.t; Uptime : duration; Timestamp : time
}.

Definition GetSnapshot (now : time) (m : t) : snapshot :=
  Snapshot (syncOps m) (network m) (flowControl m) (peers m) (conflicts m) (errors m) (time_sub now (startTime m)) now.

(** Reading [Peers.PeerConnectTime] of a snapshot when the collector is [m]. *)
Definition snapshot_PeerConnectTime (s : snapshot) (m : t) : gmap string time := PeerConnectTime m.

(** The summary of a snapshot; the uptime in nanoseconds. *)
Definition GetSummary (s : snapshot) : list (string * Z) :=
  [("uptime", Uptime s); ("total_operations", SyncOperationMetrics.TotalOperations (SyncOperations s));
   ("files_synced", SyncOperationMetrics.FilesSynced (SyncOperations s)); ("bytes_synced", SyncOperationMetrics.BytesSynced (SyncOperations s));
   ("connected_peers", PeerMetrics.ConnectedPeers (Peers s)); ("active_transfers", FlowControlMetrics.ActiveTransfers (FlowControl s));
   ("bandwidth_usage_bps", FlowControlMetrics.BandwidthUsage (FlowControl s)); ("total_conflicts", ConflictMetrics.TotalConflicts (Conflicts s));
   ("resolved_conflicts", ConflictMetrics.ResolvedConflicts (Conflicts s)); ("total_errors", ErrorMetrics.TotalErrors (Errors s));
   ("network_bytes_sent", NetworkMetrics.BytesSent (Network s)); ("network_bytes_received", NetworkMetrics.BytesReceived (Network s))]%string.

(** ** Every way to change the collector *)
Inductive record : t → t → Prop :=
  | r_sync now ty n ok m : record m (RecordSyncOperation now ty n ok m)
  | r_traffic s r m : record m (RecordNetworkTraffic s r m)
  | r_message s m : record m (RecordMessage s m)
  | r_chunk s m : record m (RecordChunk s m)
  | r_connection ok m : record m (RecordConnection ok m)
  | r_active n m : record m (SetActiveConnections n m)
  | r_flow a q b m : record m (UpdateFlowControl a q b m)
  | r_transfer m : record m (RecordTransfer m)
  | r_throttle m : record m (RecordThrottle m)
  | r_connect now p m : record m (RecordPeerConnect now p m)
  | r_disconnect p m : record m (RecordPeerDisconnect p m)
  | r_conflict ty m : record m (RecordConflict ty m)
  | r_resolution m : record m (RecordConflictResolution m)
  | r_error now ty msg m : record m (RecordError now ty msg m).

End Metrics.
Import Metrics.

(** ** Properties *)

(** Equal as 64-bit integers. *)
Definition same64 (a b : Z) : Prop := wrap64 a = wrap64 b.

Lemma same64_mod a b : same64 a b ↔ a mod two64 = b mod two64.
Proof.
  unfold same64, wrap64. split; intros H.
  - assert ((a + two63) mod two64 = (b + two63) mod two64) as H' by lia.
    assert (∀ x, x mod two64 = ((x + two63) mod two64 - two63) mod two64) as E.
    { intros x. rewrite Zminus_mod_idemp_l. f_equal. lia. }
    by rewrite (E a), (E b), H'.
  - by rewrite <- (Zplus_mod_idemp_l a), <- (Zplus_mod_idemp_l b), H.
Qed.

Lemma wrap64_mod a : wrap64 a mod two64 = a mod two64.
Proof. unfold wrap64. rewrite Zminus_mod_idemp_l. f_equal. lia. Qed.

Record balanced (m : t) : Prop := {
  b_ops : same64 (SyncOperationMetrics.TotalOperations (syncOps m))
            (SyncOperationMetrics.FilesSynced (syncOps m) + SyncOperationMetrics.FailedOperations (syncOps m));
  b_conflicts : same64 (ConflictMetrics.TotalConflicts (conflicts m))
            (ConflictMetrics.ResolvedConflicts (conflicts m) + ConflictMetrics.PendingConflicts (conflicts m));
  b_peers : same64 (PeerMetrics.TotalPeersDiscovered (peers m))
            (PeerMetrics.ConnectedPeers (peers m) + PeerMetrics.PeerDisconnects (peers m));
  b_peak : FlowControlMetrics.BandwidthUsage (flowControl m) ≤ FlowControlMetrics.PeakBandwidth (flowControl m)
}.

Lemma record_balanced m m' : record m m' → balanced m → balanced m'.
Proof.
  assert (∀ a b c x y, same64 a (b + c) → x = y → same64 (wrap64 (a + x)) (wrap64 (b + y) + c)) as Hl.
  { intros a b c x y H ->. rewrite same64_mod in *. rewrite <- (Zplus_mod_idemp_l (wrap64 (b + y))), !wrap64_mod, Zplus_mod_idemp_l.
    rewrite <- (Zplus_mod_idemp_l a), H, Zplus_mod_idemp_l. f_equal. lia. }
  assert (∀ a b c x y, same64 a (b + c) → x = y → same64 (wrap64 (a + x)) (b + wrap64 (c + y))) as Hr.
  { intros a b c x y H E. rewrite (Z.add_comm b). apply Hl; [|done]. by rewrite Z.add_comm. }
  assert (∀ a b c, same64 a (b + c) → same64 a (wrap64 (b - 1) + wrap64 (c + 1))) as Hm.
  { intros a b c H. rewrite same64_mod in *. rewrite H, (Zplus_mod (wrap64 _)), !wrap64_mod, <- Zplus_mod. f_equal. lia. }
  intros [] [H1 H2 H3 H4]; split; cbn in *; auto.
  - unfold SyncOperationMetrics.record. destruct ok; cbn; auto.
  - zcases; lia.
  - rewrite (Z.add_comm (wrap64 _)). apply Hm. by rewrite Z.add_comm.
Qed.

(** The counters agree with each other whatever is recorded, in any order: as
    64-bit integers the operations are those that succeeded and those that
    failed, the conflicts those resolved and those pending, the peers seen those
    connected and those gone; the peak bandwidth is never below the current one. *)
Theorem counters_balanced start m : rtc record (NewMetrics start) m → balanced m.
Proof.
  intros H. assert (balanced (NewMetrics start)) as H0 by (by split). revert H0.
  induction H as [|a b c Hab _ IH]; [done|]. intros Ha. apply IH. by eapply record_balanced.
Qed.

Lemma counters_balanced_witness :
  balanced (RecordPeerDisconnect "B" (RecordPeerConnect 6 "B" (RecordSyncOperation 5 "create" 100 true (NewMetrics 1)))).
Proof.
  apply (counters_balanced 1).
  eapply rtc_l; [apply r_sync|]. eapply rtc_l; [apply r_connect|]. eapply rtc_l; [apply r_disconnect|]. apply rtc_refl.
Defined.
