(* ===== verification/StatusPage.v ===== *)
(** * The status page (internal/monitoring/server.go)

    The HTTP routes and what each answers, as a function of the collector; the
    listening socket is not modelled.  A JSON value keeps a floating-point number
    as the quotient it is computed from: [encoding/json] refuses one that is not
    finite. *)

From Stdlib Require Import Strings.String.
From S2P Require Import Prelude GoStrings Monitoring.

Module StatusPage.

Inductive value : Type :=
  | VInt (z : Z)
  | VText (s : string)
  | VTime (t : time)
  | VQuotient (num den : Z)
  | VObject (members : list (string * value)).

(** [json.NewEncoder(w).Encode] writes nothing unless the whole value can be encoded. *)
Fixpoint encodable (v : value) : bool :=
  match v with
  | VQuotient _ den => negb (den =? 0)
  | VObject members => forallb (λ m, encodable m.2) members
  | _ => true
  end.

(** Seconds, from nanoseconds. *)
Definition seconds (d : duration) : value := VQuotient d second.

(** ** The structs; [PeerConnectTime] is the collector's own map *)
Definition v_sync (s : SyncOperationMetrics.t) : value :=
  VObject [("TotalOperations", VInt (SyncOperationMetrics.TotalOperations s)); ("CreateOperations", VInt (SyncOperationMetrics.CreateOperations s));
    ("UpdateOperations", VInt (SyncOperationMetrics.UpdateOperations s)); ("DeleteOperations", VInt (SyncOperationMetrics.DeleteOperations s));
    ("RenameOperations", VInt (SyncOperationMetrics.RenameOperations s)); ("FailedOperations", VInt (SyncOperationMetrics.FailedOperations s));
    ("LastOperationTime", VTime (SyncOperationMetrics.LastOperationTime s)); ("BytesSynced", VInt (SyncOperationMetrics.BytesSynced s));
    ("FilesSynced", VInt (SyncOperationMetrics.FilesSynced s))]%string.

Definition v_network (n : NetworkMetrics.t) : value :=
  VObject [("BytesSent", VInt (NetworkMetrics.BytesSent n)); ("BytesReceived", VInt (NetworkMetrics.BytesReceived n));
    ("MessagesSent", VInt (NetworkMetrics.MessagesSent n)); ("MessagesReceived", VInt (NetworkMetrics.MessagesReceived n));
    ("ChunksSent", VInt (NetworkMetrics.ChunksSent n)); ("ChunksReceived", VInt (NetworkMetrics.ChunksReceived n));
    ("ConnectionAttempts", VInt (NetworkMetrics.ConnectionAttempts n)); ("FailedConnections", VInt (NetworkMetrics.FailedConnections n));
    ("ActiveConnections", VInt (NetworkMetrics.ActiveConnections n))]%string.

Definition v_flow (f : FlowControlMetrics.t) : value :=
  VObject [("ActiveTransfers", VInt (FlowControlMetrics.ActiveTransfers f)); ("TotalTransfers", VInt (FlowControlMetrics.TotalTransfers f));
    ("QueuedTransfers", VInt (FlowControlMetrics.QueuedTransfers f)); ("BandwidthUsage", VInt (FlowControlMetrics.BandwidthUsage f));
    ("PeakBandwidth", VInt (FlowControlMetrics.PeakBandwidth f)); ("ThrottledOperations", VInt (FlowControlMetrics.ThrottledOperations f))]%string.

Definition v_peers (p : PeerMetrics.t) (times : gmap string time) : value :=
  VObject [("ConnectedPeers", VInt (PeerMetrics.ConnectedPeers p)); ("TotalPeersDiscovered", VInt (PeerMetrics.TotalPeersDiscovered p));
    ("PeerConnectTime", VObject (prod_map id VTime <$> map_to_list times)); ("PeerDisconnects", VInt (PeerMetrics.PeerDisconnects p));
    ("PeerReconnects", VInt (PeerMetrics.PeerReconnects p))]%string.

Definition v_conflicts (c : ConflictMetrics.t) : value :=
  VObject [("TotalConflicts", VInt (ConflictMetrics.TotalConflicts c)); ("ResolvedConflicts", VInt (ConflictMetrics.ResolvedConflicts c));
    ("PendingConflicts", VInt (ConflictMetrics.PendingConflicts c)); ("LWWResolutions", VInt (ConflictMetrics.LWWResolutions c));
    ("ThreeWayMerges", VInt (ConflictMetrics.ThreeWayMerges c)); ("ManualResolutions", VInt (ConflictMetrics.ManualResolutions c))]%string.

Definition v_errors (e : ErrorMetrics.t) : value :=
  VObject [("TotalErrors", VInt (ErrorMetrics.TotalErrors e)); ("NetworkErrors", VInt (ErrorMetrics.NetworkErrors e));
    ("FileSystemErrors", VInt (ErrorMetrics.FileSystemErrors e)); ("SyncErrors", VInt (ErrorMetrics.SyncErrors e));
    ("EncryptionErrors", VInt (ErrorMetrics.EncryptionErrors e)); ("LastError", VText (ErrorMetrics.LastError e));
    ("LastErrorTime", VTime (ErrorMetrics.LastErrorTime e))]%string.

Definition v_snapshot (s : Metrics.snapshot) (m : Metrics.t) : value :=
  VObject [("SyncOperations", v_sync (Metrics.SyncOperations s)); ("Network", v_network (Metrics.Network s));
    ("FlowControl", v_flow (Metrics.FlowControl s)); ("Peers", v_peers (Metrics.Peers s) (Metrics.snapshot_PeerConnectTime s m));
    ("Conflicts", v_conflicts (Metrics.Conflicts s)); ("Errors", v_errors (Metrics.Errors s));
    ("Uptime", VInt (Metrics.Uptime s)); ("Timestamp", VTime (Metrics.Timestamp s))]%string.

(** The summary, its uptime in seconds under its own name. *)
Definition v_summary (s : Metrics.snapshot) : value :=
  VObject (("uptime_seconds"%string, seconds (Metrics.Uptime s)) :: (prod_map id VInt <$> tail (Metrics.GetSummary s))).

Definition v_health (s : Metrics.snapshot) : value :=
  VObject [("status", VText "healthy"); ("uptime_seconds", seconds (Metrics.Uptime s));
    ("connected_peers", VInt (PeerMetrics.ConnectedPeers (Metrics.Peers s)));
    ("active_transfers", VInt (FlowControlMetrics.ActiveTransfers (Metrics.FlowControl s)));
    ("pending_conflicts", VInt (ConflictMetrics.PendingConflicts (Metrics.Conflicts s)));
    ("error_rate", VQuotient (ErrorMetrics.TotalErrors (Metrics.Errors s) * second) (Metrics.Uptime s))]%string.

(** ** The routes *)

Inductive response : Type := Json (v : value) | ServerError | NotFound.

Definition encode (v : value) : response := if encodable v then Json v else ServerError.

Definition handleMetrics (now : time) (m : Metrics.t) : response := encode (v_snapshot (Metrics.GetSnapshot now m) m).
Definition handleSummary (now : time) (m : Metrics.t) : response := encode (v_summary (Metrics.GetSnapshot now m)).
Definition handleSyncMetrics (m : Metrics.t) : response := encode (v_sync (Metrics.syncOps m)).
Definition handleNetworkMetrics (m : Metrics.t) : response := encode (v_network (Metrics.network m)).
Definition handlePeerMetrics (m : Metrics.t) : response := encode (v_peers (Metrics.peers m) (Metrics.PeerConnectTime m)).
Definition handleConflictMetrics (m : Metrics.t) : response := encode (v_conflicts (Metrics.conflicts m)).
Definition handleErrorMetrics (m : Metrics.t) : response := encode (v_errors (Metrics.errors m)).
Definition handleHealth (now : time) (m : Metrics.t) : response := encode (v_health (Metrics.GetSnapshot now m)).

(** The patterns end in no slash: each matches its own path only. *)
Definition serve (now : time) (path : string) (m : Metrics.t) : response :=
  if decide (path = "/metrics"%string) then handleMetrics now m
  else if decide (path = "/metrics/summary"%string) then handleSummary now m
  else if decide (path = "/metrics/sync"%string) then handleSyncMetrics m
  else if decide (path = "/metrics/network"%string) then handleNetworkMetrics m
  else if decide (path = "/metrics/peers"%string) then handlePeerMetrics m
  else if decide (path = "/metrics/conflicts"%string) then handleConflictMetrics m
  else if decide (path = "/metrics/errors"%string) then handleErrorMetrics m
  else if decide (path = "/health"%string) then handleHealth now m
  else NotFound.

Definition routes : list string :=
  ["/metrics"; "/metrics/summary"; "/metrics/sync"; "/metrics/network"; "/metrics/peers"; "/metrics/conflicts"; "/metrics/errors"; "/health"]%string.

End StatusPage.

Import StatusPage.

Lemma times_encodable (times : list (string * time)) : forallb (λ m, encodable m.2) (prod_map id VTime <$> times) = true.
Proof. by induction times as [|[p t] times IH]. Qed.

(** Every route answers with JSON, except the health check of a collector that
    has no uptime yet: it divides by it. *)
Lemma serve_spec now path m :
  match serve now path m with
  | Json _ => path ∈ routes ∧ (path = "/health"%string → time_sub now (Metrics.startTime m) ≠ 0)
  | ServerError => path = "/health"%string ∧ time_sub now (Metrics.startTime m) = 0
  | NotFound => path ∉ routes
  end.
Proof.
  set (ok := λ r, match r with Json _ => path ∈ routes ∧ (path = "/health"%string → time_sub now (Metrics.startTime m) ≠ 0)
    | ServerError => path = "/health"%string ∧ time_sub now (Metrics.startTime m) = 0 | NotFound => path ∉ routes end).
  change (ok (serve now path m)).
  assert (∀ p v, p ∈ routes → p ≠ "/health"%string → encodable v = true → path = p → ok (encode v)) as H.
  { intros p v Hp Hh Hv ->. unfold encode. by rewrite Hv. }
  assert (∀ l : list (string * time), encodable (VObject (prod_map id VTime <$> l)) = true) as Ht by apply times_encodable.
  unfold serve. cbv zeta. do 7 (destruct (decide _) as [Hp|?]; [refine (H _ _ _ _ _ Hp); [unfold routes; set_solver|discriminate|]; cbn in Ht |- *; by rewrite ?Ht|]).
  destruct (decide _) as [Hp|Hp].
  - unfold handleHealth, encode. cbn [encodable v_health forallb snd seconds Metrics.Uptime Metrics.GetSnapshot]. destruct (Z.eqb_spec (time_sub now (Metrics.startTime m)) 0) as [E|E].
    + rewrite !andb_false_r. by split.
    + split; [rewrite Hp; unfold routes; set_solver|done].
  - unfold ok, routes. set_solver.
Qed.
