(* ===== verification/Telemetry.v ===== *)
(** * Logging and telemetry (internal/observability)

    What the program asks of zap and OpenTelemetry.  The libraries are parameters:
    what building a logger, an exporter or an instrument gives. *)

From Stdlib Require Import Strings.String.
From S2P Require Import Prelude GoStrings.

(** ** logger.go *)
Module Logger.

Inductive Level : Type := DebugLevel | InfoLevel | WarnLevel | ErrorLevel.

(** Any other name is "info". *)
Definition level_of (level : string) : Level :=
  if decide (level = "debug"%string) then DebugLevel
  else if decide (level = "info"%string) then InfoLevel
  else if decide (level = "warn"%string) then WarnLevel
  else if decide (level = "error"%string) then ErrorLevel
  else InfoLevel.

(** A logger and the fields that every line of it carries, the oldest first. *)
Record t (Z : Type) : Type := mk { zap : Z; fields : list (string * string) }.
Arguments mk {_}.
Arguments zap {_}.
Arguments fields {_}.

Section Logger.
Context {Zap : Type} (Build : Level → outcome Zap).

Definition NewLogger (level : string) : outcome (t Zap) :=
  logger ← Build (level_of level); Ok (mk logger []).

Definition With (key value : string) (l : t Zap) : t Zap := mk (zap l) (fields l ++ [(key, value)]).
Definition WithPeerID : string → t Zap → t Zap := With "peer_id".
Definition WithOperationID : string → t Zap → t Zap := With "operation_id".
Definition WithTraceID : string → t Zap → t Zap := With "trace_id".
End Logger.
End Logger.

(** ** metrics.go *)
Module Instruments.

Inductive kind : Type := Int64Counter | Float64Histogram | Int64UpDownCounter | Float64Gauge | Int64Gauge.
Record t : Type := mk { Kind : kind; Name : string; Description : string; Unit : option string }.

(** In the order in which they are made, which is that of the struct's fields. *)
Definition sync : list t :=
  [mk Int64Counter "sync_operations_total" "Total operations processed" None;
   mk Float64Histogram "sync_operation_duration" "Operation processing time in seconds" (Some "s");
   mk Int64Counter "sync_file_transfer_bytes" "Bytes transferred per file" (Some "By");
   mk Int64UpDownCounter "sync_active_transfers" "Currently active file transfers" None]%string.
Definition compression : list t :=
  [mk Int64Counter "compression_files_compressed" "Total files compressed" None;
   mk Int64Counter "compression_bytes_saved" "Total bytes saved through compression" (Some "By");
   mk Float64Histogram "compression_ratio" "Compression ratio (compressed/original)" None;
   mk Float64Histogram "compression_operation_duration" "Time spent compressing/decompressing in seconds" (Some "s")]%string.
Definition balancing : list t :=
  [mk Int64Counter "sync_file_requests_total" "Total file requests made by new peers" None;
   mk Float64Histogram "sync_files_per_peer" "Number of files requested from each peer" None;
   mk Float64Gauge "sync_load_balance_efficiency" "Load distribution efficiency (0-1)" None]%string.
Definition network : list t :=
  [mk Int64UpDownCounter "network_connections_active" "Active peer connections" None;
   mk Float64Histogram "network_message_latency" "End-to-end message latency in seconds" (Some "s");
   mk Int64Counter "network_chunk_retransmissions" "Chunk retransmission count" None]%string.
Definition resource : list t :=
  [mk Int64Gauge "resource_memory_usage" "Memory usage in bytes" (Some "By");
   mk Float64Gauge "resource_cpu_usage" "CPU usage percentage" (Some "%");
   mk Int64Gauge "resource_disk_usage" "Disk space usage in bytes" (Some "By");
   mk Int64Gauge "resource_bandwidth_usage" "Network bandwidth usage in bytes per second" (Some "By/s")]%string.
Definition errors : list t :=
  [mk Int64Counter "error_operation_failures" "Failed operations by type" None;
   mk Int64Counter "error_network_timeouts" "Network timeout errors" None;
   mk Int64Counter "error_corruption_detected" "Data corruption incidents" None]%string.
Definition all : list t := sync ++ compression ++ balancing ++ network ++ resource ++ errors.

Section Meter.
Context {I : Type} (make : t → outcome I).

Fixpoint make_all (l : list t) : outcome (list I) :=
  match l with
  | [] => Ok []
  | i :: rest => x ← make i; xs ← make_all rest; Ok (x :: xs)
  end.

(** [Metrics], its fields in order; the first error is returned. *)
Definition NewMetrics : outcome (list I) := make_all all.
End Meter.
End Instruments.

(** ** Providers ([InitMetricsProvider], [InitTracing]) *)
Module Provider.

Section Init.
(** A provider without an exporter, and one with it. *)
Context {Exporter Resource P : Type} (newExporter : string → outcome Exporter) (newResource : string → outcome Resource).
Context (noop : P) (provider : Resource → Exporter → P).

(** The provider, whether the shutdown does anything, and the provider installed
    for the process: the old one when nothing is exported. *)
Definition Init (endpoint serviceName : string) (global : P) : outcome (P * bool) * P :=
  if is_empty endpoint then (Ok (noop, false), global)
  else match newExporter endpoint with
       | Err e => (Err e, global)
       | Panic w => (Panic w, global)
       | Ok exporter =>
           match newResource serviceName with
           | Err e => (Err e, global)
           | Panic w => (Panic w, global)
           | Ok resource => let p := provider resource exporter in (Ok (p, true), p)
           end
       end.
End Init.

(** The two differ in the libraries they are given. *)
Definition InitMetricsProvider {Exporter Resource P : Type} := @Init Exporter Resource P.
Definition InitTracing {Exporter Resource P : Type} := @Init Exporter Resource P.
End Provider.

(** ** What holds *)

(** No instrument is made twice. *)
Lemma instrument_names_distinct : NoDup (Instruments.Name <$> Instruments.all).
Proof. apply (bool_decide_unpack _). by vm_compute. Qed.

Lemma make_all_Ok {I} (make : Instruments.t → outcome I) l xs :
  Instruments.make_all make l = Ok xs ↔ Forall2 (λ i x, make i = Ok x) l xs.
Proof.
  revert xs. induction l as [|i l IH]; intros xs; cbn.
  - split; [intros [= <-]; constructor|by intros ->%Forall2_nil_inv_l].
  - destruct (make i) as [x|?|?] eqn:E; cbn; [|by split; [|intros (? & ? & ? & ? & ?)%Forall2_cons_inv_l; congruence]..].
    destruct (Instruments.make_all make l) as [ys|?|?] eqn:E'; cbn;
      [|by split; [|intros (? & ? & _ & Hr & ->)%Forall2_cons_inv_l; apply IH in Hr]..].
    split; [intros [= <-]; constructor; [done|by apply IH]|].
    intros (x' & ys' & Hx & Hr & ->)%Forall2_cons_inv_l. apply IH in Hr. congruence.
Qed.

(** The metrics are made exactly when each instrument can be, each in its field. *)
Lemma NewMetrics_Ok {I} (make : Instruments.t → outcome I) xs :
  Instruments.NewMetrics make = Ok xs ↔ Forall2 (λ i x, make i = Ok x) Instruments.all xs.
Proof. apply make_all_Ok. Qed.

(** Every name of a level gives a logger if the library can build one at all. *)
Lemma NewLogger_total {Z} (build : Logger.Level → outcome Z) level :
  (∀ l, is_ok (build l) = true) → is_ok (Logger.NewLogger build level) = true.
Proof. intros H. unfold Logger.NewLogger. specialize (H (Logger.level_of level)). by destruct (build _). Qed.

(** Without an endpoint nothing is exported and the process keeps its provider. *)
Lemma Init_without_endpoint {E R P} newE newR (noop : P) (provider : R → E → P) service global :
  Provider.Init newE newR noop provider "" service global = (Ok (noop, false), global).
Proof. done. Qed.
