(* ===== verification/Startup.v ===== *)
(** * The program from start to end (cmd/p2p-sync/main.go)

    [main] as one computation over the parts it makes: which transport each part
    holds, what was opened, what is deferred and what has been closed.  What the
    libraries and the operating system answer is in [surroundings].  A call of
    [logger.Fatal] or [os.Exit] is an error of [start]: the process ends there,
    and nothing that was deferred runs. *)

From Stdlib Require Import Strings.Byte Strings.Ascii Strings.String.
From S2P Require Import Prelude GoStrings GoPath Json Messages Database Filesystem Operation Compression Configuration Connection Transport Dialing Discovery Engine Lifecycle Handler Telemetry Program.

Definition AppName : string := "p2p-sync".

#[export] Instance transport_kind_eq_dec : EqDecision transport_kind.
Proof. solve_decision. Defined.

(** ** A transport as main sees it *)
Module Endpoint.

Record t : Type := mk {
  kind : transport_kind; port : Z; has_manager : bool; peerID : string; has_handler : bool;
  (** The transport that listens: of a fallback transport, one of its two. *)
  listening : option transport_kind
}.

Definition NewTransport (protocol : string) (port : Z) : t := mk (Dialing.NewTransport protocol) port false "" false None.

(** The fallback transport has no such method, and the type assertion skips it. *)
Definition SetConnectionManager (e : t) : outcome t :=
  Ok (mk (kind e) (port e) (negb (bool_decide (kind e = QuicThenTcp))) (peerID e) (has_handler e) (listening e)).

(** The fallback transport passes it on to the transport that listens. *)
Definition SetPeerID (id : string) (e : t) : outcome t :=
  match kind e, listening e with
  | QuicThenTcp, None => Panic "nil pointer dereference"
  | _, _ => Ok (mk (kind e) (port e) (has_manager e) id (has_handler e) (listening e))
  end.

Definition SetMessageHandler (e : t) : outcome t :=
  Ok (mk (kind e) (port e) (has_manager e) (peerID e) true (listening e)).

Definition listens (k : transport_kind) (e : t) : t :=
  mk (kind e) (port e) (has_manager e) (peerID e) (has_handler e) (Some k).

(** [quic] and [tcp] are the answers of the two when asked to listen. *)
Definition Start (quic tcp : outcome unit) (e : t) : outcome t :=
  match kind e with
  | QuicOnly => (λ _, listens QuicOnly e) <$> quic
  | TcpOnly => (λ _, listens TcpOnly e) <$> tcp
  | QuicThenTcp =>
      match quic with
      | Err _ => (λ _, listens TcpOnly e) <$> wrapping "both QUIC and TCP transports failed to start" tcp
      | _ => (λ _, listens QuicOnly e) <$> quic
      end
  end.

End Endpoint.

(** ** The process *)
Module Process.

(** What main opens and closes; transports by the order in which they are made. *)
Inductive service : Type := Logger | Database | Metrics | Tracing | Discovery | Heartbeats | Transport (n : nat) | Engine | RootContext.
#[export] Instance service_eq_dec : EqDecision service.
Proof. solve_decision. Defined.

Record t : Type := mk {
  disk : OS.t; transports : list Endpoint.t;
  (** The transports in the fields of the handler, the heartbeats and the messenger. *)
  handler : option nat; heartbeats : option nat; messenger : option nat;
  (** [heartbeatManager] and [syncEngine] of the handler. *)
  handler_heartbeats : bool; handler_engine : bool;
  engine : option Lifecycle.t;
  opened : list service; deferred : list service; closed : list service;
  (** The calls of [ConnectToPeer] that were started. *)
  dialled : list (string * string * Z)
}.

Definition New (disk : OS.t) : t := mk disk [] None None None false false None [] [] [] [].

Definition with_disk (x : OS.t) (p : t) : t :=
  mk x (transports p) (handler p) (heartbeats p) (messenger p) (handler_heartbeats p) (handler_engine p) (engine p) (opened p) (deferred p) (closed p) (dialled p).
Definition with_transports (x : list Endpoint.t) (p : t) : t :=
  mk (disk p) x (handler p) (heartbeats p) (messenger p) (handler_heartbeats p) (handler_engine p) (engine p) (opened p) (deferred p) (closed p) (dialled p).
Definition with_handler (x : nat) (p : t) : t :=
  mk (disk p) (transports p) (Some x) (heartbeats p) (messenger p) (handler_heartbeats p) (handler_engine p) (engine p) (opened p) (deferred p) (closed p) (dialled p).
Definition with_heartbeats (x : nat) (p : t) : t :=
  mk (disk p) (transports p) (handler p) (Some x) (messenger p) (handler_heartbeats p) (handler_engine p) (engine p) (opened p) (deferred p) (closed p) (dialled p).
Definition with_messenger (x : nat) (p : t) : t :=
  mk (disk p) (transports p) (handler p) (heartbeats p) (Some x) (handler_heartbeats p) (handler_engine p) (engine p) (opened p) (deferred p) (closed p) (dialled p).
Definition SetHeartbeatManager (p : t) : t :=
  mk (disk p) (transports p) (handler p) (heartbeats p) (messenger p) true (handler_engine p) (engine p) (opened p) (deferred p) (closed p) (dialled p).
Definition SetSyncEngine (p : t) : t :=
  mk (disk p) (transports p) (handler p) (heartbeats p) (messenger p) (handler_heartbeats p) true (engine p) (opened p) (deferred p) (closed p) (dialled p).
Definition with_engine (x : Lifecycle.t) (p : t) : t :=
  mk (disk p) (transports p) (handler p) (heartbeats p) (messenger p) (handler_heartbeats p) (handler_engine p) (Some x) (opened p) (deferred p) (closed p) (dialled p).
Definition opens (s : service) (p : t) : t :=
  mk (disk p) (transports p) (handler p) (heartbeats p) (messenger p) (handler_heartbeats p) (handler_engine p) (engine p) (opened p ++ [s]) (deferred p) (closed p) (dialled p).
(** The call deferred last runs first. *)
Definition defers (s : service) (p : t) : t :=
  mk (disk p) (transports p) (handler p) (heartbeats p) (messenger p) (handler_heartbeats p) (handler_engine p) (engine p) (opened p) (s :: deferred p) (closed p) (dialled p).
Definition closes (s : service) (p : t) : t :=
  mk (disk p) (transports p) (handler p) (heartbeats p) (messenger p) (handler_heartbeats p) (handler_engine p) (engine p) (opened p) (deferred p) (closed p ++ [s]) (dialled p).
Definition dials (x : list (string * string * Z)) (p : t) : t :=
  mk (disk p) (transports p) (handler p) (heartbeats p) (messenger p) (handler_heartbeats p) (handler_engine p) (engine p) (opened p) (deferred p) (closed p) (dialled p ++ x).

(** A method of transport [n]. *)
Definition on_transport (n : nat) (f : Endpoint.t → outcome Endpoint.t) : GoM t unit := λ p,
  match transports p !! n with
  | None => (Panic "nil pointer dereference", p)
  | Some e => match f e with
              | Ok e => (Ok tt, with_transports (<[n := e]> (transports p)) p)
              | Err e => (Err e, p)
              | Panic w => (Panic w, p)
              end
  end.

End Process.

Section Main.
Import Process.
Abbreviation Config := Configuration.Config.t.

Context (L : libraries) (yaml : bytes → Config → outcome Config).
Context (getenv : string → string) (flag : string) (hostname : outcome string) (now : time).

(** The answers to main's calls; of telemetry, whether the exporter and the
    resource could be made, and the instruments. *)
Record surroundings : Type := Surroundings {
  build_logger : Logger.Level → outcome unit; new_db : string → outcome DB.t;
  new_exporter : string → outcome unit; new_resource : string → outcome unit; make_instrument : Instruments.t → outcome unit;
  discovery_starts : outcome unit; quic_listens : outcome unit; tcp_listens : outcome unit;
  (** The registry and the connection table when main looks through them. *)
  registry : Registry.t; table : ConnectionManager.t;
  watcher_made : outcome unit; folder_watched : outcome unit
}.
Context (w : surroundings).

(** The flag, or else the variable. *)
Definition config_path : string := if is_empty flag then getenv "P2P_CONFIG_PATH"%string else flag.

Definition fatal {A} (why : string) (m : outcome A) : GoM t A := glift (wrapping why m).

Definition load : GoM t Config := λ p,
  let '(r, d) := Configuration.Config.LoadConfig yaml now getenv config_path (disk p) in
  (wrapping "Failed to load configuration" r, with_disk d p).

Definition acquire (s : service) : GoM t unit := gmodify (λ p, defers s (opens s p)).

Definition metrics_provider (endpoint : string) : outcome (unit * bool) :=
  (Provider.InitMetricsProvider (new_exporter w) (new_resource w) tt (λ _ _, tt) endpoint AppName tt).1.
Definition tracer (endpoint : string) : outcome (unit * bool) :=
  (Provider.InitTracing (new_exporter w) (new_resource w) tt (λ _ _, tt) endpoint AppName tt).1.

(** Up to the tracing. *)
Definition start_storage : GoM t (Config * DB.t) :=
  cfg ← load;
  let o := Configuration.Config.Observability cfg in
  fatal "Failed to initialize logger" (Logger.NewLogger (build_logger w) (ObservabilityConfig.LogLevel o));;
  acquire Logger;;
  db ← fatal "Failed to initialize database" (new_db w (Configuration.Config.GetDBPath cfg));
  acquire Database;;
  (if ObservabilityConfig.MetricsEnabled o then
     fatal "Failed to initialize metrics provider" (metrics_provider (ObservabilityConfig.OTELendpoint o));;
     acquire Metrics;;
     fatal "Failed to initialize metrics" (Instruments.NewMetrics (make_instrument w));;
     mret tt
   else mret tt);;
  (if ObservabilityConfig.TracingEnabled o then
     fatal "Failed to initialize tracing" (tracer (ObservabilityConfig.OTELendpoint o));; acquire Tracing
   else mret tt);;
  mret (cfg, db).

(** A new transport with the connection manager and the identifier set. *)
Definition new_transport (protocol : string) (cfg : Config) (id : string) : GoM t nat := λ p,
  let n := length (transports p) in
  (on_transport n Endpoint.SetConnectionManager;;
   on_transport n (Endpoint.SetPeerID id);;
   mret n) (with_transports (transports p ++ [Endpoint.NewTransport protocol (NetworkConfig.Port (Configuration.Config.Network cfg))]) p).

(** [networkTransport] afterwards: nothing else is told about the new one. *)
Definition start_listening (cfg : Config) (id : string) (n : nat) : GoM t nat :=
  let start k := on_transport k (Endpoint.Start (quic_listens w) (tcp_listens w)) in
  r ← gtry (start n);
  match r with
  | inl _ => mret n
  | inr e =>
      if decide (protocol_of cfg = "quic"%string) then
        n' ← new_transport "tcp" cfg id;
        on_transport n' Endpoint.SetMessageHandler;;
        gwrap "Failed to start TCP fallback transport" (start n');;
        mret n'
      else gfail (wrap "Failed to start network transport" e)
  end.

(** From the discovery to the handlers of the transport. *)
Definition prepare_network (cfg : Config) (id : string) : GoM t nat :=
  fatal "Failed to start UDP discovery" (discovery_starts w);;
  acquire Discovery;;
  n ← new_transport (protocol_of cfg) cfg id;
  gmodify (with_handler n);;
  gmodify (λ p, opens Heartbeats (with_heartbeats n p));;
  gmodify SetHeartbeatManager;;
  fatal "Failed to create network messenger" (NewNetworkMessenger L cfg);;
  on_transport n Endpoint.SetMessageHandler;;
  on_transport n Endpoint.SetConnectionManager;;
  on_transport n (Endpoint.SetPeerID id);;
  gmodify (with_messenger n);;
  on_transport n Endpoint.SetMessageHandler;;
  mret n.

Definition start_network (cfg : Config) (id : string) : GoM t nat :=
  n ← prepare_network cfg id;
  current ← start_listening cfg id n;
  acquire (Transport current);;
  mret current.

(** The peers found before the callback was registered. *)
Definition known_peers (id : string) : list (string * string * Z) :=
  (λ i, (PeerInfo.PeerID i, PeerInfo.Address i, PeerInfo.Port i)) <$>
  List.filter (λ i, connects id (Notification (PeerInfo.PeerID i) (PeerInfo.Address i) (PeerInfo.Port i) None "") (table w))
    (Registry.GetAllPeers (registry w)).

(** The log is replayed before the folder is watched. *)
Definition run_engine (e : Engine.t) : GoM t unit := λ p,
  match wrapping "failed to add folder to watcher" (folder_watched w) with
  | Ok _ => (Ok tt, with_engine (Lifecycle.Start e) (opens Engine p))
  | r => (r, with_engine (Lifecycle.mk (Engine.Start e).2 false false [] []) p)
  end.

(** The engine is set in the handler after the transport has been started. *)
Definition start_engine (cfg : Config) (db : DB.t) (id : string) : GoM t unit :=
  gmodify (dials (known_peers id));;
  fatal "Failed to create sync engine" (wrapping "failed to create watcher" (watcher_made w));;
  p ← gget;
  let e := Engine.NewEngine (SyncConfig.FolderPath (Configuration.Config.Sync cfg)) (Configuration.Config.ResolutionStrategy cfg)
             id true db (disk p) in
  gmodify (λ p, SetSyncEngine (with_engine (Lifecycle.mk e false false [] []) p));;
  gmodify (defers RootContext);;
  gwrap "Failed to start sync engine" (run_engine e);;
  gmodify (dials (configured_peers getenv cfg)).

Definition start : GoM t nat :=
  '(cfg, db) ← start_storage;
  let id := peer_id getenv hostname now in
  current ← start_network cfg id;
  start_engine cfg db id;;
  mret current.

(** ** The end *)

(** Whether the service's [Stop] closes its channel without asking whether it is closed. *)
Definition stops_once (s : service) (p : t) : bool :=
  match s with
  | Discovery | Heartbeats => true
  | Transport n => match transports p !! n with Some e => bool_decide (Endpoint.listening e = Some QuicOnly) | None => false end
  | _ => false
  end.

(** Errors of the calls are logged. *)
Definition close (s : service) : GoM t unit := λ p,
  if bool_decide (s ∈ closed p) && stops_once s p then (Panic "close of closed channel", p)
  else (Ok tt, closes s match s, engine p with Engine, Some l => with_engine (Lifecycle.Stop l) p | _, _ => p end).

(** A panic does not keep the other deferred calls from running. *)
Fixpoint run_deferred (l : list service) : GoM t unit := λ p,
  match l with
  | [] => (Ok tt, p)
  | s :: rest =>
      let '(r, p) := close s p in
      let '(r', p) := run_deferred rest p in
      (match r' with Panic w => Panic w | _ => r end, p)
  end.

(** After the signal, [networkTransport] being [current]. *)
Definition finish (current : nat) : GoM t unit :=
  close Heartbeats;; close (Transport current);; close Engine.

Definition main : GoM t unit := λ p,
  match start p with
  | (Err e, p) => (Err e, p)
  | (Panic x, p) => (Panic x, (run_deferred (deferred p) p).2)
  | (Ok current, p) =>
      let '(r, p) := finish current p in
      let '(r', p) := run_deferred (deferred p) p in
      (match r with Ok _ => r' | _ => r end, p)
  end.

End Main.

(** ** Properties *)

Import Process.

(** The services whose [Stop] may be called again. *)
Definition patient (s : service) : bool := match s with Logger | Database | Metrics | Tracing => true | _ => false end.

(** A process before the network is started, with [rest] deferred. *)
Definition stored (d : OS.t) (rest : list service) : t := mk d [] None None None false false None (reverse rest) rest [] [].

(** A process whose transports do not listen yet. *)
Definition prepared (d : OS.t) (rest : list service) (es : list Endpoint.t) : t :=
  mk d es (Some 0%nat) (Some 0%nat) (Some 0%nat) true false None (reverse rest ++ [Discovery; Heartbeats]) (Discovery :: rest) [] [].

(** After it, with the transports [es]. *)
Definition networked (d : OS.t) (rest : list service) (n : nat) (es : list Endpoint.t) : t :=
  mk d es (Some 0%nat) (Some 0%nat) (Some 0%nat) true false None (reverse rest ++ [Discovery; Heartbeats; Transport n])
    ([Transport n; Discovery] ++ rest) [] [].

(** After [start]. *)
Definition running (d : OS.t) (rest : list service) (n : nat) (es : list Endpoint.t) (l : Lifecycle.t) (dl : list (string * string * Z)) : t :=
  mk d es (Some 0%nat) (Some 0%nat) (Some 0%nat) true true (Some l) (reverse rest ++ [Discovery; Heartbeats; Transport n; Engine])
    ([RootContext; Transport n; Discovery] ++ rest) [] dl.

(** The transport main keeps: ready, and the one the parts have unless QUIC could not listen. *)
Definition wired (id : string) (n : nat) (es : list Endpoint.t) : Prop :=
  ∃ e0 e, es !! 0%nat = Some e0 ∧ es !! n = Some e ∧
    Endpoint.has_manager e = true ∧ Endpoint.has_handler e = true ∧ Endpoint.peerID e = id ∧
    Endpoint.listening e = Some (Endpoint.kind e) ∧ Endpoint.kind e ≠ QuicThenTcp ∧
    (n = 0%nat ∨ n = 1%nat ∧ Endpoint.kind e0 = QuicOnly ∧ Endpoint.listening e0 = None ∧ Endpoint.kind e = TcpOnly).

Definition untouched (p : t) : Prop := closed p = [].

Section Start.
Context (L : libraries) (yaml : bytes → Configuration.Config.t → outcome Configuration.Config.t).
Context (getenv : string → string) (flag : string) (hostname : outcome string) (now : time) (w : surroundings).

(** The next call, which succeeds, with the process it leaves. *)
Ltac process_simpl :=
  cbv beta zeta; unfold with_transports, with_messenger, with_heartbeats, with_handler, SetHeartbeatManager, opens, defers;
  cbn [disk transports handler heartbeats messenger handler_heartbeats handler_engine engine opened deferred closed dialled].
Ltac step := erewrite gbind_Ok; [|cbn; process_simpl; reflexivity].

Lemma triple_fatal {A} why (m : outcome A) (P : t → Prop) :
  (∀ p, P p → untouched p) → triple P (fatal why m) (λ _, P) untouched untouched.
Proof. intros H p Hp. unfold fatal, glift. destruct m; cbn; auto. Qed.

(** What is opened is deferred. *)
Definition storage (p : t) : Prop := ∃ d rest, Forall (λ s, patient s = true) rest ∧ p = stored d rest.

Lemma storage_untouched p : storage p → untouched p.
Proof. by intros (d & rest & _ & ->). Qed.
Hint Resolve storage_untouched : go.

Lemma acquire_storage s : patient s = true → triple storage (acquire s) (λ _, storage) untouched untouched.
Proof.
  intros Hs p (d & rest & Hr & ->). exists d, (s :: rest). split; [by constructor|].
  unfold stored. by rewrite (reverse_cons rest s).
Qed.

Lemma load_storage : triple storage (load yaml getenv flag now) (λ _, storage) untouched untouched.
Proof.
  intros p (d & rest & Hr & ->). unfold load. cbn. destruct (Configuration.Config.LoadConfig _ _ _ _ d) as [[c|e|x] d']; cbn; [|done..].
  by exists d', rest.
Qed.

Lemma start_storage_spec : triple storage (start_storage yaml getenv flag now w) (λ _, storage) untouched untouched.
Proof.
  unfold start_storage. eapply triple_bind; [apply load_storage|]. intros cfg.
  eapply triple_bind; [apply triple_fatal; auto with go|]. intros ?.
  eapply triple_seq; [by apply acquire_storage|].
  eapply triple_bind; [apply triple_fatal; auto with go|]. intros db.
  eapply triple_seq; [by apply acquire_storage|].
  assert (triple storage (mret tt) (λ _ : (), storage) untouched untouched) as Hret by apply (triple_ret tt (λ _, storage)).
  eapply triple_seq.
  { destruct (ObservabilityConfig.MetricsEnabled _); [|done].
    eapply triple_bind; [apply triple_fatal; auto with go|]. intros ?.
    eapply triple_seq; [by apply acquire_storage|].
    eapply triple_bind; [apply triple_fatal; auto with go|]. intros ?. done. }
  eapply triple_seq.
  { destruct (ObservabilityConfig.TracingEnabled _); [|done].
    eapply triple_bind; [apply triple_fatal; auto with go|]. intros ?. by apply acquire_storage. }
  apply (triple_ret (cfg, db) (λ _, storage)).
Qed.

Lemma on_transport_last es e f p :
  on_transport (length es) f (with_transports (es ++ [e]) p) =
  match f e with
  | Ok e => (Ok tt, with_transports (es ++ [e]) p)
  | Err e' => (Err e', with_transports (es ++ [e]) p)
  | Panic x => (Panic x, with_transports (es ++ [e]) p)
  end.
Proof.
  unfold on_transport. cbn [transports with_transports]. rewrite lookup_app_r, Nat.sub_diag by lia. cbn.
  destruct (f e); [|done..]. by rewrite insert_app_r_alt, Nat.sub_diag by lia.
Qed.

Lemma new_transport_eq protocol cfg id p :
  Dialing.NewTransport protocol ≠ QuicThenTcp →
  new_transport protocol cfg id p =
  (Ok (length (transports p)), with_transports (transports p ++ [Endpoint.mk (Dialing.NewTransport protocol)
     (NetworkConfig.Port (Configuration.Config.Network cfg)) true id false None]) p).
Proof.
  intros Hk. unfold new_transport, mbind, gom_bind. rewrite on_transport_last. cbn. rewrite on_transport_last.
  by destruct (Dialing.NewTransport protocol).
Qed.

Lemma new_transport_panics protocol cfg id p :
  Dialing.NewTransport protocol = QuicThenTcp → ∃ p', new_transport protocol cfg id p = (Panic "nil pointer dereference", p') ∧ closed p' = closed p.
Proof.
  intros Hk. unfold new_transport, mbind, gom_bind, Endpoint.NewTransport. rewrite Hk, on_transport_last. cbn. rewrite on_transport_last. by eexists.
Qed.

Definition ready (k : transport_kind) (port : Z) (id : string) : Endpoint.t := Endpoint.mk k port true id true None.

(** A transport of another kind than QUIC or TCP does not survive [SetPeerID]. *)
Lemma prepare_network_spec cfg id :
  triple storage (prepare_network L w cfg id)
    (λ n p, n = 0%nat ∧ Dialing.NewTransport (protocol_of cfg) ≠ QuicThenTcp ∧ ∃ d rest, Forall (λ s, patient s = true) rest ∧
       p = prepared d rest [ready (Dialing.NewTransport (protocol_of cfg)) (NetworkConfig.Port (Configuration.Config.Network cfg)) id])
    untouched untouched.
Proof.
  intros p (d & rest & Hr & ->). unfold prepare_network, fatal, stored.
  destruct (discovery_starts w); [|done..]. do 2 step.
  destruct (decide (Dialing.NewTransport (protocol_of cfg) = QuicThenTcp)) as [Ek|Ek].
  - unfold mbind at 1, gom_bind at 1.
    match goal with |- context [new_transport _ _ _ ?p] => destruct (new_transport_panics (protocol_of cfg) cfg id p Ek) as (p' & E & Hc) end.
    by rewrite E.
  - erewrite gbind_Ok by by apply new_transport_eq. cbn [transports length]. unfold with_transports at 1.
    cbn [app disk transports handler heartbeats messenger handler_heartbeats handler_engine engine opened deferred closed dialled].
    do 3 step. destruct (NewNetworkMessenger L cfg); [|done..]. step.
    destruct (Dialing.NewTransport (protocol_of cfg)) eqn:E; [..|done].
    + do 5 step. split; [done|]. split; [done|]. exists d, rest. split; [done|]. unfold prepared. by rewrite <- app_assoc.
    + do 5 step. split; [done|]. split; [done|]. exists d, rest. split; [done|]. unfold prepared. by rewrite <- app_assoc.
Qed.

Lemma start_listening_spec cfg id d rest :
  let k := Dialing.NewTransport (protocol_of cfg) in
  let port := NetworkConfig.Port (Configuration.Config.Network cfg) in
  k ≠ QuicThenTcp →
  triple (λ p, p = prepared d rest [ready k port id]) (start_listening w cfg id 0)
    (λ n p, ∃ es, p = prepared d rest es ∧ wired id n es) untouched untouched.
Proof.
  intros k port Hk p ->. unfold start_listening. 
  assert (k = QuicOnly ↔ protocol_of cfg = "quic"%string) as Hq.
  { unfold k, Dialing.NewTransport. repeat case_decide; split; congruence. }
  assert (gtry (on_transport 0 (Endpoint.Start (quic_listens w) (tcp_listens w))) (prepared d rest [ready k port id]) =
    match Endpoint.Start (quic_listens w) (tcp_listens w) (ready k port id) with
    | Ok e => (Ok (inl tt), prepared d rest [e])
    | Err e => (Ok (inr e), prepared d rest [ready k port id])
    | Panic x => (Panic x, prepared d rest [ready k port id])
    end) as Ht by (unfold gtry, on_transport; cbn; by destruct (Endpoint.Start _ _ _)).
  unfold mbind at 1, gom_bind at 1. rewrite Ht. clear Ht. unfold Endpoint.Start at 1. cbn [Endpoint.kind ready]. destruct k; [..|done].
  - destruct (quic_listens w) as [a|e|x] eqn:El; cbn [fmap outcome_fmap]; [eexists; split; [reflexivity|]; eexists _, _; split_and!; try done; by left| |done].
    rewrite decide_True by by apply Hq. erewrite gbind_Ok by by apply new_transport_eq. unfold prepared. process_simpl. step.
    unfold gwrap, on_transport, mbind, gom_bind. cbn. destruct (tcp_listens w); cbn; [|done..].
    eexists. split; [reflexivity|]. eexists _, _. split_and!; try done. by right.
  - destruct (tcp_listens w) as [a|e|x] eqn:El; cbn [fmap outcome_fmap]; [eexists; split; [reflexivity|]; eexists _, _; split_and!; try done; by left| |done].
    rewrite decide_False; [done|]. intros E. by apply Hq in E.
Qed.

Lemma start_network_spec cfg id :
  triple storage (start_network L w cfg id) (λ n p, ∃ d rest es, Forall (λ s, patient s = true) rest ∧
    p = networked d rest n es ∧ wired id n es) untouched untouched.
Proof.
  unfold start_network. eapply triple_bind; [apply prepare_network_spec|]. intros n p (-> & Hk & d & rest & Hr & ->).
  pose proof (start_listening_spec cfg id d rest Hk _ eq_refl) as H. unfold mbind at 1, gom_bind at 1.
  destruct (start_listening _ _ _ _ _) as [[n|e|x] p']; [|done..]. destruct H as (es & -> & Hw).
  exists d, rest, es. split; [done|]. split; [|done]. unfold networked, prepared. cbn. process_simpl. by rewrite <- app_assoc.
Qed.

Lemma start_engine_spec cfg db id n :
  triple (λ p, ∃ d rest es, Forall (λ s, patient s = true) rest ∧ p = networked d rest n es ∧ wired id n es) (start_engine getenv w cfg db id)
    (λ _ p, ∃ d rest es l dl, Forall (λ s, patient s = true) rest ∧ p = running d rest n es l dl ∧ wired id n es) untouched untouched.
Proof.
  intros p (d & rest & es & Hr & -> & Hw). unfold start_engine, fatal, networked. step.
  destruct (watcher_made w); [|done..]. do 4 step. unfold gwrap, run_engine, mbind, gom_bind.
  destruct (folder_watched w); [|done..]. cbn. exists d, rest, es. eexists _, _. split; [done|]. split; [|done].
  unfold running. process_simpl. by rewrite <- app_assoc.
Qed.

Lemma start_spec :
  triple (λ p, ∃ d, p = New d) (start L yaml getenv flag hostname now w)
    (λ n p, ∃ d rest es l dl, Forall (λ s, patient s = true) rest ∧ p = running d rest n es l dl ∧
       wired (peer_id getenv hostname now) n es) untouched untouched.
Proof.
  unfold start. eapply triple_bind.
  { eapply triple_weaken; [apply start_storage_spec| |by intros ? ? H; exact H|done..]. intros p (d & ->). by exists d, []. }
  intros [cfg db]. eapply triple_bind; [apply start_network_spec|]. intros n.
  eapply triple_seq; [apply start_engine_spec|]. by intros p H.
Qed.

(** ** The end *)

Lemma run_deferred_patient rest p :
  Forall (λ s, patient s = true) rest →
  ∃ p', run_deferred rest p = (Ok tt, p') ∧ closed p' = closed p ++ rest ∧ engine p' = engine p.
Proof.
  intros H. revert p. induction H as [|s rest Hs _ IH]; intros p; [exists p; by rewrite app_nil_r|].
  cbn [run_deferred]. destruct (IH (closes s p)) as (p' & E & Hc & He). exists p'.
  assert (close s p = (Ok tt, closes s p)) as -> by (unfold close; destruct s; try done; by rewrite andb_false_r).
  rewrite E. split; [done|]. rewrite Hc, He. cbn. by rewrite <- app_assoc.
Qed.

Ltac not_closed := cbn; rewrite ?not_elem_of_cons; split_and?; try done; apply not_elem_of_nil.

Lemma close_fresh s p : s ∉ closed p → s ≠ Engine → close s p = (Ok tt, closes s p).
Proof. intros H Hs. unfold close. rewrite bool_decide_eq_false_2 by done. by destruct s. Qed.

(** The end of a running process: what is closed, in order. *)
Lemma finish_spec d rest n es l dl e :
  Forall (λ s, patient s = true) rest → es !! n = Some e → Endpoint.listening e = Some (Endpoint.kind e) →
  let p := running d rest n es l dl in
  ∃ q q', finish n p = (Ok tt, q) ∧
    run_deferred (deferred q) q = (if decide (Endpoint.kind e = QuicOnly) then Panic "close of closed channel" else Ok tt, q') ∧
    engine q' = Some (Lifecycle.Stop l) ∧
    closed q' = [Heartbeats; Transport n; Engine; RootContext] ++ (if decide (Endpoint.kind e = QuicOnly) then [] else [Transport n]) ++ Discovery :: rest.
Proof.
  intros Hr He Hl p.
  assert (finish n p = (Ok tt, closes Engine (with_engine (Lifecycle.Stop l) (closes (Transport n) (closes Heartbeats p))))) as E.
  { unfold finish. erewrite gbind_Ok by (apply close_fresh; [not_closed|done]).
    erewrite gbind_Ok by (apply close_fresh; [not_closed|done]).
    unfold close. by rewrite bool_decide_eq_false_2 by not_closed. }
  rewrite E. clear E. set (q := closes Engine _). exists q.
  change (deferred q) with (RootContext :: Transport n :: Discovery :: rest). destruct (run_deferred_patient rest (closes Discovery (if decide (Endpoint.kind e = QuicOnly) then closes RootContext q
    else closes (Transport n) (closes RootContext q))) Hr) as (q' & Hd & Hc & Hq). exists q'. split; [done|].
  cbn [run_deferred]. rewrite (close_fresh RootContext q) by (not_closed || done).
  assert (close (Transport n) (closes RootContext q) = if decide (Endpoint.kind e = QuicOnly)
    then (Panic "close of closed channel", closes RootContext q) else (Ok tt, closes (Transport n) (closes RootContext q))) as ->.
  { unfold close. rewrite bool_decide_eq_true_2 by (cbn; set_solver). cbn [stops_once transports closes q p with_engine running andb].
    rewrite He, Hl. destruct (decide (Endpoint.kind e = QuicOnly)) as [->|Hk]; [done|].
    rewrite bool_decide_eq_false_2; [done|]. by intros [=]. }
  destruct (decide (Endpoint.kind e = QuicOnly)) as [Hk|Hk]; (rewrite close_fresh by (not_closed || done)); rewrite Hd; done.
Qed.

(** C28: The parts of a running program hold one transport, but for one case, and
    everything it opened is closed in the end.  [start] either ends the process
    with nothing closed, or leaves a transport that listens, with the connection
    table, the identifier and the message handler set, and an engine the handler
    knows.  The messenger, the handler and the heartbeats hold the transport that
    was made first; it is the one that listens, unless QUIC could not listen and
    TCP could: then they keep a QUIC transport that does not.  In the end every
    service opened is closed, the engine is stopped, and the process dies of a
    channel closed twice exactly when QUIC was used. *)
Theorem program_runs d :
  let id := peer_id getenv hostname now in
  let '(r, q) := main L yaml getenv flag hostname now w (New d) in
  match start L yaml getenv flag hostname now w (New d) with
  | (Ok n, p) =>
      (∃ e0 e, transports p !! 0%nat = Some e0 ∧ transports p !! n = Some e ∧
         handler p = Some 0%nat ∧ messenger p = Some 0%nat ∧ heartbeats p = Some 0%nat ∧ handler_heartbeats p = true ∧ handler_engine p = true ∧
         Endpoint.has_manager e = true ∧ Endpoint.has_handler e = true ∧ Endpoint.peerID e = id ∧
         Endpoint.listening e = Some (Endpoint.kind e) ∧
         (n = 0%nat ∨ n = 1%nat ∧ Endpoint.kind e0 = QuicOnly ∧ Endpoint.listening e0 = None ∧ Endpoint.kind e = TcpOnly) ∧
         r = if decide (Endpoint.kind e = QuicOnly) then Panic "close of closed channel" else Ok tt) ∧
      (∀ s, s ∈ opened p → s ∈ closed q) ∧
      ∃ l, engine q = Some l ∧ Lifecycle.stopped l = true
  | (Err e, p) => r = Err e ∧ q = p ∧ closed q = []
  | (Panic x, p) => r = Panic x ∧ closed p = []
  end.
Proof.
  pose proof (start_spec (New d) (ex_intro _ d eq_refl)) as H. unfold main.
  destruct (start _ _ _ _ _ _ _ _) as [[n|e|x] p]; [|done..].
  destruct H as (d' & rest & es & l & dl & Hr & -> & e0 & e & H0 & He & Hm & Hh & Hid & Hl & _ & Hn).
  destruct (finish_spec d' rest n es l dl e Hr He Hl) as (q & q' & -> & -> & Hq & Hc). split; [|split].
  - exists e0, e. split_and!; done.
  - intros s Hs. rewrite Hc. cbn [opened running] in Hs. rewrite elem_of_app, elem_of_reverse in Hs.
    rewrite !elem_of_cons, elem_of_nil in Hs. rewrite !elem_of_app, !elem_of_cons. tauto.
  - eexists. split; [done|]. unfold Lifecycle.Stop. by destruct (Lifecycle.stopped l) eqn:E.
Qed.
End Start.

(** ** The cases happen *)

Definition demo_surroundings (quic tcp : outcome unit) : surroundings :=
  Surroundings (λ _, Ok tt) (λ _, Ok DB.initSchema) (λ _, Ok tt) (λ _, Ok tt) (λ _, Ok tt) (Ok tt) quic tcp
    Registry.NewRegistry ConnectionManager.NewConnectionManager (Ok tt) (Ok tt).

Definition demo_program {A}
    (f : libraries → (bytes → Configuration.Config.t → outcome Configuration.Config.t) → (string → string) → string → outcome string → time →
         surroundings → GoM t A) (protocol : string) (quic tcp : outcome unit) : outcome A * t :=
  f demo_libraries (λ _ c, Ok c) (λ name, if decide (name = "P2P_PROTOCOL"%string) then protocol else demo_env name) ""%string
    (Ok "host"%string) 5 (demo_surroundings quic tcp) (New (OS.mk ∅ [])).

Example program_cases :
  (demo_program start "quic" (Ok tt) (Ok tt)).1 = Ok 0%nat ∧
  (demo_program start "quic" (Err "in use") (Ok tt)).1 = Ok 1%nat ∧
  (demo_program start "tcp" (Err "in use") (Ok tt)).1 = Ok 0%nat ∧
  (demo_program main "quic" (Ok tt) (Ok tt)).1 = Panic "close of closed channel" ∧
  (demo_program main "quic" (Err "in use") (Ok tt)).1 = Ok tt ∧
  is_ok (demo_program main "tcp" (Ok tt) (Err "in use")).1 = false.
Proof. split_and!; vm_compute; reflexivity. Qed.
