(* ===== verification/Loops.v ===== *)
(** * The loops around sockets and tickers

    The goroutines that wait: for connections and streams (tcp.go, quic.go), for a
    tick (heartbeat.go, manager.go, handshake.go, chunking/manager.go,
    rate_limiter.go), for mDNS entries (mdns.go).  Every loop is a [select] in a
    [for]; it gets the list of what its rounds find and returns at the stop
    channel.  What happens in a round is in the file of the component. *)

From Stdlib Require Import Strings.Byte Strings.String.
From S2P Require Import Prelude GoStrings Json Messages Chunking ChunkingProps Connection Encryption Transport Dialing FlowControl Discovery Handshake.

(** ** Connections and streams *)
Module Accepting.

(** What a round finds: the stop channel closed, or else the answer of the call that blocks. *)
Inductive round (A : Type) : Type := Stop | Answer (r : outcome A).
Arguments Stop {A}.
Arguments Answer {A} r.

(** The connections given to goroutines, in order, and whether the loop has
    returned.  An error, a timeout or not, is followed by the next round. *)
Fixpoint accept {A} (rounds : list (round A)) : list A * bool :=
  match rounds with
  | [] => ([], false)
  | Stop :: _ => ([], true)
  | Answer (Ok conn) :: rest => let '(conns, returned) := accept rest in (conn :: conns, returned)
  | Answer _ :: rest => accept rest
  end.

Definition TCP_accept : list (round nat) → list nat * bool := accept.
Definition QUIC_accept : list (round nat) → list nat * bool := accept.

(** [handleConnection] of quic.go: the streams of a connection, up to the first error. *)
Fixpoint handleConnection {A} (rounds : list (round A)) : list A * bool :=
  match rounds with
  | [] => ([], false)
  | Answer (Ok stream) :: rest => let '(streams, returned) := handleConnection rest in (stream :: streams, returned)
  | _ :: _ => ([], true)
  end.

(** How a stream stands: still read, done with, or the program dead. *)
Inductive status : Type := Reading | Done | Dead (why : string).

Section Stream.
Context (sha256 : bytes → bytes) (hkdf_sha256 : bytes → bytes → bytes → Z → outcome bytes).
(** The handler set on the transport, if any, and its state. *)
Context {H : Type} (HandleMessage : option (time → Message.t → GoM H unit)).
Context (number : nat) (remoteAddr : string).

(** A message decoded at a time, and whether the answer can be written. *)
Record arrival : Type := Arrival { now : time; msg : Message.t; written : outcome unit }.

Definition handled (a : arrival) : GoM H unit :=
  match HandleMessage with Some f => f (now a) (msg a) | None => mret tt end.

(** [handleStream]: what it writes, how it stands, the transport and the handler. *)
Fixpoint handleStream (rounds : list (round arrival)) (q : QUIC.t) (h : H) : list Message.t * status * QUIC.t * H :=
  match rounds with
  | [] => ([], Reading, q, h)
  | Answer (Ok a) :: rest =>
      match QUIC.on_stream_message sha256 hkdf_sha256 (now a) (msg a) number remoteAddr q with
      | (QUIC.ReplyAndClose m, q) => ([m], Done, q, h)
      | (QUIC.Crash why, q) => ([], Dead why, q, h)
      | (QUIC.ToHandler m, q) =>
          match handled a h with
          | (Panic why, h) => ([], Dead why, q, h)
          | (r, h) =>
              let out := option_list (QUIC.answer (now a) m r) in
              if is_ok r && negb (is_ok (written a)) then (out, Done, q, h)
              else let '(out', st, q, h) := handleStream rest q h in (out ++ out', st, q, h)
          end
      end
  | _ :: _ => ([], Done, q, h)
  end.

(** ** What holds *)

(** Connections accepted before the stop are handled, each once and in order,
    whatever errors come in between. *)
Lemma accept_spec {A} (answers : list (outcome A)) rest :
  accept (map Answer answers ++ Stop :: rest) = (omap (λ r, match r with Ok c => Some c | _ => None end) answers, true).
Proof. induction answers as [|[c|e|x] answers IH]; cbn; [done|by rewrite IH|done..]. Qed.

(** A message that is not a handshake with a sender. *)
Definition ordinary (m : Message.t) : Prop := Message.Type_ m ≠ TypeHandshake ∨ Message.SenderID m = ""%string.

Lemma on_stream_ordinary n m q : ordinary m → QUIC.on_stream_message sha256 hkdf_sha256 n m number remoteAddr q = (QUIC.ToHandler m, q).
Proof.
  unfold QUIC.on_stream_message. intros [Hm|Hm]; [by rewrite bool_decide_eq_false_2|]. by rewrite Hm, andb_false_r.
Qed.

(** The handler's runs on [l], one after the other, errors dropped. *)
Fixpoint handle_all (l : list arrival) (h : H) : list (outcome unit) * H :=
  match l with
  | [] => ([], h)
  | a :: rest => let '(r, h) := handled a h in let '(rs, h) := handle_all rest h in (r :: rs, h)
  end.

Definition answers (l : list arrival) (rs : list (outcome unit)) : list Message.t :=
  concat (zip_with (λ a r, option_list (QUIC.answer (now a) (msg a) r)) l rs).

(** Messages that come on one stream reach the handler each once, in order, and
    each is answered by one acknowledgment that names it, also after an error. *)
Lemma handleStream_ordinary l rest q h :
  Forall (λ a, ordinary (msg a) ∧ is_ok (written a) = true) l →
  Forall (λ r, ∀ x, r ≠ Panic x) (handle_all l h).1 →
  handleStream (map (λ a, Answer (Ok a)) l ++ rest) q h =
  let '(rs, h') := handle_all l h in
  let '(out, st, q, h'') := handleStream rest q h' in (answers l rs ++ out, st, q, h'').
Proof.
  intros Hl. revert h. induction Hl as [|a l [Ha Hw] _ IH]; intros h Hr; cbn [map app handle_all].
  { by destruct (handleStream rest q h) as [[[? ?] ?] ?]. }
  cbn [handleStream]. rewrite on_stream_ordinary by done. cbn [handle_all] in Hr.
  destruct (handled a h) as [r h1]. specialize (IH h1).
  destruct (handle_all l h1) as [rs h2]. cbn [fst] in *. apply Forall_cons in Hr as [Hr Hrs]. specialize (IH Hrs).
  destruct (handleStream rest q h2) as [[[out st] q'] h3]. unfold answers in *. cbn [zip_with concat].
  destruct r as [?|?|x]; cbn [is_ok andb]; [rewrite Hw| |by destruct (Hr x)]; cbn [negb]; rewrite IH; by rewrite <- app_assoc.
Qed.

(** After a handshake the stream is not read again. *)
Lemma handleStream_handshake a rest q h :
  Message.Type_ (msg a) = TypeHandshake → Message.SenderID (msg a) ≠ ""%string →
  handleStream (Answer (Ok a) :: rest) q h = handleStream [Answer (Ok a)] q h.
Proof.
  intros Ht Hs. cbn. unfold QUIC.on_stream_message. rewrite Ht, bool_decide_eq_true_2 by done.
  destruct (Message.SenderID (msg a)); [done|]. cbn. by destruct (QUIC.set_key _ _ _ _).
Qed.
End Stream.
End Accepting.

(** ** Tickers *)
Module Tickers.

(** What a round finds: the stop channel closed, or a tick. *)
Inductive round : Type := Stop | Tick (now : time).

Fixpoint loop {S} (work : time → S → S) (rounds : list round) (s : S) : S :=
  match rounds with
  | [] | Stop :: _ => s
  | Tick now :: rest => loop work rest (work now s)
  end.

(** The times at which the work is done: those before the stop. *)
Fixpoint ticks (rounds : list round) : list time :=
  match rounds with
  | [] | Stop :: _ => []
  | Tick now :: rest => now :: ticks rest
  end.

(** [SendMessage] may answer differently at every tick. *)
Definition sendHeartbeats (self : string) (SendMessage : time → string → string → Z → Message.t → outcome unit) :
    list round → ConnectionManager.t → ConnectionManager.t :=
  loop (λ now, HeartbeatManager.sendHeartbeatToAllPeers now self (SendMessage now)).

(** Without a configuration it returns at once. *)
Definition monitorConnections (HeartbeatInterval : option Z) (rounds : list round) (cm : ConnectionManager.t) : ConnectionManager.t * list string :=
  match HeartbeatInterval with
  | None => (cm, [])
  | Some _ =>
      loop (λ now s, let '(cm, retries) := ConnectionManager.checkConnectionHealth HeartbeatInterval now s.1 in (cm, s.2 ++ retries)) rounds (cm, [])
  end.

Definition refillTokens : list round → RateLimiter.t → RateLimiter.t := loop RateLimiter.refill.

Definition rotateKeys : list round → HandshakeManager.t → HandshakeManager.t := loop HandshakeManager.cleanupExpiredSessions.

Lemma loop_ticks {S} (work : time → S → S) rounds s : loop work rounds s = foldl (λ s now, work now s) s (ticks rounds).
Proof. revert s. induction rounds as [|[|now] rounds IH]; intros s; cbn; done. Qed.

Lemma loop_preserves {S} (I : S → Prop) (work : time → S → S) rounds s :
  I s → (∀ now s, now ∈ ticks rounds → I s → I (work now s)) → I (loop work rounds s).
Proof.
  revert s. induction rounds as [|[|now] rounds IH]; intros s Hs Hw; cbn in *; [done..|]. apply IH; [apply Hw; set_solver|].
  intros now' s' H. apply Hw. set_solver.
Qed.

(** No table of connections is ever monitored without a configuration. *)
Lemma not_monitored rounds cm : monitorConnections None rounds cm = (cm, []).
Proof. done. Qed.

(** Rotation takes no session away that is still valid at the last tick. *)
Lemma rotateKeys_keeps rounds later peerID hm :
  Forall (λ now, now ≤ later) (ticks rounds) →
  is_ok (HandshakeManager.GetSessionKey later peerID (rotateKeys rounds hm)) = is_ok (HandshakeManager.GetSessionKey later peerID hm).
Proof.
  intros H. unfold rotateKeys.
  apply (loop_preserves (λ hm', is_ok (HandshakeManager.GetSessionKey later peerID hm') = is_ok (HandshakeManager.GetSessionKey later peerID hm))); [done|].
  intros now s Hn <-. rewrite Forall_forall in H. by apply cleanup_keeps_valid, H.
Qed.
End Tickers.

(** ** Discovery *)
Module DiscoveryLoops.

(** *** udp.go *)
Record udp : Type := UDP { service : UDPDiscovery.t; conn : bool; running : bool; stopped : bool }.

(** The options of the socket, as far as they are set: the error of the first
    that cannot be, unless [Control] itself fails. *)
Definition socket_options (control reuse_addr reuse_port broadcast : outcome unit) : outcome unit :=
  control;; reuse_addr;; reuse_port;; broadcast.

(** [is_udp]: the type assertion on the socket that [ListenPacket] gives. *)
Definition Start (resolve listen : outcome unit) (is_udp : bool) (u : udp) : outcome unit * udp :=
  match (wrapping "failed to resolve UDP address" resolve;; wrapping "failed to listen on UDP" listen) with
  | Ok _ => if is_udp then (Ok tt, UDP (service u) true true (stopped u))
            else (Err "failed to convert PacketConn to UDPConn", UDP (service u) false (running u) (stopped u))
  | Err e => (Err e, u)
  | Panic x => (Panic x, u)
  end.

Definition Stop (close : outcome unit) (u : udp) : outcome unit * udp :=
  if stopped u then (Panic "close of closed channel", u)
  else (if conn u then close else Ok tt, UDP (service u) (conn u) (running u) true).

(** [listen]: a datagram or an error of the socket in every round. *)
Inductive round : Type := Stopped | Failed | Received (now : time) (data : option json) (source : string).

Fixpoint listen (rounds : list round) (u : UDPDiscovery.t) : UDPDiscovery.t :=
  match rounds with
  | [] | Stopped :: _ => u
  | Failed :: rest => listen rest u
  | Received now data source :: rest => listen rest (UDPDiscovery.listen now data source u)
  end.

(** *** mdns.go *)
Record mdns : Type := MDNS { found : MDNSDiscovery.t; server : bool; resolver : bool; browsing : bool; mdns_stopped : bool }.

(** [registered] and [resolving] are the answers of the library; without a
    resolver the server is shut down again, though it stays in its field. *)
Definition mdns_Start (capabilities : gmap string json) (registered resolving : outcome unit) (m : mdns) : outcome (list string) * mdns :=
  match MDNSDiscovery.txtRecords capabilities (found m) with
  | Ok txt =>
      match wrapping "failed to register mDNS service" registered with
      | Ok _ =>
          match wrapping "failed to create mDNS resolver" resolving with
          | Ok _ => (Ok txt, MDNS (found m) true true true (mdns_stopped m))
          | Err e => (Err e, MDNS (found m) true (resolver m) (browsing m) (mdns_stopped m))
          | Panic x => (Panic x, m)
          end
      | Err e => (Err e, m)
      | Panic x => (Panic x, m)
      end
  | Err e => (Err e, m)
  | Panic x => (Panic x, m)
  end.

(** The second component says whether the server is shut down. *)
Definition mdns_Stop (m : mdns) : outcome unit * bool * mdns :=
  if mdns_stopped m then (Panic "close of closed channel", false, m)
  else (Ok tt, server m, MDNS (found m) (server m) (resolver m) (browsing m) true).

(** A round of [browseServices]: the stop channel, or an entry; a closed channel gives nil. *)
Inductive browse_round : Type := Quit | Entry (now : time) (entry : option MDNSDiscovery.ServiceEntry).

Fixpoint browse (rounds : list browse_round) (m : MDNSDiscovery.t) : outcome MDNSDiscovery.t :=
  match rounds with
  | [] | Quit :: _ => Ok m
  | Entry _ None :: _ => Panic "nil pointer dereference"
  | Entry now (Some entry) :: rest => m ← MDNSDiscovery.handleServiceEntry now entry m; browse rest m
  end.

Definition browseServices (browsed : outcome unit) (rounds : list browse_round) (m : MDNSDiscovery.t) : outcome MDNSDiscovery.t :=
  match browsed with Ok _ => browse rounds m | _ => Ok m end.

(** Errors of the socket do not keep the loop from what comes after them. *)
Lemma listen_skips_errors rounds u : listen rounds u = listen (List.filter (λ r, match r with Failed => false | _ => true end) rounds) u.
Proof. revert u. induction rounds as [|[| |]] ; intros u; cbn; done. Qed.

(** Stopping twice ends the program, and so does an entry channel that is closed
    before the loop has seen the stop. *)
Lemma stopping_discovery close u m txt :
  (stopped u = false → (Stop close (Stop close u).2).1 = Panic "close of closed channel") ∧
  (mdns_stopped m = false → (mdns_Stop (mdns_Stop m).2).1.1 = Panic "close of closed channel") ∧
  browse [Entry txt None; Quit] (found m) = Panic "nil pointer dereference" ∧ browse [Quit; Entry txt None] (found m) = Ok (found m).
Proof. split_and!; [| |done..]; unfold Stop, mdns_Stop; by intros ->. Qed.

(** The channel of discovered peers holds ten; further ones are dropped. *)
Lemma browse_bounded rounds m m' :
  browse rounds m = Ok m' → (length (MDNSDiscovery.foundPeers m) ≤ MDNSDiscovery.foundPeers_capacity)%nat →
  (length (MDNSDiscovery.foundPeers m') ≤ MDNSDiscovery.foundPeers_capacity)%nat.
Proof.
  revert m. induction rounds as [|[|now [e|]] rounds IH]; intros m; cbn [browse]; [by intros [= <-]..| |done].
  destruct (MDNSDiscovery.handleServiceEntry now e m) as [m1|?|?] eqn:E; [|done..]. cbn. intros H Hm. apply (IH m1 H).
  unfold MDNSDiscovery.handleServiceEntry in E. case_decide; [by simplify_eq|].
  destruct (foldl _ _ _) as [[? ?] ?], (MDNSDiscovery.AddrIPv4 e); [done|]. simplify_eq.
  destruct (Nat.ltb_spec (length (MDNSDiscovery.foundPeers m)) MDNSDiscovery.foundPeers_capacity); cbn; [rewrite length_app; cbn|]; lia.
Qed.
End DiscoveryLoops.

(** ** Waiting for the last chunk (chunking/buffer.go) *)
Module Waiting.

(** [timer]: the timer is taken, should both be ready; [None] while neither is. *)
Definition WaitForCompletion (timer : bool) (cb : ChunkBuffer.t) : option (outcome unit) * ChunkBuffer.t :=
  if timer then (Some (Err "timeout waiting for chunks"), cb)
  else if ChunkBuffer.completeCh cb then
    (Some (Ok tt), ChunkBuffer.mk (ChunkBuffer.fileID cb) (ChunkBuffer.totalChunks cb) (ChunkBuffer.chunks cb) (ChunkBuffer.received cb)
                     (ChunkBuffer.lastReceived cb) (ChunkBuffer.complete cb) false)
  else (None, cb).

(** The channel holds one value: of two that wait for a complete buffer, the
    second waits until its time is over. *)
Lemma second_wait cb :
  ChunkBuffer.completeCh cb = true →
  let '(r, cb') := WaitForCompletion false cb in
  r = Some (Ok tt) ∧ ChunkBuffer.IsComplete cb' = ChunkBuffer.IsComplete cb ∧
  (WaitForCompletion false cb').1 = None ∧ (WaitForCompletion true cb').1 = Some (Err "timeout waiting for chunks").
Proof. intros H. unfold WaitForCompletion at 1. by rewrite H. Qed.
End Waiting.
