(* ===== verification/DeliveryProps.v ===== *)
(** * Properties of chunked delivery and of sending with retries

    The handler's reassembly of the chunks of one file, and the attempts the
    messenger makes for one message. *)

From Stdlib Require Import Strings.Byte Strings.String.
From S2P Require Import Prelude GoStrings Json Clock Hashing Chunking ChunkingProps Database Operation Messages Compression Encryption Connection Transport Engine EngineProps Handler Messenger MessengerProps.

(** ** Chunks at the handler *)
Import Messenger Handler.

Section Chunks.
Context (blake3 : bytes → bytes) (L : libraries).
Abbreviation H := (Hashing.HashString blake3).
Abbreviation handle := (Handler.HandleMessage blake3 L).

(** A chunk as it is forwarded to the handler. *)
Definition chunk_msg (fileHash : string) (msg : Message.t) (c : Chunk.t) : Message.t :=
  with_payload (PPointer (BChunk (chunk_message fileHash c))) msg.

Lemma chunk_of_message fileHash c : chunk_of_payload (chunk_message fileHash c) = Chunk.with_FileHash "" c.
Proof. done. Qed.

Lemma HandleMessage_chunk now msg : Message.Type_ msg = TypeChunk → handle now msg = handleChunk blake3 L now msg.
Proof. intros E. unfold Handler.HandleMessage. rewrite E. done. Qed.

Lemma VerifyChunkHash_good c : Chunk.Hash c = H (Chunk.Data c) → VerifyChunkHash H (Chunk.with_FileHash "" c) = Ok tt.
Proof. intros E. unfold VerifyChunkHash. cbn. rewrite bool_decide_eq_false_2; [done|]. rewrite E. by intros []. Qed.

(** A good chunk that is not the last to come. *)
Lemma handleChunk_pending now msg fileHash c h :
  Message.Type_ msg = TypeChunk → Chunk.Hash c = H (Chunk.Data c) →
  zlen (received_chunks (Chunk.FileID c) h) + 1 ≠ Chunk.TotalChunks c →
  handle now (chunk_msg fileHash msg c) h =
  sendAcknowledgment now (chunk_msg fileHash msg c) true "" (add_chunk (Chunk.with_FileHash "" c) h).
Proof.
  intros Hty Hh Hn. rewrite HandleMessage_chunk by done. unfold handleChunk.
  cbn [chunk_msg with_payload Message.Payload]. rewrite chunk_of_message, VerifyChunkHash_good by done.
  unfold or_reject, gtry, glift, mbind, gom_bind. cbn [gmodify]. cbv beta zeta.
  assert (zlen (received_chunks (ChunkMessage.FileID (chunk_message fileHash c)) (add_chunk (Chunk.with_FileHash "" c) h))
    =? ChunkMessage.TotalChunks (chunk_message fileHash c) = false) as ->; [|done].
  apply Z.eqb_neq. unfold received_chunks, add_chunk at 1. cbn. rewrite lookup_insert_eq. cbn.
  rewrite length_app. cbn. unfold received_chunks in *. lia.
Qed.

(** The chunk that makes the file complete. *)
Lemma handleChunk_complete now msg fileHash c h e op data fileData :
  Message.Type_ msg = TypeChunk → Chunk.Hash c = H (Chunk.Data c) →
  zlen (received_chunks (Chunk.FileID c) h) + 1 = Chunk.TotalChunks c →
  AssembleChunks H (received_chunks (Chunk.FileID c) h ++ [Chunk.with_FileHash "" c]) fileHash = Ok data →
  chunkMetadata h !! Chunk.FileID c = Some op → syncEngine h = Some e →
  let op' := SyncOperation.with_content (SyncOperation.FromPath op) (SyncOperation.Checksum op) (zlen data) op in
  file_data L op' data = Ok fileData →
  handle now (chunk_msg fileHash msg c) h =
  sendAcknowledgment now (chunk_msg fileHash msg c) true ""
    (with_syncEngine (Some (handed now fileData op' e)) (forget_file (Chunk.FileID c) (add_chunk (Chunk.with_FileHash "" c) h))).
Proof.
  intros Hty Hh Hn Ha Hmeta He op' Hf. rewrite HandleMessage_chunk by done. unfold handleChunk.
  cbn [chunk_msg with_payload Message.Payload]. rewrite chunk_of_message, VerifyChunkHash_good by done.
  unfold or_reject, gtry, glift, mbind, gom_bind. cbn [gmodify]. cbv beta zeta.
  assert (received_chunks (ChunkMessage.FileID (chunk_message fileHash c)) (add_chunk (Chunk.with_FileHash "" c) h)
    = received_chunks (Chunk.FileID c) h ++ [Chunk.with_FileHash "" c]) as ->.
  { unfold received_chunks at 1, add_chunk. cbn. by rewrite lookup_insert_eq. }
  assert (zlen (received_chunks (Chunk.FileID c) h ++ [Chunk.with_FileHash "" c]) =?
    ChunkMessage.TotalChunks (chunk_message fileHash c) = true) as ->.
  { apply Z.eqb_eq. rewrite length_app. cbn. lia. }
  change (ChunkMessage.FileHash (chunk_message fileHash c)) with fileHash. rewrite Ha.
  change (chunkMetadata (add_chunk _ h) !! ChunkMessage.FileID (chunk_message fileHash c)) with (chunkMetadata h !! Chunk.FileID c).
  rewrite Hmeta. cbn [assembled_op]. fold op'. rewrite Hf.
  by rewrite (on_engine_file now fileData op' _ e).
Qed.

(** Chunks arriving one after another, each in an envelope of its own. *)
Abbreviation arrival := (time * Message.t * Chunk.t)%type.

Definition deliver (fileHash : string) (arrivals : list arrival) (h : Handler.t) : Handler.t :=
  foldl (λ h '(now, msg, c), (handle now (chunk_msg fileHash msg c) h).2) h arrivals.

(** An arriving chunk of a file of [n] chunks. *)
Definition proper_arrival (fileID : string) (n : Z) (a : arrival) : Prop :=
  Message.Type_ a.1.2 = TypeChunk ∧ good_chunk H fileID n a.2.

(** What is stored of the chunks that have arrived. *)
Definition stamped (arrivals : list arrival) : list Chunk.t := Chunk.with_FileHash "" <$> arrivals.*2.

(** The state while chunks are missing. *)
Definition waiting (fileID : string) (e : Engine.t) (op : option SyncOperation.t) (got : list Chunk.t) (h : Handler.t) : Prop :=
  received_chunks fileID h = got ∧ chunkMetadata h !! fileID = op ∧ syncEngine h = Some e.

Lemma add_chunk_waiting fileID e op got c h :
  Chunk.FileID c = fileID → waiting fileID e op got h →
  waiting fileID e op (got ++ [Chunk.with_FileHash "" c]) (add_chunk (Chunk.with_FileHash "" c) h).
Proof.
  intros <- (<- & Hm & He). split_and!; [|done..].
  unfold received_chunks at 1, add_chunk. cbn. by rewrite lookup_insert_eq.
Qed.

Lemma waiting_same fileID e op got h h' : same_but_transport h h' → waiting fileID e op got h → waiting fileID e op got h'.
Proof. intros (_ & He & Ha & Hm & _) (H1 & H2 & H3). unfold waiting, received_chunks. by rewrite Ha, Hm, He. Qed.

Lemma deliver_waiting fileID fileHash n e op arrivals got h :
  Forall (proper_arrival fileID n) arrivals → zlen got + zlen arrivals < n →
  waiting fileID e op got h → waiting fileID e op (got ++ stamped arrivals) (deliver fileHash arrivals h).
Proof.
  revert got h. induction arrivals as [|[[now msg] c] rest IH]; intros got h Hp Hn Hw; [by rewrite app_nil_r|].
  apply Forall_cons in Hp as [[Hty Hg] Hp]. cbn [fst snd] in *. simpl in Hn.
  assert (got ++ stamped ((now, msg, c) :: rest) = (got ++ [Chunk.with_FileHash "" c]) ++ stamped rest) as ->
    by by rewrite <- app_assoc.
  cbn [deliver foldl]. apply IH; [done|rewrite length_app; simpl; lia|].
  rewrite handleChunk_pending; [|done|apply Hg|].
  - eapply waiting_same; [apply sendAcknowledgment_quiet|]. apply add_chunk_waiting; [apply Hg|done].
  - rewrite (gc_file _ _ _ _ Hg), (gc_total _ _ _ _ Hg). destruct Hw as (-> & _). lia.
Qed.
End Chunks.

(** C6: A file sent in chunks is handed to the engine exactly once: when its
    announcement has arrived and every chunk arrives once, in any order, nothing
    happens until the last of them; then the engine receives the file's content
    (decompressed) with the announced operation and the assembled size, and the
    handler forgets the chunks and the announcement. *)
Theorem chunked_file_delivered blake3 L chunkSize fileID data fileData op h e :
  0 < chunkSize → zlen data + chunkSize < two63 → zlen data ≤ maxAlloc →
  received_chunks fileID h = [] → chunkMetadata h !! fileID = Some op → syncEngine h = Some e →
  let op' := SyncOperation.with_content (SyncOperation.FromPath op) (SyncOperation.Checksum op) (zlen data) op in
  file_data L op' data = Ok fileData →
  ∃ cs, ChunkFile (Hashing.HashString blake3) chunkSize fileID data = Ok cs ∧
  ∀ arrivals : list (time * Message.t * Chunk.t), arrivals.*2 ≡ₚ cs → Forall (λ a, Message.Type_ a.1.2 = TypeChunk) arrivals →
  let after k := deliver blake3 L (Hashing.HashString blake3 data) (take k arrivals) h in
  (∀ k, (k < length arrivals)%nat → syncEngine (after k) = Some e) ∧
  ∃ e', syncEngine (after (length arrivals)) = Some e' ∧
    Engine.tasks e' = Engine.tasks e ++ [(fileData, SyncOperation.with_Source "remote" op')] ∧
    assembledChunks (after (length arrivals)) !! fileID = None ∧
    chunkMetadata (after (length arrivals)) !! fileID = None.
Proof.
  intros Hcs Hb Hmax Hgot Hmeta He op' Hf. set (H := Hashing.HashString blake3).
  destruct (ChunkFile_spec H chunkSize fileID data Hcs Hb) as (cs & HE & Hchunking & _ & Hgood).
  exists cs. split; [done|]. intros arrivals Hperm Hty after.
  assert (Forall (proper_arrival blake3 fileID (zlen cs)) arrivals) as Hp.
  { apply Forall_forall. intros a Ha. rewrite Forall_forall in Hty. rewrite Forall_forall in Hgood. split; [by apply Hty|].
    apply Hgood. rewrite <- Hperm. apply list_elem_of_fmap. by exists a. }
  assert (length arrivals = length cs) as Hlen by (by rewrite <- Hperm, length_fmap).
  assert (waiting fileID e (Some op) [] h) as Hw by done.
  assert (∀ k, (k < length arrivals)%nat →
    waiting fileID e (Some op) (stamped (take k arrivals)) (after k)) as Hk.
  { intros k Hkl. apply (deliver_waiting blake3 L fileID (H data) (zlen cs) e (Some op) (take k arrivals) []);
      [by apply Forall_take|rewrite length_take; simpl; lia|done]. }
  split; [intros k Hkl; by apply Hk|].
  destruct (decide (arrivals = [])) as [->|Hne]; [by destruct (ch_nonempty _ _ Hchunking); destruct cs|].
  destruct (exists_last Hne) as (pre & [[now msg] c] & Ea).
  assert (after (length arrivals) = (Handler.HandleMessage blake3 L now (chunk_msg (H data) msg c) (after (length pre))).2) as ->.
  { unfold after, deliver. rewrite Ea, take_ge, take_app_length, foldl_app by done. done. }
  rewrite Ea in Hp. apply Forall_app in Hp as [Hpp Hp]. apply Forall_singleton in Hp as [Htc Hgc]. cbn [fst snd] in *.
  destruct (Hk (length pre)) as (Hr & Hm & Hen); [rewrite Ea, length_app; simpl; lia|].
  rewrite Ea, take_app_length in Hr.
  assert (stamped pre ++ [Chunk.with_FileHash "" c] = Chunk.with_FileHash "" <$> arrivals.*2) as Hall
    by (by rewrite Ea, !fmap_app).
  rewrite (handleChunk_complete blake3 L now msg (H data) c (after (length pre)) e op data fileData); try done.
  - fold op'. destruct (sendAcknowledgment_quiet now (chunk_msg (H data) msg c) true ""
      (with_syncEngine (Some (handed now fileData op' e)) (forget_file (Chunk.FileID c)
         (add_chunk (Chunk.with_FileHash "" c) (after (length pre)))))) as (_ & -> & -> & -> & _).
    exists (handed now fileData op' e). rewrite (gc_file _ _ _ _ Hgc).
    split_and!; [done|apply handed_tasks|apply lookup_delete_eq|apply lookup_delete_eq].
  - apply Hgc.
  - rewrite (gc_file _ _ _ _ Hgc), (gc_total _ _ _ _ Hgc), Hr, <- Hlen, Ea. unfold stamped.
    rewrite !length_fmap, length_app. simpl. lia.
  - rewrite (gc_file _ _ _ _ Hgc), Hr, Hall.
    rewrite (AssembleChunks_chunking H data (Chunk.with_FileHash "" <$> cs)); [|by apply chunking_of_stamped|done|by rewrite Hperm].
    rewrite bool_decide_eq_false_2; [done|by intros []].
  - by rewrite (gc_file _ _ _ _ Hgc).
Qed.

Section Wedge.
Context (blake3 : bytes → bytes) (L : libraries) (fileID : string) (n : Z) (e : Engine.t) (op : option SyncOperation.t).

Lemma deliver_overfull fileHash arrivals got h :
  Forall (proper_arrival blake3 fileID n) arrivals → n ≤ zlen got → waiting fileID e op got h →
  waiting fileID e op (got ++ stamped arrivals) (deliver blake3 L fileHash arrivals h).
Proof.
  revert got h. induction arrivals as [|[[now msg] c] rest IH]; intros got h Hp Hn Hw; [by rewrite app_nil_r|].
  apply Forall_cons in Hp as [[Hty Hg] Hp]. cbn [fst snd] in *.
  assert (got ++ stamped ((now, msg, c) :: rest) = (got ++ [Chunk.with_FileHash "" c]) ++ stamped rest) as ->
    by by rewrite <- app_assoc.
  cbn [deliver foldl]. apply IH; [done|rewrite length_app; simpl; lia|].
  rewrite handleChunk_pending; [|done|apply Hg|].
  - eapply waiting_same; [apply sendAcknowledgment_quiet|]. apply add_chunk_waiting; [apply Hg|done].
  - rewrite (gc_file _ _ _ _ Hg), (gc_total _ _ _ _ Hg). destruct Hw as (-> & _). lia.
Qed.

(** An assembly that fails keeps the chunks. *)
Lemma handleChunk_failed now msg fileHash c got err h :
  proper_arrival blake3 fileID n (now, msg, c) → waiting fileID e op got h → zlen got + 1 = n →
  AssembleChunks (Hashing.HashString blake3) (got ++ [Chunk.with_FileHash "" c]) fileHash = Err err →
  waiting fileID e op (got ++ [Chunk.with_FileHash "" c]) (Handler.HandleMessage blake3 L now (chunk_msg fileHash msg c) h).2.
Proof.
  intros [Hty Hg] Hw Hn Ha. cbn [fst snd] in *. pose proof Hw as (Hr & _).
  rewrite <- (gc_file _ _ _ _ Hg) in Hr. rewrite HandleMessage_chunk by done. unfold handleChunk.
  cbn [chunk_msg with_payload Message.Payload]. rewrite chunk_of_message, VerifyChunkHash_good by apply Hg.
  unfold or_reject, gtry, glift, mbind, gom_bind. cbn [gmodify]. cbv beta zeta.
  assert (received_chunks (ChunkMessage.FileID (chunk_message fileHash c)) (add_chunk (Chunk.with_FileHash "" c) h)
    = got ++ [Chunk.with_FileHash "" c]) as ->.
  { unfold received_chunks at 1, add_chunk. cbn. rewrite lookup_insert_eq. by rewrite Hr. }
  assert (zlen (got ++ [Chunk.with_FileHash "" c]) =? ChunkMessage.TotalChunks (chunk_message fileHash c) = true) as ->.
  { apply Z.eqb_eq. rewrite length_app. cbn. rewrite (gc_total _ _ _ _ Hg). lia. }
  change (ChunkMessage.FileHash (chunk_message fileHash c)) with fileHash. rewrite Ha.
  eapply waiting_same; [apply sendAcknowledgment_quiet|]. apply add_chunk_waiting; [apply Hg|done].
Qed.
End Wedge.

(** An assembly that fails once fails for ever.  When the stored chunks reach
    the announced number without making up the file (one was delivered twice, as
    a retried send does), the chunks are kept; from then on no chunk of the
    file, however many arrive and however good they are, makes the handler
    give the file to its engine, until the file is announced again. *)
Theorem failed_assembly_is_final blake3 L fileID n e op got fileHash now msg c err arrivals h :
  Forall (proper_arrival blake3 fileID n) ((now, msg, c) :: arrivals) →
  received_chunks fileID h = got → chunkMetadata h !! fileID = op → syncEngine h = Some e → zlen got + 1 = n →
  AssembleChunks (Hashing.HashString blake3) (got ++ [Chunk.with_FileHash "" c]) fileHash = Err err →
  let h' := deliver blake3 L fileHash ((now, msg, c) :: arrivals) h in
  syncEngine h' = Some e ∧ zlen (received_chunks fileID h') = n + zlen arrivals.
Proof.
  intros Hp Hr Hm He Hn Ha. apply Forall_cons in Hp as [Hc Hp]. cbv zeta. cbn [deliver foldl].
  assert (waiting fileID e op got h) as Hw by done.
  pose proof (handleChunk_failed blake3 L fileID n e op now msg fileHash c got err h Hc Hw Hn Ha) as Hw1.
  destruct (deliver_overfull blake3 L fileID n e op fileHash arrivals (got ++ [Chunk.with_FileHash "" c]) _ Hp
    ltac:(rewrite length_app; simpl; lia) Hw1) as (Hr2 & _ & He2). unfold deliver in Hr2, He2. split; [exact He2|]. rewrite Hr2.
  unfold stamped. rewrite !length_app, !length_fmap. simpl. lia.
Qed.

(** ** Sending with retries *)
Section Sending.
Context (P : primitives) (jt : json → bytes) (jv : bytes → outcome json).

(** Receiving touches only the acknowledgment channels. *)
Definition same_but_acks (m m' : Messenger.t) : Prop := ∃ acks, m' = with_pendingAcks acks m.

Lemma HandleMessage_acks msg m : same_but_acks m (Messenger.HandleMessage P jv msg m).2.
Proof.
  assert (same_but_acks m m) as Hm by (exists (pendingAcks m); by destruct m).
  unfold Messenger.HandleMessage. destruct (ConnectionManager.GetConnection _ _); [|done..].
  destruct (open_message _ _ _ _) as [msg'| |]; [|done..]. case_decide; [|done].
  unfold mbind, gom_bind, handleAcknowledgment. destruct (Message.CorrelationID msg') as [[|x id]|]; [done| |done].
  destruct (pendingAcks m !! _) as [[?|]|]; [done| |done]. by eexists.
Qed.

Lemma same_but_acks_trans m1 m2 m3 : same_but_acks m1 m2 → same_but_acks m2 m3 → same_but_acks m1 m3.
Proof. intros [a ->] [b ->]. by exists b. Qed.

Lemma receive_all_acks msgs m : same_but_acks m (receive_all P jv msgs m).
Proof.
  revert m. induction msgs as [|msg msgs IH]; intros m; [exists (pendingAcks m); by destruct m|].
  eapply same_but_acks_trans; [apply HandleMessage_acks|apply IH].
Qed.

(** A filled channel was filled by an acknowledgment that names the message. *)
Lemma HandleMessage_fills msg id r m :
  pendingAcks m !! id = Some None → pendingAcks (Messenger.HandleMessage P jv msg m).2 !! id = Some (Some r) →
  Message.CorrelationID msg = Some id ∧ (Message.Type_ msg = TypeOperationAck ∨ Message.Type_ msg = TypeChunkAck).
Proof.
  intros Hp. unfold Messenger.HandleMessage. destruct (ConnectionManager.GetConnection _ _); [|naive_solver..].
  destruct (open_message P jv msg _) as [msg'| |] eqn:Eo; [|naive_solver..].
  assert (Message.CorrelationID msg' = Message.CorrelationID msg ∧ Message.Type_ msg' = Message.Type_ msg) as [Ec Et].
  { unfold open_message in Eo. destruct (as_encrypted _); [|naive_solver]. destruct (bool_decide _); [done|].
    destruct (wrapping _ (Decrypt _ _ _)) as [d| |]; [|done..]. cbn [mbind outcome_bind] in Eo.
    destruct (wrapping "failed to decode decrypted payload" _) as [p| |]; [|done..]. by injection Eo as <-. }
  rewrite Et. case_decide as Hty; [|simpl; naive_solver]. unfold mbind, gom_bind, handleAcknowledgment. rewrite Ec.
  destruct (Message.CorrelationID msg) as [[|x cid]|]; [naive_solver| |naive_solver].
  destruct (pendingAcks m !! String x cid) as [[?|]|] eqn:E; [naive_solver| |naive_solver]. cbn.
  destruct (decide (String x cid = id)) as [->|Hne]; [done|]. rewrite lookup_insert_ne by done. naive_solver.
Qed.

Lemma HandleMessage_keeps_channel msg id m :
  is_Some (pendingAcks m !! id) → is_Some (pendingAcks (Messenger.HandleMessage P jv msg m).2 !! id).
Proof.
  intros Hp. unfold Messenger.HandleMessage. destruct (ConnectionManager.GetConnection _ _); [|done..].
  destruct (open_message P jv msg _) as [msg'| |]; [|done..]. case_decide; [|done].
  unfold mbind, gom_bind, handleAcknowledgment. destruct (Message.CorrelationID msg') as [[|x cid]|]; [done| |done].
  destruct (pendingAcks m !! String x cid) as [[?|]|]; [done| |done]. cbn.
  destruct (decide (String x cid = id)) as [->|]; [rewrite lookup_insert_eq; by eexists|by rewrite lookup_insert_ne].
Qed.

Definition acknowledges (id : string) (a : Message.t) : Prop :=
  Message.CorrelationID a = Some id ∧ (Message.Type_ a = TypeOperationAck ∨ Message.Type_ a = TypeChunkAck).

Lemma receive_all_fills msgs id r m :
  pendingAcks m !! id = Some None → pendingAcks (receive_all P jv msgs m) !! id = Some (Some r) →
  ∃ a, a ∈ msgs ∧ acknowledges id a.
Proof.
  revert m. induction msgs as [|msg msgs IH]; intros m Hp Hr; [cbn in Hr; naive_solver|]. cbn [receive_all foldl] in Hr.
  destruct (pendingAcks (Messenger.HandleMessage P jv msg m).2 !! id) as [[r'|]|] eqn:E.
  - exists msg. split; [by left|]. by apply (HandleMessage_fills msg id r' m).
  - destruct (IH _ E Hr) as (a & Ha & H). exists a. split; [by right|done].
  - pose proof (HandleMessage_keeps_channel msg id m ltac:(by eexists)) as [? E']. by rewrite E in E'.
Qed.

(** What one wait for an acknowledgment does. *)
Lemma await_ack_spec id m :
  pendingAcks m !! id = Some None →
  ∃ r m', await_ack P jv id m = (Ok r, m') ∧ Messenger.connManager m' = Messenger.connManager m ∧
    Messenger.transport m' = Messenger.transport m ∧ arrivals m' = tail (arrivals m) ∧
    (is_Some r → ∃ msgs a, msgs ∈ arrivals m ∧ a ∈ msgs ∧ acknowledges id a).
Proof.
  intros Hp. unfold await_ack. set (m1 := with_arrivals _ m). set (msgs := default [] _).
  destruct (receive_all_acks msgs m1) as [acks Hr].
  pose proof (receive_all_fills msgs id) as Hfill.
  destruct (pendingAcks (receive_all P jv msgs m1) !! id) as [[r|]|] eqn:E;
    eexists _, _; (split; [reflexivity|]); rewrite Hr; (split_and!; [done..|]); [|by intros [? ?]|by intros [? ?]].
  intros _. destruct (Hfill r m1 Hp E) as (a & Ha & Hack). exists msgs, a. split_and!; [|done..].
  subst msgs. destruct (arrivals m) as [|x l]; [cbn in Ha; by apply elem_of_nil in Ha|by left].
Qed.

(** The outcome of the attempts: the copies sent, the acknowledgment received. *)
Definition attempts_result (peer : string) (conn : Connection.t) (emsg : Message.t) (m : Messenger.t) (n : nat)
    (r : outcome unit) (m' : Messenger.t) : Prop :=
  Messenger.connManager m' = Messenger.connManager m ∧
  ∃ k, (k ≤ n)%nat ∧
    Net.sent (Messenger.transport m') = Net.sent (Messenger.transport m) ++
      replicate k (Net.Delivery peer (Connection.Address conn) (Connection.Port conn) emsg) ∧
    (r = Ok tt → (1 ≤ k)%nat ∧ pendingAcks m' !! Message.ID emsg = None ∧
      ∃ msgs a, msgs ∈ arrivals m ∧ a ∈ msgs ∧ acknowledges (Message.ID emsg) a).

(** One attempt less, [j] copies and perhaps some arrivals later. *)
Lemma attempts_result_later peer conn emsg m m1 n r m' (j : nat) :
  attempts_result peer conn emsg m1 n r m' → (j ≤ 1)%nat →
  Messenger.connManager m1 = Messenger.connManager m →
  Net.sent (Messenger.transport m1) = Net.sent (Messenger.transport m) ++
    replicate j (Net.Delivery peer (Connection.Address conn) (Connection.Port conn) emsg) →
  (∀ msgs, msgs ∈ arrivals m1 → msgs ∈ arrivals m) →
  attempts_result peer conn emsg m (S n) r m'.
Proof.
  intros (Hc & k & Hk & Hs & Hok) Hj Hc1 Hs1 Ha. split; [by rewrite Hc|].
  exists (j + k)%nat. split; [lia|]. split; [by rewrite Hs, Hs1, <- app_assoc, <- replicate_add|].
  intros Hr. destruct (Hok Hr) as (? & ? & msgs & a & Hm & ?). split_and!; [lia|done|]. exists msgs, a. eauto.
Qed.

Lemma send_attempts_spec n peer conn emsg lastErr m :
  ConnectionManager.GetConnection peer (Messenger.connManager m) = Ok conn →
  let '(r, m') := send_attempts P jv n peer emsg lastErr m in attempts_result peer conn emsg m n r m'.
Proof.
  revert lastErr m. induction n as [|n IH]; intros lastErr m Hc.
  { split; [done|]. exists 0%nat. split; [done|]. split; [by rewrite app_nil_r|done]. }
  cbn [send_attempts]. unfold mbind, gom_bind. cbn [gmodify]. set (m1 := trackAcknowledgment (Message.ID emsg) m).
  change (Messenger.connManager m1) with (Messenger.connManager m). rewrite Hc.
  unfold gtry, Messenger.on_transport, Net.SendMessage. change (Messenger.transport m1) with (Messenger.transport m).
  assert (∀ e fs, let '(r, m') := send_attempts P jv n peer emsg e
      (Messenger.with_transport (Net.mk (Net.sent (Messenger.transport m)) fs) m1) in
    attempts_result peer conn emsg m (S n) r m') as Herr.
  { intros e fs. match goal with |- context [send_attempts _ _ _ _ _ _ ?m2] => pose proof (IH e m2 Hc) as H; destruct (send_attempts P jv n peer emsg e m2) end.
    eapply (attempts_result_later _ _ _ _ _ _ _ _ 0); [exact H|lia|done|by rewrite app_nil_r|done]. }
  assert (∀ fs, let '(r, m') := (ack ← await_ack P jv (Message.ID emsg);
      match ack with
      | Some None => gmodify (untrackAcknowledgment (Message.ID emsg))
      | Some (Some e) => send_attempts P jv n peer emsg (wrap "acknowledgment error" e)
      | None => send_attempts P jv n peer emsg "acknowledgment timeout"
      end) (Messenger.with_transport (Net.mk (Net.sent (Messenger.transport m) ++
        [Net.Delivery peer (Connection.Address conn) (Connection.Port conn) emsg]) fs) m1) in
    attempts_result peer conn emsg m (S n) r m') as Hsent.
  { intros fs. match goal with |- context [(_ ≫= _) ?m2] => set (m3 := m2) end. unfold mbind, gom_bind.
    destruct (await_ack_spec (Message.ID emsg) m3 ltac:(apply lookup_insert_eq)) as (r & m4 & -> & Hc4 & Ht4 & Ha4 & Hr).
    assert (∀ e, let '(r, m') := send_attempts P jv n peer emsg e m4 in attempts_result peer conn emsg m (S n) r m') as Hagain.
    { intros e. pose proof (IH e m4) as H. rewrite Hc4 in H. specialize (H Hc). destruct (send_attempts P jv n peer emsg e m4).
      eapply (attempts_result_later _ _ _ _ _ _ _ _ 1); [exact H|lia|done|by rewrite Ht4|].
      rewrite Ha4. change (arrivals m3) with (arrivals m). intros msgs. destruct (arrivals m); [done|by right]. }
    destruct r as [[e|]|]; [apply Hagain| |apply Hagain]. cbn [gmodify]. split; [done|]. exists 1%nat.
    split; [lia|]. split; [cbn; by rewrite Ht4|]. intros _. split; [done|]. split; [apply lookup_delete_eq|].
    apply Hr. by eexists. }
  destruct (Net.fates (Messenger.transport m)) as [|[[]|e|w] fs]; cbn [tail].
  - exact (Hsent []).
  - exact (Hsent fs).
  - exact (Herr (wrap "send attempt failed" e) fs).
  - split; [done|]. exists 0%nat. split; [lia|]. split; [by rewrite app_nil_r|done].
Qed.
End Sending.

(** C33: [sendMessage] hands the transport at most [retryCount] copies of one and
    the same encrypted message and nothing else; it returns success only after
    it sent at least one and an acknowledgment naming the message arrived, and
    then no longer waits for it; the connections are not changed. *)
Theorem sendMessage_retries P jt jv peer msg m :
  let '(r, m') := sendMessage P jt jv peer msg m in
  Messenger.connManager m' = Messenger.connManager m ∧
  ∃ k em address port, (k ≤ retryCount m)%nat ∧
    Net.sent (Messenger.transport m') = Net.sent (Messenger.transport m) ++
      replicate k (Net.Delivery peer address port (with_payload (encrypted_payload em) msg)) ∧
    (r = Ok tt → (1 ≤ k)%nat ∧ pendingAcks m' !! Message.ID msg = None ∧
      ∃ msgs a, msgs ∈ arrivals m ∧ a ∈ msgs ∧ acknowledges (Message.ID msg) a).
Proof.
  assert (∀ (r : outcome unit) m', r ≠ Ok tt → Messenger.connManager m' = Messenger.connManager m →
    Messenger.transport m' = Messenger.transport m →
    Messenger.connManager m' = Messenger.connManager m ∧
    ∃ k em address port, (k ≤ retryCount m)%nat ∧
    Net.sent (Messenger.transport m') = Net.sent (Messenger.transport m) ++
      replicate k (Net.Delivery peer address port (with_payload (encrypted_payload em) msg)) ∧
    (r = Ok tt → (1 ≤ k)%nat ∧ pendingAcks m' !! Message.ID msg = None ∧
      ∃ msgs a, msgs ∈ arrivals m ∧ a ∈ msgs ∧ acknowledges (Message.ID msg) a)) as Hfail.
  { intros r m' Hr Hc Ht. split; [done|]. exists 0%nat, (EncryptedMessage.mk [] [] []), ""%string, 0.
    split; [lia|]. split; [by rewrite Ht, app_nil_r|done]. }
  unfold sendMessage. destruct (ConnectionManager.GetConnection peer _) as [conn|e|w] eqn:Hc; [|by apply Hfail..].
  unfold mbind, gom_bind, gwrap.
  destruct (encryptMessagePayload P jt msg (Connection.SessionKey conn) m) as [r0 m1] eqn:Ee.
  assert (Messenger.connManager m1 = Messenger.connManager m ∧ Messenger.transport m1 = Messenger.transport m ∧
    arrivals m1 = arrivals m) as (Hc1 & Ht1 & Ha1).
  { unfold encryptMessagePayload, mbind, gom_bind, glift, gfail, random_nonce in Ee.
    repeat case_match; by simplify_eq/=. }
  destruct r0 as [em|e|w]; [|by apply Hfail..].
  pose proof (send_attempts_spec P jv (retryCount m) peer conn (with_payload (encrypted_payload em) msg) "" m1) as H.
  rewrite Hc1 in H. specialize (H Hc). destruct (send_attempts _ _ _ _ _ _ _) as [r m'].
  destruct H as (Hc' & k & Hk & Hs & Hok). split; [by rewrite Hc', Hc1|].
  exists k, em, (Connection.Address conn), (Connection.Port conn). split; [done|]. split; [by rewrite Hs, Ht1|].
  intros Hr. destruct (Hok Hr) as (? & ? & H). split_and!; [done..|]. by rewrite Ha1 in H.
Qed.

(** ** The properties at a concrete handler *)

(** A handler that holds the chunks [got] of the announced file "f1". *)
Definition demo_receiver (got : list Chunk.t) : Handler.t :=
  Handler.mk (Some ConnectionManager.NewConnectionManager) (Some (Net.mk [] []))
    (Some (demo_engine "B" "old" DB.initSchema)) false {["f1"%string := got]} {["f1"%string := demo_op OpUpdate]} "B".

(** Chunk [i] of "hello", cut into fours. *)
Definition demo_chunk (i : Z) (data : string) : Chunk.t :=
  Chunk.mk "f1" i (i * 4) (zlen (to_bytes data)) (to_bytes data) (Hashing.HashString blake3_demo (to_bytes data)) "" (i =? 1) 2.

Lemma chunked_file_delivered_witness :
  let envelope := NewMessage 7 TypeChunk "A" (PGeneric JNull) in
  ∃ c0 c1 e', ChunkFile (Hashing.HashString blake3_demo) 4 "f1" (to_bytes "hello") = Ok [c0; c1] ∧
    syncEngine (deliver blake3_demo demo_libraries (Hashing.HashString blake3_demo (to_bytes "hello"))
      [(8, envelope, c1); (9, envelope, c0)] (demo_receiver [])) = Some e' ∧
    fst <$> Engine.tasks e' = [to_bytes "hello"].
Proof.
  cbv zeta. set (envelope := NewMessage 7 TypeChunk "A" (PGeneric JNull)).
  destruct (chunked_file_delivered blake3_demo demo_libraries 4 "f1" (to_bytes "hello") (to_bytes "hello") (demo_op OpUpdate)
    (demo_receiver [])
    (demo_engine "B" "old" DB.initSchema) eq_refl eq_refl ltac:(vm_compute; congruence) eq_refl eq_refl eq_refl eq_refl)
    as (cs & Hcs & H).
  assert (∃ c0 c1, cs = [c0; c1]) as (c0 & c1 & ->).
  { vm_compute in Hcs. injection Hcs as <-. by eexists _, _. }
  destruct (H [(8, envelope, c1); (9, envelope, c0)] (perm_swap _ _ _) ltac:(repeat constructor)) as [_ (e' & He & Ht & _)].
  exists c0, c1, e'. split; [done|]. split; [exact He|]. by rewrite Ht.
Defined.

(** The second chunk arrives twice, then the first, which was missing. *)
Lemma failed_assembly_is_final_witness :
  let envelope := NewMessage 7 TypeChunk "A" (PGeneric JNull) in
  let h' := deliver blake3_demo demo_libraries (Hashing.HashString blake3_demo (to_bytes "hello"))
    [(8, envelope, demo_chunk 1 "o"); (9, envelope, demo_chunk 0 "hell")] (demo_receiver [demo_chunk 1 "o"]) in
  syncEngine h' = Some (demo_engine "B" "old" DB.initSchema) ∧ zlen (received_chunks "f1" h') = 3.
Proof.
  cbv zeta. apply (failed_assembly_is_final blake3_demo demo_libraries "f1" 2 (demo_engine "B" "old" DB.initSchema)
    (Some (demo_op OpUpdate)) [demo_chunk 1 "o"] (Hashing.HashString blake3_demo (to_bytes "hello")) 8
    (NewMessage 7 TypeChunk "A" (PGeneric JNull)) (demo_chunk 1 "o") "chunk offset mismatch"
    [(9, NewMessage 7 TypeChunk "A" (PGeneric JNull), demo_chunk 0 "hell")] (demo_receiver [demo_chunk 1 "o"]));
    [|reflexivity..|vm_compute; reflexivity].
  repeat constructor; vm_compute; congruence.
Defined.
