(* ===== verification/Propagation.v ===== *)
(** * From an edit on one machine to the file on another

    The composition of the parts: the engine's handler of a local change, the
    broadcast by the messenger, the wire, the messenger and the handler of the
    other node, and the goroutine of its engine that writes the file. *)

From Stdlib Require Import Strings.Byte Strings.String.
From S2P Require Import Prelude GoStrings GoPath Json Clock Hashing Chunking Database DatabaseProps Filesystem Operation Messages Compression Encryption Connection Transport Engine EngineProps EngineBehaviour Handler Messenger MessengerProps DeliveryProps.
Import Messenger.

(** ** What a send puts on the transport *)
Section Sending.
Context (P : primitives) (jt : json → bytes) (jv : bytes → outcome json).

(** The first attempt leaves a copy, whatever happens to it afterwards. *)
Lemma send_attempts_first n peer conn emsg lastErr m :
  ConnectionManager.GetConnection peer (Messenger.connManager m) = Ok conn → Net.fates (Messenger.transport m) = [] →
  ∃ rest, Net.sent (Messenger.transport (send_attempts P jv (S n) peer emsg lastErr m).2) =
    Net.sent (Messenger.transport m) ++ Net.Delivery peer (Connection.Address conn) (Connection.Port conn) emsg :: rest.
Proof.
  intros Hc Hf. cbn [send_attempts]. unfold mbind, gom_bind. cbn [gmodify].
  set (m1 := trackAcknowledgment (Message.ID emsg) m). change (Messenger.connManager m1) with (Messenger.connManager m).
  rewrite Hc. unfold gtry, Messenger.on_transport, Net.SendMessage. change (Messenger.transport m1) with (Messenger.transport m).
  rewrite Hf. cbn [tail]. set (d := Net.Delivery _ _ _ _).
  match goal with |- context [await_ack _ _ _ ?m2] => set (m3 := m2) end.
  destruct (await_ack_spec P jv (Message.ID emsg) m3 ltac:(apply lookup_insert_eq)) as (r & m4 & -> & Hc4 & Ht4 & _).
  assert (∀ e, ∃ rest, Net.sent (Messenger.transport (send_attempts P jv n peer emsg e m4).2) =
    Net.sent (Messenger.transport m) ++ d :: rest) as Hagain.
  { intros e. pose proof (send_attempts_spec P jv n peer conn emsg e m4) as H. rewrite Hc4 in H. specialize (H Hc).
    destruct (send_attempts P jv n peer emsg e m4) as [r' m']. destruct H as (_ & k & _ & Hs & _). cbn [snd]. rewrite Hs, Ht4.
    exists (replicate k d). subst m3 d. cbn. by rewrite <- app_assoc. }
  destruct r as [[e|]|]; [apply Hagain| |apply Hagain]. exists []. cbn [gmodify snd]. cbn. rewrite Ht4. done.
Qed.

Lemma sendMessage_first peer conn iv nonces' b msg em m :
  ConnectionManager.GetConnection peer (Messenger.connManager m) = Ok conn → Net.fates (Messenger.transport m) = [] →
  zlen (Connection.SessionKey conn) = KeySizeAES → nonces m = iv :: nonces' → (0 < retryCount m)%nat →
  Message.Payload msg = PValue b → Encrypt P iv (jt (enc_body b)) (Connection.SessionKey conn) = Ok em →
  ∃ rest, Net.sent (Messenger.transport (sendMessage P jt jv peer msg m).2) =
    Net.sent (Messenger.transport m) ++
      Net.Delivery peer (Connection.Address conn) (Connection.Port conn) (with_payload (encrypted_payload em) msg) :: rest.
Proof.
  intros Hc Hf Hk Hn Hr Hp He. unfold sendMessage. rewrite Hc. unfold mbind, gom_bind, gwrap, encryptMessagePayload.
  rewrite bool_decide_eq_false_2 by (intros E; rewrite E in Hk; by vm_compute in Hk). unfold mbind, gom_bind, glift. rewrite Hp.
  cbn [EncodePayload wrapping]. rewrite (proj2 (Z.eqb_eq _ _) Hk). cbn [negb]. unfold random_nonce. rewrite Hn, He.
  destruct (retryCount m) as [|n]; [lia|].
  destruct (send_attempts_first n peer conn (with_payload (encrypted_payload em) msg) "" (Messenger.with_nonces nonces' m) Hc Hf) as [rest H].
  by exists rest.
Qed.
End Sending.

(** The operation as [SendFile] leaves it when nothing is compressed. *)
Definition uncompressed (op : SyncOperation.t) : SyncOperation.t :=
  SyncOperation.with_compression (Some false) (SyncOperation.OriginalSize op) (SyncOperation.CompressionAlgorithm op)
    (SyncOperation.CompressionLevel op) op.

(** Two nodes that share a session key: [ma] is connected to [B] alone and sends
    small files as they are, nothing fails at once; [mb] knows [A]. *)
Record linked (P : primitives) (A B : string) (key iv : bytes) (ma mb : Messenger.t) : Prop := {
  l_ciphers : authentic P;
  l_key : zlen key = KeySizeAES;
  l_iv : zlen iv = IVSize;
  l_peers : ConnectionManager.GetConnectedPeers (Messenger.connManager ma) = [B];
  l_distinct : B ≠ A;
  l_AB : ∃ conn, ConnectionManager.GetConnection B (Messenger.connManager ma) = Ok conn ∧ Connection.SessionKey conn = key;
  l_BA : ∃ conn, ConnectionManager.GetConnection A (Messenger.connManager mb) = Ok conn ∧ Connection.SessionKey conn = key;
  l_nonce : ∃ rest, nonces ma = iv :: rest;
  l_transport : Net.fates (Messenger.transport ma) = [];
  l_flow : flow ma = [];
  l_retries : (0 < retryCount ma)%nat;
  l_clock : in64 (unix_milli (clock ma));
  l_handler : has_handler mb = true
}.

Section Broadcast.
Context (blake3 : bytes → bytes) (P : primitives) (jt : json → bytes) (jv : bytes → outcome json).

(** A small file is sent as one sealed message. *)
Lemma SendFile_small A B key iv ma mb op data :
  linked P A B key iv ma mb → SyncOperation.PeerID op = A → data ≠ [] →
  zlen data ≤ Config.ChunkSizeDefault (config ma) → zlen data ≤ Config.FileSizeThreshold (config ma) →
  let b := BLogEntry (payload_of_op (uncompressed op) data) in
  ∃ em address port rest, Encrypt P iv (jt (enc_body b)) key = Ok em ∧
    Net.sent (Messenger.transport (SendFile blake3 P jt jv B data op ma).2) = Net.sent (Messenger.transport ma) ++
      Net.Delivery B address port (with_payload (encrypted_payload em) (NewMessage (clock ma) TypeSyncOperation A (PValue b))) :: rest.
Proof.
  intros [HP Hk Hi _ Hne (conn & Hc & Hkey) _ [nonces' Hn] Hf Hfl Hr _ _] HA Hd Hcs Hth b.
  destruct (Encrypt_fine P iv (jt (enc_body b)) key HP Hk) as (em & He & _).
  exists em, (Connection.Address conn), (Connection.Port conn).
  unfold SendFile. rewrite flow_call_granted, Hc by done. rewrite bool_decide_eq_false_2.
  2: { intros E. rewrite Hkey in E. by rewrite E in Hk. }
  unfold compress_for. rewrite (proj2 (Z.ltb_ge _ _) Hth), andb_false_r. fold (uncompressed op).
  rewrite (proj2 (Z.ltb_ge _ _) Hcs). unfold sendSyncOperation, mbind, gom_bind, tick.
  rewrite bool_decide_eq_false_2 by done. unfold flow_call. cbn [flow Messenger.with_clock]. rewrite Hfl. cbn [head default wrapping tail].
  change (SyncOperation.PeerID (uncompressed op)) with (SyncOperation.PeerID op). rewrite HA. fold b.
  match goal with |- context [sendMessage P jt jv B ?msg ?m] =>
    destruct (sendMessage_first P jt jv B conn iv nonces' b msg em m Hc Hf ltac:(by rewrite Hkey) Hn Hr eq_refl ltac:(by rewrite Hkey)) as [rest Hs];
    destruct (sendMessage P jt jv B msg m) as [[[]|e|w] m'] end; exists rest; (split; [done|]); cbn in Hs |- *; exact Hs.
Qed.

(** Broadcasting to one peer is sending the file to it. *)
Lemma BroadcastOperation_one A B key iv ma mb op x :
  linked P A B key iv ma mb → SyncOperation.PeerID op = A →
  SyncOperation.Type_ op = OpCreate ∨ SyncOperation.Type_ op = OpUpdate →
  OS.faults (disk ma) = [] → is_empty (SyncOperation.Path op) = false →
  OS.look (Join2 (Config.FolderPath (config ma)) (SyncOperation.Path op)) (disk ma) = Some (OS.File x) →
  (BroadcastOperation blake3 P jt jv op ma).2 = (SendFile blake3 P jt jv B (OS.content x) op ma).2.
Proof.
  intros Hlink HA Hty Hdf Hpe Hl. unfold BroadcastOperation, mbind at 1, gom_bind at 1. rewrite (l_peers _ _ _ _ _ _ _ Hlink).
  cbn [broadcast_all]. rewrite bool_decide_eq_false_2 by (rewrite HA; apply Hlink).
  unfold mbind, gom_bind, broadcast_to. rewrite bool_decide_eq_true_2 by done.
  assert (Messenger.on_disk (OS.ReadFile (Join2 (Config.FolderPath (config ma)) (SyncOperation.Path op))) ma =
    (Ok (OS.content x), ma)) as ->.
  { unfold Messenger.on_disk. rewrite (ReadFile_fine (disk ma) _ x Hdf) by (rewrite Join2_clean; done). by destruct ma. }
  unfold mbind, gom_bind. destruct (SendFile _ _ _ _ _ _ _ _) as [[[op' [e|]]|e|w] m']; done.
Qed.

(** What is broadcast crosses the wire and is opened and forwarded. *)
Lemma broadcast_crosses A B key iv ma mb op x :
  linked P A B key iv ma mb → SyncOperation.PeerID op = A →
  SyncOperation.Type_ op = OpCreate ∨ SyncOperation.Type_ op = OpUpdate →
  OS.faults (disk ma) = [] → is_empty (SyncOperation.Path op) = false →
  OS.look (Join2 (Config.FolderPath (config ma)) (SyncOperation.Path op)) (disk ma) = Some (OS.File x) → OS.content x ≠ [] →
  zlen (OS.content x) ≤ Config.ChunkSizeDefault (config ma) → zlen (OS.content x) ≤ Config.FileSizeThreshold (config ma) →
  let b := BLogEntry (payload_of_op (uncompressed op) (OS.content x)) in
  jv (jt (enc_body b)) = Ok (enc_body b) → valid_body b →
  ∃ d rest received msg,
    Net.sent (Messenger.transport (BroadcastOperation blake3 P jt jv op ma).2) = Net.sent (Messenger.transport ma) ++ d :: rest ∧
    Net.to_peer d = B ∧ wire (Net.message d) = Ok received ∧ Message.Type_ msg = TypeSyncOperation ∧
    Messenger.HandleMessage P jv received mb = (Ok (Some (operation_message msg (uncompressed op) (OS.content x))), mb).
Proof.
  intros Hlink HA Hty Hf Hpath Hl Hd Hcs Hth b Hjv Hv.
  rewrite (BroadcastOperation_one A B key iv ma mb op x) by done.
  destruct (SendFile_small A B key iv ma mb op (OS.content x)) as (em & addr & port & rest & He & ->); [done..|]. fold b.
  set (msg := NewMessage _ _ _ _). destruct (l_BA _ _ _ _ _ _ _ Hlink) as (conn & Hc & Hkey).
  destruct (sealed_message_opens P jt jv msg b key iv em mb conn) as (received & Hwire & Hrecv); try done; try by apply Hlink.
  eexists _, rest, received, msg. split; [reflexivity|]. split; [done|]. split; [exact Hwire|]. split; [done|exact Hrecv].
Qed.
End Broadcast.

(** ** The receiving side *)

(** The delivered operation of a local update. *)
Definition delivered_update (now : time) (rel : string) (checksum id : string) (size : Z) (a : Engine.t) : SyncOperation.t :=
  delivered (uncompressed (EngineBehaviour.stamped a (update_op now rel id checksum size (Engine.peerID a)))).

(** Waiting tasks and recent writes do not matter to a goroutine. *)
Lemma handed_parts now data op e :
  Engine.fs (handed now data op e) = Engine.fs e ∧ Engine.db (handed now data op e) = Engine.db e ∧
  Engine.FolderPath (handed now data op e) = Engine.FolderPath e ∧ Engine.vectorClock (handed now data op e) = Engine.vectorClock e.
Proof. unfold handed, Engine.HandleIncomingFile, gmodify. cbn. by destruct (negb _). Qed.

(** The goroutine of the file handed over last. *)
Lemma run_handed now now' rand data op e :
  let p := Join2 (Engine.FolderPath e) (SyncOperation.Path op) in
  SyncOperation.Type_ op = OpCreate ∨ SyncOperation.Type_ op = OpUpdate → SyncOperation.Source op = "remote"%string →
  is_empty (SyncOperation.Path op) = false → writable rand p (Engine.fs e) → remote_wins op e →
  let '(r, e') := Engine.run_task now' rand (length (Engine.tasks e)) (handed now data op e) in
  r = Ok tt ∧ OS.look p (Engine.fs e') = Some (EngineBehaviour.received now' data op) ∧
  (∀ q, q ≠ p → OS.look q (Engine.fs e') = OS.look q (Engine.fs e)) ∧
  Engine.db e' = (DB.InsertFile now' (Engine.remote_metadata op) (Engine.db e)).2 ∧
  Engine.vectorClock e' = VectorClock.Merge (Engine.vectorClock e) (default ∅ (SyncOperation.VectorClock op)).
Proof.
  intros p Hty Hsrc Hpath Hw Hr. unfold Engine.run_task. rewrite handed_tasks. rewrite lookup_app_r, Nat.sub_diag by lia. cbn [list_lookup].
  assert (SyncOperation.with_Source "remote" op = op) as -> by (destruct op; cbn in Hsrc; by subst).
  destruct (handed_parts now data op e) as (Hfs & Hdb & Hf & Hvc). set (e1 := handed now data op e) in *.
  cbn [lookup list_lookup]. set (e2 := Engine.with_tasks _ e1).
  assert (Engine.fs e2 = Engine.fs e ∧ Engine.db e2 = Engine.db e ∧ Engine.FolderPath e2 = Engine.FolderPath e ∧
    Engine.vectorClock e2 = Engine.vectorClock e) as (Hfs2 & Hdb2 & Hf2 & Hvc2) by done.
  rewrite (processIncoming_remote now' rand data op e2); [|done|done|by rewrite Hf2, Hfs2|by unfold remote_wins; rewrite Hdb2].
  rewrite Hf2. fold p. unfold applied. cbn [Engine.fs Engine.db Engine.vectorClock Engine.with_watcher Engine.with_db Engine.with_fs Engine.with_vectorClock].
  rewrite Hfs2, Hdb2, Hvc2. split_and!; [done| | |done|done].
  - unfold OS.look, OS.put, OS.set_nodes. cbn. by rewrite lookup_insert_eq.
  - intros q Hq. unfold OS.look, OS.put, OS.set_nodes. cbn. by rewrite lookup_insert_ne.
Qed.

(** C2: An edit reaches the other machine.  When a tracked file is changed on
    one node, and the node is linked to another by a session key, the operation
    that the handler of the change sends, broadcast by the messenger, leaves as
    one message which survives the wire, is decrypted and forwarded there, is
    handed to the engine, and written by its goroutine: the file then holds the
    edited content under the same relative path and carries the identifier, no
    other file has changed, the record has the edit's checksum and vector clock,
    and the clock of that node has been merged with it.  This is so unless the
    other node records a version the edit does not follow, or cannot write. *)
Theorem edit_reaches_peer blake3 P L jt jv now t1 t2 rand A B key iv rel id x e ma mb h eb :
  let path := Join2 (Engine.FolderPath e) rel in
  let checksum := Hashing.HashString blake3 (OS.content x) in
  let op := EngineBehaviour.stamped e (update_op now rel id checksum (zlen (OS.content x)) (Engine.peerID e)) in
  let op' := delivered_update now rel checksum id (zlen (OS.content x)) e in
  (* the edit *)
  OS.faults (Engine.fs e) = [] → OS.look path (Engine.fs e) = Some (OS.File x) →
  OS.xattrs x !! XattrKey = Some id → (0 < String.length id ≤ 256)%nat → is_empty rel = false →
  Rel (Engine.FolderPath e) path = Ok rel → Engine.has_messenger e = true → OS.content x ≠ [] →
  (* the two nodes *)
  Engine.peerID e = A → linked P A B key iv ma mb → disk ma = Engine.fs e → Config.FolderPath (config ma) = Engine.FolderPath e →
  zlen (OS.content x) ≤ Config.ChunkSizeDefault (config ma) → zlen (OS.content x) ≤ Config.FileSizeThreshold (config ma) →
  let b := BLogEntry (payload_of_op (uncompressed op) (OS.content x)) in
  jv (jt (enc_body b)) = Ok (enc_body b) → valid_body b →
  (* the receiving engine *)
  Handler.syncEngine h = Some eb → writable rand (Join2 (Engine.FolderPath eb) rel) (Engine.fs eb) → remote_wins op' eb →
  wf (Engine.db eb) → stored_time t2 →
  let e' := (Engine.handleUpdate blake3 now path e).2 in
  Engine.outbox e' = Engine.outbox e ++ [op] ∧ Engine.fs e' = Engine.fs e ∧
  let ma' := (BroadcastOperation blake3 P jt jv op ma).2 in
  ∃ d rest, Net.sent (Messenger.transport ma') = Net.sent (Messenger.transport ma) ++ d :: rest ∧ Net.to_peer d = B ∧
  ∃ received forwarded eb1, wire (Net.message d) = Ok received ∧
    Messenger.HandleMessage P jv received mb = (Ok (Some forwarded), mb) ∧
    Handler.syncEngine (Handler.HandleMessage blake3 L t1 forwarded h).2 = Some eb1 ∧
    let '(r, eb2) := Engine.run_task t2 rand (length (Engine.tasks eb)) eb1 in
    r = Ok tt ∧
    (∃ f, OS.look (Join2 (Engine.FolderPath eb) rel) (Engine.fs eb2) = Some (OS.File f) ∧
       OS.content f = OS.content x ∧ OS.xattrs f !! XattrKey = Some id) ∧
    (∀ q, q ≠ Join2 (Engine.FolderPath eb) rel → OS.look q (Engine.fs eb2) = OS.look q (Engine.fs eb)) ∧
    (∃ row, DB.GetFileByID id (Engine.db eb2) = Ok row ∧ FileMetadata.Checksum row = checksum ∧
       FileMetadata.VectorClock row = Some (Engine.vectorClock e')) ∧
    Engine.vectorClock eb2 = VectorClock.Merge (Engine.vectorClock eb) (Engine.vectorClock e').
Proof.
  intros path checksum op op' Hf Hl Hx Hid Hrel HRel Hm Hd HA Hlink Hdisk Hfolder Hcs Hth b Hjv Hv Hh Hw Hr Hwf Ht2 e'.
  assert (Clean path = path) as Hcl by by apply Join2_clean.
  assert (∃ row, e' = queued (update_op now rel id checksum (zlen (OS.content x)) (Engine.peerID e))
    (Engine.with_db (DB.InsertFile now row (Engine.db e)).2 e)) as [row He'].
  { eexists. unfold e'. rewrite (handleUpdate_eq blake3 now path rel id x e Hf); [reflexivity|by rewrite Hcl|done..]. }
  rewrite He'. unfold queued. change (EngineBehaviour.stamped (Engine.with_db _ e) _) with op.
  match goal with |- context [Engine.broadcast op ?s] => destruct (broadcast_parts op s) as (_ & -> & -> & _ & _ & _ & _ & ->) end.
  cbn [Engine.has_messenger Engine.with_db Engine.with_operationQueue Engine.with_vectorClock Engine.outbox Engine.fs Engine.vectorClock].
  rewrite Hm. split; [done|]. split; [done|]. cbv zeta.
  assert (SyncOperation.Type_ op = OpUpdate) as Hty by done.
  destruct (broadcast_crosses blake3 P jt jv A B key iv ma mb op x) as (d & rest & received & msg & Hsent & HB & Hwire & Hmsg & Hrecv);
    [done|by subst A|by right|by rewrite Hdisk|done|by rewrite Hdisk, Hfolder|done..|].
  exists d, rest. split; [exact Hsent|]. split; [exact HB|].
  assert (SyncOperation.Type_ (uncompressed op) = OpCreate ∨ SyncOperation.Type_ (uncompressed op) = OpUpdate) as Hty' by by right.
  pose proof (HandleMessage_operation_engine blake3 L t1 msg (uncompressed op) (OS.content x) h eb Hmsg Hty' (OS.content x) Hd eq_refl Hh) as Hfwd.
  exists received, (operation_message msg (uncompressed op) (OS.content x)), (handed t1 (OS.content x) op' eb). split_and!; [done|done|exact Hfwd|].
  pose proof (run_handed t1 t2 rand (OS.content x) op' eb ltac:(by right) eq_refl Hrel Hw Hr) as H.
  destruct (Engine.run_task _ _ _ _) as [r eb2]. destruct H as (-> & Hlook & Hother & Hdb & Hvc). split_and!.
  - done.
  - eexists. split; [exact Hlook|]. split; [done|]. cbn. apply lookup_insert_eq.
  - exact Hother.
  - rewrite Hdb. destruct (InsertFile_GetFileByID t2 (Engine.remote_metadata op') (Engine.db eb) Hwf) as [c Hc']; [|done|].
    + unfold stored_time, exact_f64. by vm_compute.
    + eexists. split; [exact Hc'|]. by split.
  - exact Hvc.
Qed.

Definition demo_sender (e : Engine.t) : Messenger.t := Messenger.with_disk (Engine.fs e) (demo_messenger "A" "B").

Lemma demo_linked e : linked demo_primitives "A" "B" demo_key demo_iv (demo_sender e) (demo_messenger "B" "A").
Proof.
  split; first [exact demo_authentic|reflexivity|discriminate|by vm_compute|by eexists|cbn; lia].
Qed.

Lemma edit_reaches_peer_witness :
  let a := demo_engine "A" "new" DB.initSchema in
  let b := demo_engine "B" "old" DB.initSchema in
  let op := EngineBehaviour.stamped a (update_op 7 "a.txt" "f1" (Hashing.HashString blake3_demo (to_bytes "new")) 3 "A") in
  let j := enc_body (BLogEntry (payload_of_op (uncompressed op) (to_bytes "new"))) in
  ∃ d rest received forwarded b1,
    Net.sent (Messenger.transport (BroadcastOperation blake3_demo demo_primitives (λ _, to_bytes "{}") (λ _, Ok j) op (demo_sender a)).2) = d :: rest ∧
    wire (Net.message d) = Ok received ∧
    Messenger.HandleMessage demo_primitives (λ _, Ok j) received (demo_messenger "B" "A") = (Ok (Some forwarded), demo_messenger "B" "A") ∧
    Handler.syncEngine (Handler.HandleMessage blake3_demo demo_libraries 8 forwarded (demo_handler "B" b)).2 = Some b1 ∧
    ∃ f, OS.look "/sync/a.txt" (Engine.fs (Engine.run_task 9 "x" 0 b1).2) = Some (OS.File f) ∧ OS.content f = to_bytes "new".
Proof.
  cbv zeta.
  destruct (edit_reaches_peer blake3_demo demo_primitives demo_libraries (λ _, to_bytes "{}")
    (λ _, Ok (enc_body (BLogEntry (payload_of_op (uncompressed (EngineBehaviour.stamped (demo_engine "A" "new" DB.initSchema)
      (update_op 7 "a.txt" "f1" (Hashing.HashString blake3_demo (to_bytes "new")) 3 "A"))) (to_bytes "new")))))
    7 8 9 "x" "A" "B" demo_key demo_iv "a.txt" "f1" (demo_file "new") (demo_engine "A" "new" DB.initSchema)
    (demo_sender (demo_engine "A" "new" DB.initSchema)) (demo_messenger "B" "A")
    (demo_handler "B" (demo_engine "B" "old" DB.initSchema)) (demo_engine "B" "old" DB.initSchema)
    eq_refl eq_refl eq_refl ltac:(simpl; lia) eq_refl ltac:(reflexivity) eq_refl ltac:(discriminate) eq_refl (demo_linked _) eq_refl eq_refl
    ltac:(by vm_compute) ltac:(by vm_compute) eq_refl
    ltac:(split_and!; [by vm_compute|exact (proj2 (map_Forall_singleton (λ _ : string, in64) "A"%string 1) ltac:(by vm_compute))|by vm_compute|by vm_compute|done|done])
    eq_refl ltac:(by split) I initSchema_wf ltac:(by vm_compute))
    as (_ & _ & d & rest & H1 & _ & received & forwarded & b1 & H2 & H3 & H4 & H5).
  exists d, rest, received, forwarded, b1. split; [exact H1|]. split; [exact H2|]. split; [exact H3|]. split; [exact H4|].
  change (length (Engine.tasks (demo_engine "B" "old" DB.initSchema))) with 0%nat in H5.
  destruct (Engine.run_task _ _ _ b1) as [r b2]. destruct H5 as (_ & (f & Hf & Hc & _) & _). exists f. by split.
Defined.

(** ** What reaches an engine *)

(** A decoded payload is a pointer to the struct of its message type. *)
Lemma DecodePayload_typed j ty p : DecodePayload j ty = Ok p → ∃ b, p = PPointer b ∧ type_of b = Some ty.
Proof.
  assert (∀ A (c : codec A) inject, unmarshal c inject j = Ok p → ∃ a, p = PPointer (inject a)) as Hu.
  { intros A c inject. unfold unmarshal. destruct (dec c (zero c) j); cbn; [|done..]. intros [= <-]. by eexists. }
  unfold DecodePayload. repeat (case_decide; [intros [a ->]%Hu; subst; by eexists|]). done.
Qed.

(** What the engine and the chunk tables of a handler are. *)
Definition same_files (h h' : Handler.t) : Prop :=
  Handler.syncEngine h' = Handler.syncEngine h ∧ Handler.assembledChunks h' = Handler.assembledChunks h ∧
  Handler.chunkMetadata h' = Handler.chunkMetadata h.

Lemma generic_changes_no_file blake3 L now msg j h :
  Message.Payload msg = PGeneric j → same_files h (Handler.HandleMessage blake3 L now msg h).2.
Proof.
  intros Hp.
  assert (∀ ok err, same_files h (Handler.sendAcknowledgment now msg ok err h).2) as Hack.
  { intros ok err. by destruct (sendAcknowledgment_quiet now msg ok err h) as (_ & ? & ? & ? & _). }
  unfold Handler.HandleMessage. repeat (case_decide; [try done; try apply Hack|]); try done.
  - unfold Handler.handleStateDeclaration. destruct (Handler.syncEngine h); [done|apply Hack].
  - unfold Handler.handleSyncOperation. by rewrite Hp.
  - unfold Handler.handleChunk. by rewrite Hp.
  - unfold Handler.handleHeartbeat. by destruct (Handler.heartbeatManager h).
Qed.


