(* ===== verification/Replication.v ===== *)
(** * A writer's edits reach a reader in any order

    The edits made on one node, one after the other, are a causal history; so a
    node that only reads ends with the last of them, in whatever order and however
    often they are delivered. *)

From Stdlib Require Import Strings.Byte Strings.String.
From S2P Require Import Prelude GoStrings GoPath Clock Conflict Hashing Database DatabaseProps Filesystem Operation Engine EngineProps EngineBehaviour EngineTasks Convergence Messages Compression Encryption Connection Transport Handler Messenger MessengerProps Propagation.
Import Engine.

Section Writer.
Context (blake3 : bytes → bytes) (path rel id : string).

(** One edit: the file is on the disk as it is now, and the change is handled. *)
Definition edit (ed : time * OS.file) (a : Engine.t) : Engine.t :=
  (handleUpdate blake3 ed.1 path (with_fs (OS.put (Clean path) (OS.File ed.2) (fs a)) a)).2.

Definition edit_all (eds : list (time * OS.file)) (a : Engine.t) : Engine.t := foldl (λ a ed, edit ed a) a eds.

Definition sum (ed : time * OS.file) : string := Hashing.HashString blake3 (OS.content ed.2).

(** The operation of an edit. *)
Definition op_of (ed : time * OS.file) (a : Engine.t) : SyncOperation.t :=
  stamped a (update_op ed.1 rel id (sum ed) (zlen (OS.content ed.2)) (peerID a)).

Fixpoint ops_of (eds : list (time * OS.file)) (a : Engine.t) : list SyncOperation.t :=
  match eds with [] => [] | ed :: rest => op_of ed a :: ops_of rest (edit ed a) end.

(** A node that can record its edits. *)
Record can_edit (n : Z) (a : Engine.t) : Prop := {
  e_fine : OS.faults (fs a) = []; e_inside : Rel (FolderPath a) path = Ok rel; e_messenger : has_messenger a = true;
  e_clock : VectorClock.wf (vectorClock a); e_room : VectorClock.Get (vectorClock a) (peerID a) + n < two63
}.

Definition tracked (ed : time * OS.file) : Prop :=
  OS.xattrs ed.2 !! XattrKey = Some id ∧ (0 < String.length id ≤ 256)%nat.

Lemma edit_spec ed a n :
  can_edit n a → 0 < n → tracked ed →
  can_edit (n - 1) (edit ed a) ∧ outbox (edit ed a) = outbox a ++ [op_of ed a] ∧
  vectorClock (edit ed a) = VectorClock.Increment (vectorClock a) (peerID a) ∧ peerID (edit ed a) = peerID a ∧
  FolderPath (edit ed a) = FolderPath a ∧ fs (edit ed a) = OS.put (Clean path) (OS.File ed.2) (fs a).
Proof.
  intros [Hf HR Hm Hw Hroom] Hn [Hx Hid]. unfold edit. set (a0 := with_fs _ a).
  assert (OS.faults (fs a0) = []) as Hf0 by by destruct (fs a).
  assert (OS.look (Clean path) (fs a0) = Some (OS.File ed.2)) as Hl by apply lookup_insert_eq.
  rewrite (handleUpdate_eq blake3 ed.1 path rel id ed.2 a0) by done. cbn [snd]. unfold queued.
  change (stamped (with_db _ a0) _) with (op_of ed a).
  match goal with |- context [broadcast ?o ?s] => destruct (broadcast_parts o s) as (_ & Bfs & Bvc & Bp & BF & _ & _ & Bo);
    assert (has_messenger (broadcast o s) = true) as Bm by (unfold broadcast; replace (has_messenger s) with true by (by symmetry; exact Hm); exact Hm) end.
  rewrite Bo, Bvc, Bp, BF, Bfs. cbn [has_messenger outbox with_db with_operationQueue with_vectorClock vectorClock peerID].
  change (has_messenger a0) with (has_messenger a). rewrite Hm. split; [|by split_and!].
  assert (VectorClock.Get (vectorClock a) (peerID a) < two63 - 1) as Hlt by lia.
  split; [by etrans; [exact (f_equal OS.faults Bfs)|]|etrans; [exact (f_equal (λ F, Rel F path) BF)|exact HR]|exact Bm
         |by eapply eq_ind_r; [|exact Bvc]; apply Increment_wf|].
  eapply (eq_ind_r (λ v, VectorClock.Get v _ + _ < two63)); [|exact Bvc]. eapply (eq_ind_r (λ q, VectorClock.Get _ q + _ < two63)); [|exact Bp].
  cbn. change (vectorClock a0) with (vectorClock a). change (peerID a0) with (peerID a). unfold VectorClock.Increment. autorewrite with go.
  rewrite decide_True by done. pose proof (wf_Get _ (peerID a) Hw). rewrite wrap64_id; [lia|unfold in64, two63 in *; lia].
Qed.

(** What the goroutine of a peer gets of an edit: the bytes, and the operation
    that its message carries. *)
Definition version_of (ed : time * OS.file) (a : Engine.t) : version :=
  (OS.content ed.2, delivered (uncompressed (op_of ed a))).

Fixpoint history (eds : list (time * OS.file)) (a : Engine.t) : list version :=
  match eds with [] => [] | ed :: rest => version_of ed a :: history rest (edit ed a) end.

Lemma ops_of_snoc eds ed a : ops_of (eds ++ [ed]) a = ops_of eds a ++ [op_of ed (edit_all eds a)].
Proof. revert a. induction eds as [|ed0 eds IH]; intros a; [done|]. cbn [ops_of app edit_all foldl]. by rewrite IH. Qed.

Lemma history_app eds eds' a : history (eds ++ eds') a = history eds a ++ history eds' (edit_all eds a).
Proof. revert a. induction eds as [|ed0 eds IH]; intros a; [done|]. cbn [history app edit_all foldl]. by rewrite IH. Qed.

Lemma history_snoc eds ed a : history (eds ++ [ed]) a = history eds a ++ [version_of ed (edit_all eds a)].
Proof. apply history_app. Qed.

(** All edits: what is sent, and that the clocks grow. *)
Lemma edit_all_spec eds a n :
  can_edit n a → zlen eds ≤ n → Forall tracked eds →
  (can_edit (n - zlen eds) (edit_all eds a) ∧ peerID (edit_all eds a) = peerID a ∧ FolderPath (edit_all eds a) = FolderPath a) ∧
  outbox (edit_all eds a) = outbox a ++ ops_of eds a ∧
  Forall (λ x, vectorClock a <ᵥ clock x) (history eds a) ∧
  Forall (λ x, clock x ≤ᵥ vectorClock (edit_all eds a)) (history eds a) ∧
  StronglySorted (λ x y, clock x <ᵥ clock y) (history eds a).
Proof.
  revert a n. induction eds as [|ed eds IH]; intros a n Ha Hn Ht.
  { rewrite Z.sub_0_r, app_nil_r. split; [by split_and!|]. split_and!; [done|constructor|constructor|constructor]. }
  apply Forall_cons in Ht as [Hed Ht]. assert (zlen (ed :: eds) = zlen eds + 1) as El by (simpl; lia). rewrite El in *.
  destruct (edit_spec ed a n Ha) as (Ha1 & Ho & Hvc & Hp & HF & _); [lia|done|].
  destruct (IH _ (n - 1) Ha1 ltac:(lia) Ht) as ((Hc & Hp2 & HF2) & Ho2 & Hlow & Hhigh & Hs).
  assert (clock (version_of ed a) = vectorClock (edit ed a)) as Hv by by rewrite Hvc.
  assert (vectorClock a <ᵥ vectorClock (edit ed a)) as Hlt.
  { rewrite Hvc. apply Increment_lt; [apply Ha|]. pose proof (e_room _ _ Ha). lia. }
  cbn [ops_of history edit_all foldl]. fold (edit_all eds (edit ed a)). split_and!.
  - by replace (n - (zlen eds + 1)) with (n - 1 - zlen eds) by lia.
  - by rewrite Hp2.
  - by rewrite HF2.
  - by rewrite Ho2, Ho, <- app_assoc.
  - constructor; [by rewrite Hv|]. eapply Forall_impl; [exact Hlow|]. intros x Hx. by etrans.
  - constructor; [|done]. rewrite Hv. clear - Hlow Hhigh. destruct eds as [|ed2 eds]; [done|]. cbn [history] in *.
    apply Forall_cons in Hlow as [[Hlow _] _]. apply Forall_cons in Hhigh as [Hhigh _]. by etrans.
  - constructor; [done|]. eapply Forall_impl; [exact Hlow|]. intros x Hx. by rewrite Hv.
Qed.

(** The edits of contents that differ are a causal history. *)
Lemma history_elem eds a x :
  x ∈ history eds a → ∃ ed a', ed ∈ eds ∧ x = version_of ed a'.
Proof.
  revert a. induction eds as [|ed eds IH]; intros a; [by intros ?%elem_of_nil|]. intros [->|Hx]%elem_of_cons; [by exists ed, a; split; [left|]|].
  destruct (IH _ Hx) as (ed' & a' & ? & ->). exists ed', a'. by split; [right|].
Qed.

Lemma history_chain {h : list version} x y :
  StronglySorted (λ x y, clock x <ᵥ clock y) h → x ∈ h → y ∈ h → x = y ∨ clock x <ᵥ clock y ∨ clock y <ᵥ clock x.
Proof.
  induction 1 as [|z h Hs IH Hz]; [by intros ?%elem_of_nil|]. rewrite Forall_forall in Hz.
  intros [->|Hx]%elem_of_cons [->|Hy]%elem_of_cons; auto.
Qed.

Lemma history_content eds a x y :
  NoDup (sum <$> eds) → x ∈ history eds a → y ∈ history eds a →
  SyncOperation.Checksum x.2 = SyncOperation.Checksum y.2 → x = y.
Proof.
  revert a. induction eds as [|ed eds IH]; intros a; [by intros _ ?%elem_of_nil|]. cbn [history].
  rewrite fmap_cons, NoDup_cons. intros [Hni Hnd].
  assert (∀ z, z ∈ history eds (edit ed a) → SyncOperation.Checksum z.2 = sum ed → False) as Hother.
  { intros z (ed' & a' & Hed & ->)%history_elem E. apply Hni. change (sum ed' = sum ed) in E. rewrite <- E. by apply list_elem_of_fmap_2. }
  intros [->|Hx]%elem_of_cons [->|Hy]%elem_of_cons E; [done|by destruct (Hother y)|by destruct (Hother x)|by eapply IH].
Qed.

Lemma history_causal eds a n :
  can_edit n a → zlen eds ≤ n → Forall tracked eds → NoDup (sum <$> eds) → causal_history id rel (history eds a).
Proof.
  intros Ha Hn Ht Hnd. destruct (edit_all_spec eds a n Ha Hn Ht) as (_ & _ & _ & _ & Hs). split.
  - intros x (ed & a' & _ & ->)%history_elem. by right.
  - by intros x (ed & a' & _ & ->)%history_elem.
  - by intros x (ed & a' & _ & ->)%history_elem.
  - intros x (ed & a' & _ & ->)%history_elem. unfold stored_time, exact_f64. by vm_compute.
  - intros x y. by apply history_chain.
  - intros x y. by apply history_content.
Qed.
End Writer.

(** An engine that knew nothing of the file, to which the operations of the
    edits come in any order, has the last edit once that has arrived. *)
Lemma edits_reach_engine blake3 path rel id F eds ed a evs b :
  let edits := eds ++ [ed] in let sum := λ ed : time * OS.file, Hashing.HashString blake3 (OS.content ed.2) in
  let a' := edit_all blake3 path edits a in let b' := run blake3 evs b in
  let h := history blake3 path rel id edits a in
  can_edit path rel (zlen edits) a → Forall (tracked id) edits → NoDup (sum <$> edits) → is_empty rel = false →
  unknown F id rel b → Dir (Join2 F rel) ≠ Join2 F rel → Forall (allowed F rel h (fs b)) evs →
  tasks b' = [] → version_of blake3 rel id ed (edit_all blake3 path eds a) ∈ arrivals evs →
  outbox a' = outbox a ++ ops_of blake3 path rel id edits a ∧
  (∃ f, OS.look (Join2 F rel) (fs b') = Some (OS.File f) ∧ OS.content f = OS.content ed.2 ∧ OS.xattrs f !! XattrKey = Some id) ∧
  (∃ row, DB.GetFileByID id (db b') = Ok row ∧ FileMetadata.Checksum row = sum ed ∧
     FileMetadata.VectorClock row = Some (vectorClock a')) ∧
  ∀ q, q ≠ Join2 F rel → OS.look q (fs b') = OS.look q (fs b).
Proof.
  intros edits sum' a' b' h Ha Ht Hnd Hrel Hu Hdir Hevs Htasks Hlast.
  pose proof (history_causal blake3 path rel id edits a _ Ha ltac:(lia) Ht Hnd) as Hh.
  destruct (edit_all_spec blake3 path rel id edits a _ Ha ltac:(lia) Ht) as (_ & Ho & _ & _ & Hs). split; [exact Ho|].
  destruct (versions_converge blake3 F id rel h evs b) as [(x & [Hx Hnew] & Hdisk & row & Hrow & _ & Hsum & Hvc) Hother]; [done..| |].
  { intros E. rewrite E in Hlast. by apply elem_of_nil in Hlast. }
  set (v := version_of _ _ _ _ _) in Hlast.
  assert (x = v) as ->.
  { destruct (Hnew v Hlast) as [|Hlt]; [done|]. exfalso.
    assert (x ∈ h) as Hxh.
    { clear -Hx Hevs. unfold arrivals in Hx. apply list_elem_of_omap in Hx as (ev & Hev & E). rewrite Forall_forall in Hevs.
      specialize (Hevs ev Hev). destruct ev; try done. cbn in E. by injection E as <-. }
    unfold h, edits in Hxh, Hs. rewrite history_snoc in Hxh, Hs. fold v in Hxh, Hs.
    apply elem_of_app in Hxh as [Hxh|Hxh%list_elem_of_singleton]; [|subst; by apply vlt_irreflexive in Hlt].
    apply StronglySorted_app in Hs as (Hs & _ & _). specialize (Hs x v Hxh ltac:(by left)). by eapply vlt_irreflexive; etrans. }
  split; [exact Hdisk|]. split; [|exact Hother]. exists row. split; [exact Hrow|]. split; [exact Hsum|]. rewrite Hvc.
  apply Forall_app in Ht as [Ht Hed]. apply Forall_cons in Hed as [Hed _].
  assert (zlen edits = zlen eds + 1) as Hlen by (unfold edits; rewrite length_app; simpl; lia). rewrite Hlen in Ha.
  destruct (edit_all_spec blake3 path rel id eds a _ Ha ltac:(lia) Ht) as ((Hc & _) & _).
  destruct (edit_spec blake3 path rel id ed _ _ Hc ltac:(lia) Hed) as (_ & _ & Hv & _).
  unfold a', edits, edit_all. rewrite foldl_app. cbn [foldl]. fold (edit_all blake3 path eds a). rewrite Hv. done.
Qed.


(** ** Over the network *)

Section Network.
Context (blake3 : bytes → bytes) (L : libraries) (path rel id : string).

(** A message, as the messenger forwards it to the handler, with an edit. *)
Definition carries (f : Message.t) (ed : time * OS.file) (a : Engine.t) : Prop :=
  ∃ msg, Message.Type_ msg = TypeSyncOperation ∧
    f = operation_message msg (uncompressed (op_of blake3 rel id ed a)) (OS.content ed.2).

(** What happens at a node: a message is forwarded to its handler, or something
    in its engine. *)
Inductive node_event : Type :=
  | Delivered (now : time) (f : Message.t)
  | Internal (ev : event).

Definition node_step (ev : node_event) (h : Handler.t) : Handler.t :=
  match ev with
  | Delivered now f => (Handler.HandleMessage blake3 L now f h).2
  | Internal ev => (Handler.on_engine (handle blake3 ev) h).2
  end.
Definition node_run (evs : list node_event) (h : Handler.t) : Handler.t := foldl (λ h ev, node_step ev h) h evs.

(** Messages with one of [edits], the goroutines and the tickers. *)
Definition node_allowed (F : string) (edits : list (time * OS.file)) (a : Engine.t) (s : OS.t) (ev : node_event) : Prop :=
  match ev with
  | Delivered _ f => ∃ pre ed post, edits = pre ++ ed :: post ∧ carries f ed (edit_all blake3 path pre a)
  | Internal ev => arrival ev = None ∧ allowed F rel (history blake3 path rel id edits a) s ev
  end.

(** It tells which. *)
Lemma carries_version f ed a ed' a' : carries f ed a → carries f ed' a' → version_of blake3 rel id ed a = version_of blake3 rel id ed' a'.
Proof.
  intros (msg & _ & E) (msg' & _ & E'). rewrite E in E'. unfold operation_message in E'.
  set (g := λ f, match Message.Payload f with
                 | PPointer (BLogEntry p) => match Handler.op_of_payload p with Ok op => (LogEntryPayload.Data p, op) | _ => ([], op_of blake3 rel id ed a) end
                 | _ => ([], op_of blake3 rel id ed a)
                 end).
  exact (f_equal g E').
Qed.

(** A forwarded edit is a version that arrives. *)
Lemma carries_received now f ed a h e :
  OS.content ed.2 ≠ [] → carries f ed a → Handler.syncEngine h = Some e →
  Handler.syncEngine (node_step (Delivered now f) h) =
    Some (handle blake3 (Received now (version_of blake3 rel id ed a).1 (version_of blake3 rel id ed a).2) e).2.
Proof.
  intros Hd (msg & Hty & ->) He. cbn [node_step].
  by rewrite (HandleMessage_operation_engine blake3 L now msg (uncompressed (op_of blake3 rel id ed a)) (OS.content ed.2) h e Hty ltac:(by right) (OS.content ed.2) Hd eq_refl He).
Qed.

Lemma internal_step ev h e :
  Handler.syncEngine h = Some e → Handler.syncEngine (node_step (Internal ev) h) = Some (handle blake3 ev e).2.
Proof. intros He. cbn [node_step]. unfold Handler.on_engine. rewrite He. by destruct (handle blake3 ev e). Qed.

(** The node's events as those of its engine. *)
Lemma node_run_engine F edits a s evs h e :
  Forall (λ ed, OS.content ed.2 ≠ []) edits → Handler.syncEngine h = Some e → Forall (node_allowed F edits a s) evs →
  ∃ evs', Handler.syncEngine (node_run evs h) = Some (run blake3 evs' e) ∧
    Forall (allowed F rel (history blake3 path rel id edits a) s) evs' ∧
    ∀ now f, Delivered now f ∈ evs → ∃ pre ed post, edits = pre ++ ed :: post ∧ carries f ed (edit_all blake3 path pre a) ∧
      version_of blake3 rel id ed (edit_all blake3 path pre a) ∈ arrivals evs'.
Proof.
  intros Hne. revert h e. induction evs as [|ev evs IH]; intros h e He Hall.
  { exists []. split; [done|]. split; [done|]. by intros ? ? ?%elem_of_nil. }
  apply Forall_cons in Hall as [Hev Hall].
  assert (∃ ev', Handler.syncEngine (node_step ev h) = Some (handle blake3 ev' e).2 ∧ allowed F rel (history blake3 path rel id edits a) s ev' ∧
    ∀ now f, ev = Delivered now f → ∃ pre ed post, edits = pre ++ ed :: post ∧ carries f ed (edit_all blake3 path pre a) ∧
      arrival ev' = Some (version_of blake3 rel id ed (edit_all blake3 path pre a))) as (ev' & He' & Hev' & Harr).
  { destruct ev as [now f|ev].
    - destruct Hev as (pre & ed & post & -> & Hc). apply Forall_app in Hne as [_ Hne]. apply Forall_cons in Hne as [Hne _].
      eexists. split; [by apply (carries_received now f ed (edit_all blake3 path pre a))|]. split.
      + cbn. rewrite history_app. apply elem_of_app. right. by left.
      + intros ? ? [= <- <-]. by exists pre, ed, post.
    - destruct Hev as [_ Hev]. exists ev. split; [by apply internal_step|]. by split. }
  destruct (IH _ _ He' Hall) as (evs' & Hr & Hall' & Hdel). exists (ev' :: evs'). split; [exact Hr|]. split; [by constructor|].
  intros now f [<-|Hin]%elem_of_cons.
  - destruct (Harr now f eq_refl) as (pre & ed & post & ? & ? & Ha). exists pre, ed, post. split; [done|]. split; [done|].
    unfold arrivals. cbn. rewrite Ha. by left.
  - destruct (Hdel now f Hin) as (pre & ed & post & ? & ? & Ha). exists pre, ed, post. split; [done|]. split; [done|].
    unfold arrivals in *. cbn. destruct (arrival ev'); [by right|done].
Qed.
End Network.

(** C1: A writer's edits are replicated.  A node changes a tracked file, several
    times over, to contents of different hashes.  Each change makes one operation,
    and its broadcast over a link with a session key leaves as a message that
    survives the wire and is opened and forwarded at the other end.  A node that
    knew nothing of the file, and to whose handler these messages come in any
    order, each any number of times or, the last one apart, not at all, while its
    tickers fire and its goroutines run in any order, has the content of the last
    change on its disk as soon as that one has come and no goroutine waits; its
    record has that content's hash and the writer's final vector clock; and it
    changed no other file. *)
Theorem edits_replicated blake3 L P jt jv rel id F A eds ed a h b :
  let path := Join2 (FolderPath a) rel in let edits := eds ++ [ed] in
  let sum := λ ed : time * OS.file, Hashing.HashString blake3 (OS.content ed.2) in
  can_edit path rel (zlen edits) a → peerID a = A → Forall (tracked id) edits → Forall (λ ed, OS.content ed.2 ≠ []) edits →
  NoDup (sum <$> edits) → is_empty rel = false →
  Handler.syncEngine h = Some b → unknown F id rel b → Dir (Join2 F rel) ≠ Join2 F rel →
  (* what is sent *)
  (∀ pre x post ma mb key iv B, edits = pre ++ x :: post →
     let e := edit_all blake3 path pre a in let e' := edit blake3 path x e in let op := op_of blake3 rel id x e in
     linked P A B key iv ma mb → Messenger.disk ma = fs e' → Config.FolderPath (Messenger.config ma) = FolderPath a →
     zlen (OS.content x.2) ≤ Config.ChunkSizeDefault (Messenger.config ma) →
     zlen (OS.content x.2) ≤ Config.FileSizeThreshold (Messenger.config ma) →
     let body := BLogEntry (Messenger.payload_of_op (uncompressed op) (OS.content x.2)) in
     jv (jt (enc_body body)) = Ok (enc_body body) → valid_body body →
     outbox e' = outbox e ++ [op] ∧
     ∃ d rest received f,
       Net.sent (Messenger.transport (Messenger.BroadcastOperation blake3 P jt jv op ma).2) = Net.sent (Messenger.transport ma) ++ d :: rest ∧
       Net.to_peer d = B ∧ wire (Net.message d) = Ok received ∧
       Messenger.HandleMessage P jv received mb = (Ok (Some f), mb) ∧ carries blake3 rel id f x e) ∧
  (* what becomes of it *)
  (∀ evs b', Forall (node_allowed blake3 path rel id F edits a (fs b)) evs →
     Handler.syncEngine (node_run blake3 L evs h) = Some b' → tasks b' = [] →
     (∃ now f, Delivered now f ∈ evs ∧ carries blake3 rel id f ed (edit_all blake3 path eds a)) →
     (∃ f, OS.look (Join2 F rel) (fs b') = Some (OS.File f) ∧ OS.content f = OS.content ed.2 ∧ OS.xattrs f !! XattrKey = Some id) ∧
     (∃ row, DB.GetFileByID id (db b') = Ok row ∧ FileMetadata.Checksum row = sum ed ∧
        FileMetadata.VectorClock row = Some (vectorClock (edit_all blake3 path edits a))) ∧
     ∀ q, q ≠ Join2 F rel → OS.look q (fs b') = OS.look q (fs b)).
Proof.
  intros path edits sum' Ha HA Ht Hne Hnd Hrel Hh Hu Hdir. assert (Clean path = path) as Hp by by apply Join2_clean. split.
  - intros pre x post ma mb key iv B E e e' op Hlink Hdisk HF Hcs Hth body Hj Hv. rewrite E in Ha, Ht, Hne.
    apply Forall_app in Ht as [Htp Ht]. apply Forall_cons in Ht as [Htx _]. apply Forall_app in Hne as [_ Hne]. apply Forall_cons in Hne as [Hnx _].
    rewrite length_app in Ha. cbn [Datatypes.length] in Ha.
    destruct (edit_all_spec blake3 path rel id pre a _ Ha ltac:(lia) Htp) as ((Hc & Hself & Hfold) & _).
    destruct (edit_spec blake3 path rel id x _ _ Hc ltac:(lia) Htx) as (Hc' & Ho & _ & _ & _ & Hfs). split; [exact Ho|].
    destruct (broadcast_crosses blake3 P jt jv A B key iv ma mb op x.2) as (d & rest & received & msg & Hs & HB & Hw & Hty & Hr); try done.
    + etrans; [exact Hself|exact HA].
    + by right.
    + rewrite Hdisk. apply Hc'.
    + cbn. rewrite HF, Hdisk, (Hfs : fs e' = _). fold path. rewrite Hp. apply lookup_insert_eq.
    + eexists d, rest, received, _. split; [exact Hs|]. split; [exact HB|]. split; [exact Hw|]. split; [exact Hr|]. by exists msg.
  - intros evs b' Hevs Hb' Htasks (now & f & Hin & Hlast).
    destruct (node_run_engine blake3 L path rel id F edits a (fs b) evs h b Hne Hh Hevs) as (evs' & Hr & Hall & Hdel).
    rewrite Hr in Hb'. injection Hb' as <-. destruct (Hdel now f Hin) as (pre & x & post & E & Hc & Harr).
    rewrite (carries_version _ _ _ _ _ _ _ _ Hc Hlast) in Harr. by apply (edits_reach_engine blake3 path rel id F eds ed a evs' b).
Qed.

(** "A" writes twice and broadcasts the second change; "B" gets it twice, and
    the first one late. *)
Definition demo_edited : Engine.t := edit_all blake3_demo "/sync/a.txt" [(7, demo_file "one")] (demo_engine "A" "draft" DB.initSchema).
Definition demo_forwarded (ed : time * OS.file) (a : Engine.t) : Message.t :=
  operation_message (NewMessage 8 TypeSyncOperation "A" (PGeneric (Json.JString ""))) (uncompressed (op_of blake3_demo "a.txt" "f1" ed a)) (OS.content ed.2).

Definition demo_edits : list (time * OS.file) := [(7, demo_file "one"); (8, demo_file "two")].
Definition demo_node_events : list node_event :=
  let v1 := demo_forwarded (7, demo_file "one") (demo_engine "A" "draft" DB.initSchema) in
  let v2 := demo_forwarded (8, demo_file "two") demo_edited in
  [Delivered 8 v2; Internal StateSyncTick; Internal (Scheduled 9 "x" 0); Delivered 9 v2; Delivered 9 v1;
   Internal (Scheduled 10 "y" 0); Internal (Scheduled 11 "z" 0)].

Lemma demo_carries ed a : carries blake3_demo "a.txt" "f1" (demo_forwarded ed a) ed a.
Proof. exists (NewMessage 8 TypeSyncOperation "A" (PGeneric (Json.JString ""))). by split. Qed.

Lemma demo_allowed :
  Forall (node_allowed blake3_demo "/sync/a.txt" "a.txt" "f1" "/sync" demo_edits (demo_engine "A" "draft" DB.initSchema)
            (fs (demo_engine "B" "old" DB.initSchema))) demo_node_events.
Proof.
  unfold demo_node_events. match goal with |- Forall ?p _ => set (ok := p) end.
  assert (∀ now, ok (Delivered now (demo_forwarded (7, demo_file "one") (demo_engine "A" "draft" DB.initSchema)))) as H1.
  { intros now. exists [], (7, demo_file "one"), [(8, demo_file "two")]. split; [done|apply demo_carries]. }
  assert (∀ now, ok (Delivered now (demo_forwarded (8, demo_file "two") demo_edited))) as H2.
  { intros now. exists [(7, demo_file "one")], (8, demo_file "two"), []. split; [done|apply demo_carries]. }
  assert (∀ now rand, rand = "x"%string ∨ rand = "y"%string ∨ rand = "z"%string → stored_time now → ok (Internal (Scheduled now rand 0))) as H3.
  { intros now rand Hrand Hnow. unfold ok. cbn [node_allowed arrival allowed]. destruct Hrand as [->|[->| ->]]; split_and!; first [done|by vm_compute]. }
  assert (ok (Internal StateSyncTick)) as H4 by by split.
  repeat (apply Forall_cons; split); [exact (H2 8)|exact H4|apply H3; [auto|by vm_compute]|exact (H2 9)|exact (H1 9)| | |apply Forall_nil_2];
    apply H3; by auto || vm_compute.
Qed.

Lemma edits_replicated_witness :
  let op := op_of blake3_demo "a.txt" "f1" (8, demo_file "two") demo_edited in
  let j := enc_body (BLogEntry (Messenger.payload_of_op (uncompressed op) (to_bytes "two"))) in
  let ma := demo_sender (edit blake3_demo "/sync/a.txt" (8, demo_file "two") demo_edited) in
  (∃ d rest received f, Net.sent (Messenger.transport (Messenger.BroadcastOperation blake3_demo demo_primitives (λ _, to_bytes "{}") (λ _, Ok j) op ma).2) = d :: rest ∧
    wire (Net.message d) = Ok received ∧
    Messenger.HandleMessage demo_primitives (λ _, Ok j) received (demo_messenger "B" "A") = (Ok (Some f), demo_messenger "B" "A")) ∧
  ∃ b f, Handler.syncEngine (node_run blake3_demo demo_libraries demo_node_events (demo_handler "B" (demo_engine "B" "old" DB.initSchema))) = Some b ∧
    OS.look "/sync/a.txt" (fs b) = Some (OS.File f) ∧ OS.content f = to_bytes "two".
Proof.
  cbv zeta.
  destruct (edits_replicated blake3_demo demo_libraries demo_primitives (λ _, to_bytes "{}")
    (λ _, Ok (enc_body (BLogEntry (Messenger.payload_of_op (uncompressed (op_of blake3_demo "a.txt" "f1" (8, demo_file "two") demo_edited)) (to_bytes "two")))))
    "a.txt" "f1" "/sync" "A" [(7, demo_file "one")] (8, demo_file "two") (demo_engine "A" "draft" DB.initSchema)
    (demo_handler "B" (demo_engine "B" "old" DB.initSchema)) (demo_engine "B" "old" DB.initSchema)) as [Hsend Hrecv].
  - by split.
  - done.
  - repeat constructor; by vm_compute.
  - repeat constructor; done.
  - apply (bool_decide_unpack _); by vm_compute.
  - done.
  - done.
  - apply demo_unknown.
  - by vm_compute.
  - split.
    + destruct (Hsend [(7, demo_file "one")] (8, demo_file "two") [] (demo_sender (edit blake3_demo "/sync/a.txt" (8, demo_file "two") demo_edited))
        (demo_messenger "B" "A") demo_key demo_iv "B" eq_refl (demo_linked _) eq_refl eq_refl ltac:(by vm_compute) ltac:(by vm_compute) eq_refl)
        as (_ & d & rest & received & f & H1 & _ & H2 & H3 & _).
      { split_and!; [by vm_compute|exact (proj2 (map_Forall_singleton (λ _ : string, in64) "A"%string 2) ltac:(by vm_compute))
                    |by vm_compute|by vm_compute|done|done]. }
      exists d, rest, received, f. split; [exact H1|]. split; [exact H2|exact H3].
    + specialize (Hrecv demo_node_events). set (h' := node_run _ _ demo_node_events _) in *.
      assert (tasks <$> Handler.syncEngine h' = Some []) as Ht by by vm_compute.
      destruct (Handler.syncEngine h') as [b|] eqn:Eb; [|done]. injection Ht as Ht.
      destruct (Hrecv b demo_allowed eq_refl Ht) as ((f & Hf & Hc & _) & _).
      * eexists 8, _. split; [by left|apply demo_carries].
      * exists b, f. split; [reflexivity|]. split; [exact Hf|exact Hc].
Defined.
