(* ===== verification/Node.v ===== *)
(** * A node on a TCP connection (tcp.go, messenger.go, handler.go together)

    What [handleConnection] does with one message, with the messenger as the
    transport's handler and the message handler as the messenger's, as main.go
    connects them; and the exchange of messages between two nodes on one
    connection.  The three share one connection manager; each keeps its own log
    of what it sent. *)

From Stdlib Require Import Strings.Byte Strings.String.
From S2P Require Import Prelude GoStrings Json Clock Hashing Database Operation Messages Compression Encryption Connection Transport Engine EngineProps Handler Messenger MessengerProps.

Module Node.

Record t : Type := mk { tcp : TCP.t; messenger : Messenger.t; handler : Handler.t }.

(** The shared connection manager, after one of the three has changed it. *)
Definition share (manager : option ConnectionManager.t) (n : t) : t :=
  match manager with
  | Some cm =>
      mk (TCP.mk (TCP.localPeerID (tcp n)) (Some cm) (TCP.connections (tcp n)))
        (Messenger.with_connManager cm (messenger n)) (Handler.with_connManager (Some cm) (handler n))
  | None => n
  end.

Section Node.
Context (blake3 sha256 : bytes → bytes) (P : primitives) (L : libraries).
Context (json_value : bytes → outcome json).

(** [t.handler.HandleMessage]: the messenger, and the handler behind it. *)
Definition receive (now : time) (msg : Message.t) (n : t) : outcome unit * t :=
  match Messenger.HandleMessage P json_value msg (messenger n) with
  | (Ok (Some forwarded), m) =>
      let '(r, h) := Handler.HandleMessage blake3 L now forwarded (handler n) in
      (r, share (Handler.connManager h) (mk (tcp n) m h))
  | (Ok None, m) => (Ok tt, mk (tcp n) m (handler n))
  | (Err e, m) => (Err e, mk (tcp n) m (handler n))
  | (Panic w, m) => (Panic w, mk (tcp n) m (handler n))
  end.

(** One round of [handleConnection]: the message written back, if any. *)
Definition serve (now : time) (msg : Message.t) (c : TCP.conn) (n : t) : option Message.t * TCP.conn * t :=
  let '(act, c, tcp') := TCP.on_message P sha256 now msg c (tcp n) in
  let n := share (TCP.connManager tcp') (mk tcp' (messenger n) (handler n)) in
  match act with
  | TCP.Reply r => (Some r, c, n)
  | TCP.Ignore => (None, c, n)
  | TCP.ToHandler msg => let '(r, n) := receive now msg n in (TCP.answer now msg r, c, n)
  end.

(** The messages that go back and forth on one connection, one at each of the
    given times, after [msg] was written towards the second node. *)
Fixpoint exchange (times : list time) (msg : Message.t) (a b : TCP.conn * t) : list Message.t :=
  match times with
  | [] => []
  | now :: rest =>
      match wire msg with
      | Ok msg =>
          let '(reply, c, n) := serve now msg b.1 b.2 in
          match reply with
          | Some r => r :: exchange rest r (c, n) a
          | None => []
          end
      | _ => []
      end
  end.

(** ** Nobody is connected under the empty identifier *)

Definition unnamed (cm : ConnectionManager.t) : Prop := ConnectionManager.connections cm !! ""%string = None.

Definition no_anonymous (n : t) : Prop :=
  (∀ cm, TCP.connManager (tcp n) = Some cm → unnamed cm) ∧ unnamed (Messenger.connManager (messenger n)) ∧
  (∀ cm, Handler.connManager (handler n) = Some cm → unnamed cm).

Lemma share_no_anonymous manager n :
  no_anonymous n → (∀ cm, manager = Some cm → unnamed cm) → no_anonymous (share manager n).
Proof. intros (H1 & H2 & H3) H. destruct manager as [cm|]; [|by split]. specialize (H cm eq_refl). split_and!; naive_solver. Qed.

Lemma register_unnamed now peer host port number key s cm :
  peer ≠ ""%string → (∀ cm, TCP.connManager s = Some cm → unnamed cm) →
  TCP.connManager (TCP.register now peer host port number key s) = Some cm → unnamed cm.
Proof.
  intros Hp Hs. unfold TCP.register. cbn [TCP.connManager].
  destruct (TCP.connManager s) as [cm0|]; [|done]. intros [= <-]. specialize (Hs cm0 eq_refl). unfold unnamed in *.
  assert (∀ st cm1, ConnectionManager.connections cm1 !! ""%string = None →
    ConnectionManager.connections (ConnectionManager.UpdateConnectionState now peer st cm1).2 !! ""%string = None) as H1.
  { intros st cm1 H. unfold ConnectionManager.UpdateConnectionState. destruct (_ !! peer); [|done].
    repeat case_decide; cbn; by rewrite lookup_insert_ne. }
  assert (∀ k cm1, ConnectionManager.connections cm1 !! ""%string = None →
    ConnectionManager.connections (ConnectionManager.SetSessionKey peer k cm1).2 !! ""%string = None) as H2.
  { intros k cm1 H. unfold ConnectionManager.SetSessionKey. destruct (_ !! peer); [|done]. cbn. by rewrite lookup_insert_ne. }
  destruct key; [apply H2|]; apply H1; cbn; by rewrite lookup_insert_ne.
Qed.

(** ** What the handler does to the connection table: heartbeats only *)

Definition quiet {A} (m : GoM Handler.t A) : Prop := ∀ h, Handler.connManager (m h).2 = Handler.connManager h.

Lemma quiet_bind {A B} (m : GoM Handler.t A) (k : A → GoM Handler.t B) :
  quiet m → (∀ a, quiet (k a)) → quiet (m ≫= k).
Proof.
  intros Hm Hk h. unfold mbind, gom_bind. specialize (Hm h). destruct (m h) as [[a|e|w] h']; [|done..].
  by rewrite Hk.
Qed.
Lemma quiet_result {A} (r : outcome A) : quiet (glift r).
Proof. done. Qed.
Lemma quiet_try {A} (m : GoM Handler.t A) : quiet m → quiet (gtry m).
Proof. intros Hm h. specialize (Hm h). unfold gtry. by destruct (m h) as [[a|e|w] h']. Qed.
Lemma quiet_on_engine {A} (m : GoM Engine.t A) : quiet (Handler.on_engine m).
Proof. intros h. unfold Handler.on_engine. destruct (Handler.syncEngine h) as [e|]; [|done]. by destruct (m e). Qed.
Lemma quiet_ack now msg ok e : quiet (Handler.sendAcknowledgment now msg ok e).
Proof. intros h. apply sendAcknowledgment_quiet. Qed.
Lemma quiet_reject {A} now msg ctx (m : GoM Handler.t A) k :
  quiet m → (∀ a, quiet (k a)) → quiet (Handler.or_reject now msg ctx m k).
Proof.
  intros Hm Hk. apply quiet_bind; [by apply quiet_try|]. intros [a|e]; [apply Hk|apply quiet_ack].
Qed.
Hint Resolve quiet_bind quiet_result quiet_try quiet_on_engine quiet_ack quiet_reject : go.

Lemma quiet_handleSyncOperation now msg : quiet (Handler.handleSyncOperation L now msg).
Proof.
  unfold Handler.handleSyncOperation. destruct (Message.Payload msg) as [| |[]]; try done. apply quiet_bind; [done|]. intros op.
  repeat case_decide; auto with go.
  - destruct (LogEntryPayload.Data _); [by apply quiet_bind; auto with go|]. apply quiet_reject; [done|].
    intros d h. destruct (Handler.syncEngine h); [|apply quiet_ack]. apply quiet_reject; auto with go.
  - apply quiet_reject; [|auto with go]. intros h. destruct (Handler.syncEngine h), (SyncOperation.FromPath op); try done;
      apply quiet_on_engine.
Qed.

Lemma quiet_handleChunk now msg : quiet (Handler.handleChunk blake3 L now msg).
Proof.
  unfold Handler.handleChunk. destruct (Message.Payload msg) as [| |[]]; try done.
  apply quiet_reject; [done|]. intros _ h. apply quiet_bind; [done|]. intros _.
  destruct (_ =? _); [|apply quiet_ack]. apply quiet_reject; [done|]. intros d h1.
  apply quiet_bind; [done|]. intros _. apply quiet_reject; [done|]. intros fd. apply quiet_reject; auto with go.
Qed.

Lemma handler_unnamed now msg h cm :
  (∀ cm, Handler.connManager h = Some cm → unnamed cm) →
  Handler.connManager (Handler.HandleMessage blake3 L now msg h).2 = Some cm → unnamed cm.
Proof.
  intros Hh. assert (∀ (m : GoM Handler.t unit), quiet m → Handler.connManager (m h).2 = Some cm → unnamed cm) as Hq.
  { intros m Hm. rewrite Hm. apply Hh. }
  unfold Handler.HandleMessage. repeat case_decide; try (by apply Hq); try (apply Hq; apply quiet_ack).
  - apply Hq. intros h'. unfold Handler.handleStateDeclaration. destruct (Handler.syncEngine h'); [done|apply quiet_ack].
  - apply Hq, quiet_handleSyncOperation.
  - apply Hq, quiet_handleChunk.
  - unfold Handler.handleHeartbeat. destruct (Handler.heartbeatManager h); [|apply Hh]. cbn.
    destruct (Handler.connManager h) as [cm0|]; [|done]. intros [= <-]. specialize (Hh cm0 eq_refl).
    unfold HeartbeatManager.HandleHeartbeatResponse, ConnectionManager.UpdateHeartbeat.
    destruct (_ !! Message.SenderID msg) eqn:E; [|done]. unfold unnamed in *. cbn.
    rewrite lookup_insert_ne; [done|]. intros Hne. rewrite Hne in E. congruence.
Qed.

Lemma receive_no_anonymous now msg n : no_anonymous n → no_anonymous (receive now msg n).2.
Proof.
  intros (H1 & H2 & H3). unfold receive.
  pose proof (HandleMessage_connManager P json_value msg (messenger n)) as Hm.
  destruct (Messenger.HandleMessage _ _ _ _) as [[[f|]|e|w] m]; cbn in Hm; try (by split_and!; cbn; [|rewrite Hm|]).
  pose proof (handler_unnamed now f (handler n)) as Hh. destruct (Handler.HandleMessage _ _ _ _ _) as [r h].
  apply share_no_anonymous; [|intros cm; by apply Hh]. split_and!; cbn; [done|by rewrite Hm|intros cm; by apply Hh].
Qed.

(** Every message but a handshake is served without anybody being connected
    under the empty identifier. *)
Lemma serve_no_anonymous now msg c n :
  Message.Type_ msg ≠ TypeHandshake → no_anonymous n → no_anonymous (serve now msg c n).2.
Proof.
  intros Hty Hn. unfold serve, TCP.on_message. rewrite (bool_decide_eq_false_2 (Message.Type_ msg = _)) by done.
  assert (∀ tcp', (∀ cm, TCP.connManager tcp' = Some cm → unnamed cm) →
    no_anonymous (share (TCP.connManager tcp') (mk tcp' (messenger n) (handler n)))) as Hshare.
  { intros tcp' H. destruct Hn as (_ & H2 & H3). by apply share_no_anonymous. }
  destruct (_ && _) eqn:E.
  - apply andb_true_iff in E as [_ E].
    match goal with |- context [receive now msg ?x] => pose proof (receive_no_anonymous now msg x) as H; destruct (receive now msg x) end.
    apply H, Hshare. intros cm. apply register_unnamed; [|apply Hn]. intros Hs. by rewrite Hs in E.
  - cbn [andb]. match goal with |- context [receive now msg ?x] => pose proof (receive_no_anonymous now msg x) as H; destruct (receive now msg x) end.
    apply H, Hshare, Hn.
Qed.

(** ** Acknowledgments are acknowledged *)

(** An acknowledgment of the transport: nobody's. *)
Definition transport_ack (m : Message.t) : Prop :=
  Message.Type_ m = TypeOperationAck ∧ Message.SenderID m = ""%string.

Lemma answer_ack now msg r reply : TCP.answer now msg r = Some reply →
  transport_ack reply ∧ Message.CorrelationID reply = Some (Message.ID msg) ∧ Message.Timestamp reply = unix_milli now ∧
  ∃ a, Message.Payload reply = PValue (BOperationAck a).
Proof. destruct r; intros [= <-]; (split; [done|]); (split; [done|]); (split; [done|]); by eexists. Qed.

Lemma serve_answer now msg c n reply :
  Message.Type_ msg ≠ TypeHandshake → (serve now msg c n).1.1 = Some reply → ∃ r, TCP.answer now msg r = Some reply.
Proof.
  intros Hty. unfold serve, TCP.on_message. rewrite (bool_decide_eq_false_2 (Message.Type_ msg = _)) by done.
  destruct (_ && _); cbn [andb]; destruct (receive _ _ _) as [r ?]; by exists r.
Qed.

(** The other side knows no peer of the empty identifier, and says so. *)
Lemma serve_transport_ack now msg c n :
  transport_ack msg → no_anonymous n → ∃ reply, (serve now msg c n).1.1 = Some reply ∧
    TCP.answer now msg (Err "unknown sender") = Some reply.
Proof.
  intros [Hty Hs] Hn. unfold serve, TCP.on_message. rewrite Hty, Hs. cbn [is_empty negb andb].
  rewrite andb_false_r. cbn [andb]. rewrite (bool_decide_eq_false_2 (_ = TypeHandshake)) by done. cbn [andb].
  unfold receive, Messenger.HandleMessage. rewrite Hs. unfold ConnectionManager.GetConnection.
  assert (unnamed (Messenger.connManager (messenger
    (share (TCP.connManager (tcp n)) (mk (tcp n) (messenger n) (handler n)))))) as Hu.
  { apply share_no_anonymous; [|apply Hn]. by destruct n. }
  unfold unnamed in Hu. rewrite Hu. by eexists.
Qed.

Lemma exchange_of_acks times msg a b :
  Forall (λ now, in64 (unix_milli now)) times → transport_ack msg → in64 (Message.Timestamp msg) →
  (∃ x, Message.Payload msg = PValue (BOperationAck x)) → no_anonymous a.2 → no_anonymous b.2 →
  length (exchange times msg a b) = length times ∧ Forall transport_ack (exchange times msg a b).
Proof.
  intros Hts. revert msg a b. induction Hts as [|now times Hnow _ IH]; intros msg a b Hm Ht [x Hp] Ha Hb; [done|].
  cbn [exchange]. rewrite (wire_message msg (enc_body (BOperationAck x))) by (by rewrite ?Hp).
  set (msg' := Messenger.with_payload _ msg). assert (transport_ack msg') as Hm' by exact Hm.
  destruct (serve_transport_ack now msg' b.1 b.2 Hm' Hb) as (reply & Hr & Hans).
  apply answer_ack in Hans as (Hack & _ & Hts' & Hpay).
  pose proof (serve_no_anonymous now msg' b.1 b.2 ltac:(by rewrite (proj1 Hm')) Hb) as Hn.
  destruct (serve now msg' b.1 b.2) as [[r c] n]. cbn in Hr, Hn. subst r.
  destruct (IH reply (c, n) a) as [Hl Hall]; [done|by rewrite Hts'|done..|]. cbn. split; [by rewrite Hl|by constructor].
Qed.
End Node.

(** Acknowledgments never stop.  The transport answers every message its
    handler has dealt with, acknowledgments included, in the name of nobody; the
    other side knows no such peer, and answers that.  So when one message that is
    no handshake has been answered on a TCP connection, the two ends send each
    other acknowledgments of acknowledgments for ever: however many times
    [times] lists, there is one at each of them. *)
Theorem acknowledgments_never_stop blake3 sha256 P L jv now msg c n reply times a :
  Message.Type_ msg ≠ TypeHandshake → no_anonymous n → no_anonymous a.2 →
  Forall (λ t, in64 (unix_milli t)) (now :: times) →
  (serve blake3 sha256 P L jv now msg c n).1.1 = Some reply →
  let '(_, c', n') := serve blake3 sha256 P L jv now msg c n in
  transport_ack reply ∧ Message.CorrelationID reply = Some (Message.ID msg) ∧
  let traffic := exchange blake3 sha256 P L jv times reply (c', n') a in
  length traffic = length times ∧ Forall transport_ack traffic.
Proof.
  intros Hty Hn Ha Hts Hr. apply Forall_cons in Hts as [Hnow Hts].
  pose proof (serve_no_anonymous blake3 sha256 P L jv now msg c n Hty Hn) as Hn'.
  pose proof (serve_answer blake3 sha256 P L jv now msg c n reply Hty Hr) as [r Hans].
  apply answer_ack in Hans as (Hack & Hcor & Ht & Hpay).
  destruct (serve blake3 sha256 P L jv now msg c n) as [[r' c'] n']. split_and!; try apply Hack; [done|].
  apply exchange_of_acks; try done. by rewrite Ht.
Qed.

(** ** The exchange at two concrete nodes *)

Definition demo_node (self peer : string) (e : Engine.t) : t :=
  let cm := ConnectionManager.mk {[peer := demo_connection peer]} [] in
  mk (TCP.mk self (Some cm) {[peer := 1%nat]}) (demo_messenger self peer)
    (Handler.with_connManager (Some cm) (demo_handler self e)).

Definition demo_conn (peer : string) : TCP.conn := TCP.Conn 1 "10.0.0.2" 4000 peer true.

Lemma demo_no_anonymous self peer e : peer ≠ ""%string → no_anonymous (demo_node self peer e).
Proof. intros H. split_and!; cbn; intros; simplify_eq; unfold unnamed; cbn; by rewrite lookup_singleton_ne. Qed.

(** A heartbeat is answered, and the answer answered, a hundred times. *)
Lemma acknowledgments_never_stop_witness :
  let e self := demo_engine self "old" DB.initSchema in
  let heartbeat := NewMessage 7 TypeHeartbeat "A" (PGeneric JNull) in
  let '(reply, c, n) := serve blake3_demo blake3_demo demo_primitives demo_libraries (λ _, Err "never"%string) 8 heartbeat
                          (demo_conn "A") (demo_node "B" "A" (e "B"%string)) in
  ∃ r, reply = Some r ∧
    length (exchange blake3_demo blake3_demo demo_primitives demo_libraries (λ _, Err "never"%string) (replicate 100 9) r
      (c, n) (demo_conn "B", demo_node "A" "B" (e "A"%string))) = 100%nat.
Proof.
  cbv zeta.
  pose proof (acknowledgments_never_stop blake3_demo blake3_demo demo_primitives demo_libraries (λ _, Err "never"%string) 8
    (NewMessage 7 TypeHeartbeat "A" (PGeneric JNull)) (demo_conn "A")
    (demo_node "B" "A" (demo_engine "B" "old" DB.initSchema))
    (default (NewMessage 7 TypeHeartbeat "A" (PGeneric JNull)) (TCP.answer 8 (NewMessage 7 TypeHeartbeat "A" (PGeneric JNull)) (Ok tt)))
    (replicate 100 9) (demo_conn "B", demo_node "A" "B" (demo_engine "A" "old" DB.initSchema))
    ltac:(by intros H; vm_compute in H) (demo_no_anonymous "B" "A" _ ltac:(discriminate)) (demo_no_anonymous "A" "B" _ ltac:(discriminate))
    ltac:(apply Forall_cons; split; [|apply Forall_replicate]; by vm_compute) eq_refl) as H.
  match goal with |- context [serve ?a ?b ?c ?d ?e ?f ?g ?h ?i] =>
    assert ((serve a b c d e f g h i).1.1 = TCP.answer 8 g (Ok tt)) as Hr by reflexivity;
    destruct (serve a b c d e f g h i) as [[reply c'] n'] end.
  cbn [fst] in Hr. subst reply. eexists. split; [reflexivity|]. apply H.
Defined.
End Node.

